(* ===== verification/_CoqProject ===== *)
-Q . S2P
Prelude.v
GoFloat.v
GoAny.v
GoTime.v
Regexp.v
Decision.v
Document.v
Condition.v
CompileQuestion.v
CompileCondition.v
Canonical.v
Compile.v
WellFormed.v
Fixtures.v
CompileSound.v
Evaluate.v
EvalSound.v
GoJson.v
CanonicalSound.v
PolicyTheorems.v
NetUrl.v
NetUrlSpec.v
Store.v
JsonStruct.v
JsonStructSpec.v
OapiClient.v
Effects.v
Loader.v
Policies.v
Secrets.v
EvalConvert.v
Evaluations.v
MemStore.v
Repositories.v
RepositoriesSpec.v
RepositoriesTheorems.v
EvalFrames.v
EvalSpec.v
CreateSpec.v
Retention.v
RetentionSpec.v
ServiceSpec.v
HttpServer.v
ApiJson.v
ApiJsonSpec.v
HttpRouter.v
ApiClient.v
ApiServer.v
ServiceFixtures.v
EvaluationTheorems.v
LoaderTheorems.v
ServiceGraph.v
ServiceGraphSpec.v
ServiceRun.v
ServiceRunSpec.v
ServiceShutdown.v
ServiceTheorems.v
TypesafeApi.v
Typesafe.v
TypesafeClient.v
TypesafeSpec.v
TypesafeWire.v
TypesafeTheorems.v
HttpTheorems.v
ListenerTheorems.v
ClientTheorems.v
ApiDocument.v
DocumentTheorems.v
Mcp.v
McpTheorems.v
Metrics.v
Config.v
Connect.v
Wiring.v
WiringTheorems.v
ServerRun.v
ServerTheorems.v
AppRun.v
RunnerRun.v
AppTheorems.v
