(* ===== verification/Prelude.v ===== *)
(** * Vibecheck: a verification library

    Vibecheck is a Go service that judges a piece of state against a versioned policy: a
    policy declares questions, a decision provider (TypeSafe) answers them, and rules turn
    the caller's facts and those answers into one declared outcome, which is stored with an
    audit row.  This library models the implementation, file by file, and proves what makes
    it correct.  Definitions keep the Go names; all paths below are relative to [src/], and
    [internal/pkg/] is left out where it is clear.

    ** The parts and how they interact

    Policies.  [policy/] decodes a document, compiles it once, hashes its canonical form and
    evaluates it.  [Decision] ([common/decision/decision.go]) has the vocabulary: grammars,
    outcomes, question and fact types, dynamic numbers, answers.  [Document]
    ([policy/document.go], [compiled.go]) has the source and the compiled data;
    [CompileQuestion], [CompileCondition] and [Compile] ([question_value.go],
    [compile_condition.go], [compile.go]) the compiler with every error branch; [Canonical]
    and the Module [Sha256] of [GoAny] ([hash.go]) the projection, its JSON text and the hash; [Condition]
    ([condition.go]) the evaluation of conditions and the facts contract; [Evaluate]
    ([evaluate.go]) both rule phases and the provider contract; [Loader] ([loader.go]) the
    parser, the policy set and the directory scan.

    The standard library, as far as the program uses it: [GoFloat] binary64 numbers, [GoAny]
    and [GoJson] [any] values with JSON trees, texts and their reader (its Module [JsonText] proves that
    the reader inverts the writer), [GoTime] RFC 3339 times, [Regexp] anchored regular
    expressions, [NetUrl] percent encoding, query strings, reference resolution, path
    cleaning and the matching of [http.ServeMux] ([NetUrlSpec] has what holds of it).

    Evaluations.  [Policies] ([core/policies/]) looks policies up and projects them; [EvalConvert]
    and [Evaluations] ([core/evaluations/]) are the pipeline: resolve the policy, check the
    request, replay an idempotency key, write the snapshot, apply the pre-rules, ask the
    provider once, check its answers, decide, seal the input and write the row with its key
    in one transaction; reads, listing and feedback.  [Store] has the rows of
    [db/models/models.go] and the interface of the repositories, [Repositories]
    ([db/repositories/]) the generated code behind that interface: columns, data objects,
    [Query] with its clones and transactions, and the chains the services write; [Effects] the monad the
    service methods run in (the world, a trace of the calls that leave the service, Go's
    error results) and the provider boundary of [provider/], [Secrets] ([secrets/]) the
    sealing of retained input, [Retention] ([services/vibecheck-server/retention.go]) the
    cleanup pass.

    The provider.  [TypesafeApi] ([pkg/gotypesafe/api.gen.go]) has the provider's JSON types,
    whose unions keep the raw message, and the generated client; its Module
    [TypesafeUnions] has what the adapter does not call (building and merging unions, over
    the vendored merger in [JsonMerge], and the client that parses its responses), and
    [TypesafeWire] proves that what it builds is what the adapter reads; [Typesafe] and
    [TypesafeClient] ([pkg/gotypesafe/], [provider/typesafe/]) build requests, normalize
    answers, classify failures and retry.  [JsonStruct] has [encoding/json] on tagged structs
    and [OapiClient] what the two generated clients share.

    Transports.  [HttpServer] (with its Module [HttpErrors]) and [HttpRouter] ([http/server/]) are the error
    table, the REST handlers and the middlewares.  [ApiJson] has the codecs of the types of
    [http/api/api.gen.go], and [ApiServer] the rest of that file: binding, the strict handlers, the response
    objects and the registration.  Its Module [Listener]
    ([Router.Handler]) puts them on one mux.
    [ApiClient] ([pkg/http/api/client/client.gen.go]) is the generated client: its own types
    (Module [ClientTypes]), how a call becomes a request and how a response is read.  [ApiDocument] is the OpenAPI document that
    [api.gen.go] embeds, with the readers of [encoding/base64] and [compress/flate].  [Mcp] ([mcp/mcp.go]) is the tools over the
    same services.

    The process.  [Config] ([config/config.go]) is the configuration and its validation,
    [Connect] ([db/db.go]) the opening of the database, [Wiring] and [ServerRun]
    ([services/vibecheck-server/]) the build of a deployment and the running service,
    [ServiceGraph] and [ServiceRun] ([service-manager/]) the start order and the goroutines of
    the service manager, [AppRun] ([internal/app/app.go]) and [RunnerRun]
    ([pkg/runner/runner.go]) the application and the process around it, [Metrics]
    ([metrics/metrics.go]) the instruments.

    The parts meet in the theorems: [RepositoriesTheorems] discharges the database interface
    ([DatabaseLaws]) that every theorem about the services assumes; [Wiring] shows that what a validated configuration builds
    satisfies the hypotheses ([service_ok], [keyed_sealer]) the evaluation theorems have, the
    policy theorems are what makes [service_ok] enough, [TypesafeTheorems] sends what the
    compiler accepts, [HttpTheorems] and [McpTheorems] run the service methods themselves,
    [ListenerTheorems] carries a request from the mux to those methods and [ClientTheorems] a
    call of the client over the listener and its reply back.

    ** How code is modelled

    Integers are [Z]; where the code can wrap, the wrap is written ([wrap64]).  Numbers are
    [SpecFloat] binary64 (and binary32 for the generated answer types).  Strings are byte
    strings.  Maps are [gmap]s where the order of iteration does not show, lists where it
    does; where Go ranges over a map and the order could show, the order is an argument and
    the theorem holds for every order.  A pointer or a nilable map is an [option].  An error
    is the sentinel [errors.Is] finds ([goerr]); wrapping text and log lines are left out.
    Sequential code is a function in an error monad ([res]) or in [Effects.M]; goroutines are
    step relations ([ServiceRun], [ServerRun], [AppRun], [RunnerRun]) with the services' own
    code, signals, timers and callers as steps of an environment.  Requests and cleanup
    passes run one after the other in the theorems about stored rows; what an overlap can do
    is [EvaluationTheorems.feedback_races_cleanup].  The one panic a request can run into, a
    counter that is asked to go down, is a run whose trace asks for it ([Effects.panicked]):
    it passes the handlers and ends in the recovery middleware.

    Code outside the repository is a parameter, with the behaviour it documents as laws, each
    with an instance that meets them: [YamlDecoder], [FileSystem], [Gen] and
    [GenExec] with [GenLaws] (gorm.io/gen over SQL; the Module [MemGen] is an in-memory
    library that satisfies every law), [ProviderPort] and [Runtime] with [OutsideLaws],
    [AEADConstruction] with [AEADLaws], [Transport], [HttpOutside] (uuid and the token
    buckets), [ParamRuntime] with [ParamRuntimeLaws] and [ParamRuntimeLocal], and [StyleRuntime] with [StyleLaws] (the
    parameter binding and styling of the oapi-codegen runtime), [UuidText], [ErrorText] (the
    text of an error), [UuidParser], [SchemaDeriver], [McpSdk], [Gonfiguration] with
    [GonfigurationLaws], [OpenapiLoader], and [DriverOracle], which lets any call on the database driver fail
    after any history.  The Module [HttpFixtures] of [ServiceFixtures] has the instances the transport theorems run on.
    [Database] with [DatabaseLaws] is the interface between the services and the
    repositories; besides the repositories, [MemStore] is an in-memory instance of it with a
    plan of faults.

    ** What is shown

    [PolicyTheorems]: a policy that compiles is well-formed, decides as its source reads, is
    identified by its canonical text (absent and empty noul criteria apart), and never
    compares values of two types; the facts and
    the answers checks accept exactly what meets the contracts; the first matching rule wins.
    [EvaluationTheorems]: [Create] refines its contract (replay, or decide once and write
    once, or leave evaluations and keys alone); stored rows are consistent and never rewritten
    in any sequential history; the provider is called at most once; idempotency; reading back what was
    created; sealing; exact paging; feedback; cleanup.
    [RepositoriesTheorems]: the generated repositories are a database in that sense
    ([RepositoriesSpec] has the laws of the library and the session that holds the query in
    use); their type assertions hold; the columns they name are those of the models; a page
    comes with the number of rows over all pages.
    [LoaderTheorems]: a directory loads all or nothing, and the set is exactly its files, listed
    by name and version.
    [TypesafeTheorems]: the retry loop is bounded in attempts and in waiting; every compiled
    policy is sent as the request the provider's schema reads as that policy; a reply is read
    as the answers that the provider encoded ([TypesafeWire]).
    [HttpTheorems] and [McpTheorems]: 201 only for a completed evaluation, a recorded failure
    named in its reply, and MCP calls with the same effect as the REST requests that carry
    the same UUID as their key.
    [ListenerTheorems]: a request on a REST path is the operation its parameters and body
    spell, behind the gate of the middlewares, with a reply that its operation declares, or
    the 500 of a panic.
    [ClientTheorems]: what the client sends for a call is served as that call, and what it
    reads back is what the server answered; [JsonText], [JsonStructSpec], [ApiJsonSpec] and
    [NetUrlSpec] have the round trips these rest on.
    [DocumentTheorems]: the embedded document declares exactly the operations, parameters,
    replies and enumerations of the server, and what is stored and loaded is written as it
    declares, failed evaluations excepted.
    [WiringTheorems]: the deployment that a validated configuration builds, with every limit
    as configured and one pair of services behind both transports, and what a failed start
    leaves open.
    [ServiceTheorems], [ServerTheorems] and [AppTheorems]: start order, readiness before
    dependants, first failure reported, stop in reverse, the order of the drain, no send on a
    closed channel, and that every shutdown ends within a measure of the work left.

    The lemmas behind them are in the files named [...Spec], [...Sound], [WellFormed],
    [EvalFrames] and [ServiceShutdown]; [Fixtures] and [ServiceFixtures] hold the concrete
    policy, request and world on which definitions are run.

    ** Fuel

    Four kinds of definition recurse on fuel.  [ServiceGraph.topoLoop] gets one more than the
    number of services, and each round removes one; that the order is found unless there is a
    cycle is a theorem.  [TypesafeClient.retryLoop] gets [MaxAttempts], the bound of the Go
    loop.  The text scanners of [GoJson] and [GoAny] get the length of their input, which every
    step shortens.  The shortest decimal of a float ([GoFloat]) needs at most seventeen digits
    and gets twenty.  Loops without a bound of their own (the retention ticker, the selects)
    are steps of a relation instead.

    ** Not modelled

    Of [db/repositories/] the methods that are promoted from the library unchanged (the
    updates, [Pluck], [Row], [Rows], [Scan]), and the data objects of three tables, which
    repeat those of the evaluations; of the generated clients [WithBaseURL], of
    [http/api/api.gen.go] the constructors that fill in default error hooks, none of which
    the program calls; YAML, SQL, MCP wire
    formats, the bytes of HTTP on a connection, AES-GCM and Prometheus, which are libraries;
    log lines and durations in metrics; the token bucket's arithmetic; sockets and the
    commands of the binary; tests and mocks.

    This file holds what the others share: errors, the result monad, and lemmas on lists,
    options, strings and maps, with the hints and tactics that use them. *)

From Stdlib Require Export ZArith Lia.
From Stdlib Require String Ascii.
From stdpp Require Export base list gmap strings sorting option.
From stdpp Require Import options.

#[global] Set Default Proof Using "Type".

(** ** Errors

    A Go error is the sentinel found at the end of its wrap chain.  The only
    wrapping functions the program uses are [ctxerrors.Wrap] and
    [ctxerrors.Wrapf], which prepend text and keep the chain, so wrapping is the
    identity here, and [errors.Join], which keeps every chain. *)
Inductive sentinel : Set :=
  (* internal/pkg/policy/errors.go *)
  | ErrUnsupportedAPIVersion | ErrUnsupportedKind | ErrInvalidDocument
  | ErrInvalidMetadata | ErrInvalidOutcome | ErrInvalidQuestion
  | ErrInvalidFact | ErrInvalidRule | ErrInvalidCondition | ErrTypeMismatch
  | ErrUnknownReference | ErrPolicyTooLarge | ErrDuplicatePolicy
  | ErrUnsafePolicyPath | ErrProviderProtocol
  (* internal/pkg/core/evaluations/errors.go *)
  | ErrInlinePoliciesDisabled | ErrPolicySelection | ErrIdempotencyConflict
  (* internal/pkg/provider/errors.go *)
  | ErrResponseTooLarge | ErrOverloaded
  (* commerr *)
  | ErrNotFound | ErrValidationFailed | ErrInvalidArgument | ErrMarshalFailed
  | ErrParseFailed | ErrNotAuthenticated | ErrPermissionDenied
  | ErrRequiredConfigValueNotSet | ErrRateLimited | ErrTimeout | ErrUnavailable
  | ErrConnectFailed | ErrFetchFailed | ErrInvalidValue
  (* the standard library and gorm *)
  | ContextCanceled | ContextDeadlineExceeded | GormRecordNotFound.

#[export] Instance sentinel_eq_dec : EqDecision sentinel.
Proof. solve_decision. Defined.

Inductive goerr : Set :=
  | EIs (s : sentinel)          (** a chain that ends in [s] *)
  | EForeign (tag : string)     (** a chain that ends in an error of other code *)
  | EJoin (e1 e2 : goerr).      (** [errors.Join e1 e2] of two non-nil errors *)

(** [errors.Is] *)
Fixpoint errors_Is (e : goerr) (s : sentinel) : bool :=
  match e with
  | EIs s' => bool_decide (s' = s)
  | EForeign _ => false
  | EJoin e1 e2 => errors_Is e1 s || errors_Is e2 s
  end.

(** ** The error monad of functions that return [(T, error)] *)
Inductive res (A : Type) : Type :=
  | Ok (a : A)
  | Err (e : goerr).
Arguments Ok {A} a.
Arguments Err {A} e.

#[export] Instance res_ret : MRet res := λ A, Ok.
#[export] Instance res_bind : MBind res := λ A B f m,
  match m with Ok a => f a | Err e => Err e end.

Definition is_ok {A} (r : res A) : bool :=
  match r with Ok _ => true | Err _ => false end.

(** [if cond { return err }] *)
Definition guard_err (bad : bool) (s : sentinel) : res unit :=
  if bad then Err (EIs s) else Ok tt.

(** [for _, x := range xs { y, err := f(x); if err ... ; ys = append(ys, y) }] *)
Definition res_mapM {A B} (f : A → res B) : list A → res (list B) :=
  fix go l :=
    match l with
    | [] => Ok []
    | x :: l' => y ← f x; ys ← go l'; Ok (y :: ys)
    end.

(** [for _, x := range xs { s, err = f(s, x) ... }] *)
Definition res_foldM {A S} (f : S → A → res S) : S → list A → res S :=
  fix go s l :=
    match l with
    | [] => Ok s
    | x :: l' => s' ← f s x; go s' l'
    end.

(** [for _, x := range xs { if err := f(x); err != nil { return err } }] *)
Definition res_forM {A} (f : A → res unit) : list A → res unit :=
  fix go l :=
    match l with
    | [] => Ok tt
    | x :: l' => f x ;; go l'
    end.

(** *** Lemmas on the monad *)
Lemma bind_Ok {A B} (f : A → res B) (m : res A) b :
  (m ≫= f) = Ok b ↔ ∃ a, m = Ok a ∧ f a = Ok b.
Proof. destruct m; simpl; split; naive_solver. Qed.

Lemma seq_Ok {B} (m : res unit) (k : res B) b :
  (m ;; k) = Ok b ↔ m = Ok tt ∧ k = Ok b.
Proof. destruct m as [[]|]; simpl; naive_solver. Qed.

Lemma bind_Err {A B} (f : A → res B) (m : res A) e :
  (m ≫= f) = Err e ↔ m = Err e ∨ ∃ a, m = Ok a ∧ f a = Err e.
Proof. destruct m; naive_solver. Qed.

Lemma guard_err_Ok bad s u : guard_err bad s = Ok u ↔ bad = false.
Proof. destruct bad, u; naive_solver. Qed.

Lemma guard_err_Err bad s e : guard_err bad s = Err e ↔ bad = true ∧ e = EIs s.
Proof. destruct bad; naive_solver. Qed.

Lemma res_mapM_Ok {A B} (f : A → res B) l k :
  res_mapM f l = Ok k ↔ Forall2 (λ x y, f x = Ok y) l k.
Proof.
  revert k; induction l as [|x l IH]; intros k; simpl.
  - split; [intros [= <-]; constructor | by inversion 1].
  - rewrite bind_Ok. split.
    + intros (y & Hy & (ys & Hys & [= <-])%bind_Ok).
      constructor; [done | by apply IH].
    + inversion 1 as [|? y ? ys Hy Hys]; subst.
      exists y. split; [done|]. rewrite bind_Ok. exists ys. by rewrite IH.
Qed.

Lemma res_mapM_Err {A B} (f : A → res B) l e :
  res_mapM f l = Err e → ∃ x, x ∈ l ∧ f x = Err e.
Proof.
  induction l as [|x l IH]; simpl; [done|].
  intros [?|(y & _ & [(z&?&?)%IH|(?&?&?)]%bind_Err)]%bind_Err; try done.
  - exists x; split; [left|done].
  - exists z; split; [by right|done].
Qed.

Lemma res_forM_ext {A} (f g : A → res unit) l : (∀ x, f x = g x) → res_forM f l = res_forM g l.
Proof. intros Hfg. induction l as [|x l IH]; simpl; [done|]. by rewrite Hfg, IH. Qed.

Lemma res_forM_Ok {A} (f : A → res unit) l u :
  res_forM f l = Ok u ↔ Forall (λ x, f x = Ok tt) l.
Proof.
  destruct u. induction l as [|x l IH]; simpl.
  - split; [constructor|done].
  - rewrite bind_Ok, Forall_cons_iff, <- IH. split.
    + intros ([] & ? & ?); done.
    + intros [??]. by exists tt.
Qed.

Lemma res_forM_Err {A} (f : A → res unit) l e :
  res_forM f l = Err e → ∃ x, x ∈ l ∧ f x = Err e.
Proof.
  induction l as [|x l IH]; simpl; [done|].
  intros [?|(y & _ & (z&?&?)%IH)]%bind_Err.
  - exists x; split; [left|done].
  - exists z; split; [by right|done].
Qed.

Lemma res_foldM_Err {A S} (f : S → A → res S) l s e :
  res_foldM f s l = Err e → ∃ s' x, x ∈ l ∧ f s' x = Err e.
Proof.
  revert s. induction l as [|x l IH]; intros s; simpl; [done|].
  intros [?|(s' & _ & (s''&z&?&?)%IH)]%bind_Err.
  - exists s, x. split; [left|done].
  - exists s'', z. split; [by right|done].
Qed.

(** An invariant of a loop that threads a state. *)
Lemma res_foldM_inv {A S} (f : S → A → res S) (P : list A → S → Prop) l s0 s :
  res_foldM f s0 l = Ok s →
  P [] s0 →
  (∀ done x s1 s2, P done s1 → f s1 x = Ok s2 → P (done ++ [x]) s2) →
  P l s.
Proof.
  intros Hrun H0 Hstep.
  cut (∀ l done s0, P done s0 → res_foldM f s0 l = Ok s → P (done ++ l) s).
  { intros Hcut. apply (Hcut l [] s0); done. }
  clear l s0 Hrun H0. induction l as [|x l IH]; intros pre s0 H0; simpl.
  - intros [= <-]. by rewrite app_nil_r.
  - intros (s1 & Hf & Hrest)%bind_Ok.
    replace (pre ++ x :: l) with ((pre ++ [x]) ++ l) by by rewrite <- app_assoc.
    eauto.
Qed.

(** A loop that builds a map entry by entry from another, in any order. *)
Lemma res_foldM_build {A B} (step : gmap string B → string * A → res (gmap string B)) (g : A → B)
  order (m : gmap string A) :
  order ≡ₚ map_to_list m →
  (∀ acc k a, m !! k = Some a → step acc (k, a) = Ok (<[k := g a]> acc)) →
  res_foldM step ∅ order = Ok (g <$> m).
Proof.
  intros Ho Hstep.
  assert (∀ l acc, NoDup l.*1 → Forall (λ ka, m !! ka.1 = Some ka.2) l →
    res_foldM step acc l = Ok (list_to_map (prod_map id g <$> l) ∪ acc)) as Hl.
  { induction l as [|[k a] l IH]; intros acc Hn Hm; cbn.
    - by rewrite (left_id_L ∅ (∪)).
    - cbn in Hn. apply list.NoDup_cons in Hn as [Hk Hn]. apply list.Forall_cons in Hm as [Hka Hm].
      rewrite Hstep by done. cbn. etrans; [by apply IH|]. f_equal.
      rewrite <- insert_union_r, insert_union_l; [done|]. apply not_elem_of_list_to_map_1.
      intros ([k' b] & -> & (ka & Hb & Hin)%list_elem_of_fmap)%list_elem_of_fmap.
      destruct ka as [k1 a1]. injection Hb as -> ->. apply Hk. by apply (list_elem_of_fmap_2 fst) in Hin. }
  rewrite Hl; [|rewrite Ho; apply NoDup_fst_map_to_list|].
  - rewrite (right_id_L ∅ (∪)), list_to_map_fmap. f_equal. f_equal.
    rewrite <- (list_to_map_to_list m). apply list_to_map_proper; [|done].
    rewrite Ho. apply NoDup_fst_map_to_list.
  - apply list.Forall_forall. intros [k a] Hin. rewrite Ho in Hin. by apply elem_of_map_to_list in Hin.
Qed.

Lemma res_foldM_fmap {A B S} (h : A → B) (step : S → B → res S) l s :
  res_foldM step s (h <$> l) = res_foldM (λ s a, step s (h a)) s l.
Proof. revert s. induction l as [|a l IH]; intros s; [done|]. cbn. destruct (step s (h a)); [apply IH|done]. Qed.

Lemma res_foldM_build_fmap {A B C} (step : gmap string B → string * C → res (gmap string B))
  (h : A → C) (g : A → B) order (m : gmap string A) :
  order ≡ₚ map_to_list (h <$> m) →
  (∀ acc k a, m !! k = Some a → step acc (k, h a) = Ok (<[k := g a]> acc)) →
  res_foldM step ∅ order = Ok (g <$> m).
Proof.
  rewrite map_to_list_fmap. intros (l & Hl & Ho)%Permutation_map_inv Hstep.
  change (List.map (prod_map id h) l) with (prod_map id h <$> l) in Hl. subst order. rewrite res_foldM_fmap.
  apply res_foldM_build; [done|]. intros acc k a. apply Hstep.
Qed.

(** ** Byte-wise string order, [sort.Strings] and sorted map keys *)
Definition str_le (a b : string) : Prop := String.leb a b = true.

#[export] Instance str_le_dec a b : Decision (str_le a b).
Proof. unfold str_le. apply _. Defined.

#[export] Instance str_le_total : Total str_le.
Proof. intros a b. apply String.leb_total. Qed.

#[export] Instance str_le_antisymm : AntiSymm (=) str_le.
Proof. intros a b. apply String.leb_antisym. Qed.

Lemma string_compare_Lt_trans a b c :
  String.compare a b = Lt → String.compare b c = Lt → String.compare a c = Lt.
Proof.
  revert b c; induction a as [|x a IH]; intros [|y b] [|z c]; simpl; try done.
  unfold Ascii.compare.
  destruct (N.compare_spec (Ascii.N_of_ascii x) (Ascii.N_of_ascii y)) as [E|E|E];
    destruct (N.compare_spec (Ascii.N_of_ascii y) (Ascii.N_of_ascii z)) as [E'|E'|E'];
    destruct (N.compare_spec (Ascii.N_of_ascii x) (Ascii.N_of_ascii z)) as [E2|E2|E2];
    try done; try lia; eauto.
Qed.

#[export] Instance str_le_trans : Transitive str_le.
Proof.
  intros a b c. unfold str_le, String.leb.
  destruct (String.compare a b) eqn:E; try done; intros _.
  - by apply String.compare_eq_iff in E as ->.
  - destruct (String.compare b c) eqn:E'; try done; intros _.
    + apply String.compare_eq_iff in E' as ->. by rewrite E.
    + by rewrite (string_compare_Lt_trans _ _ _ E E').
Qed.

(** The keys of a Go map after [sort.Strings]. *)
Definition sorted_keys {V} (m : gmap string V) : list string :=
  merge_sort str_le (elements (dom m)).

Lemma elem_of_sorted_keys {V} (m : gmap string V) k :
  k ∈ sorted_keys m ↔ is_Some (m !! k).
Proof.
  unfold sorted_keys.
  by rewrite merge_sort_Permutation, elem_of_elements, elem_of_dom.
Qed.

Lemma NoDup_sorted_keys {V} (m : gmap string V) : NoDup (sorted_keys m).
Proof. unfold sorted_keys. rewrite merge_sort_Permutation. apply NoDup_elements. Qed.

Lemma Sorted_sorted_keys {V} (m : gmap string V) : Sorted str_le (sorted_keys m).
Proof. apply Sorted_merge_sort. apply _. Qed.

Lemma length_sorted_keys {V} (m : gmap string V) : length (sorted_keys m) = size m.
Proof. unfold sorted_keys. rewrite merge_sort_Permutation. apply size_dom. Qed.

(** A sorted duplicate-free list is the sorted key list of its own set. *)
Lemma sorted_keys_unique {V} (m : gmap string V) l :
  Sorted str_le l → NoDup l → (∀ k, k ∈ l ↔ is_Some (m !! k)) → l = sorted_keys m.
Proof.
  intros Hs Hn Hl. apply (Sorted_unique str_le); [done|apply Sorted_sorted_keys|].
  apply NoDup_Permutation; [done|apply NoDup_sorted_keys|].
  intros k. by rewrite Hl, elem_of_sorted_keys.
Qed.

(** ** Machine integers: [int] and [int64] arithmetic wraps *)
Definition wrap64 (z : Z) : Z := ((z + 2 ^ 63) mod 2 ^ 64 - 2 ^ 63)%Z.

Lemma wrap64_small z : (- 2 ^ 63 <= z < 2 ^ 63)%Z → wrap64 z = z.
Proof. intros Hz. unfold wrap64. rewrite Z.mod_small; lia. Qed.

(** ** Small list facts *)
Lemma find_Some_first {A} (f : A → bool) l x :
  List.find f l = Some x ↔
  ∃ l1 l2, l = l1 ++ x :: l2 ∧ f x = true ∧ Forall (λ y, f y = false) l1.
Proof.
  split.
  - induction l as [|y l IH]; simpl; [done|].
    destruct (f y) eqn:E.
    + intros [= <-]. by exists [], l.
    + intros (l1 & l2 & -> & Hx & Hl1)%IH. exists (y :: l1), l2. auto.
  - intros (l1 & l2 & -> & Hx & Hl1).
    induction Hl1 as [|y l1 Hy _ IH]; simpl; [by rewrite Hx|by rewrite Hy].
Qed.

Lemma find_None_forall {A} (f : A → bool) l :
  List.find f l = None ↔ Forall (λ y, f y = false) l.
Proof.
  induction l as [|y l IH]; simpl; [by split|].
  rewrite Forall_cons_iff, <- IH. destruct (f y); naive_solver.
Qed.

Lemma Forall2_Forall_r_imp {A B} (P : A → B → Prop) (Q : B → Prop) l k :
  Forall2 P l k → (∀ x y, x ∈ l → P x y → Q y) → Forall Q k.
Proof.
  induction 1 as [|x y l k Hxy _ IH]; intros H; constructor.
  - apply (H x); [by left|done].
  - apply IH. intros x' y' Hx. apply H. by right.
Qed.

(** ** Hints and tactics *)
Create HintDb go.

(** Break a hypothesis [m = Ok x] about a monadic program into its steps. *)
Ltac inv_ok :=
  repeat match goal with
  | H : (_ ≫= _) = Ok _ |- _ =>
      let u := fresh "u" in let H1 := fresh "Hok" in let H2 := fresh "Hok" in
      apply bind_Ok in H; destruct H as (u & H1 & H2)
  | H : guard_err _ _ = Ok _ |- _ => apply guard_err_Ok in H
  | H : Ok _ = Ok _ |- _ => injection H as H
  | H : Err _ = Ok _ |- _ => discriminate H
  | H : Ok _ = Err _ |- _ => discriminate H
  | u : unit |- _ => destruct u
  | p : (_ * _)%type |- _ => destruct p
  end; simplify_eq.

(** Decide every conditional of a hypothesis or of the goal. *)
Ltac split_ifs :=
  repeat (case_decide || case_match); simplify_eq/=.

(** Membership in an explicit list. *)
Ltac in_list := repeat first [apply list_elem_of_here | apply list_elem_of_further].
