(* ===== verification/GoFloat.v ===== *)
(** * Floating point and decimal text

    Go's [float64] and [float32] as the Standard Library's [spec_float], with
    round-to-nearest-even arithmetic, and the conversions the program reaches
    through [strconv] and [encoding/json]: the shortest decimal text of a float
    and the float nearest to a decimal. *)

From S2P Require Import Prelude.
From Stdlib Require Import SpecFloat.
From Stdlib Require Import Ascii String DecimalString.
From Stdlib Require DecimalPos DecimalZ.
From stdpp Require Import options.
#[local] Open Scope Z_scope.

Abbreviation float64 := spec_float.

#[export] Instance spec_float_eq_dec : EqDecision spec_float.
Proof. solve_decision. Defined.

(** ** Arithmetic at 53 bits *)
Definition f64_add : float64 → float64 → float64 := SFadd 53 1024.
Definition f64_sub : float64 → float64 → float64 := SFsub 53 1024.
Definition f64_mul : float64 → float64 → float64 := SFmul 53 1024.
Definition f64_abs : float64 → float64 := SFabs.
Definition f64_eqb : float64 → float64 → bool := SFeqb.
Definition f64_ltb : float64 → float64 → bool := SFltb.
Definition f64_leb : float64 → float64 → bool := SFleb.

(** [float64(n)] of an integer. *)
Definition f64_of_Z (n : Z) : float64 := binary_normalize 53 1024 n 0 false.

(** The float nearest to [n/d]. *)
Definition float_of_ratio (prec emax : Z) (n : Z) (d : positive) : spec_float :=
  match n with
  | Z0 => S754_zero false
  | Zpos p => SFdiv prec emax (S754_finite false p 0) (S754_finite false d 0)
  | Zneg p => SFdiv prec emax (S754_finite true p 0) (S754_finite false d 0)
  end.

(** A constant expression converted to [float64]. *)
Definition f64_of_ratio : Z → positive → float64 := float_of_ratio 53 1024.

Definition f64_is_nan (f : float64) : bool :=
  match f with S754_nan => true | _ => false end.
Definition f64_is_inf (f : float64) : bool :=
  match f with S754_infinity _ => true | _ => false end.
Definition f64_is_finite (f : float64) : bool :=
  negb (f64_is_nan f || f64_is_inf f).

Definition f64_zero : float64 := S754_zero false.
Definition f64_one : float64 := f64_of_Z 1.

(** ** Lemmas *)
Lemma f64_eqb_refl f : f64_eqb f f = negb (f64_is_nan f).
Proof.
  unfold f64_eqb, SFeqb, SFcompare.
  destruct f as [s|[]| |[] m e]; simpl; try done;
    rewrite Z.compare_refl; change (Pos.compare_cont Eq m m) with (Pos.compare m m);
    by rewrite Pos.compare_refl.
Qed.

Lemma pos_compare_sym (m n : positive) :
  Pos.compare_cont Eq n m = CompOpp (Pos.compare_cont Eq m n).
Proof. apply Pos.compare_antisym. Qed.

Lemma SFcompare_sym f g :
  SFcompare g f = CompOpp <$> SFcompare f g.
Proof.
  destruct f as [s|s| |s m e], g as [s'|s'| |s' m' e']; simpl;
    try (by destruct s); try (by destruct s'); try (by destruct s, s'); try done.
  rewrite (Z.compare_antisym e e'), (pos_compare_sym m m').
  by destruct s, s', (e ?= e'), (Pos.compare_cont Eq m m').
Qed.

Lemma f64_eqb_sym f g : f64_eqb f g = f64_eqb g f.
Proof.
  unfold f64_eqb, SFeqb. rewrite (SFcompare_sym g f).
  destruct (SFcompare g f) as [[]|]; done.
Qed.

Lemma SFcompare_None f g :
  SFcompare f g = None ↔ f64_is_nan f = true ∨ f64_is_nan g = true.
Proof. destruct f as [?|?| |? ? ?], g as [?|?| |? ? ?]; simpl; naive_solver. Qed.

(** On values that are not NaN the Go operators [<] and [>=] are complementary. *)
Lemma f64_ltb_negb_leb f g :
  f64_is_nan f = false → f64_is_nan g = false →
  f64_ltb f g = negb (f64_leb g f).
Proof.
  intros Hf Hg. unfold f64_ltb, f64_leb, SFltb, SFleb. rewrite (SFcompare_sym f g).
  destruct (SFcompare f g) as [[]|] eqn:E; try done.
  apply SFcompare_None in E as [?|?]; congruence.
Qed.

Lemma f64_leb_not_nan f g :
  f64_leb f g = true → f64_is_nan f = false ∧ f64_is_nan g = false.
Proof.
  by destruct f, g.
Qed.

(** A value between two finite bounds is finite. *)
Lemma f64_between_finite f :
  f64_leb f64_zero f = true → f64_leb f f64_one = true → f64_is_finite f = true.
Proof. destruct f as [[]|[]| |[] ? ?]; done. Qed.

(** ** Decimal text *)

Definition string_of_Z (z : Z) : string := NilZero.string_of_int (Z.to_int z).

Lemma string_of_Z_inj a b : string_of_Z a = string_of_Z b → a = b.
Proof.
  intros H. apply DecimalZ.to_int_inj. unfold string_of_Z in H.
  assert (∀ z, NilZero.int_of_string (NilZero.string_of_int (Z.to_int z)) = Some (Z.to_int z))
    as Hz.
  { intros z. apply NilZero.isi; destruct z; simpl; try done;
      intros [= ?]; by eapply DecimalPos.Unsigned.to_uint_nonnil. }
  apply (f_equal NilZero.int_of_string) in H. rewrite !Hz in H. by injection H.
Qed.

(** [0.d1..dn * 10^dp] read off the digits of the positive integer [t]. *)
Fixpoint strip_zeros (fuel : nat) (t k : Z) : Z * Z :=
  match fuel with
  | O => (t, k)
  | S f => if (0 <? t) && (t mod 10 =? 0) then strip_zeros f (t / 10) (k + 1) else (t, k)
  end.

Section shortest.
  Context (prec emax : Z).

  (** [num/den] against [t * 10^k]. *)
Definition cmp_dec (num den t k : Z) : comparison :=
    if 0 <=? k then num ?= t * 10 ^ k * den else num * 10 ^ (- k) ?= t * den.

Fixpoint find_dp (fuel : nat) (num den k : Z) : Z :=
    match fuel with
    | O => k
    | S f => match cmp_dec num den 1 k with
             | Lt => k
             | _ => find_dp f num den (k + 1)
             end
    end.

  (** [strconv]'s shortest digits: the first length at which the truncation or
      its successor lies in the rounding interval of the float. *)
Fixpoint shortest_digits (fuel : nat) (n : Z) (num lo hi den dp : Z) (incl : bool)
    : Z * Z :=
    let k := dp - n in
    let t := if 0 <=? k then num / (10 ^ k * den) else num * 10 ^ (- k) / den in
    let inside x :=
      match cmp_dec lo den x k, cmp_dec hi den x k with
      | Lt, Gt => true
      | Eq, _ | _, Eq => incl
      | _, _ => false
      end in
    let twice := match cmp_dec (2 * num) den (2 * t + 1) k with
                 | Lt => false | Gt => true | Eq => Z.odd t end in
    match fuel with
    | O => (t, k)
    | S f =>
        match (0 <? t) && inside t, inside (t + 1) with
        | true, true => if twice then (t + 1, k) else (t, k)
        | true, false => (t, k)
        | false, true => (t + 1, k)
        | false, false => shortest_digits f (n + 1) num lo hi den dp incl
        end
    end.

  (** Shortest [(t, k)] with [t * 10^k] reading back as [m * 2^e]; 17 digits are
      enough at 53 bits, and the fuel is 20. *)
Definition shortest (m : positive) (e : Z) : Z * Z :=
    let e2 := e - 2 in
    let up := if 0 <=? e2 then 2 ^ e2 else 1 in
    let den := if 0 <=? e2 then 1 else 2 ^ (- e2) in
    let num := 4 * Zpos m * up in
    let hi := (4 * Zpos m + 2) * up in
    let narrow := (Zpos m =? 2 ^ (prec - 1)) && negb (e =? emin prec emax) in
    let lo := (4 * Zpos m - (if narrow then 1 else 2)) * up in
    let est := (Z.log2 num - Z.log2 den) * 30103 / 100000 in
    let dp := find_dp 6 num den (est - 2) in
    let '(t, k) := shortest_digits 20 1 num lo hi den dp (Z.even (Zpos m)) in
    strip_zeros 400 t k.
End shortest.

Definition zeros (n : Z) : string := string_of_list_ascii (replicate (Z.to_nat n) "0"%char).

Definition plain_text (ds : string) (k : Z) : string :=
  let nd := Z.of_nat (String.length ds) in
  let dp := nd + k in
  if 0 <=? k then ds +:+ zeros k
  else if dp <=? 0 then "0." +:+ zeros (- dp) +:+ ds
  else substring 0 (Z.to_nat dp) ds +:+ "." +:+ substring (Z.to_nat dp) (Z.to_nat (nd - dp)) ds.

Definition exp_text (ds : string) (k : Z) : string :=
  let nd := Z.of_nat (String.length ds) in
  let x := nd + k - 1 in
  let frac := substring 1 (String.length ds - 1) ds in
  substring 0 1 ds +:+ (if decide (frac = "") then "" else "." +:+ frac) +:+
    "e" +:+ (if x <? 0 then "-" else "+") +:+ string_of_Z (Z.abs x).

(** [encoding/json]'s float text: plain below 1e21 and from 1e-6, else with an
    exponent whose leading zero is dropped.  [None] is [UnsupportedValueError]. *)
Definition json_float_text (prec emax : Z) (f : float64) : option string :=
  match f with
  | S754_nan | S754_infinity _ => None
  | S754_zero s => Some (if s then "-0" else "0")
  | S754_finite s m e =>
      let '(t, k) := shortest prec emax m e in
      let ds := string_of_Z t in
      let x := Z.of_nat (String.length ds) + k - 1 in
      Some ((if s then "-" else "") +:+
            (if (x <? -6) || (21 <=? x) then exp_text ds k else plain_text ds k))
  end.

Definition f64_text := json_float_text 53 1024.
Definition f32_text := json_float_text 24 128.

Example f64_text_tenth : f64_text (f64_of_ratio 1 10) = Some "0.1".
Proof. vm_compute. reflexivity. Qed.
Example f64_text_third : f64_text (f64_of_ratio 1 3) = Some "0.3333333333333333".
Proof. vm_compute. reflexivity. Qed.
Example f64_text_big : f64_text (f64_of_Z (5 * 10 ^ 21)) = Some "5e+21".
Proof. vm_compute. reflexivity. Qed.
Example f64_text_small : f64_text (f64_of_ratio (-15) (10 ^ 10)) = Some "-1.5e-9".
Proof. vm_compute. reflexivity. Qed.
Example f64_text_pow2 :
  f64_text (f64_of_ratio 1 (2 ^ 44)) = Some "5.684341886080802e-14".
Proof. vm_compute. reflexivity. Qed.
