(* ===== verification/GoAny.v ===== *)
(** * Go's dynamic values, strings and JSON

    The standard library the program leans on: [any] values as the YAML and JSON
    decoders produce them, UTF-8, [strings.TrimSpace], [strconv.Atoi], and
    [encoding/json] as a value tree with its exact encoded text (so that the byte
    limits of the program are those of the encoded text). *)

From S2P Require Import Prelude GoFloat.
From Stdlib Require Import SpecFloat Ascii String DecimalString DecimalZ.
From stdpp Require Import options.

(** ** [any]

    The dynamic types that reach the program.  A [map[string]any] is its
    association list in strictly increasing key order, so two equal Go maps are
    the same value. *)
#[local] Unset Elimination Schemes.
Inductive goany : Set :=
  | ANil
  | AString (s : string)
  | ABool (b : bool)
  | AFloat64 (f : float64)
  | AFloat32 (f : spec_float)
  | AInt (n : Z)
  | AInt32 (n : Z)
  | AInt64 (n : Z)
  | AUint64 (n : Z)
  | ANumber (text : string)             (** [json.Number] *)
  | ATime (text : string)               (** [time.Time], by its RFC 3339 text *)
  | ASlice (l : list goany)             (** [[]any] *)
  | AMap (kvs : list (string * goany))  (** [map[string]any] *)
  | AAnyMap (kvs : list (goany * goany)) (** [map[any]any] *).
#[local] Set Elimination Schemes.

Section goany_ind.
  Variable P : goany → Prop.
  Hypotheses (Hnil : P ANil) (Hstr : ∀ s, P (AString s)) (Hbool : ∀ b, P (ABool b))
    (Hf64 : ∀ f, P (AFloat64 f)) (Hf32 : ∀ f, P (AFloat32 f))
    (Hint : ∀ n, P (AInt n)) (Hint32 : ∀ n, P (AInt32 n)) (Hint64 : ∀ n, P (AInt64 n))
    (Huint64 : ∀ n, P (AUint64 n)) (Hnum : ∀ s, P (ANumber s)) (Htime : ∀ s, P (ATime s))
    (Hslice : ∀ l, Forall P l → P (ASlice l))
    (Hmap : ∀ kvs, Forall (λ kv, P kv.2) kvs → P (AMap kvs))
    (Hanymap : ∀ kvs, Forall (λ kv, P kv.1 ∧ P kv.2) kvs → P (AAnyMap kvs)).

Fixpoint goany_ind (v : goany) : P v :=
    match v with
    | ANil => Hnil
    | AString s => Hstr s
    | ABool b => Hbool b
    | AFloat64 f => Hf64 f
    | AFloat32 f => Hf32 f
    | AInt n => Hint n
    | AInt32 n => Hint32 n
    | AInt64 n => Hint64 n
    | AUint64 n => Huint64 n
    | ANumber s => Hnum s
    | ATime s => Htime s
    | ASlice l => Hslice l
        ((fix go l := match l return Forall P l with
                      | [] => Forall_nil _
                      | x :: l' => Forall_cons _ _ _ (goany_ind x) (go l')
                      end) l)
    | AMap kvs => Hmap kvs
        ((fix go l := match l return Forall (λ kv, P kv.2) l with
                      | [] => Forall_nil _
                      | x :: l' => Forall_cons _ _ _ (goany_ind x.2) (go l')
                      end) kvs)
    | AAnyMap kvs => Hanymap kvs
        ((fix go l := match l return Forall (λ kv, P kv.1 ∧ P kv.2) l with
                      | [] => Forall_nil _
                      | x :: l' => Forall_cons _ _ _
                          (conj (goany_ind x.1) (goany_ind x.2)) (go l')
                      end) kvs)
    end.
End goany_ind.

#[export] Instance goany_eq_dec : EqDecision goany.
Proof.
  unfold EqDecision. fix go 1. intros a b.
  destruct a, b; try (right; discriminate); try (left; reflexivity).
  all: match goal with
    | |- Decision (?c ?x = ?c ?y) =>
        first [ destruct (decide (x = y)) as [->|]
              | destruct (@list_eq_dec goany go x y) as [->|]
              | destruct (@list_eq_dec _ (@prod_eq_dec string _ goany go) x y) as [->|]
              | destruct (@list_eq_dec _ (@prod_eq_dec goany go goany go) x y) as [->|] ];
        [left; reflexivity|right; congruence]
    end.
Defined.

(** [reflect.DeepEqual] on dynamic values: floats compare numerically, so a NaN
    differs from itself and the two zeros are equal. *)
Fixpoint DeepEqual (a b : goany) : bool :=
  match a, b with
  | AFloat64 x, AFloat64 y | AFloat32 x, AFloat32 y => f64_eqb x y
  | ASlice l, ASlice k =>
      (fix go l k := match l, k with
                     | [], [] => true
                     | x :: l', y :: k' => DeepEqual x y && go l' k'
                     | _, _ => false
                     end) l k
  | AMap l, AMap k =>
      (fix go l k := match l, k with
                     | [], [] => true
                     | (s, x) :: l', (t, y) :: k' =>
                         bool_decide (s = t) && DeepEqual x y && go l' k'
                     | _, _ => false
                     end) l k
  | AAnyMap l, AAnyMap k =>
      (fix go l k := match l, k with
                     | [], [] => true
                     | (s, x) :: l', (t, y) :: k' =>
                         DeepEqual s t && DeepEqual x y && go l' k'
                     | _, _ => false
                     end) l k
  | _, _ => bool_decide (a = b)
  end.

(** Update of the association list of a [map[string]V]. *)
Fixpoint amap_insert {V} (k : string) (v : V) (m : list (string * V)) : list (string * V) :=
  match m with
  | [] => [(k, v)]
  | (k', v') :: m' =>
      match String.compare k k' with
      | Lt => (k, v) :: m
      | Eq => (k, v) :: m'
      | Gt => (k', v') :: amap_insert k v m'
      end
  end.

(** The association list of a Go map given as a [gmap]. *)
Definition amap_of {V} (m : gmap string V) : list (string * V) :=
  omap (λ k, (λ v, (k, v)) <$> m !! k) (sorted_keys m).

Lemma amap_of_elem {A} (m : gmap string A) kv : kv ∈ amap_of m ↔ m !! kv.1 = Some kv.2.
Proof.
  destruct kv as [k a]. unfold amap_of. rewrite list_elem_of_omap. cbn. split.
  - intros (k' & _ & (a' & Ha & [= -> ->])%fmap_Some). done.
  - intros Ha. exists k. rewrite elem_of_sorted_keys, Ha. by split.
Qed.

(** ** UTF-8 *)
Definition byte (c : ascii) : N := N_of_ascii c.
Definition in_range (lo hi : N) (c : ascii) : bool := (lo <=? byte c)%N && (byte c <=? hi)%N.

(** [utf8.DecodeRune] at the head of a string: the size of a valid encoding, or
    [None] for an invalid one (which Go reports as [RuneError] of size 1). *)
Definition rune_size (s : string) : option nat :=
  match s with
  | EmptyString => None
  | String c0 r0 =>
      let b := byte c0 in
      if (b <? 0x80)%N then Some 1
      else match r0 with
      | EmptyString => None
      | String c1 r1 =>
          if (0xC2 <=? b)%N && (b <=? 0xDF)%N then
            if in_range 0x80 0xBF c1 then Some 2 else None
          else match r1 with
          | EmptyString => None
          | String c2 r2 =>
              if (0xE0 <=? b)%N && (b <=? 0xEF)%N then
                let lo := if (b =? 0xE0)%N then 0xA0%N else 0x80%N in
                let hi := if (b =? 0xED)%N then 0x9F%N else 0xBF%N in
                if in_range lo hi c1 && in_range 0x80 0xBF c2 then Some 3 else None
              else match r2 with
              | EmptyString => None
              | String c3 _ =>
                  if (0xF0 <=? b)%N && (b <=? 0xF4)%N then
                    let lo := if (b =? 0xF0)%N then 0x90%N else 0x80%N in
                    let hi := if (b =? 0xF4)%N then 0x8F%N else 0xBF%N in
                    if in_range lo hi c1 && in_range 0x80 0xBF c2 && in_range 0x80 0xBF c3
                    then Some 4 else None
                  else None
              end
          end
      end
  end.

Definition bytes (l : list N) : string := string_of_list_ascii (ascii_of_N <$> l).

(** Rewrite a string rune by rune: [f] sees the rest of the string at the start
    of each rune and [None] or the size of that rune. *)
Fixpoint map_runes (f : string → option nat → string) (skip : nat) (s : string) : string :=
  match s with
  | EmptyString => EmptyString
  | String _ s' =>
      match skip with
      | S k => map_runes f k s'
      | O => let n := rune_size s in
             f s n +:+ map_runes f (default 1 n - 1) s'
      end
  end.

(** What decoding an encoded string yields: invalid bytes become U+FFFD. *)
Definition utf8_sanitize (s : string) : string :=
  map_runes (λ s n, match n with
                    | None => bytes [0xEF; 0xBF; 0xBD]%N
                    | Some k => substring 0 k s
                    end) 0 s.

Definition hex_digit (n : N) : string :=
  substring (N.to_nat n) 1 "0123456789abcdef".

(** [encoding/json]'s string body, with HTML escaping on as [json.Marshal] has it. *)
Definition json_escape_rune (s : string) (n : option nat) : string :=
  match n, s with
  | _, EmptyString => ""
  | None, _ => "\ufffd"
  | Some 1, String c _ =>
      let b := byte c in
      if decide (b = 0x22%N) then bytes [0x5C; 0x22]%N
      else if decide (b = 0x5C%N) then "\\"
      else if decide (b = 0x08%N) then "\b"
      else if decide (b = 0x0C%N) then "\f"
      else if decide (b = 0x0A%N) then "\n"
      else if decide (b = 0x0D%N) then "\r"
      else if decide (b = 0x09%N) then "\t"
      else if (b <? 0x20)%N || (b =? 0x3C)%N || (b =? 0x3E)%N || (b =? 0x26)%N
      then "\u00" +:+ hex_digit (b / 16) +:+ hex_digit (b mod 16)
      else String c EmptyString
  | Some k, _ =>
      let r := substring 0 k s in
      if decide (r = bytes [0xE2; 0x80; 0xA8]%N) then "\u2028"
      else if decide (r = bytes [0xE2; 0x80; 0xA9]%N) then "\u2029"
      else r
  end.

Definition quote : string := bytes [0x22]%N.
Definition json_quote (s : string) : string :=
  quote +:+ map_runes json_escape_rune 0 s +:+ quote.

(** ** JSON value trees and their text *)
#[local] Unset Elimination Schemes.
Inductive json : Set :=
  | JNull
  | JBool (b : bool)
  | JNum (text : string)
  | JStr (s : string)
  | JArr (l : list json)
  | JObj (fields : list (string * json)).
#[local] Set Elimination Schemes.

Section json_ind.
  Variable P : json → Prop.
  Hypotheses (Hnull : P JNull) (Hbool : ∀ b, P (JBool b)) (Hnum : ∀ s, P (JNum s))
    (Hstr : ∀ s, P (JStr s)) (Harr : ∀ l, Forall P l → P (JArr l))
    (Hobj : ∀ l, Forall (λ kv, P kv.2) l → P (JObj l)).
Fixpoint json_ind (v : json) : P v :=
    match v with
    | JNull => Hnull
    | JBool b => Hbool b
    | JNum s => Hnum s
    | JStr s => Hstr s
    | JArr l => Harr l
        ((fix go l := match l return Forall P l with
                      | [] => Forall_nil _
                      | x :: l' => Forall_cons _ _ _ (json_ind x) (go l')
                      end) l)
    | JObj l => Hobj l
        ((fix go l := match l return Forall (λ kv, P kv.2) l with
                      | [] => Forall_nil _
                      | x :: l' => Forall_cons _ _ _ (json_ind x.2) (go l')
                      end) l)
    end.
End json_ind.

Definition comma_sep (l : list string) : string := String.concat "," l.

Fixpoint json_text (v : json) : string :=
  match v with
  | JNull => "null"
  | JBool b => if b then "true" else "false"
  | JNum t => t
  | JStr s => json_quote s
  | JArr l => "[" +:+ comma_sep (json_text <$> l) +:+ "]"
  | JObj l => "{" +:+ comma_sep ((λ kv, json_quote kv.1 +:+ ":" +:+ json_text kv.2) <$> l) +:+ "}"
  end.

(** JSON's number grammar, [isValidNumber]. *)
Definition is_digit (c : ascii) : bool := in_range 0x30 0x39 c.

Fixpoint skip_digits (s : string) : string :=
  match s with
  | String c s' => if is_digit c then skip_digits s' else s
  | EmptyString => s
  end.

Definition valid_exponent (s : string) : bool :=
  match s with
  | EmptyString => true
  | String c s' =>
      if bool_decide (c = "e"%char ∨ c = "E"%char) then
        let s2 := match s' with
                  | String d s'' => if bool_decide (d = "+"%char ∨ d = "-"%char) then s'' else s'
                  | EmptyString => s'
                  end in
        match s2 with
        | String d s3 => is_digit d && bool_decide (skip_digits s3 = EmptyString)
        | EmptyString => false
        end
      else false
  end.

Definition valid_fraction (s : string) : bool :=
  match s with
  | String c (String d s') =>
      if decide (c = "."%char) then is_digit d && valid_exponent (skip_digits s')
      else valid_exponent s
  | _ => valid_exponent s
  end.

Definition is_valid_number (s : string) : bool :=
  let s1 := match s with
            | String c s' => if decide (c = "-"%char) then s' else s
            | EmptyString => s
            end in
  match s1 with
  | EmptyString => false
  | String c s2 =>
      if decide (c = "0"%char) then valid_fraction s2
      else is_digit c && valid_fraction (skip_digits s2)
  end.

(** [json.Marshal] of a dynamic value, as a tree.  [None] is its error: a NaN or
    infinity, a malformed [json.Number], or a [map[any]any]. *)
Fixpoint marshal (v : goany) : option json :=
  match v with
  | ANil => Some JNull
  | AString s => Some (JStr s)
  | ABool b => Some (JBool b)
  | AFloat64 f => JNum <$> f64_text f
  | AFloat32 f => JNum <$> f32_text f
  | AInt n | AInt32 n | AInt64 n | AUint64 n => Some (JNum (string_of_Z n))
  | ANumber t =>
      if decide (t = "") then Some (JNum "0")
      else if is_valid_number t then Some (JNum t) else None
  | ATime t => Some (JStr t)
  | ASlice l => JArr <$> mapM marshal l
  | AMap kvs => JObj <$> mapM (λ kv, (λ j, (kv.1, j)) <$> marshal kv.2) kvs
  | AAnyMap _ => None
  end.

(** Nearest float to a JSON number text ([strconv.ParseFloat] on a valid text). *)
Fixpoint dec_scan (s : string) (m : Z) (digits_after : Z) (seen_dot : bool) : Z * Z * string :=
  match s with
  | EmptyString => (m, digits_after, s)
  | String c s' =>
      if is_digit c then
        dec_scan s' (10 * m + Z.of_N (byte c) - 48) (digits_after + (if seen_dot then 1 else 0))
          seen_dot
      else if decide (c = "."%char) then dec_scan s' m digits_after true
      else (m, digits_after, s)
  end%Z.

Definition parse_float_at (prec emax : Z) (t : string) : option spec_float :=
  let '(neg, body) := match t with
                      | String c t' => if decide (c = "-"%char) then (true, t') else (false, t)
                      | EmptyString => (false, t)
                      end in
  let '(m, after, rest) := dec_scan body 0 0 false in
  let x := match rest with
           | String _ (String "-" e) => (- (dec_scan e 0 0 false).1.1)%Z
           | String _ (String "+" e) => (dec_scan e 0 0 false).1.1
           | String _ e => (dec_scan e 0 0 false).1.1
           | EmptyString => 0%Z
           end in
  let k := (x - after)%Z in
  let f := if (0 <=? k)%Z then binary_normalize prec emax (m * 10 ^ k) 0 false
           else float_of_ratio prec emax m (Z.to_pos (10 ^ (- k))) in
  if f64_is_inf f then None else Some (if neg then SFopp f else f).

Definition parse_float : string → option float64 := parse_float_at 53 1024.

(** [strconv.ParseFloat] with a bit size of 32. *)
Definition parse_float32 : string → option spec_float := parse_float_at 24 128.

(** Decoding a tree into [any]: with [UseNumber] a number keeps its text, else it
    is a [float64].  Duplicate keys keep the last value. *)
Fixpoint decode_any (use_number : bool) (v : json) : option goany :=
  match v with
  | JNull => Some ANil
  | JBool b => Some (ABool b)
  | JNum t => if use_number then Some (ANumber t) else AFloat64 <$> parse_float t
  | JStr s => Some (AString (utf8_sanitize s))
  | JArr l => ASlice <$> mapM (decode_any use_number) l
  | JObj l =>
      (λ kvs, AMap (foldl (λ m kv, amap_insert (utf8_sanitize kv.1) kv.2 m) [] kvs)) <$>
        mapM (λ kv, (λ x, (kv.1, x)) <$> decode_any use_number kv.2) l
  end.

Example marshal_ex :
  json_text <$> marshal (AMap [("a", ASlice [AInt 1; ABool true]); ("b<", AString "x")])
    = Some (foldr String.append "" ["{"; quote; "a"; quote; ":[1,true],"; quote; "b\u003c"; quote;
         ":"; quote; "x"; quote; "}"]).
Proof. vm_compute. reflexivity. Qed.
Example parse_float_ex : parse_float "-1.25e-1" = Some (f64_of_ratio (-1) 8).
Proof. vm_compute. reflexivity. Qed.

(** ** [strings.TrimSpace] *)
Definition space_runes : list string :=
  map bytes [[9]; [10]; [11]; [12]; [13]; [32]; [0xC2; 0x85]; [0xC2; 0xA0];
    [0xE1; 0x9A; 0x80]; [0xE2; 0x80; 0x80]; [0xE2; 0x80; 0x81]; [0xE2; 0x80; 0x82];
    [0xE2; 0x80; 0x83]; [0xE2; 0x80; 0x84]; [0xE2; 0x80; 0x85]; [0xE2; 0x80; 0x86];
    [0xE2; 0x80; 0x87]; [0xE2; 0x80; 0x88]; [0xE2; 0x80; 0x89]; [0xE2; 0x80; 0x8A];
    [0xE2; 0x80; 0xA8]; [0xE2; 0x80; 0xA9]; [0xE2; 0x80; 0xAF]; [0xE2; 0x81; 0x9F];
    [0xE3; 0x80; 0x80]]%N.

Fixpoint drop_prefix (p s : string) : option string :=
  match p, s with
  | EmptyString, _ => Some s
  | String a p', String b s' => if decide (a = b) then drop_prefix p' s' else None
  | _, EmptyString => None
  end.

Lemma app_String c a b : String c a +:+ b = String c (a +:+ b).
Proof. reflexivity. Qed.

Lemma append_assoc a b c : (a +:+ b) +:+ c = a +:+ (b +:+ c).
Proof. induction a as [|x a IH]; [done|]. rewrite !app_String. by rewrite IH. Qed.

Lemma append_nil_l s : "" +:+ s = s.
Proof. reflexivity. Qed.

Lemma append_nil s : s +:+ "" = s.
Proof. induction s as [|x s IH]; [done|]. rewrite app_String. by rewrite IH. Qed.

Lemma drop_prefix_app p s t : drop_prefix p s = Some t ↔ s = p +:+ t.
Proof.
  revert s. induction p as [|c p IH]; intros s; simpl; [split; by intros [= ->]|].
  change (String c p +:+ t) with (String c (p +:+ t)).
  destruct s as [|d s]; [done|]. case_decide as E; [subst d; rewrite IH|].
  - split; [by intros ->|by intros [= ->]].
  - split; [done|by intros [= -> _]].
Qed.

Fixpoint trim_left (fuel : nat) (runes : list string) (s : string) : string :=
  match fuel with
  | O => s
  | S f => match list_find (λ p, is_Some (drop_prefix p s)) runes with
           | Some (_, p) => trim_left f runes (default s (drop_prefix p s))
           | None => s
           end
  end.

Definition str_rev (s : string) : string :=
  string_of_list_ascii (reverse (list_ascii_of_string s)).

Definition trim_space (s : string) : string :=
  let s1 := trim_left (String.length s) space_runes s in
  str_rev (trim_left (String.length s1) (str_rev <$> space_runes) (str_rev s1)).

Example trim_space_ex : trim_space (" a b" +:+ bytes [10; 0xC2; 0xA0]%N) = "a b".
Proof. vm_compute. reflexivity. Qed.

(** ** [strconv.Atoi] and [strconv.Itoa] *)
Definition Itoa (n : Z) : string := string_of_Z n.

Definition Atoi (s : string) : option Z :=
  let '(neg, body) := match s with
                      | String c s' =>
                          if decide (c = "-"%char) then (true, s')
                          else if decide (c = "+"%char) then (false, s') else (false, s)
                      | EmptyString => (false, s)
                      end in
  if decide (body = "") then None
  else if decide (skip_digits body = "") then
    let n := (dec_scan body 0 0 false).1.1 in
    let v := if neg then (- n)%Z else n in
    if ((- 2 ^ 63 <=? v) && (v <? 2 ^ 63))%Z then Some v else None
  else None.

(** The digits of a number read back. *)
Lemma dec_scan_acc d acc k :
  dec_scan (NilEmpty.string_of_uint d) (Zpos acc) k false = (Zpos (Pos.of_uint_acc d acc), k, EmptyString).
Proof.
  revert acc. induction d as [|d IH|d IH|d IH|d IH|d IH|d IH|d IH|d IH|d IH|d IH]; intros acc; [done|..];
    cbn [NilEmpty.string_of_uint Pos.of_uint_acc]; rewrite <- IH; cbn; rewrite Z.add_0_r; f_equal; lia.
Qed.

Lemma dec_scan_uint d k :
  dec_scan (NilEmpty.string_of_uint d) 0 k false = (Z.of_uint d, k, EmptyString).
Proof.
  unfold Z.of_uint. induction d as [|d IH|d|d|d|d|d|d|d|d|d]; [done|..];
    cbn [NilEmpty.string_of_uint Pos.of_uint]; cbn; rewrite Z.add_0_r; [exact IH|apply dec_scan_acc..].
Qed.

Lemma skip_digits_uint d : skip_digits (NilEmpty.string_of_uint d) = EmptyString.
Proof. induction d; cbn; done. Qed.

(** [NilZero] writes no digit as one zero. *)
Lemma string_of_uint_zero d : ∃ d', NilZero.string_of_uint d = NilEmpty.string_of_uint d' ∧
  Z.of_uint d = Z.of_uint d' ∧ d' ≠ Decimal.Nil.
Proof. destruct d; [exists (Decimal.D0 Decimal.Nil)|..]; by eexists. Qed.

Lemma Atoi_Itoa n : wrap64 n = n → Atoi (Itoa n) = Some n.
Proof.
  intros Hw. assert (- 2 ^ 63 <= n < 2 ^ 63)%Z as Hb.
  { unfold wrap64 in Hw. pose proof (Z.mod_pos_bound (n + 2 ^ 63) (2 ^ 64)). lia. }
  unfold Itoa, string_of_Z, Atoi. pose proof (DecimalZ.of_to n) as Hn.
  assert ((- 2 ^ 63 <=? n) && (n <? 2 ^ 63) = true)%Z as Hin by lia.
  destruct (Z.to_int n) as [d|d]; cbn [NilZero.string_of_int Z.of_int] in *;
    destruct (string_of_uint_zero d) as (d' & -> & Hd & Hnil); rewrite Hd in Hn; clear Hd.
  - pose proof (dec_scan_uint d' 0) as Hs. pose proof (skip_digits_uint d') as Hk. rewrite Hn in Hs.
    destruct d'; [done|..]; cbn [NilEmpty.string_of_uint] in *;
      rewrite decide_False by done; rewrite decide_False by done; rewrite decide_False by done;
      rewrite decide_True by done; rewrite Hs; cbn [fst]; by rewrite Hin.
  - pose proof (dec_scan_uint d' 0) as Hs. pose proof (skip_digits_uint d') as Hk.
    rewrite decide_True by done. rewrite decide_False by (by destruct d').
    rewrite decide_True by done. rewrite Hs. cbn [fst]. by rewrite Hn, Hin.
Qed.

Definition strlen (s : string) : Z := Z.of_nat (String.length s).

Lemma length_append a b :
  String.length (a +:+ b) = (String.length a + String.length b)%nat.
Proof. induction a as [|c a IH]; simpl; [done|]. by rewrite IH. Qed.

Lemma length_string_of_list_ascii l :
  String.length (String.string_of_list_ascii l) = List.length l.
Proof. induction l as [|c l IH]; simpl; [done|]. by rewrite IH. Qed.

(** ** SHA-256 and hexadecimal

    [crypto/sha256] and [encoding/hex] on byte strings, with 32-bit words in [N]
    and their wrap-around written out.  The program uses them for policy hashes,
    canonical request hashes and idempotency key hashes. *)
From Stdlib Require Import Ascii.

Module Sha256.
#[local] Open Scope N_scope.

Definition w32 (x : N) : N := N.land x 4294967295.
Definition add32 (x y : N) : N := w32 (x + y).
Definition rotr (n x : N) : N := N.lor (N.shiftr x n) (w32 (N.shiftl x (32 - n))).
Definition not32 (x : N) : N := N.lxor x 4294967295.

Definition sha_k : list N := [
    1116352408; 1899447441; 3049323471; 3921009573; 961987163; 1508970993; 2453635748;
    2870763221; 3624381080; 310598401; 607225278; 1426881987; 1925078388; 2162078206;
    2614888103; 3248222580; 3835390401; 4022224774; 264347078; 604807628; 770255983;
    1249150122; 1555081692; 1996064986; 2554220882; 2821834349; 2952996808;
    3210313671; 3336571891; 3584528711; 113926993; 338241895; 666307205; 773529912;
    1294757372; 1396182291; 1695183700; 1986661051; 2177026350; 2456956037;
    2730485921; 2820302411; 3259730800; 3345764771; 3516065817; 3600352804;
    4094571909; 275423344; 430227734; 506948616; 659060556; 883997877; 958139571;
    1322822218; 1537002063; 1747873779; 1955562222; 2024104815; 2227730452;
    2361852424; 2428436474; 2756734187; 3204031479; 3329325298].

Definition sha_h0 : list N := [
    1779033703; 3144134277; 1013904242; 2773480762; 1359893119; 2600822924; 528734635;
    1541459225].

Definition bsig0 x := N.lxor (rotr 2 x) (N.lxor (rotr 13 x) (rotr 22 x)).
Definition bsig1 x := N.lxor (rotr 6 x) (N.lxor (rotr 11 x) (rotr 25 x)).
Definition ssig0 x := N.lxor (rotr 7 x) (N.lxor (rotr 18 x) (N.shiftr x 3)).
Definition ssig1 x := N.lxor (rotr 17 x) (N.lxor (rotr 19 x) (N.shiftr x 10)).

Definition ch x y z := N.lxor (N.land x y) (N.land (not32 x) z).
Definition maj x y z := N.lxor (N.land x y) (N.lxor (N.land x z) (N.land y z)).

(** The message schedule: a window of the last 16 words, oldest first. *)
Fixpoint schedule (n : nat) (win : list N) : list N :=
  match n with
  | O => []
  | S n' =>
      let w := nth 0 win 0 in
      let next := add32 (add32 (ssig1 (nth 14 win 0)) (nth 9 win 0))
                        (add32 (ssig0 (nth 1 win 0)) w) in
      w :: schedule n' (tail win ++ [next])
  end.

Definition sha_round (s : list N) (kw : N * N) : list N :=
  match s with
  | [a; b; c; d; e; f; g; h] =>
      let t1 := add32 (add32 (add32 h (bsig1 e)) (add32 (ch e f g) kw.1)) kw.2 in
      let t2 := add32 (bsig0 a) (maj a b c) in
      [add32 t1 t2; a; b; c; add32 d t1; e; f; g]
  | _ => s
  end.

Definition sha_block (h : list N) (block : list N) : list N :=
  zip_with add32 h (foldl sha_round h (zip sha_k (schedule 64 block))).

Fixpoint words (l : list N) : list N :=
  match l with
  | a :: b :: c :: d :: l' => (N.shiftl a 24 + N.shiftl b 16 + N.shiftl c 8 + d) :: words l'
  | _ => []
  end.

Fixpoint blocks (fuel : nat) (l : list N) : list (list N) :=
  match fuel, l with
  | S f, _ :: _ => take 16 l :: blocks f (drop 16 l)
  | _, _ => []
  end.

Definition be_bytes (k : nat) (x : N) : list N :=
  rev ((λ i, N.land (N.shiftr x (8 * N.of_nat i)) 255) <$> seq 0 k).

(** Padding: a one bit, zeros, and the bit List.length on 64 bits. *)
Definition sha_pad (l : list N) : list N :=
  let n := N.of_nat (List.length l) in
  l ++ 128 :: replicate (N.to_nat ((119 - n mod 64) mod 64)) 0 ++ be_bytes 8 (8 * n).

Definition sha256_bytes (l : list N) : list N :=
  let ws := words (sha_pad l) in
  foldl sha_block sha_h0 (blocks (List.length ws) ws) ≫= be_bytes 4.

(** [hex.EncodeToString] *)
Definition hex_encode (l : list N) : string :=
  foldr (λ b acc, hex_digit (N.shiftr b 4) +:+ hex_digit (N.land b 15) +:+ acc) EmptyString l.

(** [sum := sha256.Sum256(s); hex.EncodeToString(sum[:])] *)
Definition sha256_hex (s : string) : string :=
  hex_encode (sha256_bytes (byte <$> String.list_ascii_of_string s)).

Example sha256_abc : sha256_hex "abc" =
  "ba7816bf8f01cfea414140de5dae2223b00361a396177a9cb410ff61f20015ad".
Proof. vm_compute. reflexivity. Qed.
Example sha256_two_blocks :
  sha256_hex "abcdbcdecdefdefgefghfghighijhijkijkljklmklmnlmnomnopnopq" =
  "248d6a61d20638b8e5c026930c3e6039a33ce45964ff2167f6ecedd419db06c1".
Proof. vm_compute. reflexivity. Qed.

End Sha256.
Export Sha256.
