(* ===== verification/GoTime.v ===== *)
(** * Calendar time and RFC 3339 text

    [time.Time] as nanoseconds since the epoch, the civil date of an instant in UTC, and
    the text [encoding/json] writes and reads for it: [MarshalJSON] refuses a year outside
    [0, 9999], writes [RFC3339Nano] with the trailing zeros of the fraction dropped, and
    the reader takes back every text it writes. *)

From S2P Require Import Prelude GoFloat GoAny.
From Stdlib Require Import Ascii String.
From stdpp Require Import options.
#[local] Open Scope Z_scope.

Module GoTime.

(** ** Civil dates (the proleptic Gregorian calendar) *)
Record date : Set := MkDate { dt_year : Z; dt_month : Z; dt_day : Z }.

Definition days_per_era : Z := 146097.
Definition epoch_shift : Z := 719468.   (** days from 0000-03-01 to 1970-01-01 *)

Definition civil_of_days (z : Z) : date :=
  let z := z + epoch_shift in
  let era := z / days_per_era in
  let doe := z mod days_per_era in
  let yoe := (doe - doe / 1460 + doe / 36524 - doe / 146096) / 365 in
  let doy := doe - (365 * yoe + yoe / 4 - yoe / 100) in
  let mp := (5 * doy + 2) / 153 in
  let m := if mp <? 10 then mp + 3 else mp - 9 in
  MkDate (yoe + era * 400 + (if m <=? 2 then 1 else 0)) m (doy - (153 * mp + 2) / 5 + 1).

Definition days_of_civil (d : date) : Z :=
  let y := dt_year d - (if dt_month d <=? 2 then 1 else 0) in
  let era := y / 400 in
  let yoe := y mod 400 in
  let mp := if 2 <? dt_month d then dt_month d - 3 else dt_month d + 9 in
  let doy := (153 * mp + 2) / 5 + dt_day d - 1 in
  era * days_per_era + (365 * yoe + yoe / 4 - yoe / 100 + doy) - epoch_shift.

(** The fields of a civil date are in range and determine its day. *)
Lemma civil_of_days_range z : let d := civil_of_days z in
  1 <= dt_month d <= 12 ∧ 1 <= dt_day d <= 31.
Proof.
  unfold civil_of_days, days_per_era. cbv zeta. cbn [dt_month dt_day].
  set (doe := (z + epoch_shift) mod 146097).
  assert (0 <= doe < 146097) as Hd by (apply Z.mod_pos_bound; lia). clearbody doe.
  set (yoe := (doe - doe / 1460 + doe / 36524 - doe / 146096) / 365).
  assert (0 <= doe - (365 * yoe + yoe / 4 - yoe / 100) < 366) as Hy by (subst yoe; Z.to_euclidean_division_equations; lia).
  set (doy := doe - (365 * yoe + yoe / 4 - yoe / 100)) in *. clearbody doy.
  destruct (Z.ltb_spec ((5 * doy + 2) / 153) 10); Z.to_euclidean_division_equations; lia.
Qed.

Lemma days_of_civil_of_days z : days_of_civil (civil_of_days z) = z.
Proof.
  unfold civil_of_days, days_of_civil, days_per_era, epoch_shift. cbv zeta. cbn [dt_year dt_month dt_day].
  pose proof (Z.div_mod (z + 719468) 146097 ltac:(lia)) as Hz.
  set (era := (z + 719468) / 146097) in *. set (doe := (z + 719468) mod 146097) in *.
  assert (0 <= doe < 146097) as Hd by (apply Z.mod_pos_bound; lia). clearbody doe era.
  set (yoe := (doe - doe / 1460 + doe / 36524 - doe / 146096) / 365).
  assert (0 <= yoe < 400) as Hyoe by (subst yoe; Z.to_euclidean_division_equations; lia).
  assert (0 <= doe - (365 * yoe + yoe / 4 - yoe / 100) < 366) as Hy
    by (subst yoe; Z.to_euclidean_division_equations; lia).
  set (doy := doe - (365 * yoe + yoe / 4 - yoe / 100)) in *.
  assert (doe = 365 * yoe + yoe / 4 - yoe / 100 + doy) as Hdoe by (subst doy; lia).
  clearbody doy yoe.
  set (mp := (5 * doy + 2) / 153).
  assert (0 <= mp <= 11) as Hmp by (subst mp; Z.to_euclidean_division_equations; lia). clearbody mp.
  destruct (Z.ltb_spec mp 10) as [Hm|Hm].
  - destruct (Z.leb_spec (mp + 3) 2); [lia|]. destruct (Z.ltb_spec 2 (mp + 3)); [|lia].
    replace (yoe + era * 400 + 0 - 0) with (yoe + era * 400) by lia.
    rewrite Z.div_add, Z.mod_add, Z.div_small, Z.mod_small by lia.
    replace (mp + 3 - 3) with mp by lia. lia.
  - destruct (Z.leb_spec (mp - 9) 2); [|lia]. destruct (Z.ltb_spec 2 (mp - 9)); [lia|].
    replace (yoe + era * 400 + 1 - 1) with (yoe + era * 400) by lia.
    rewrite Z.div_add, Z.mod_add, Z.div_small, Z.mod_small by lia.
    replace (mp - 9 + 9) with mp by lia. lia.
Qed.

(** ** Fixed-width digits *)
Definition digit (n : Z) : ascii := ascii_of_N (Z.to_N (48 + n)).
Definition digit_value (c : ascii) : Z := Z.of_N (byte c) - 48.

Fixpoint digits (w : nat) (n : Z) : string :=
  match w with
  | O => EmptyString
  | S w => String (digit (n / 10 ^ Z.of_nat w)) (digits w (n mod 10 ^ Z.of_nat w))
  end.

Fixpoint read_digits (w : nat) (acc : Z) (s : string) : option (Z * string) :=
  match w, s with
  | O, _ => Some (acc, s)
  | S w, String c s' => if is_digit c then read_digits w (acc * 10 + digit_value c) s' else None
  | S _, EmptyString => None
  end.

(** The fraction of a second without its trailing zeros, and its reading: the first [w]
    digits count. *)
Fixpoint fraction (w : nat) (n : Z) : string :=
  match w with
  | O => EmptyString
  | S w => if n =? 0 then EmptyString
           else String (digit (n / 10 ^ Z.of_nat w)) (fraction w (n mod 10 ^ Z.of_nat w))
  end.

Fixpoint read_fraction (w : nat) (s : string) : Z * string :=
  match s with
  | EmptyString => (0, s)
  | String c s' =>
      if is_digit c then
        match w with
        | O => read_fraction O s'
        | S w => let p := read_fraction w s' in (digit_value c * 10 ^ Z.of_nat w + p.1, p.2)
        end
      else (0, s)
  end.

Lemma digit_ok n : 0 <= n <= 9 → is_digit (digit n) = true ∧ digit_value (digit n) = n.
Proof.
  intros Hn. assert (n = 0 ∨ n = 1 ∨ n = 2 ∨ n = 3 ∨ n = 4 ∨ n = 5 ∨ n = 6 ∨ n = 7 ∨ n = 8 ∨ n = 9) by lia.
  by destruct_or?; subst.
Qed.

Lemma lead_digit w n : 0 <= n < 10 ^ Z.of_nat (S w) →
  0 <= n / 10 ^ Z.of_nat w <= 9 ∧ 0 <= n mod 10 ^ Z.of_nat w < 10 ^ Z.of_nat w.
Proof.
  intros [H0 Hn]. rewrite Nat2Z.inj_succ, Z.pow_succ_r in Hn by lia.
  pose proof (Z.pow_pos_nonneg 10 (Z.of_nat w) ltac:(lia) ltac:(lia)). split.
  - split; [by apply Z.div_pos|]. cut (n / 10 ^ Z.of_nat w < 10); [lia|].
    apply Z.div_lt_upper_bound; lia.
  - by apply Z.mod_pos_bound.
Qed.

Lemma read_digits_digits w n acc s : 0 <= n < 10 ^ Z.of_nat w →
  read_digits w acc (digits w n +:+ s) = Some (acc * 10 ^ Z.of_nat w + n, s).
Proof.
  revert n acc. induction w as [|w IH]; intros n acc Hn.
  { cbn. repeat f_equal. change (10 ^ Z.of_nat 0) with 1 in *. lia. }
  destruct (lead_digit w n Hn) as [Hd Hr]. destruct (digit_ok _ Hd) as [E1 E2].
  cbn [digits]. rewrite app_String. cbn [read_digits]. rewrite E1, E2, IH by done. do 2 f_equal.
  rewrite Nat2Z.inj_succ, Z.pow_succ_r by lia.
  rewrite (Z.div_mod n (10 ^ Z.of_nat w)) at 3 by lia. lia.
Qed.

Definition starts_with_digit (s : string) : bool :=
  match s with String c _ => is_digit c | EmptyString => false end.

Lemma read_fraction_none w s : starts_with_digit s = false → read_fraction w s = (0, s).
Proof. destruct s as [|c s]; cbn; [by destruct w|]. intros Hc. by destruct w; cbn; rewrite Hc. Qed.

Lemma read_fraction_fraction w n s : 0 <= n < 10 ^ Z.of_nat w → starts_with_digit s = false →
  read_fraction w (fraction w n +:+ s) = (n, s).
Proof.
  intros Hn Hs. revert n Hn. induction w as [|w IH]; intros n Hn.
  { cbn. rewrite read_fraction_none by done. f_equal. change (10 ^ Z.of_nat 0) with 1 in *. lia. }
  cbn [fraction]. destruct (Z.eqb_spec n 0) as [->|Hnz]; [by rewrite read_fraction_none|].
  destruct (lead_digit w n Hn) as [Hd Hr]. destruct (digit_ok _ Hd) as [E1 E2].
  rewrite app_String. cbn [read_fraction]. rewrite E1, E2, IH by done. cbn [fst snd]. f_equal.
  rewrite (Z.div_mod n (10 ^ Z.of_nat w)) at 3 by lia. lia.
Qed.

(** ** Instants *)
Definition second : Z := 1000000000.
Definition day_seconds : Z := 86400.

Definition year_of (t : Z) : Z := dt_year (civil_of_days (t / second / day_seconds)).

(** [MarshalJSON] of an instant in UTC; [None] is its error. *)
Definition rfc3339 (t : Z) : option string :=
  let s := t / second in
  let d := civil_of_days (s / day_seconds) in
  let r := s mod day_seconds in
  let n := t mod second in
  if (0 <=? dt_year d) && (dt_year d <=? 9999) then
    Some (digits 4 (dt_year d) +:+ "-" +:+ digits 2 (dt_month d) +:+ "-" +:+ digits 2 (dt_day d) +:+
          "T" +:+ digits 2 (r / 3600) +:+ ":" +:+ digits 2 (r / 60 mod 60) +:+ ":" +:+
          digits 2 (r mod 60) +:+ (if n =? 0 then "" else "." +:+ fraction 9 n) +:+ "Z")
  else None.

Definition is_leap (y : Z) : bool := (y mod 4 =? 0) && (negb (y mod 100 =? 0) || (y mod 400 =? 0)).

Definition days_in (m y : Z) : Z :=
  if m =? 2 then (if is_leap y then 29 else 28)
  else if (m =? 4) || (m =? 6) || (m =? 9) || (m =? 11) then 30 else 31.

(** A number of [w] digits in a range, then a separator. *)
Definition number (w : nat) (lo hi : Z) (sep s : string) : option (Z * string) :=
  p ← read_digits w 0 s;
  rest ← drop_prefix sep p.2;
  if (lo <=? p.1) && (p.1 <=? hi) then Some (p.1, rest) else None.

(** The offset of a zone, in seconds. *)
Definition zone (s : string) : option Z :=
  match s with
  | String c s' =>
      if decide (c = "Z"%char) then (if decide (s' = "") then Some 0 else None)
      else if decide (c = "+"%char ∨ c = "-"%char) then
        h ← number 2 0 23 ":" s';
        m ← number 2 0 59 "" h.2;
        if decide (m.2 = "") then
          Some ((if decide (c = "-"%char) then -1 else 1) * (h.1 * 3600 + m.1 * 60))
        else None
      else None
  | EmptyString => None
  end.

(** [UnmarshalJSON] of the text of an instant. *)
Definition parse_rfc3339 (s : string) : option Z :=
  y ← number 4 0 9999 "-" s;
  m ← number 2 1 12 "-" y.2;
  d ← number 2 1 (days_in m.1 y.1) "T" m.2;
  hh ← number 2 0 23 ":" d.2;
  mm ← number 2 0 59 ":" hh.2;
  ss ← number 2 0 59 "" mm.2;
  let '(n, rest) := match drop_prefix "." ss.2 with
                    | Some f => if starts_with_digit f then read_fraction 9 f else (0, ss.2)
                    | None => (0, ss.2)
                    end in
  off ← zone rest;
  Some ((days_of_civil (MkDate y.1 m.1 d.1) * day_seconds + hh.1 * 3600 + mm.1 * 60 + ss.1 - off) * second + n).

Example rfc3339_ex :
  rfc3339 1700000000123000000 = Some "2023-11-14T22:13:20.123Z" ∧
  rfc3339 951782400000000000 = Some "2000-02-29T00:00:00Z" ∧
  rfc3339 (-1) = Some "1969-12-31T23:59:59.999999999Z" ∧
  rfc3339 (253402300800 * second) = None.
Proof. vm_compute. done. Qed.

Example parse_rfc3339_ex :
  parse_rfc3339 "2023-11-15T00:13:20.1230+02:00" = Some 1700000000123000000 ∧
  parse_rfc3339 "2023-02-29T00:00:00Z" = None ∧ parse_rfc3339 "2023-02-28 00:00:00Z" = None.
Proof. vm_compute. done. Qed.

(** Decide the comparisons of constants in the goal. *)
Ltac eval_test t := let b := eval vm_compute in t in
  lazymatch b with true => change t with true | false => change t with false end.
Ltac eval_tests :=
  repeat match goal with
  | |- context [Z.eqb ?a ?b] => eval_test (Z.eqb a b)
  | |- context [Z.leb ?a ?b] => eval_test (Z.leb a b)
  | |- context [Z.ltb ?a ?b] => eval_test (Z.ltb a b)
  end; cbn [orb andb negb].

(** The day of a civil date exists in its month. *)
Lemma civil_day_in_month z : let d := civil_of_days z in dt_day d <= days_in (dt_month d) (dt_year d).
Proof.
  unfold civil_of_days, days_per_era. cbv zeta. cbn [dt_month dt_day dt_year].
  set (era := (z + epoch_shift) / 146097). set (doe := (z + epoch_shift) mod 146097).
  assert (0 <= doe < 146097) as Hd by (apply Z.mod_pos_bound; lia). clearbody doe era.
  set (yoe := (doe - doe / 1460 + doe / 36524 - doe / 146096) / 365).
  assert (0 <= yoe < 400) as Hyoe by (subst yoe; Z.to_euclidean_division_equations; lia).
  assert (0 <= doe - (365 * yoe + yoe / 4 - yoe / 100) < 366 ∧
    (doe - (365 * yoe + yoe / 4 - yoe / 100) = 365 →
     (yoe + 1) mod 4 = 0 ∧ ((yoe + 1) mod 100 ≠ 0 ∨ (yoe + 1) mod 400 = 0))) as [Hy Hleap]
    by (subst yoe; Z.to_euclidean_division_equations; lia).
  set (doy := doe - (365 * yoe + yoe / 4 - yoe / 100)) in *. clearbody doy yoe.
  set (mp := (5 * doy + 2) / 153).
  assert (0 <= mp <= 11 ∧ 153 * mp <= 5 * doy + 2 < 153 * mp + 153) as [Hmp Hdoy]
    by (subst mp; Z.to_euclidean_division_equations; lia). clearbody mp.
  assert (mp = 0 ∨ mp = 1 ∨ mp = 2 ∨ mp = 3 ∨ mp = 4 ∨ mp = 5 ∨ mp = 6 ∨ mp = 7 ∨ mp = 8 ∨ mp = 9 ∨
          mp = 10 ∨ mp = 11) as Hcases by lia.
  destruct_or? Hcases; subst mp; unfold days_in; cbv zeta; eval_tests; try (clear Hleap; Z.to_euclidean_division_equations; lia).
  destruct (is_leap _) eqn:El; [Z.to_euclidean_division_equations; lia|].
  assert (doy ≠ 365) as Hne; [|Z.to_euclidean_division_equations; lia]. intros Hdy.
  destruct (Hleap Hdy) as [H4 H100]. unfold is_leap in El.
  replace ((yoe + era * 400 + 1) mod 4) with ((yoe + 1) mod 4) in El by (Z.to_euclidean_division_equations; lia).
  replace ((yoe + era * 400 + 1) mod 100) with ((yoe + 1) mod 100) in El by (Z.to_euclidean_division_equations; lia).
  replace ((yoe + era * 400 + 1) mod 400) with ((yoe + 1) mod 400) in El by (Z.to_euclidean_division_equations; lia).
  rewrite H4 in El. cbn in El. destruct H100 as [H100|H100].
  - apply Z.eqb_neq in H100. by rewrite H100 in El.
  - rewrite H100, orb_true_r in El. done.
Qed.

Lemma number_digits w lo hi sep n s : 0 <= n < 10 ^ Z.of_nat w → lo <= n <= hi →
  number w lo hi sep (digits w n +:+ sep +:+ s) = Some (n, s).
Proof.
  intros Hn Hr. unfold number. rewrite read_digits_digits by done. cbn [fst snd mbind option_bind].
  rewrite (proj2 (drop_prefix_app sep _ s) eq_refl). cbn. rewrite Z.add_0_l, (proj2 (Z.leb_le lo n)), (proj2 (Z.leb_le n hi)) by lia. done.
Qed.

Lemma number_digits_end w lo hi n s : 0 <= n < 10 ^ Z.of_nat w → lo <= n <= hi →
  number w lo hi "" (digits w n +:+ s) = Some (n, s).
Proof. apply (number_digits w lo hi ""). Qed.

Lemma zone_Z : zone "Z" = Some 0.
Proof. reflexivity. Qed.

(** Every text the encoder writes is read back as the same instant. *)
Lemma parse_rfc3339_rfc3339 t text : rfc3339 t = Some text → parse_rfc3339 text = Some t.
Proof.
  unfold rfc3339. pose proof (civil_of_days_range (t / second / day_seconds)) as [Hm Hd].
  pose proof (civil_day_in_month (t / second / day_seconds)) as Hdm. cbv zeta in Hdm.
  pose proof (days_of_civil_of_days (t / second / day_seconds)) as Hday.
  destruct (civil_of_days (t / second / day_seconds)) as [y m d]. cbn [dt_year dt_month dt_day] in *.
  destruct (andb _ _) eqn:Hy; [|done]. intros <-%Some_inj.
  apply andb_true_iff in Hy as [Hy0%Z.leb_le Hy1%Z.leb_le].
  unfold day_seconds, second in *.
  set (r := (t / 1000000000) mod 86400) in *.
  assert (0 <= r < 86400) as Hr by (apply Z.mod_pos_bound; lia).
  assert (t / 1000000000 = t / 1000000000 / 86400 * 86400 + r) as Hs
    by (rewrite (Z.div_mod (t / 1000000000) 86400) at 1 by lia; subst r; lia).
  assert (0 <= t mod 1000000000 < 1000000000) as Hn by (apply Z.mod_pos_bound; lia).
  assert (t = t / 1000000000 * 1000000000 + t mod 1000000000) as Ht
    by (rewrite (Z.div_mod t 1000000000) at 1 by lia; lia).
  clearbody r. set (n := t mod 1000000000) in *. clearbody n.
  unfold parse_rfc3339.
  do 5 (rewrite number_digits by (change (10 ^ Z.of_nat 4) with 10000; change (10 ^ Z.of_nat 2) with 100;
    Z.to_euclidean_division_equations; lia); cbn [mbind option_bind fst snd]).
  rewrite number_digits_end by (change (10 ^ Z.of_nat 2) with 100; Z.to_euclidean_division_equations; lia).
  cbn [mbind option_bind fst snd].
  assert (match drop_prefix "." ((if n =? 0 then "" else "." +:+ fraction 9 n) +:+ "Z") with
          | Some f => if starts_with_digit f then read_fraction 9 f
                      else (0, (if n =? 0 then "" else "." +:+ fraction 9 n) +:+ "Z")
          | None => (0, (if n =? 0 then "" else "." +:+ fraction 9 n) +:+ "Z")
          end = (n, "Z")) as ->.
  { destruct (Z.eqb_spec n 0) as [->|Hnz]; [done|].
    change (("." +:+ fraction 9 n) +:+ "Z") with ("." +:+ (fraction 9 n +:+ "Z")).
    rewrite (proj2 (drop_prefix_app "." _ _) eq_refl). cbn [fraction].
    rewrite (proj2 (Z.eqb_neq n 0) Hnz), app_String. unfold starts_with_digit.
    destruct (lead_digit 8 n Hn) as [Hl _]. rewrite (proj1 (digit_ok _ Hl)).
    rewrite <- app_String. pose proof (read_fraction_fraction 9 n "Z" Hn eq_refl) as Hf.
    cbn [fraction] in Hf. by rewrite (proj2 (Z.eqb_neq n 0) Hnz) in Hf. }
  rewrite zone_Z. cbn [mbind option_bind]. rewrite Hday. f_equal.
  assert (r / 3600 * 3600 + r / 60 mod 60 * 60 + r mod 60 = r) as Hhms
    by (clear -Hr; Z.to_euclidean_division_equations; lia).
  unfold day_seconds, second. lia.
Qed.

End GoTime.
