(* ===== verification/Regexp.v ===== *)
(** * Regular expressions

    The fragment of RE2 the identifier grammars use, matched by derivatives, and
    its declarative semantics.  The patterns of the program are anchored at both
    ends, so a match is membership of the whole string. *)

From S2P Require Import Prelude.
From Stdlib Require Import Ascii String.
From stdpp Require Import options.

Inductive re : Set :=
  | RVoid
  | REps
  | RClass (f : ascii → bool)
  | RSeq (r1 r2 : re)
  | RAlt (r1 r2 : re)
  | RStar (r : re).

Inductive re_in : re → list ascii → Prop :=
  | In_Eps : re_in REps []
  | In_Class f c : f c = true → re_in (RClass f) [c]
  | In_Seq r1 r2 l1 l2 : re_in r1 l1 → re_in r2 l2 → re_in (RSeq r1 r2) (l1 ++ l2)
  | In_AltL r1 r2 l : re_in r1 l → re_in (RAlt r1 r2) l
  | In_AltR r1 r2 l : re_in r2 l → re_in (RAlt r1 r2) l
  | In_StarNil r : re_in (RStar r) []
  | In_StarCons r l1 l2 : re_in r l1 → re_in (RStar r) l2 → re_in (RStar r) (l1 ++ l2).

Fixpoint nullable (r : re) : bool :=
  match r with
  | RVoid | RClass _ => false
  | REps | RStar _ => true
  | RSeq r1 r2 => nullable r1 && nullable r2
  | RAlt r1 r2 => nullable r1 || nullable r2
  end.

Fixpoint deriv (c : ascii) (r : re) : re :=
  match r with
  | RVoid | REps => RVoid
  | RClass f => if f c then REps else RVoid
  | RSeq r1 r2 =>
      let d := RSeq (deriv c r1) r2 in
      if nullable r1 then RAlt d (deriv c r2) else d
  | RAlt r1 r2 => RAlt (deriv c r1) (deriv c r2)
  | RStar r' => RSeq (deriv c r') (RStar r')
  end.

Fixpoint re_match (r : re) (l : list ascii) : bool :=
  match l with
  | [] => nullable r
  | c :: l' => re_match (deriv c r) l'
  end.

(** [MatchString] of an anchored pattern. *)
Definition MatchString (r : re) (s : string) : bool := re_match r (list_ascii_of_string s).

Lemma nullable_spec r : nullable r = true ↔ re_in r [].
Proof.
  induction r as [| |f|r1 IH1 r2 IH2|r1 IH1 r2 IH2|r IH]; simpl.
  - split; [done|by inversion 1].
  - split; [constructor|done].
  - split; [done|by inversion 1].
  - rewrite andb_true_iff, IH1, IH2. split.
    + intros [??]. by apply (In_Seq _ _ [] []).
    + inversion 1 as [| |? ? l1 l2 H1 H2 E Hl| | | |]; subst.
      apply app_nil in Hl as [-> ->]. done.
  - rewrite orb_true_iff, IH1, IH2. split.
    + intros [?|?]; by constructor.
    + inversion 1; auto.
  - split; [constructor|done].
Qed.

Lemma star_cons_inv r c l :
  re_in (RStar r) (c :: l) →
  ∃ l1 l2, l = l1 ++ l2 ∧ re_in r (c :: l1) ∧ re_in (RStar r) l2.
Proof.
  intros H. remember (RStar r) as r' eqn:Er. remember (c :: l) as l' eqn:El.
  induction H as [| | | | | |r0 l1 l2 H1 IH1 H2 IH2]; simplify_eq.
  destruct l1 as [|c' l1]; simplify_eq/=; [auto|]. by exists l1, l2.
Qed.

Lemma deriv_spec c r l : re_in (deriv c r) l ↔ re_in r (c :: l).
Proof.
  revert l; induction r as [| |f|r1 IH1 r2 IH2|r1 IH1 r2 IH2|r IH]; intros l; simpl.
  - split; inversion 1.
  - split; inversion 1.
  - split.
    + destruct (f c) eqn:E; inversion 1; by constructor.
    + inversion 1; subst. case_match; [constructor|congruence].
  - assert (re_in (RSeq (deriv c r1) r2) l ↔
      ∃ l1 l2, l = l1 ++ l2 ∧ re_in r1 (c :: l1) ∧ re_in r2 l2) as Hd.
    { split.
      - inversion 1; subst. do 2 eexists. by rewrite <- IH1.
      - intros (l1 & l2 & -> & ?%IH1 & ?). by constructor. }
    assert (re_in (RSeq r1 r2) (c :: l) ↔
      (∃ l1 l2, l = l1 ++ l2 ∧ re_in r1 (c :: l1) ∧ re_in r2 l2) ∨
      (re_in r1 [] ∧ re_in r2 (c :: l))) as Hs.
    { split.
      - inversion 1 as [| |? ? l1 l2 H1 H2 E Hl| | | |]; subst.
        destruct l1; simplify_eq/=; [by right|left; eauto 10].
      - intros [(l1 & l2 & -> & ? & ?)|[? ?]].
        + by apply (In_Seq _ _ (c :: l1) l2).
        + by apply (In_Seq _ _ [] (c :: l)). }
    rewrite Hs, <- nullable_spec, <- IH2. destruct (nullable r1).
    + split.
      * inversion 1; subst; [left; by apply Hd|by right].
      * intros [?%Hd|[_ ?]]; by constructor.
    + rewrite Hd. naive_solver.
  - split.
    + inversion 1; subst; constructor; by (apply IH1 || apply IH2).
    + inversion 1; subst; constructor; by (apply IH1 || apply IH2).
  - split.
    + inversion 1 as [| |? ? l1 l2 H1 H2 E Hl| | | |]; subst.
      by apply (In_StarCons _ (c :: l1) l2); [apply IH|].
    + intros (l1 & l2 & -> & ? & ?)%star_cons_inv.
      constructor; [by apply IH|done].
Qed.

(** The matcher decides membership. *)
Lemma re_match_spec r l : re_match r l = true ↔ re_in r l.
Proof.
  revert r; induction l as [|c l IH]; intros r; simpl.
  - apply nullable_spec.
  - by rewrite IH, deriv_spec.
Qed.

(** ** Inversion lemmas of the common shapes *)
Lemma in_class f l : re_in (RClass f) l ↔ ∃ c, l = [c] ∧ f c = true.
Proof.
  split; [inversion 1; eauto|]. intros (c & -> & ?). by constructor.
Qed.

Lemma in_seq r1 r2 l :
  re_in (RSeq r1 r2) l ↔ ∃ l1 l2, l = l1 ++ l2 ∧ re_in r1 l1 ∧ re_in r2 l2.
Proof.
  split; [inversion 1; eauto 10|]. intros (l1 & l2 & -> & ? & ?). by constructor.
Qed.

Lemma in_star_class f l : re_in (RStar (RClass f)) l ↔ Forall (λ c, f c = true) l.
Proof.
  split.
  - intros H. remember (RStar (RClass f)) as r eqn:E.
    induction H as [| | | | | |r l1 l2 H1 IH1 H2 IH2]; simplify_eq; [constructor|].
    apply in_class in H1 as (c & -> & ?). constructor; auto.
  - induction 1 as [|c l Hc Hl IH]; [constructor|].
    apply (In_StarCons _ [c] l); [by constructor|done].
Qed.

Lemma in_star r l : re_in (RStar r) l ↔ ∃ ls, l = List.concat ls ∧ Forall (re_in r) ls.
Proof.
  split.
  - intros H. remember (RStar r) as r' eqn:E.
    induction H as [| | | | | |r0 l1 l2 H1 IH1 H2 IH2]; simplify_eq.
    + by exists [].
    + destruct (IH2 eq_refl) as (ls & -> & Hls). exists (l1 :: ls). auto.
  - intros (ls & -> & Hls). induction Hls; simpl; by constructor.
Qed.
