(* ===== verification/Decision.v ===== *)
(** * The shared vocabulary: [internal/pkg/common/decision/decision.go]

    Identifier grammars, question types, answer fields, fact types, the dynamic
    number conversion, answers and execution paths.  Go's string types keep their
    open set of values: a declared constant is a string and [IsValid] is the
    membership test of the source. *)

From S2P Require Import Prelude GoFloat GoAny Regexp.
From Stdlib Require Import Ascii String.
From stdpp Require Import options.

Module Decision.

Definition MaxIdentifierLength : Z := 64.
Definition MaxFactNameLength : Z := 128.

(** ** Grammars *)
Definition is_letter (c : ascii) : bool := in_range 0x41 0x5A c || in_range 0x61 0x7A c.
Definition is_word (c : ascii) : bool :=
  is_letter c || is_digit c || bool_decide (c = "_"%char).
Definition is_word_dash (c : ascii) : bool := is_word c || bool_decide (c = "-"%char).
Definition is_dot (c : ascii) : bool := bool_decide (c = "."%char).

Definition identifierPattern : re := RSeq (RClass is_letter) (RStar (RClass is_word)).
Definition dashedIdentifierPattern : re :=
  RSeq (RClass is_letter) (RStar (RClass is_word_dash)).
Definition factNamePattern : re :=
  RSeq (RSeq (RClass is_letter) (RStar (RClass is_word)))
       (RStar (RSeq (RClass is_dot) (RSeq (RClass is_letter) (RStar (RClass is_word))))).

Definition IsIdentifier (name : string) : bool :=
  (strlen name <=? MaxIdentifierLength)%Z && MatchString identifierPattern name.
Definition IsDashedIdentifier (name : string) : bool :=
  (strlen name <=? MaxIdentifierLength)%Z && MatchString dashedIdentifierPattern name.
Definition IsFactName (name : string) : bool :=
  (strlen name <=? MaxFactNameLength)%Z && MatchString factNamePattern name.

(** ** Outcomes *)
Definition Outcome : Set := string.
Definition Outcome_IsValid (o : Outcome) : bool := IsDashedIdentifier o.

(** ** Question types *)
Definition QuestionType : Set := string.
Definition QuestionTypeChoice : QuestionType := "choice".
Definition QuestionTypeScore : QuestionType := "score".
Definition QuestionTypeNoul : QuestionType := "noul".

Definition QuestionType_IsValid (q : QuestionType) : bool :=
  bool_decide (q ∈ [QuestionTypeChoice; QuestionTypeScore; QuestionTypeNoul]).

(** ** Answer fields *)
Definition AnswerField : Set := string.
Definition AnswerFieldChoice : AnswerField := "choice".
Definition AnswerFieldScore : AnswerField := "score".
Definition AnswerFieldNoul : AnswerField := "noul".
Definition AnswerFieldConfidence : AnswerField := "confidence".
Definition AnswerFieldProbability : AnswerField := "probability".

Definition AnswerField_IsValid (f : AnswerField) : bool :=
  bool_decide (f ∈ [AnswerFieldChoice; AnswerFieldScore; AnswerFieldNoul;
                    AnswerFieldConfidence; AnswerFieldProbability]).

Definition AvailableOn (f : AnswerField) (questionType : QuestionType) : bool :=
  if decide (questionType = QuestionTypeChoice) then
    bool_decide (f = AnswerFieldChoice) || bool_decide (f = AnswerFieldConfidence) ||
      bool_decide (f = AnswerFieldProbability)
  else if decide (questionType = QuestionTypeScore) then
    bool_decide (f = AnswerFieldScore) || bool_decide (f = AnswerFieldConfidence) ||
      bool_decide (f = AnswerFieldProbability)
  else if decide (questionType = QuestionTypeNoul) then
    bool_decide (f = AnswerFieldNoul)
  else false.

Definition IsNumeric (f : AnswerField) : bool := negb (bool_decide (f = AnswerFieldChoice)).

(** ** Numbers and fact types *)
Definition AsNumber (value : goany) : option float64 :=
  match value with
  | AFloat64 typed => Some typed
  | AFloat32 typed => Some typed
  | AInt typed | AInt32 typed | AInt64 typed => Some (f64_of_Z typed)
  | _ => None
  end.

Abbreviation FactType := string.
Definition FactTypeString : FactType := "string".
Definition FactTypeBoolean : FactType := "boolean".
Definition FactTypeNumber : FactType := "number".

Definition FactType_IsValid (t : FactType) : bool :=
  bool_decide (t ∈ [FactTypeString; FactTypeBoolean; FactTypeNumber]).

Definition FactType_Matches (t : FactType) (value : goany) : bool :=
  if decide (t = FactTypeString) then
    match value with AString _ => true | _ => false end
  else if decide (t = FactTypeBoolean) then
    match value with ABool _ => true | _ => false end
  else if decide (t = FactTypeNumber) then
    match AsNumber value with Some _ => true | None => false end
  else false.

Abbreviation Facts := (gmap string goany).

(** ** Answers *)
Record Answer : Set := MkAnswer {
  ans_Type : QuestionType;
  ans_Choice : string;
  ans_Score : float64;
  ans_Noul : float64;
  ans_Confidence : float64;
  ans_HasConfidence : bool;
  ans_Probabilities : gmap string float64;
  ans_Legend : gmap string goany
}.

#[export] Instance Answer_eq_dec : EqDecision Answer.
Proof. solve_decision. Defined.

Abbreviation Answers := (gmap string Answer).

(** [Answer.Field] *)
Definition Field (a : Answer) (field : AnswerField) : option goany :=
  if negb (AvailableOn field (ans_Type a)) then None
  else if decide (field = AnswerFieldChoice) then Some (AString (ans_Choice a))
  else if decide (field = AnswerFieldScore) then Some (AFloat64 (ans_Score a))
  else if decide (field = AnswerFieldNoul) then Some (AFloat64 (ans_Noul a))
  else if decide (field = AnswerFieldConfidence) then
    if negb (ans_HasConfidence a) then None else Some (AFloat64 (ans_Confidence a))
  else None.

(** [Answer.Probability] *)
Definition Probability (a : Answer) (key : string) : option float64 :=
  if negb (AvailableOn AnswerFieldProbability (ans_Type a)) then None
  else ans_Probabilities a !! key.

(** ** Execution paths *)
Definition ExecutionPath : Set := string.
Definition ExecutionPathPreRule : ExecutionPath := "pre_rule".
Definition ExecutionPathDecisionRule : ExecutionPath := "decision_rule".
Definition ExecutionPathDefault : ExecutionPath := "default".

Definition ExecutionPath_IsValid (p : ExecutionPath) : bool :=
  bool_decide (p ∈ [ExecutionPathPreRule; ExecutionPathDecisionRule; ExecutionPathDefault]).

(** ** The grammars, declaratively *)

(** A letter followed by characters of a class. *)
Definition ident_shape (rest : ascii → bool) (l : list ascii) : Prop :=
  ∃ c l', l = c :: l' ∧ is_letter c = true ∧ Forall (λ x, rest x = true) l'.

Lemma ident_pattern_in rest l :
  re_in (RSeq (RClass is_letter) (RStar (RClass rest))) l ↔ ident_shape rest l.
Proof.
  rewrite in_seq. setoid_rewrite in_class. setoid_rewrite in_star_class.
  split.
  - intros (? & l' & -> & (c & -> & ?) & ?). by exists c, l'.
  - intros (c & l' & -> & ? & ?). exists [c], l'. eauto.
Qed.

(** Segments joined by single dots. *)
Fixpoint join_dots (l : list (list ascii)) : list ascii :=
  match l with
  | [] => []
  | [x] => x
  | x :: l' => x ++ "."%char :: join_dots l'
  end.

Lemma join_dots_cons x l : join_dots (x :: l) = x ++ List.concat (cons "."%char <$> l).
Proof.
  revert x; induction l as [|y l IH]; intros x; simpl; [by rewrite app_nil_r|].
  f_equal. simpl. f_equal. apply IH.
Qed.

Lemma fact_pattern_in l :
  re_in factNamePattern l ↔
  ∃ segs, segs ≠ [] ∧ l = join_dots segs ∧ Forall (ident_shape is_word) segs.
Proof.
  unfold factNamePattern. rewrite in_seq. split.
  - intros (l1 & l2 & -> & H1%ident_pattern_in & (ls & -> & Hls)%in_star).
    assert (∃ segs, ls = (cons "."%char <$> segs) ∧ Forall (ident_shape is_word) segs)
      as (segs & -> & Hsegs).
    { induction Hls as [|x ls Hx Hls (segs & -> & IH)]; [exists []; by split|].
      apply in_seq in Hx as (d & s & -> & (c & -> & Hc)%in_class & Hs%ident_pattern_in).
      unfold is_dot in Hc. apply bool_decide_eq_true in Hc as ->.
      exists (s :: segs). split; [done|by constructor]. }
    exists (l1 :: segs). rewrite join_dots_cons. split; [done|]. by split; [|constructor].
  - intros (segs & Hne & -> & Hsegs). destruct Hsegs as [|s segs Hs Hsegs]; [done|]. clear Hne.
    exists s, (List.concat (cons "."%char <$> segs)). rewrite join_dots_cons.
    split; [done|]. split; [by apply ident_pattern_in|]. apply in_star.
    exists (cons "."%char <$> segs). split; [done|].
    induction Hsegs as [|x segs Hx Hsegs IH]; [constructor|]. constructor; [|done].
    apply in_seq. exists ["."%char], x. split; [done|]. rewrite ident_pattern_in.
    split; [by constructor|done].
Qed.

Lemma IsIdentifier_spec s :
  IsIdentifier s = true ↔
  (strlen s ≤ 64)%Z ∧ ident_shape is_word (list_ascii_of_string s).
Proof.
  unfold IsIdentifier, MatchString. rewrite andb_true_iff, Z.leb_le, re_match_spec.
  unfold identifierPattern. by rewrite ident_pattern_in.
Qed.

Lemma IsDashedIdentifier_spec s :
  IsDashedIdentifier s = true ↔
  (strlen s ≤ 64)%Z ∧ ident_shape is_word_dash (list_ascii_of_string s).
Proof.
  unfold IsDashedIdentifier, MatchString. rewrite andb_true_iff, Z.leb_le, re_match_spec.
  unfold dashedIdentifierPattern. by rewrite ident_pattern_in.
Qed.

End Decision.
