(* ===== verification/Document.v ===== *)
(** * Policy documents and compiled policies: the data

    [internal/pkg/policy/document.go] and the types of [condition.go] and
    [compiled.go].  Maps are [gmap]s; a nil map and an empty one are told apart
    only where the source tells them apart ([NoulCriteria]). *)

From S2P Require Import Prelude GoFloat GoAny Decision.
From stdpp Require Import options.

Export Decision.

Definition APIVersion : string := "vibecheck.psyb0t.dev/v1alpha1".
Definition Kind : string := "DecisionPolicy".

Definition MaxOutcomes : Z := 32.
Definition MaxQuestions : Z := 64.
Definition MaxRequiredFacts : Z := 128.
Definition MaxRules : Z := 128.
Definition MaxConditionDepth : Z := 8.
Definition MaxConditionsPerOp : Z := 32.
Definition MaxRightListLength : Z := 64.
Definition MinChoiceCriteria : Z := 2.
Definition MaxChoiceCriteria : Z := 255.
Definition MinScoreCriteria : Z := 2.
Definition MaxScoreCriteria : Z := 10.
Definition MaxDescriptionLength : Z := 512.
Definition MaxInstructionsLength : Z := 4096.
Definition MaxCriteriaTextLength : Z := 1024.
Definition MaxQuestionValueDepth : Z := 16.
Definition MaxQuestionValueNodes : Z := 512.
Definition MaxVersionLength : Z := 32.
Definition MaxStringValueLength : Z := 1024.

(** [len(xs)] *)
Definition len {A} (l : list A) : Z := Z.of_nat (length l).
Definition msize {V} (m : gmap string V) : Z := Z.of_nat (size m).

(** ** Operators *)
Definition Operator : Set := string.
Definition OperatorEq : Operator := "eq".
Definition OperatorNeq : Operator := "neq".
Definition OperatorLt : Operator := "lt".
Definition OperatorLte : Operator := "lte".
Definition OperatorGt : Operator := "gt".
Definition OperatorGte : Operator := "gte".
Definition OperatorIn : Operator := "in".
Definition OperatorExists : Operator := "exists".

Definition Operator_IsValid (o : Operator) : bool :=
  bool_decide (o ∈ [OperatorEq; OperatorNeq; OperatorLt; OperatorLte;
                    OperatorGt; OperatorGte; OperatorIn; OperatorExists]).

Definition IsOrdering (o : Operator) : bool :=
  bool_decide (o ∈ [OperatorLt; OperatorLte; OperatorGt; OperatorGte]).

(** ** Documents *)
Record Operand : Set := MkOperand {
  opd_Fact : string;
  opd_Answer : string;
  opd_Field : AnswerField;
  opd_ProbabilityKey : string
}.

#[local] Unset Elimination Schemes.
Inductive Condition : Set :=
  Cond (cond_All cond_Any : list Condition) (cond_Not : option Condition)
       (cond_Left : option Operand) (cond_Op : Operator) (cond_Right : goany).
#[local] Set Elimination Schemes.

Definition cond_All (c : Condition) := let 'Cond a _ _ _ _ _ := c in a.
Definition cond_Any (c : Condition) := let 'Cond _ a _ _ _ _ := c in a.
Definition cond_Not (c : Condition) := let 'Cond _ _ n _ _ _ := c in n.
Definition cond_Left (c : Condition) := let 'Cond _ _ _ l _ _ := c in l.
Definition cond_Op (c : Condition) := let 'Cond _ _ _ _ o _ := c in o.
Definition cond_Right (c : Condition) := let 'Cond _ _ _ _ _ r := c in r.

Section Condition_ind.
  Variable P : Condition → Prop.
  Hypothesis Hcond : ∀ all any not lhs op rhs,
    Forall P all → Forall P any → (∀ c, not = Some c → P c) →
    P (Cond all any not lhs op rhs).
Fixpoint Condition_ind (c : Condition) : P c :=
    match c with
    | Cond all any not lhs op rhs =>
        let go := fix go l := match l return Forall P l with
                              | [] => Forall_nil _
                              | x :: l' => Forall_cons _ _ _ (Condition_ind x) (go l')
                              end in
        Hcond all any not lhs op rhs (go all) (go any)
          match not return ∀ c, not = Some c → P c with
          | None => λ c H, ltac:(discriminate H)
          | Some d => λ c H, ltac:(injection H as <-; exact (Condition_ind d))
          end
    end.
End Condition_ind.

Record Rule : Set := MkRule {
  rule_ID : string;
  rule_Description : string;
  rule_When : option Condition;
  rule_Outcome : Outcome
}.

Record Question : Set := MkQuestion {
  q_Type : QuestionType;
  q_Instructions : goany;
  q_Criteria : goany
}.

Record Metadata : Set := MkMetadata {
  md_Name : string;
  md_Version : string;
  md_Description : string
}.

Record Input : Set := MkInput {
  in_RequiredFacts : gmap string FactType;
  in_OptionalFacts : gmap string FactType;
  in_Strict : bool
}.

Record Spec : Set := MkSpec {
  sp_Model : string;
  sp_Outcomes : list Outcome;
  sp_DefaultOutcome : Outcome;
  sp_Input : Input;
  sp_PreRules : list Rule;
  sp_Questions : gmap string Question;
  sp_DecisionRules : list Rule
}.

Record Document : Set := MkDocument {
  doc_APIVersion : string;
  doc_Kind : string;
  doc_Metadata : Metadata;
  doc_Spec : Spec
}.

(** ** Compiled policies *)
Record Ref : Set := MkRef { ref_Name : string; ref_Version : string }.

#[export] Instance Ref_eq_dec : EqDecision Ref.
Proof. solve_decision. Defined.
#[export] Program Instance Ref_countable : Countable Ref :=
  inj_countable' (λ r, (ref_Name r, ref_Version r)) (λ p, MkRef p.1 p.2) _.
Next Obligation. by intros []. Qed.

Inductive conditionKind : Set :=
  | conditionKindLeaf | conditionKindAll | conditionKindAny | conditionKindNot.
#[export] Instance conditionKind_eq_dec : EqDecision conditionKind.
Proof. solve_decision. Defined.

Inductive operandKind : Set := operandKindFact | operandKindAnswer.
#[export] Instance operandKind_eq_dec : EqDecision operandKind.
Proof. solve_decision. Defined.

Record CompiledOperand : Set := MkCompiledOperand {
  co_kind : operandKind;
  co_factName : string;
  co_factType : FactType;
  co_questionID : string;
  co_field : AnswerField;
  co_questionType : QuestionType;
  co_probabilityKey : string
}.
#[export] Instance CompiledOperand_eq_dec : EqDecision CompiledOperand.
Proof. solve_decision. Defined.

(** The zero value [CompiledOperand{}]. *)
Definition zeroOperand : CompiledOperand :=
  MkCompiledOperand operandKindFact "" "" "" "" "" "".

#[local] Unset Elimination Schemes.
Inductive CompiledCondition : Set :=
  CC (cc_kind : conditionKind) (cc_children : list CompiledCondition)
     (cc_operand : CompiledOperand) (cc_op : Operator)
     (cc_rightScalar : goany) (cc_rightList : list goany) (cc_rightBool : bool).
#[local] Set Elimination Schemes.

Definition cc_kind (c : CompiledCondition) := let 'CC k _ _ _ _ _ _ := c in k.
Definition cc_children (c : CompiledCondition) := let 'CC _ l _ _ _ _ _ := c in l.
Definition cc_operand (c : CompiledCondition) := let 'CC _ _ o _ _ _ _ := c in o.
Definition cc_op (c : CompiledCondition) := let 'CC _ _ _ o _ _ _ := c in o.
Definition cc_rightScalar (c : CompiledCondition) := let 'CC _ _ _ _ s _ _ := c in s.
Definition cc_rightList (c : CompiledCondition) := let 'CC _ _ _ _ _ l _ := c in l.
Definition cc_rightBool (c : CompiledCondition) := let 'CC _ _ _ _ _ _ b := c in b.

Section CompiledCondition_ind.
  Variable P : CompiledCondition → Prop.
  Hypothesis Hcc : ∀ k children o op rs rl rb,
    Forall P children → P (CC k children o op rs rl rb).
Fixpoint CompiledCondition_ind (c : CompiledCondition) : P c :=
    match c with
    | CC k children o op rs rl rb =>
        Hcc k children o op rs rl rb
          ((fix go l := match l return Forall P l with
                        | [] => Forall_nil _
                        | x :: l' => Forall_cons _ _ _ (CompiledCondition_ind x) (go l')
                        end) children)
    end.
End CompiledCondition_ind.

Record CompiledQuestion : Set := MkCompiledQuestion {
  cq_ID : string;
  cq_Type : QuestionType;
  cq_Instructions : goany;
  cq_NoulCriteria : option (gmap string goany);   (** [None] is the nil map *)
  cq_ChoiceCriteria : gmap string goany;
  cq_ChoiceKeys : list string;
  cq_ScoreCriteria : list goany
}.

Record CompiledRule : Set := MkCompiledRule {
  cr_ID : string;
  cr_Description : string;
  cr_Condition : option CompiledCondition;
  cr_Outcome : Outcome
}.

Record Compiled : Set := MkCompiled {
  c_Ref : Ref;
  c_Description : string;
  c_Model : string;
  c_Outcomes : list Outcome;
  c_DefaultOutcome : Outcome;
  c_outcomeSet : gset Outcome;
  c_RequiredFacts : gmap string FactType;
  c_OptionalFacts : gmap string FactType;
  c_StrictInput : bool;
  c_Questions : gmap string CompiledQuestion;
  c_QuestionIDs : list string;
  c_PreRules : list CompiledRule;
  c_DecisionRules : list CompiledRule;
  c_Canonical : string;
  c_Hash : string
}.

(** Every rule, pre-rules first. *)
Definition all_rules (c : Compiled) : list CompiledRule := c_PreRules c ++ c_DecisionRules c.
