(* ===== verification/Condition.v ===== *)
(** * Evaluating compiled conditions and checking facts

    [internal/pkg/policy/condition.go] (the runtime half of a condition) and the
    input contract of [compiled.go]: [Matches], [HasOutcome], [NeedsProvider] and
    [ValidateFacts]. *)

From S2P Require Import Prelude GoFloat GoAny Decision Document.
From stdpp Require Import options.

Module Condition.

(** ** Scalars *)
Definition scalarEqual (lhs rhs : goany) : bool :=
  match AsNumber lhs, AsNumber rhs with
  | Some leftNumber, Some rightNumber => f64_eqb leftNumber rightNumber
  | None, None =>
      match lhs, rhs with
      | AString typedLeft, AString typedRight => bool_decide (typedLeft = typedRight)
      | ABool typedLeft, ABool typedRight => bool_decide (typedLeft = typedRight)
      | _, _ => false
      end
  | _, _ => false
  end.

Definition compareOrdered (lhs rhs : goany) (op : Operator) : bool :=
  match AsNumber lhs with
  | None => false
  | Some leftNumber =>
      match AsNumber rhs with
      | None => false
      | Some rightNumber =>
          if decide (op = OperatorLt) then f64_ltb leftNumber rightNumber
          else if decide (op = OperatorLte) then f64_leb leftNumber rightNumber
          else if decide (op = OperatorGt) then f64_ltb rightNumber leftNumber
          else if decide (op = OperatorGte) then f64_leb rightNumber leftNumber
          else false
      end
  end.

(** ** Leaves *)

(** The value the leaf reads; [None] is the absent case of the Go pair. *)
Definition resolveOperand (o : CompiledOperand) (facts : Facts) (answers : Answers)
  : option goany :=
  if decide (co_kind o = operandKindFact) then facts !! co_factName o
  else match answers !! co_questionID o with
       | None => None
       | Some answer =>
           if decide (co_field o = AnswerFieldProbability) then
             AFloat64 <$> Probability answer (co_probabilityKey o)
           else Field answer (co_field o)
       end.

Definition evaluateLeaf (o : CompiledOperand) (op : Operator)
  (rightScalar : goany) (rightList : list goany) (rightBool : bool)
  (facts : Facts) (answers : Answers) : bool :=
  let resolved := resolveOperand o facts answers in
  let present := bool_decide (is_Some resolved) in
  if decide (op = OperatorExists) then eqb present rightBool
  else match resolved with
  | None => false
  | Some lhs =>
      if decide (op = OperatorEq) then scalarEqual lhs rightScalar
      else if decide (op = OperatorNeq) then negb (scalarEqual lhs rightScalar)
      else if decide (op = OperatorIn) then existsb (scalarEqual lhs) rightList
      else if IsOrdering op then compareOrdered lhs rightScalar op
      else false
  end.

(** ** Trees *)

(** [children[0]] of a negation whose child list is empty would be an index
    panic in Go; the compiler only builds negations with one child
    ([CompileCondition.wf_condition]). *)
Fixpoint Evaluate (c : CompiledCondition) (facts : Facts) (answers : Answers) : bool :=
  let 'CC kind children operand op rightScalar rightList rightBool := c in
  match kind with
  | conditionKindAll => forallb (λ child, Evaluate child facts answers) children
  | conditionKindAny => existsb (λ child, Evaluate child facts answers) children
  | conditionKindNot =>
      match children with
      | child :: _ => negb (Evaluate child facts answers)
      | [] => false
      end
  | conditionKindLeaf =>
      evaluateLeaf operand op rightScalar rightList rightBool facts answers
  end.

(** ** Rules and policies: [compiled.go] *)
Definition Matches (r : CompiledRule) (facts : Facts) (answers : Answers) : bool :=
  match cr_Condition r with
  | None => true
  | Some c => Evaluate c facts answers
  end.

Definition HasOutcome (c : Compiled) (outcome : Outcome) : bool :=
  bool_decide (outcome ∈ c_outcomeSet c).

Definition NeedsProvider (c : Compiled) : bool := bool_decide (0 < len (c_QuestionIDs c))%Z.

(** [validateRequiredFacts]: in sorted order, present and of the declared type. *)
Definition validateRequiredFacts (c : Compiled) (facts : Facts) : res unit :=
  res_forM (λ name,
    match facts !! name with
    | None => Err (EIs ErrValidationFailed)
    | Some value =>
        guard_err (negb (FactType_Matches (default "" (c_RequiredFacts c !! name)) value))
          ErrValidationFailed
    end) (sorted_keys (c_RequiredFacts c)).

(** [validateOptionalFacts] *)
Definition validateOptionalFacts (c : Compiled) (facts : Facts) : res unit :=
  res_forM (λ name,
    match facts !! name with
    | None => Ok tt
    | Some value =>
        guard_err (negb (FactType_Matches (default "" (c_OptionalFacts c !! name)) value))
          ErrValidationFailed
    end) (sorted_keys (c_OptionalFacts c)).

(** [validateNoUndeclaredFacts] *)
Definition validateNoUndeclaredFacts (c : Compiled) (facts : Facts) : res unit :=
  res_forM (λ name,
    if decide (is_Some (c_RequiredFacts c !! name)) then Ok tt
    else if decide (is_Some (c_OptionalFacts c !! name)) then Ok tt
    else Err (EIs ErrValidationFailed)) (sorted_keys facts).

Definition ValidateFacts (c : Compiled) (facts : Facts) : res unit :=
  validateRequiredFacts c facts ;;
  validateOptionalFacts c facts ;;
  if negb (c_StrictInput c) then Ok tt else validateNoUndeclaredFacts c facts.

(** ** The input contract *)
Record facts_contract (c : Compiled) (facts : Facts) : Prop := {
  fc_required : ∀ name t, c_RequiredFacts c !! name = Some t →
    ∃ v, facts !! name = Some v ∧ FactType_Matches t v = true;
  fc_optional : ∀ name t v, c_OptionalFacts c !! name = Some t →
    facts !! name = Some v → FactType_Matches t v = true;
  fc_strict : c_StrictInput c = true → ∀ name, is_Some (facts !! name) →
    is_Some (c_RequiredFacts c !! name) ∨ is_Some (c_OptionalFacts c !! name)
}.

Lemma validateRequiredFacts_Ok c facts u :
  validateRequiredFacts c facts = Ok u ↔
  ∀ name t, c_RequiredFacts c !! name = Some t →
    ∃ v, facts !! name = Some v ∧ FactType_Matches t v = true.
Proof.
  unfold validateRequiredFacts. rewrite res_forM_Ok, list.Forall_forall. split.
  - intros H name t Ht.
    assert (name ∈ sorted_keys (c_RequiredFacts c)) as Hin by by apply elem_of_sorted_keys.
    specialize (H name Hin). rewrite Ht in H.
    destruct (facts !! name) as [v|] eqn:E; [|done].
    apply guard_err_Ok, negb_false_iff in H. eauto.
  - intros H name [t Ht]%elem_of_sorted_keys.
    destruct (H name t Ht) as (v & -> & Hv). rewrite Ht. simpl. by rewrite Hv.
Qed.

Lemma validateOptionalFacts_Ok c facts u :
  validateOptionalFacts c facts = Ok u ↔
  ∀ name t v, c_OptionalFacts c !! name = Some t →
    facts !! name = Some v → FactType_Matches t v = true.
Proof.
  unfold validateOptionalFacts. rewrite res_forM_Ok, list.Forall_forall. split.
  - intros H name t v Ht Hv.
    assert (name ∈ sorted_keys (c_OptionalFacts c)) as Hin by by apply elem_of_sorted_keys.
    specialize (H name Hin). rewrite Ht, Hv in H.
    by apply guard_err_Ok, negb_false_iff in H.
  - intros H name [t Ht]%elem_of_sorted_keys. rewrite Ht.
    destruct (facts !! name) as [v|] eqn:E; [|done]. simpl. by rewrite (H name t v).
Qed.

Lemma validateNoUndeclaredFacts_Ok c facts u :
  validateNoUndeclaredFacts c facts = Ok u ↔
  ∀ name, is_Some (facts !! name) →
    is_Some (c_RequiredFacts c !! name) ∨ is_Some (c_OptionalFacts c !! name).
Proof.
  unfold validateNoUndeclaredFacts. rewrite res_forM_Ok, list.Forall_forall.
  setoid_rewrite elem_of_sorted_keys. split.
  - intros H name Hn. specialize (H name Hn). repeat case_decide; auto. done.
  - intros H name Hn. repeat case_decide; try done. by destruct (H name Hn).
Qed.

Lemma ValidateFacts_err c facts e :
  ValidateFacts c facts = Err e → e = EIs ErrValidationFailed.
Proof.
  unfold ValidateFacts.
  intros [H|([] & _ & [H|([] & _ & H)]%bind_Err)]%bind_Err.
  - apply res_forM_Err in H as (x & _ & H). case_match; [|congruence].
    by apply guard_err_Err in H as [_ ->].
  - apply res_forM_Err in H as (x & _ & H). case_match; [|done].
    by apply guard_err_Err in H as [_ ->].
  - case_match; [done|]. apply res_forM_Err in H as (x & _ & H).
    repeat case_decide; congruence.
Qed.

(** The facts check is exactly the declared contract, and every rejection is a
    validation failure. *)
Lemma ValidateFacts_iff c facts :
  ValidateFacts c facts = Ok tt ↔ facts_contract c facts.
Proof.
  unfold ValidateFacts. rewrite bind_Ok. split.
  - intros (? & H1 & (? & H2 & H3)%bind_Ok).
    rewrite validateRequiredFacts_Ok in H1. rewrite validateOptionalFacts_Ok in H2.
    split; [done|done|]. intros Hs. rewrite Hs in H3. simpl in H3.
    by rewrite validateNoUndeclaredFacts_Ok in H3.
  - intros [H1 H2 H3]. exists tt. rewrite validateRequiredFacts_Ok. split; [done|].
    rewrite bind_Ok. exists tt. rewrite validateOptionalFacts_Ok. split; [done|].
    destruct (c_StrictInput c); simpl; [|done]. apply validateNoUndeclaredFacts_Ok. auto.
Qed.

End Condition.
