(* ===== verification/CompileQuestion.v ===== *)
(** * Compiling questions

    [internal/pkg/policy/question_value.go] and the question half of
    [compile.go]: normalising structured instructions and criteria through
    [encoding/json], bounding them, and resolving the criteria shape of each
    question type. *)

From S2P Require Import Prelude GoFloat GoAny Decision Document.
From stdpp Require Import options.
#[local] Open Scope Z_scope.

Module CompileQuestion.

(** An error the caller replaces by its own sentinel. *)
Definition plain_error {A} : res A := Err (EForeign "ctxerrors.New").

(** [Wrapf(s, ..., err)]: the cause only survives as text. *)
Definition replace_err {A} (s : sentinel) (r : res A) : res A :=
  match r with Ok a => Ok a | Err _ => Err (EIs s) end.

(** ** Structured values *)

(** [validateQuestionValue] and [validateQuestionChildren]; the node counter the
    source shares through a pointer is threaded.  A map's children are visited in
    the order of its association list, where Go visits them in any order
    ([validateQuestionValue_Ok] shows the verdict is a function of the number of
    nodes and the height alone). *)
Fixpoint validateQuestionValue (value : goany) (depth nodes : Z) : res Z :=
  let nodes := nodes + 1 in
  let validateQuestionChildren :=
    res_foldM (λ nodes child, validateQuestionValue child (depth + 1) nodes) in
  if decide (MaxQuestionValueNodes < nodes) then Err (EIs ErrInvalidQuestion)
  else if decide (MaxQuestionValueDepth < depth) then Err (EIs ErrInvalidQuestion)
  else match value with
  | ANil | AString _ | ABool _ | ANumber _ => Ok nodes
  | ASlice typed => validateQuestionChildren nodes typed
  | AMap typed =>
      res_foldM (λ nodes kv, validateQuestionValue kv.2 (depth + 1) nodes) nodes typed
  | _ => plain_error
  end.

Definition normalizeQuestionValue (raw : goany) (allowNull : bool) : res goany :=
  if decide (raw = ANil) then
    if allowNull then Ok ANil else plain_error
  else match marshal raw with
  | None => plain_error
  | Some encoded =>
      match decode_any true encoded with
      | None => plain_error
      | Some normalized =>
          match normalized with
          | AString _ | AMap _ | ASlice _ =>
              validateQuestionValue normalized 1 0 ;; Ok normalized
          | _ => plain_error
          end
      end
  end.

(** Length of [json.Marshal(value)]. *)
Definition encoded_len (value : goany) : option Z :=
  (λ j, strlen (json_text j)) <$> marshal value.

Definition compileCriteriaValue (raw : goany) (allowNull : bool) : res goany :=
  value ← replace_err ErrInvalidQuestion (normalizeQuestionValue raw allowNull);
  match encoded_len value with
  | None => Err (EIs ErrInvalidQuestion)
  | Some n => guard_err (bool_decide (MaxCriteriaTextLength < n)) ErrInvalidQuestion ;; Ok value
  end.

(** ** Instructions *)
Definition compileQuestionInstructions (raw : goany) : res goany :=
  if decide (raw = ANil) then Ok ANil
  else
    instructions ← replace_err ErrInvalidQuestion (normalizeQuestionValue raw false);
    match encoded_len instructions with
    | None => Err (EIs ErrInvalidQuestion)
    | Some n =>
        guard_err (bool_decide (MaxInstructionsLength < n)) ErrInvalidQuestion ;; Ok instructions
    end.

(** ** Noul criteria *)
Definition noulCriteriaMap (raw : goany) : res (gmap string goany) :=
  match raw with
  | AMap source => Ok (list_to_map source)
  | AAnyMap source =>
      res_foldM (λ (criteria : gmap string goany) kv,
        match kv.1 with
        | AString typed => Ok (<[typed := kv.2]> criteria)
        | ABool typed => Ok (<[(if typed then "true" else "false") := kv.2]> criteria)
        | _ => plain_error
        end) ∅ source
  | _ => plain_error
  end.

Definition compileNoulCriteria (raw : goany) : res (option (gmap string goany)) :=
  if decide (raw = ANil) then Ok None
  else
    source ← replace_err ErrInvalidQuestion (noulCriteriaMap raw);
    criteria ← res_foldM (λ (criteria : gmap string goany) key,
      guard_err (negb (bool_decide (key = "true") || bool_decide (key = "false")))
        ErrInvalidQuestion ;;
      value ← compileCriteriaValue (default ANil (source !! key)) true;
      Ok (<[key := value]> criteria)) ∅ (sorted_keys source);
    Ok (Some criteria).

(** ** Choice criteria *)
Definition validateChoiceOptionKey (key : string) : res unit :=
  guard_err (negb (IsIdentifier key)) ErrInvalidQuestion.

Definition compileChoiceCriteria (raw : goany) : res (gmap string goany * list string) :=
  match raw with
  | AMap kvs =>
      let source : gmap string goany := list_to_map kvs in
      guard_err (bool_decide (msize source < MinChoiceCriteria) ||
                 bool_decide (MaxChoiceCriteria < msize source)) ErrInvalidQuestion ;;
      let keys := sorted_keys source in
      criteria ← res_foldM (λ (criteria : gmap string goany) key,
        validateChoiceOptionKey key ;;
        description ← compileCriteriaValue (default ANil (source !! key)) true;
        Ok (<[key := description]> criteria)) ∅ keys;
      Ok (criteria, keys)
  | _ => Err (EIs ErrInvalidQuestion)
  end.

(** ** Score criteria *)
Definition compileScoreCriteria (raw : goany) : res (list goany) :=
  match raw with
  | ASlice source =>
      guard_err (bool_decide (len source < MinScoreCriteria) ||
                 bool_decide (MaxScoreCriteria < len source)) ErrInvalidQuestion ;;
      res_mapM (λ entry, compileCriteriaValue entry false) source
  | _ => Err (EIs ErrInvalidQuestion)
  end.

(** ** Questions *)
Definition compileQuestionCriteria (question : Question) (compiled : CompiledQuestion)
  : res CompiledQuestion :=
  let 'MkCompiledQuestion id ty instructions noul choice keys score := compiled in
  if decide (q_Type question = QuestionTypeNoul) then
    criteria ← compileNoulCriteria (q_Criteria question);
    Ok (MkCompiledQuestion id ty instructions criteria choice keys score)
  else if decide (q_Type question = QuestionTypeChoice) then
    r ← compileChoiceCriteria (q_Criteria question);
    Ok (MkCompiledQuestion id ty instructions noul r.1 r.2 score)
  else if decide (q_Type question = QuestionTypeScore) then
    levels ← compileScoreCriteria (q_Criteria question);
    Ok (MkCompiledQuestion id ty instructions noul choice keys levels)
  else Err (EIs ErrInvalidQuestion).

Definition compileQuestion (id : string) (question : Question) : res CompiledQuestion :=
  guard_err (negb (IsIdentifier id)) ErrInvalidQuestion ;;
  guard_err (negb (QuestionType_IsValid (q_Type question))) ErrInvalidQuestion ;;
  instructions ← compileQuestionInstructions (q_Instructions question);
  compileQuestionCriteria question
    (MkCompiledQuestion id (q_Type question) instructions None ∅ [] []).

(** ** The bound on structured values *)

(** Nodes and height of a value. *)
Definition zmax0 (l : list Z) : Z := foldr Z.max 0 l.
Definition zsum (l : list Z) : Z := foldr Z.add 0 l.

Fixpoint node_count (v : goany) : Z :=
  1 + match v with
      | ASlice l => zsum (node_count <$> l)
      | AMap kvs => zsum ((λ kv, node_count kv.2) <$> kvs)
      | _ => 0
      end.

Fixpoint height (v : goany) : Z :=
  1 + match v with
      | ASlice l => zmax0 (height <$> l)
      | AMap kvs => zmax0 ((λ kv, height kv.2) <$> kvs)
      | _ => 0
      end.

(** The dynamic types a JSON decoder with [UseNumber] produces. *)
Fixpoint json_value (v : goany) : bool :=
  match v with
  | ANil | AString _ | ABool _ | ANumber _ => true
  | ASlice l => forallb json_value l
  | AMap kvs => forallb (λ kv, json_value kv.2) kvs
  | _ => false
  end.

(** No number of the value has an empty text. *)
Fixpoint numbers_present (v : goany) : bool :=
  match v with
  | ANumber t => negb (bool_decide (t = ""))
  | ASlice l => forallb numbers_present l
  | AMap kvs => forallb (λ kv, numbers_present kv.2) kvs
  | _ => true
  end.

Lemma node_count_pos v : 1 ≤ node_count v.
Proof.
  induction v using goany_ind; simpl; try lia.
  - cut (0 ≤ zsum (node_count <$> l)); [lia|].
    clear -H; induction H; csimpl in *; lia.
  - cut (0 ≤ zsum ((λ kv, node_count kv.2) <$> kvs)); [lia|].
    clear -H; induction H; csimpl in *; lia.
Qed.

Lemma zmax0_nonneg l : 0 ≤ zmax0 l.
Proof. induction l; simpl; lia. Qed.

Lemma height_pos v : 1 ≤ height v.
Proof.
  destruct v; simpl; try lia;
    match goal with |- context [zmax0 ?l] => pose proof (zmax0_nonneg l) end; lia.
Qed.

(** The loop over children, for any child measure. *)
Lemma validate_children {A} (f : Z → A → res Z) (cnt hgt : A → Z) depth l nodes nodes' :
  Forall (λ x, ∀ n n', n ≤ MaxQuestionValueNodes →
    f n x = Ok n' ↔ n' = n + cnt x ∧ n' ≤ MaxQuestionValueNodes ∧
      depth + hgt x ≤ MaxQuestionValueDepth) l →
  Forall (λ x, 0 ≤ cnt x) l →
  nodes ≤ MaxQuestionValueNodes →
  depth ≤ MaxQuestionValueDepth →
  res_foldM f nodes l = Ok nodes' ↔
  nodes' = nodes + zsum (cnt <$> l) ∧ nodes' ≤ MaxQuestionValueNodes ∧
  depth + zmax0 (hgt <$> l) ≤ MaxQuestionValueDepth.
Proof.
  intros Hf Hc. revert nodes. induction Hf as [|x l Hx Hl IH]; intros nodes Hn Hd; csimpl.
  - split; [intros [= <-]; lia|]. intros (-> & _ & _). f_equal; lia.
  - inversion Hc as [|? ? Hcx Hcl]; subst.
    assert (0 ≤ zsum (cnt <$> l)) by (clear -Hcl; induction Hcl; csimpl in *; lia).
    rewrite bind_Ok. split.
    + intros (n1 & H1 & H2). apply Hx in H1; [|done].
      apply IH in H2; [|done|lia|done]. lia.
    + intros (-> & ? & ?). exists (nodes + cnt x). split; [apply Hx; lia|].
      apply IH; [done|lia|done|lia].
Qed.

Lemma validateQuestionValue_Ok v depth nodes nodes' :
  json_value v = true → nodes ≤ MaxQuestionValueNodes →
  validateQuestionValue v depth nodes = Ok nodes' ↔
  nodes' = nodes + node_count v ∧ nodes' ≤ MaxQuestionValueNodes ∧
  depth + height v - 1 ≤ MaxQuestionValueDepth.
Proof.
  revert depth nodes nodes'.
  induction v as [| | | | | | | | | | |l IH|kvs IH|] using goany_ind;
    intros depth nodes nodes' Hv Hn; try discriminate Hv.
  1-4: simpl; repeat case_decide; split; intros H'; try lia; try (simplify_eq; lia);
    try (f_equal; lia).
  - simpl in *. pose proof (zmax0_nonneg (height <$> l)).
    assert (0 ≤ zsum (node_count <$> l)).
    { clear. induction l as [|x l]; csimpl; [done|]. pose proof (node_count_pos x). lia. }
    repeat case_decide; [split; [done|lia]|split; [done|lia]|].
    rewrite (validate_children _ node_count height depth); [lia| | |lia|lia].
    + apply list.Forall_forall. intros x Hx n n' Hn'.
      rewrite forallb_forall in Hv. rewrite list.Forall_forall in IH.
      rewrite IH; [lia|done| |done]. apply Hv. by apply list_elem_of_In.
    + apply list.Forall_forall. intros x _. pose proof (node_count_pos x). lia.
  - simpl in *. pose proof (zmax0_nonneg ((λ kv, height kv.2) <$> kvs)).
    assert (0 ≤ zsum ((λ kv, node_count kv.2) <$> kvs)).
    { clear. induction kvs as [|x l]; csimpl; [done|]. pose proof (node_count_pos x.2). lia. }
    repeat case_decide; [split; [done|lia]|split; [done|lia]|].
    rewrite (validate_children _ (λ kv, node_count kv.2) (λ kv, height kv.2) depth);
      [lia| | |lia|lia].
    + apply list.Forall_forall. intros x Hx n n' Hn'.
      rewrite forallb_forall in Hv. rewrite list.Forall_forall in IH.
      rewrite IH; [lia|done| |done]. apply (Hv x). by apply list_elem_of_In.
    + apply list.Forall_forall. intros x _. pose proof (node_count_pos x.2). lia.
Qed.

(** ** What normalisation leaves *)

(** The texts of the numbers of a tree. *)
Fixpoint tree_numbers_present (j : json) : bool :=
  match j with
  | JNum t => negb (bool_decide (t = ""))
  | JArr l => forallb tree_numbers_present l
  | JObj l => forallb (λ kv, tree_numbers_present kv.2) l
  | _ => true
  end.

Lemma append_not_empty a b : b ≠ "" → a +:+ b ≠ "".
Proof. by destruct a. Qed.

Lemma string_of_Z_not_empty z : string_of_Z z ≠ "".
Proof.
  unfold string_of_Z. destruct z as [|p|p]; simpl; try done.
  pose proof (DecimalPos.Unsigned.to_uint_nonnil p) as Hn.
  destruct (Pos.to_uint p) eqn:E; simpl; try done.
Qed.

Lemma prepend_not_empty a b : a ≠ "" → a +:+ b ≠ "".
Proof. by destruct a. Qed.

Lemma float_text_not_empty prec emax f t : json_float_text prec emax f = Some t → t ≠ "".
Proof.
  destruct f as [[]|s| |s m e]; cbn; try (by intros [= <-]); try done.
  destruct (shortest prec emax m e) as [d k]. intros [= <-]. apply append_not_empty.
  pose proof (string_of_Z_not_empty d) as Hd. set (ds := string_of_Z d) in *. clearbody ds.
  case_match; [unfold exp_text|unfold plain_text; repeat case_match; [by apply prepend_not_empty|done|]];
    repeat (apply append_not_empty; try done); by case_match.
Qed.

Lemma marshal_numbers_present v : ∀ j, marshal v = Some j → tree_numbers_present j = true.
Proof.
  induction v as [| | | | | | | | | | |l IH|kvs IH|] using goany_ind; simpl; intros j Hj;
    try (by injection Hj as <-); try done.
  - apply fmap_Some in Hj as (t & Ht%float_text_not_empty & ->). simpl. by rewrite bool_decide_eq_false_2.
  - apply fmap_Some in Hj as (t & Ht%float_text_not_empty & ->). simpl. by rewrite bool_decide_eq_false_2.
  - injection Hj as <-. simpl. rewrite bool_decide_eq_false_2 by apply string_of_Z_not_empty. done.
  - injection Hj as <-. simpl. rewrite bool_decide_eq_false_2 by apply string_of_Z_not_empty. done.
  - injection Hj as <-. simpl. rewrite bool_decide_eq_false_2 by apply string_of_Z_not_empty. done.
  - injection Hj as <-. simpl. rewrite bool_decide_eq_false_2 by apply string_of_Z_not_empty. done.
  - case_decide; [by injection Hj as <-|]. destruct (is_valid_number _); [|done]. injection Hj as <-.
    simpl. by rewrite bool_decide_eq_false_2.
  - apply fmap_Some in Hj as (k & Hk%mapM_Some & ->). simpl.
    induction Hk as [|x y l k Hxy _ IHk]; simpl; [done|]. inversion IH; subst.
    rewrite (H1 _ Hxy). by apply IHk.
  - apply fmap_Some in Hj as (k & Hk%mapM_Some & ->). simpl.
    induction Hk as [|x y l k Hxy _ IHk]; simpl; [done|]. inversion IH; subst.
    apply fmap_Some in Hxy as (z & Hz & ->). simpl. rewrite (H1 _ Hz). by apply IHk.
Qed.

Lemma amap_insert_forallb (f : goany → bool) k v m :
  f v = true → forallb (λ kv : string * goany, f kv.2) m = true →
  forallb (λ kv : string * goany, f kv.2) (amap_insert k v m) = true.
Proof.
  intros Hv. induction m as [|[k' v'] m IH]; simpl; [by rewrite Hv|].
  intros [H1 H2]%andb_true_iff. destruct (String.compare k k'); simpl; rewrite ?Hv, ?H1; auto.
Qed.

(** What [UseNumber] decodes is a JSON value whose numbers have a text. *)
Lemma decode_any_json_value j : ∀ v, tree_numbers_present j = true → decode_any true j = Some v →
  json_value v = true ∧ numbers_present v = true.
Proof.
  induction j as [| | | |l IH|l IH] using json_ind; simpl; intros v Hn H.
  1-4: by injection H as <-.
  - apply fmap_Some in H as (k & Hk%mapM_Some & ->). simpl.
    induction Hk as [|x y l k Hxy _ IHk]; simpl; [done|]. inversion IH; subst.
    apply andb_true_iff in Hn as [Hx Hl]. destruct (H1 _ Hx Hxy) as [-> ->]. by apply IHk.
  - apply fmap_Some in H as (k & Hk%mapM_Some & ->). simpl.
    assert (forallb (λ kv, json_value kv.2) k = true ∧ forallb (λ kv, numbers_present kv.2) k = true) as [Hj Hp].
    { induction Hk as [|x y l k Hxy _ IHk]; simpl; [done|]. inversion IH; subst.
      apply andb_true_iff in Hn as [Hx Hl]. apply fmap_Some in Hxy as (z & Hz & ->). simpl.
      destruct (H1 _ Hx Hz) as [-> ->]. by apply IHk. }
    clear Hk IH Hn. assert (∀ f : goany → bool, forallb (λ kv, f kv.2) k = true →
      forallb (λ kv, f kv.2) (foldl (λ m kv, amap_insert (utf8_sanitize kv.1) kv.2 m) [] k) = true) as Hfold.
    { intros f. assert (forallb (λ kv : string * goany, f kv.2) [] = true) as H0 by done. revert H0.
      generalize (@nil (string * goany)) as acc. clear Hj Hp. induction k as [|[s x] k IHk]; intros acc Ha Hk; simpl; [done|].
      simpl in Hk. apply andb_true_iff in Hk as [Hx Hk]. apply IHk; [by apply amap_insert_forallb|done]. }
    split; by apply Hfold.
Qed.

(** A value that is accepted is absent or within its ceilings. *)
Lemma normalizeQuestionValue_inv raw allowNull v : normalizeQuestionValue raw allowNull = Ok v →
  (v = ANil ∧ allowNull = true) ∨
  match v with AString _ | AMap _ | ASlice _ => True | _ => False end ∧
  json_value v = true ∧ numbers_present v = true ∧
  node_count v <= MaxQuestionValueNodes ∧ height v <= MaxQuestionValueDepth.
Proof.
  unfold normalizeQuestionValue. case_decide; [destruct allowNull; [intros [= <-]; by left|done]|].
  destruct (marshal raw) as [j|] eqn:Ej; [|done]. destruct (decode_any true j) as [w|] eqn:Ew; [|done].
  intros Hv. right.
  destruct (decode_any_json_value j w (marshal_numbers_present _ _ Ej) Ew) as [Hj Hp].
  assert (match w with AString _ | AMap _ | ASlice _ => True | _ => False end ∧
    ∃ n, validateQuestionValue w 1 0 = Ok n ∧ v = w) as (Hs & n & Hn & ->).
  { destruct w; try discriminate Hv; apply bind_Ok in Hv as (n & ? & [= <-]); eauto. }
  apply validateQuestionValue_Ok in Hn as (-> & ? & ?); [|done|done].
  split_and!; [done..| |]; lia.
Qed.

End CompileQuestion.
