(* ===== verification/CompileCondition.v ===== *)
(** * Compiling conditions

    [internal/pkg/policy/compile_condition.go]: the shape check of a condition
    node, the combinators, operand resolution against the declared facts and
    questions, and the type check of right-hand values. *)

From S2P Require Import Prelude GoFloat GoAny Decision Document.
From stdpp Require Import options.
#[local] Open Scope Z_scope.

Module CompileCondition.

(** [minProbability] and [maxProbability] *)
Definition minProbability : float64 := f64_zero.
Definition maxProbability : float64 := f64_one.

Definition rulePhase : Set := string.
Definition rulePhasePre : rulePhase := "preRules".
Definition rulePhaseDecision : rulePhase := "decisionRules".
Definition allowsAnswers (p : rulePhase) : bool := bool_decide (p = rulePhaseDecision).

Section compiler.
  (** The declarations the compiler has resolved so far. *)
  Context (facts : gmap string FactType) (questions : gmap string CompiledQuestion).

  (** ** Operands *)
Definition resolveFactOperand (operand : Operand) : res CompiledOperand :=
    guard_err (negb (bool_decide (opd_Field operand = "")) ||
               negb (bool_decide (opd_ProbabilityKey operand = ""))) ErrInvalidCondition ;;
    match facts !! opd_Fact operand with
    | None => Err (EIs ErrUnknownReference)
    | Some factType =>
        Ok (MkCompiledOperand operandKindFact (opd_Fact operand) factType "" "" "" "")
    end.

Definition validateNoProbabilityKey (operand : Operand) : res string :=
    if decide (opd_ProbabilityKey operand = "") then Ok "" else Err (EIs ErrInvalidCondition).

Definition validateChoiceProbabilityKey (question : CompiledQuestion) (operand : Operand)
    : res string :=
    guard_err (negb (IsIdentifier (opd_ProbabilityKey operand))) ErrInvalidCondition ;;
    guard_err (bool_decide (cq_ChoiceCriteria question !! opd_ProbabilityKey operand = None))
      ErrUnknownReference ;;
    Ok (opd_ProbabilityKey operand).

Definition validateScoreProbabilityKey (question : CompiledQuestion) (operand : Operand)
    : res string :=
    match Atoi (opd_ProbabilityKey operand) with
    | None => Err (EIs ErrInvalidCondition)
    | Some level =>
        guard_err (negb (bool_decide (0 <= level) &&
                         bool_decide (Itoa level = opd_ProbabilityKey operand)))
          ErrInvalidCondition ;;
        guard_err (bool_decide (len (cq_ScoreCriteria question) <= level)) ErrUnknownReference ;;
        Ok (opd_ProbabilityKey operand)
    end.

Definition validateProbabilityKey (question : CompiledQuestion) (operand : Operand)
    : res string :=
    if negb (bool_decide (opd_Field operand = AnswerFieldProbability)) then
      validateNoProbabilityKey operand
    else
      guard_err (bool_decide (opd_ProbabilityKey operand = "")) ErrInvalidCondition ;;
      guard_err (bool_decide (MaxIdentifierLength < strlen (opd_ProbabilityKey operand)))
        ErrInvalidCondition ;;
      if decide (cq_Type question = QuestionTypeChoice) then
        validateChoiceProbabilityKey question operand
      else if decide (cq_Type question = QuestionTypeScore) then
        validateScoreProbabilityKey question operand
      else if decide (cq_Type question = QuestionTypeNoul) then Err (EIs ErrTypeMismatch)
      else Err (EIs ErrInvalidCondition).

Definition resolveAnswerOperand (operand : Operand) (phase : rulePhase)
    : res CompiledOperand :=
    guard_err (negb (allowsAnswers phase)) ErrInvalidCondition ;;
    match questions !! opd_Answer operand with
    | None => Err (EIs ErrUnknownReference)
    | Some question =>
        guard_err (negb (AnswerField_IsValid (opd_Field operand))) ErrInvalidCondition ;;
        guard_err (negb (AvailableOn (opd_Field operand) (cq_Type question)))
          ErrTypeMismatch ;;
        probabilityKey ← validateProbabilityKey question operand;
        Ok (MkCompiledOperand operandKindAnswer "" "" (opd_Answer operand)
              (opd_Field operand) (cq_Type question) probabilityKey)
    end.

Definition resolveOperand (operand : Operand) (phase : rulePhase) : res CompiledOperand :=
    let hasFact := negb (bool_decide (opd_Fact operand = "")) in
    let hasAnswer := negb (bool_decide (opd_Answer operand = "")) in
    guard_err (eqb hasFact hasAnswer) ErrInvalidCondition ;;
    if hasFact then resolveFactOperand operand else resolveAnswerOperand operand phase.

  (** ** Right-hand values *)
Definition compileExistsRight (raw : goany) : res bool :=
    match raw with
    | ANil => Ok true
    | ABool expected => Ok expected
    | _ => Err (EIs ErrInvalidCondition)
    end.

Definition checkNumberFactRightValue (raw : goany) : res goany :=
    match AsNumber raw with
    | None => Err (EIs ErrTypeMismatch)
    | Some number => Ok (AFloat64 number)
    end.

Definition checkStringFactRightValue (raw : goany) (op : Operator) : res goany :=
    guard_err (IsOrdering op) ErrTypeMismatch ;;
    match raw with
    | AString text =>
        guard_err (bool_decide (MaxStringValueLength < strlen text)) ErrInvalidCondition ;;
        Ok (AString text)
    | _ => Err (EIs ErrTypeMismatch)
    end.

Definition checkBooleanFactRightValue (raw : goany) (op : Operator) : res goany :=
    guard_err (negb (bool_decide (op = OperatorEq)) && negb (bool_decide (op = OperatorNeq)))
      ErrTypeMismatch ;;
    match raw with
    | ABool value => Ok (ABool value)
    | _ => Err (EIs ErrTypeMismatch)
    end.

Definition checkFactRightValue (raw : goany) (operand : CompiledOperand) (op : Operator)
    : res goany :=
    if decide (co_factType operand = FactTypeNumber) then checkNumberFactRightValue raw
    else if decide (co_factType operand = FactTypeString) then
      checkStringFactRightValue raw op
    else if decide (co_factType operand = FactTypeBoolean) then
      checkBooleanFactRightValue raw op
    else Err (EIs ErrTypeMismatch).

Definition checkNumericAnswerRange (number : float64) (operand : CompiledOperand) : res unit :=
    if bool_decide (co_field operand = AnswerFieldConfidence) ||
       bool_decide (co_field operand = AnswerFieldNoul) ||
       bool_decide (co_field operand = AnswerFieldProbability)
    then guard_err (f64_ltb number minProbability || f64_ltb maxProbability number)
           ErrInvalidCondition
    else Ok tt.

Definition checkChoiceRightValue (raw : goany) (operand : CompiledOperand) (op : Operator)
    : res goany :=
    guard_err (IsOrdering op) ErrTypeMismatch ;;
    match raw with
    | AString key =>
        let declared := cq_ChoiceCriteria <$> questions !! co_questionID operand in
        guard_err (bool_decide (default ∅ declared !! key = None)) ErrUnknownReference ;;
        Ok (AString key)
    | _ => Err (EIs ErrTypeMismatch)
    end.

Definition checkAnswerRightValue (raw : goany) (operand : CompiledOperand) (op : Operator)
    : res goany :=
    if decide (co_field operand = AnswerFieldChoice) then checkChoiceRightValue raw operand op
    else match AsNumber raw with
    | None => Err (EIs ErrTypeMismatch)
    | Some number => checkNumericAnswerRange number operand ;; Ok (AFloat64 number)
    end.

Definition checkRightValue (raw : goany) (operand : CompiledOperand) (op : Operator)
    : res goany :=
    if decide (co_kind operand = operandKindFact) then checkFactRightValue raw operand op
    else checkAnswerRightValue raw operand op.

Definition compileRightList (raw : goany) (operand : CompiledOperand) : res (list goany) :=
    match raw with
    | ASlice entries =>
        guard_err (bool_decide (len entries = 0)) ErrInvalidCondition ;;
        guard_err (bool_decide (MaxRightListLength < len entries)) ErrInvalidCondition ;;
        res_mapM (λ entry, checkRightValue entry operand OperatorIn) entries
    | _ => Err (EIs ErrInvalidCondition)
    end.

Definition compileRightScalar (raw : goany) (operand : CompiledOperand) (op : Operator)
    : res goany :=
    if decide (raw = ANil) then Err (EIs ErrInvalidCondition)
    else checkRightValue raw operand op.

  (** ** Leaves *)
Definition compileExistsLeaf (op : Operator) (rhs : goany) (operand : CompiledOperand)
    : res CompiledCondition :=
    expected ← compileExistsRight rhs;
    guard_err (bool_decide (co_kind operand = operandKindAnswer) &&
               negb (bool_decide (co_field operand = AnswerFieldConfidence)))
      ErrInvalidCondition ;;
    Ok (CC conditionKindLeaf [] operand op ANil [] expected).

Definition compileInLeaf (op : Operator) (rhs : goany) (operand : CompiledOperand)
    : res CompiledCondition :=
    list ← compileRightList rhs operand;
    Ok (CC conditionKindLeaf [] operand op ANil list false).

Definition compileScalarLeaf (rhs : goany) (operand : CompiledOperand) (op : Operator)
    : res CompiledCondition :=
    scalar ← compileRightScalar rhs operand op;
    Ok (CC conditionKindLeaf [] operand op scalar [] false).

  (** The dereference of [condition.Left] is safe: the shape check found it set. *)
Definition compileLeaf (lhs : Operand) (op : Operator) (rhs : goany) (phase : rulePhase)
    : res CompiledCondition :=
    guard_err (negb (Operator_IsValid op)) ErrInvalidCondition ;;
    operand ← resolveOperand lhs phase;
    if decide (op = OperatorExists) then compileExistsLeaf op rhs operand
    else if decide (op = OperatorIn) then compileInLeaf op rhs operand
    else if decide (op ∈ [OperatorEq; OperatorNeq; OperatorLt; OperatorLte; OperatorGt;
                          OperatorGte]) then compileScalarLeaf rhs operand op
    else Err (EIs ErrInvalidCondition).

  (** ** Nodes *)
Definition compileCombinator (compileChild : Condition → res CompiledCondition)
    (children : list Condition) (kind : conditionKind) : res CompiledCondition :=
    guard_err (bool_decide (MaxConditionsPerOp < len children)) ErrInvalidCondition ;;
    compiled ← res_mapM compileChild children;
    Ok (CC kind compiled zeroOperand "" ANil [] false).

Definition branches (c : Condition) : Z :=
    (if bool_decide (0 < len (cond_All c)) then 1 else 0) +
    (if bool_decide (0 < len (cond_Any c)) then 1 else 0) +
    (if cond_Not c then 1 else 0) + (if cond_Left c then 1 else 0).

Fixpoint compileCondition (phase : rulePhase) (condition : Condition) (depth : Z)
    : res CompiledCondition :=
    let 'Cond all any not lhs op rhs := condition in
    let child := λ c, compileCondition phase c (depth + 1) in
    guard_err (bool_decide (MaxConditionDepth < depth)) ErrInvalidCondition ;;
    guard_err (negb (bool_decide (branches condition = 1))) ErrInvalidCondition ;;
    if decide (0 < len all) then compileCombinator child all conditionKindAll
    else if decide (0 < len any) then compileCombinator child any conditionKindAny
    else match not with
    | Some n =>
        (* compileCombinator on the one-element slice; its length check cannot fire *)
        compiled ← child n;
        Ok (CC conditionKindNot [compiled] zeroOperand "" ANil [] false)
    | None =>
        match lhs with
        | Some l => compileLeaf l op rhs phase
        | None => Err (EForeign "nil dereference") (* excluded by branches = 1 *)
        end
    end.
End compiler.

End CompileCondition.
