(* ===== verification/Canonical.v ===== *)
(** * The canonical form and its hash

    [internal/pkg/policy/hash.go]: the projection of a compiled policy that is
    hashed, its JSON text as [encoding/json] renders the tagged structs
    ([omitempty] included), and the hexadecimal SHA-256 of that text. *)

From S2P Require Import Prelude GoFloat GoAny Decision Document.
From stdpp Require Import options.

Module Canonical.

(** ** The tagged structs *)
#[local] Unset Elimination Schemes.
Inductive canonicalCondition : Set := MkCanonicalCondition {
  cnc_Kind : string;
  cnc_Children : list canonicalCondition;
  cnc_Fact : string;
  cnc_Question : string;
  cnc_Field : string;
  cnc_ProbabilityKey : string;
  cnc_Op : string;
  cnc_RightScalar : goany;
  cnc_RightList : list goany;
  cnc_RightBool : bool
}.
#[local] Set Elimination Schemes.

Record canonicalRule : Set := MkCanonicalRule {
  cnr_ID : string;
  cnr_Description : string;
  cnr_Outcome : Outcome;
  cnr_When : option canonicalCondition
}.

Record canonicalQuestion : Set := MkCanonicalQuestion {
  cnq_ID : string;
  cnq_Type : QuestionType;
  cnq_Instructions : goany;
  cnq_NoulCriteria : option (gmap string goany);
  cnq_ChoiceCriteria : gmap string goany;
  cnq_ScoreCriteria : list goany
}.

Record canonicalPolicy : Set := MkCanonicalPolicy {
  cn_APIVersion : string;
  cn_Kind : string;
  cn_Name : string;
  cn_Version : string;
  cn_Description : string;
  cn_Model : string;
  cn_Outcomes : list Outcome;
  cn_DefaultOutcome : Outcome;
  cn_RequiredFacts : gmap string FactType;
  cn_OptionalFacts : gmap string FactType;
  cn_StrictInput : bool;
  cn_Questions : list canonicalQuestion;
  cn_PreRules : list canonicalRule;
  cn_DecisionRules : list canonicalRule
}.

(** ** The projection *)
Definition conditionKindName (kind : conditionKind) : string :=
  match kind with
  | conditionKindAll => "all"
  | conditionKindAny => "any"
  | conditionKindNot => "not"
  | conditionKindLeaf => "leaf"
  end.

Fixpoint canonicalizeCondition (condition : CompiledCondition) : canonicalCondition :=
  let 'CC kind children operand op rightScalar rightList rightBool := condition in
  match children with
  | _ :: _ =>
      MkCanonicalCondition (conditionKindName kind) (map canonicalizeCondition children)
        "" "" "" "" "" ANil [] false
  | [] =>
      match co_kind operand with
      | operandKindFact =>
          MkCanonicalCondition (conditionKindName kind) [] (co_factName operand) "" "" ""
            op rightScalar rightList rightBool
      | operandKindAnswer =>
          MkCanonicalCondition (conditionKindName kind) [] "" (co_questionID operand)
            (co_field operand) (co_probabilityKey operand) op rightScalar rightList rightBool
      end
  end.

Definition canonicalRules (rules : list CompiledRule) : list canonicalRule :=
  (λ rule, MkCanonicalRule (cr_ID rule) (cr_Description rule) (cr_Outcome rule)
             (canonicalizeCondition <$> cr_Condition rule)) <$> rules.

(** The zero [CompiledQuestion], read by an index of the questions map that is absent. *)
Definition zeroQuestion : CompiledQuestion :=
  MkCompiledQuestion "" "" ANil None ∅ [] [].

Definition canonicalQuestions (compiled : Compiled) : list canonicalQuestion :=
  (λ id, let question := default zeroQuestion (c_Questions compiled !! id) in
         MkCanonicalQuestion (cq_ID question) (cq_Type question) (cq_Instructions question)
           (cq_NoulCriteria question) (cq_ChoiceCriteria question)
           (cq_ScoreCriteria question)) <$> c_QuestionIDs compiled.

Definition canonicalForm (compiled : Compiled) : canonicalPolicy :=
  {| cn_APIVersion := APIVersion;
     cn_Kind := Kind;
     cn_Name := ref_Name (c_Ref compiled);
     cn_Version := ref_Version (c_Ref compiled);
     cn_Description := c_Description compiled;
     cn_Model := c_Model compiled;
     cn_Outcomes := c_Outcomes compiled;
     cn_DefaultOutcome := c_DefaultOutcome compiled;
     cn_RequiredFacts := c_RequiredFacts compiled;
     cn_OptionalFacts := c_OptionalFacts compiled;
     cn_StrictInput := c_StrictInput compiled;
     cn_Questions := canonicalQuestions compiled;
     cn_PreRules := canonicalRules (c_PreRules compiled);
     cn_DecisionRules := canonicalRules (c_DecisionRules compiled) |}.

(** ** Its JSON tree *)

(** One field of a struct; [None] is a marshalling error. *)
Definition field (name : string) (v : option json) : option (list (string * json)) :=
  (λ j, [(name, j)]) <$> v.
(** A field tagged [omitempty]. *)
Definition field_omitempty (empty : bool) (name : string) (v : option json)
  : option (list (string * json)) :=
  if empty then Some [] else field name v.
Definition struct (fields : list (option (list (string * json)))) : option json :=
  (λ l, JObj (List.concat l)) <$> mapM id fields.

Definition jstr (s : string) : option json := Some (JStr s).
Definition jarr (l : list (option json)) : option json := JArr <$> mapM id l.

(** A [map[string]any] or [map[string]T], in key order. *)
Definition jmap {V} (f : V → option json) (m : gmap string V) : option json :=
  JObj <$> mapM (λ kv, (λ j, (kv.1, j)) <$> f kv.2) (amap_of m).

Definition is_empty_string (s : string) : bool := bool_decide (s = "").
Definition is_nil {A} (l : list A) : bool := match l with [] => true | _ => false end.

Fixpoint condition_json (c : canonicalCondition) : option json :=
  struct [
    field "kind" (jstr (cnc_Kind c));
    field_omitempty (is_nil (cnc_Children c)) "children"
      (jarr (map condition_json (cnc_Children c)));
    field_omitempty (is_empty_string (cnc_Fact c)) "fact" (jstr (cnc_Fact c));
    field_omitempty (is_empty_string (cnc_Question c)) "question" (jstr (cnc_Question c));
    field_omitempty (is_empty_string (cnc_Field c)) "field" (jstr (cnc_Field c));
    field_omitempty (is_empty_string (cnc_ProbabilityKey c)) "probabilityKey"
      (jstr (cnc_ProbabilityKey c));
    field_omitempty (is_empty_string (cnc_Op c)) "op" (jstr (cnc_Op c));
    field_omitempty (bool_decide (cnc_RightScalar c = ANil)) "rightScalar"
      (marshal (cnc_RightScalar c));
    field_omitempty (is_nil (cnc_RightList c)) "rightList"
      (jarr (marshal <$> cnc_RightList c));
    field_omitempty (negb (cnc_RightBool c)) "rightBool" (Some (JBool (cnc_RightBool c)))].

Definition rule_json (r : canonicalRule) : option json :=
  struct [
    field "id" (jstr (cnr_ID r));
    field "description" (jstr (cnr_Description r));
    field "outcome" (jstr (cnr_Outcome r));
    match cnr_When r with
    | None => Some []
    | Some c => field "when" (condition_json c)
    end].

Definition question_json (q : canonicalQuestion) : option json :=
  let noul := default ∅ (cnq_NoulCriteria q) in
  struct [
    field "id" (jstr (cnq_ID q));
    field "type" (jstr (cnq_Type q));
    field_omitempty (bool_decide (cnq_Instructions q = ANil)) "instructions"
      (marshal (cnq_Instructions q));
    field_omitempty (bool_decide (noul = ∅)) "noulCriteria" (jmap marshal noul);
    field_omitempty (bool_decide (cnq_ChoiceCriteria q = ∅)) "choiceCriteria"
      (jmap marshal (cnq_ChoiceCriteria q));
    field_omitempty (is_nil (cnq_ScoreCriteria q)) "scoreCriteria"
      (jarr (marshal <$> cnq_ScoreCriteria q))].

Definition policy_json (p : canonicalPolicy) : option json :=
  struct [
    field "apiVersion" (jstr (cn_APIVersion p));
    field "kind" (jstr (cn_Kind p));
    field "name" (jstr (cn_Name p));
    field "version" (jstr (cn_Version p));
    field "description" (jstr (cn_Description p));
    field "model" (jstr (cn_Model p));
    field "outcomes" (jarr (jstr <$> cn_Outcomes p));
    field "defaultOutcome" (jstr (cn_DefaultOutcome p));
    field "requiredFacts" (jmap jstr (cn_RequiredFacts p));
    field "optionalFacts" (jmap jstr (cn_OptionalFacts p));
    field "strictInput" (Some (JBool (cn_StrictInput p)));
    field "questions" (jarr (question_json <$> cn_Questions p));
    field "preRules" (jarr (rule_json <$> cn_PreRules p));
    field "decisionRules" (jarr (rule_json <$> cn_DecisionRules p))].

(** [canonicalize] *)
Definition canonicalize (compiled : Compiled) : res (string * string) :=
  match policy_json (canonicalForm compiled) with
  | None => Err (EForeign "json: unsupported value")
  | Some tree =>
      let encoded := json_text tree in
      Ok (encoded, sha256_hex encoded)
  end.

End Canonical.
