(* ===== verification/Compile.v ===== *)
(** * The policy compiler

    [internal/pkg/policy/compile.go]: document identity, metadata, outcomes,
    facts, questions and rules, in the order [compileStages] runs them.  What the
    Go [compiler] struct accumulates through pointers is threaded: the fact map,
    the question map and the rule identifiers seen so far. *)

From S2P Require Import Prelude GoFloat GoAny Decision Document CompileQuestion.
From S2P Require Import CompileCondition Canonical.
From stdpp Require Import options.
#[local] Open Scope Z_scope.

Module Compile.
Import CompileQuestion CompileCondition Canonical.

Definition validateDocumentIdentity (doc : option Document) : res Document :=
  match doc with
  | None => Err (EIs ErrInvalidDocument)
  | Some doc =>
      guard_err (negb (bool_decide (doc_APIVersion doc = APIVersion)))
        ErrUnsupportedAPIVersion ;;
      guard_err (negb (bool_decide (doc_Kind doc = Kind))) ErrUnsupportedKind ;;
      Ok doc
  end.

Definition compileMetadata (md : Metadata) : res Ref :=
  guard_err (negb (IsDashedIdentifier (md_Name md))) ErrInvalidMetadata ;;
  guard_err (bool_decide (md_Version md = "") ||
             bool_decide (MaxVersionLength < strlen (md_Version md))) ErrInvalidMetadata ;;
  guard_err (negb (bool_decide (trim_space (md_Version md) = md_Version md)))
    ErrInvalidMetadata ;;
  guard_err (bool_decide (MaxDescriptionLength < strlen (md_Description md)))
    ErrInvalidMetadata ;;
  Ok (MkRef (md_Name md) (md_Version md)).

(** The declared outcome set, and the default that must be one of them. *)
Definition compileOutcomes (declared : list Outcome) (defaultOutcome : Outcome)
  : res (gset Outcome) :=
  guard_err (bool_decide (len declared = 0)) ErrInvalidOutcome ;;
  guard_err (bool_decide (MaxOutcomes < len declared)) ErrInvalidOutcome ;;
  outcomes ← res_foldM (λ (outcomes : gset Outcome) outcome,
    guard_err (negb (Outcome_IsValid outcome)) ErrInvalidOutcome ;;
    guard_err (bool_decide (outcome ∈ outcomes)) ErrInvalidOutcome ;;
    Ok ({[outcome]} ∪ outcomes)) ∅ declared;
  guard_err (negb (bool_decide (defaultOutcome ∈ outcomes))) ErrInvalidOutcome ;;
  Ok outcomes.

(** [collectFacts]: the state is the compiler's fact map and the target map. *)
Definition collectFacts (source : gmap string FactType)
  (st : gmap string FactType * gmap string FactType)
  : res (gmap string FactType * gmap string FactType) :=
  res_foldM (λ st name,
    let factType := default "" (source !! name) in
    guard_err (negb (IsFactName name)) ErrInvalidFact ;;
    guard_err (negb (FactType_IsValid factType)) ErrInvalidFact ;;
    guard_err (bool_decide (is_Some (st.1 !! name))) ErrInvalidFact ;;
    Ok (<[name := factType]> st.1, <[name := factType]> st.2)) st (sorted_keys source).

(** All declared facts, the required ones and the optional ones. *)
Definition compileFacts (input : Input)
  : res (gmap string FactType * gmap string FactType * gmap string FactType) :=
  guard_err (bool_decide (MaxRequiredFacts <
    msize (in_RequiredFacts input) + msize (in_OptionalFacts input))) ErrInvalidFact ;;
  required ← collectFacts (in_RequiredFacts input) (∅, ∅);
  optional ← collectFacts (in_OptionalFacts input) (required.1, ∅);
  Ok (optional.1, required.2, optional.2).

Definition resolveMaxQuestions (maxQuestions : Z) : Z :=
  if bool_decide (maxQuestions <= 0) || bool_decide (MaxQuestions < maxQuestions)
  then MaxQuestions else maxQuestions.

(** The compiled questions and their identifiers in sorted order. *)
Definition compileQuestions (maxQuestions : Z) (declared : gmap string Question)
  : res (gmap string CompiledQuestion * list string) :=
  guard_err (bool_decide (msize declared = 0)) ErrInvalidQuestion ;;
  guard_err (bool_decide (maxQuestions < msize declared)) ErrInvalidQuestion ;;
  let ids := sorted_keys declared in
  questions ← res_foldM (λ (questions : gmap string CompiledQuestion) id,
    question ← compileQuestion id (default (MkQuestion "" ANil ANil) (declared !! id));
    Ok (<[id := question]> questions)) ∅ ids;
  Ok (questions, ids).

Section rules.
  Context (outcomes : gset Outcome) (facts : gmap string FactType)
    (questions : gmap string CompiledQuestion).

  (** [compileRule]; the state is the set of rule identifiers already used. *)
Definition compileRule (phase : rulePhase) (ruleIDs : gset string) (rule : Rule)
    : res (gset string * CompiledRule) :=
    guard_err (negb (IsDashedIdentifier (rule_ID rule))) ErrInvalidRule ;;
    guard_err (bool_decide (rule_ID rule ∈ ruleIDs)) ErrInvalidRule ;;
    let ruleIDs := {[rule_ID rule]} ∪ ruleIDs in
    guard_err (bool_decide (MaxDescriptionLength < strlen (rule_Description rule)))
      ErrInvalidRule ;;
    guard_err (negb (bool_decide (rule_Outcome rule ∈ outcomes))) ErrInvalidOutcome ;;
    match rule_When rule with
    | None => Ok (ruleIDs, MkCompiledRule (rule_ID rule) (rule_Description rule) None
                             (rule_Outcome rule))
    | Some when =>
        condition ← compileCondition facts questions phase when 0;
        Ok (ruleIDs, MkCompiledRule (rule_ID rule) (rule_Description rule) (Some condition)
                       (rule_Outcome rule))
    end.

  (** [compileRules]; the loop state also carries [sawUnconditional] and the
      compiled prefix. *)
Definition compileRules (phase : rulePhase) (ruleIDs : gset string) (rules : list Rule)
    : res (gset string * list CompiledRule) :=
    guard_err (bool_decide (MaxRules < len rules)) ErrInvalidRule ;;
    st ← res_foldM (λ (st : gset string * bool * list CompiledRule) rule,
      let '(ruleIDs, sawUnconditional, compiled) := st in
      guard_err sawUnconditional ErrInvalidRule ;;
      r ← compileRule phase ruleIDs rule;
      Ok (r.1, sawUnconditional || bool_decide (cr_Condition r.2 = None),
          compiled ++ [r.2])) (ruleIDs, false, []) rules;
    Ok (st.1.1, st.2).
End rules.

(** [CompileWithMaxQuestions], [compileStages] included. *)
Definition CompileWithMaxQuestions (doc : option Document) (maxQuestions : Z)
  : res Compiled :=
  doc ← validateDocumentIdentity doc;
  let spec := doc_Spec doc in
  ref ← compileMetadata (doc_Metadata doc);
  outcomes ← compileOutcomes (sp_Outcomes spec) (sp_DefaultOutcome spec);
  facts ← compileFacts (sp_Input spec);
  let '(allFacts, required, optional) := facts in
  qs ← compileQuestions (resolveMaxQuestions maxQuestions) (sp_Questions spec);
  preRules ← compileRules outcomes allFacts qs.1 rulePhasePre ∅ (sp_PreRules spec);
  decisionRules ← compileRules outcomes allFacts qs.1 rulePhaseDecision preRules.1
    (sp_DecisionRules spec);
  let compiled := λ canonical hash,
    {| c_Ref := ref;
       c_Description := md_Description (doc_Metadata doc);
       c_Model := sp_Model spec;
       c_Outcomes := sp_Outcomes spec;
       c_DefaultOutcome := sp_DefaultOutcome spec;
       c_outcomeSet := outcomes;
       c_RequiredFacts := required;
       c_OptionalFacts := optional;
       c_StrictInput := in_Strict (sp_Input spec);
       c_Questions := qs.1;
       c_QuestionIDs := qs.2;
       c_PreRules := preRules.2;
       c_DecisionRules := decisionRules.2;
       c_Canonical := canonical;
       c_Hash := hash |} in
  r ← canonicalize (compiled "" "");
  Ok (compiled r.1 r.2).

(** [Compile] *)
Definition Compile (doc : option Document) : res Compiled :=
  CompileWithMaxQuestions doc MaxQuestions.

End Compile.
