(* ===== verification/WellFormed.v ===== *)
(** * What a compiled policy promises

    The invariant the compiler establishes and every later component relies on:
    references resolve, right-hand values have the type of their operand,
    pre-rules read facts only, outcomes are declared, sizes are within the
    ceilings of [document.go]. *)

From S2P Require Import Prelude GoFloat GoAny Decision Document CompileQuestion CompileCondition.
From S2P Require Import Canonical.
From stdpp Require Import options.
#[local] Open Scope Z_scope.

Module WellFormed.
Import CompileQuestion CompileCondition.

Section wf.
  Context (facts : gmap string FactType) (questions : gmap string CompiledQuestion).

  (** The probability key names an option of a choice or a level of a score. *)
Definition wf_probability_key (q : CompiledQuestion) (key : string) : Prop :=
    (cq_Type q = QuestionTypeChoice ∧ is_Some (cq_ChoiceCriteria q !! key)) ∨
    (cq_Type q = QuestionTypeScore ∧
     ∃ level, 0 <= level < len (cq_ScoreCriteria q) ∧ key = Itoa level).

  (** An operand that resolves against the declarations. *)
Inductive wf_operand (phase : rulePhase) : CompiledOperand → Prop :=
    | wf_fact name t :
        name ≠ "" → facts !! name = Some t →
        wf_operand phase (MkCompiledOperand operandKindFact name t "" "" "" "")
    | wf_answer id q f key :
        phase = rulePhaseDecision → id ≠ "" →
        questions !! id = Some q →
        AvailableOn f (cq_Type q) = true →
        (f = AnswerFieldProbability → wf_probability_key q key) →
        (f ≠ AnswerFieldProbability → key = "") →
        wf_operand phase
          (MkCompiledOperand operandKindAnswer "" "" id f (cq_Type q) key).

  (** A right-hand value that is comparable with its operand under [op]. *)
Inductive right_ok (o : CompiledOperand) (op : Operator) : goany → Prop :=
    | right_fact_number f :
        co_kind o = operandKindFact → co_factType o = FactTypeNumber →
        right_ok o op (AFloat64 f)
    | right_fact_string s :
        co_kind o = operandKindFact → co_factType o = FactTypeString →
        IsOrdering op = false → strlen s <= MaxStringValueLength →
        right_ok o op (AString s)
    | right_fact_bool b :
        co_kind o = operandKindFact → co_factType o = FactTypeBoolean →
        op = OperatorEq ∨ op = OperatorNeq →
        right_ok o op (ABool b)
    | right_choice q key :
        co_kind o = operandKindAnswer → co_field o = AnswerFieldChoice →
        IsOrdering op = false →
        questions !! co_questionID o = Some q → is_Some (cq_ChoiceCriteria q !! key) →
        right_ok o op (AString key)
    | right_answer_number f :
        co_kind o = operandKindAnswer → co_field o ≠ AnswerFieldChoice →
        (co_field o ≠ AnswerFieldScore →
           f64_ltb f f64_zero = false ∧ f64_ltb f64_one f = false) →
        right_ok o op (AFloat64 f).

Inductive wf_leaf (o : CompiledOperand) : Operator → goany → list goany → bool → Prop :=
    | wf_exists b :
        (co_kind o = operandKindAnswer → co_field o = AnswerFieldConfidence) →
        wf_leaf o OperatorExists ANil [] b
    | wf_in l :
        0 < len l <= MaxRightListLength → Forall (right_ok o OperatorIn) l →
        wf_leaf o OperatorIn ANil l false
    | wf_scalar op v :
        op ∈ [OperatorEq; OperatorNeq; OperatorLt; OperatorLte; OperatorGt; OperatorGte] →
        right_ok o op v → wf_leaf o op v [] false.

  (** [depth] is how deep below the root of the rule the node may still nest. *)
Inductive wf_condition (phase : rulePhase) : Z → CompiledCondition → Prop :=
    | wf_Leaf depth o op rs rl rb :
        depth <= MaxConditionDepth →
        wf_operand phase o → wf_leaf o op rs rl rb →
        wf_condition phase depth (CC conditionKindLeaf [] o op rs rl rb)
    | wf_Comb depth kind children :
        depth <= MaxConditionDepth →
        kind = conditionKindAll ∨ kind = conditionKindAny →
        0 < len children <= MaxConditionsPerOp →
        Forall (wf_condition phase (depth + 1)) children →
        wf_condition phase depth (CC kind children zeroOperand "" ANil [] false)
    | wf_Not depth child :
        depth <= MaxConditionDepth →
        wf_condition phase (depth + 1) child →
        wf_condition phase depth (CC conditionKindNot [child] zeroOperand "" ANil [] false).

Definition wf_rule (outcomes : list Outcome) (phase : rulePhase) (r : CompiledRule) : Prop :=
    IsDashedIdentifier (cr_ID r) = true ∧
    strlen (cr_Description r) <= MaxDescriptionLength ∧
    cr_Outcome r ∈ outcomes ∧
    ∀ c, cr_Condition r = Some c → wf_condition phase 0 c.
End wf.

(** Only the last rule of a phase may be unconditional. *)
Definition no_dead_rule (rules : list CompiledRule) : Prop :=
  ∀ i r, rules !! i = Some r → cr_Condition r = None → length rules = S i.

(** A structured value within its ceilings: a string, an object or an array as a JSON decoder
    leaves it, with at most so many nodes, levels and encoded bytes. *)
Record wf_value (limit : Z) (v : goany) : Prop := {
  wv_structured : match v with AString _ | AMap _ | ASlice _ => True | _ => False end;
  wv_json : json_value v = true;
  wv_numbers : numbers_present v = true;
  wv_nodes : node_count v <= MaxQuestionValueNodes;
  wv_height : height v <= MaxQuestionValueDepth;
  wv_size : ∃ n, encoded_len v = Some n ∧ n <= limit
}.

(** The instructions may be absent, and so may the description of a criterion. *)
Definition wf_instructions (v : goany) : Prop := v = ANil ∨ wf_value MaxInstructionsLength v.
Definition wf_description (v : goany) : Prop := v = ANil ∨ wf_value MaxCriteriaTextLength v.

Inductive wf_question (id : string) : CompiledQuestion → Prop :=
  | wf_noul instructions criteria :
      IsIdentifier id = true → wf_instructions instructions →
      (∀ m k v, criteria = Some m → m !! k = Some v → (k = "true" ∨ k = "false") ∧ wf_description v) →
      wf_question id (MkCompiledQuestion id QuestionTypeNoul instructions criteria ∅ [] [])
  | wf_choice instructions criteria :
      IsIdentifier id = true → wf_instructions instructions →
      MinChoiceCriteria <= msize criteria <= MaxChoiceCriteria →
      (∀ k v, criteria !! k = Some v → IsIdentifier k = true ∧ wf_description v) →
      wf_question id (MkCompiledQuestion id QuestionTypeChoice instructions None criteria
                        (sorted_keys criteria) [])
  | wf_score instructions levels :
      IsIdentifier id = true → wf_instructions instructions →
      MinScoreCriteria <= len levels <= MaxScoreCriteria →
      Forall (wf_value MaxCriteriaTextLength) levels →
      wf_question id (MkCompiledQuestion id QuestionTypeScore instructions None ∅ [] levels).

Definition declared_facts (c : Compiled) : gmap string FactType :=
  c_RequiredFacts c ∪ c_OptionalFacts c.

Record wf_compiled (c : Compiled) : Prop := {
  wfc_name : IsDashedIdentifier (ref_Name (c_Ref c)) = true;
  wfc_version : ref_Version (c_Ref c) ≠ "" ∧
    strlen (ref_Version (c_Ref c)) <= MaxVersionLength ∧
    trim_space (ref_Version (c_Ref c)) = ref_Version (c_Ref c);
  wfc_description : strlen (c_Description c) <= MaxDescriptionLength;
  wfc_outcomes_len : 0 < len (c_Outcomes c) <= MaxOutcomes;
  wfc_outcomes_nodup : NoDup (c_Outcomes c);
  wfc_outcomes_valid : Forall (λ o, Outcome_IsValid o = true) (c_Outcomes c);
  wfc_outcomeSet : c_outcomeSet c = list_to_set (c_Outcomes c);
  wfc_default : c_DefaultOutcome c ∈ c_Outcomes c;
  wfc_facts_disjoint : c_RequiredFacts c ##ₘ c_OptionalFacts c;
  wfc_facts_len : msize (c_RequiredFacts c) + msize (c_OptionalFacts c) <= MaxRequiredFacts;
  wfc_facts_valid : ∀ name t, declared_facts c !! name = Some t →
    IsFactName name = true ∧ FactType_IsValid t = true;
  wfc_questions_len : 0 < msize (c_Questions c) <= MaxQuestions;
  wfc_questions_valid : ∀ id q, c_Questions c !! id = Some q → wf_question id q;
  wfc_questionIDs : c_QuestionIDs c = sorted_keys (c_Questions c);
  wfc_rules_nodup : NoDup (cr_ID <$> all_rules c);
  wfc_preRules : Forall (wf_rule (declared_facts c) (c_Questions c) (c_Outcomes c)
                           rulePhasePre) (c_PreRules c);
  wfc_decisionRules : Forall (wf_rule (declared_facts c) (c_Questions c) (c_Outcomes c)
                                rulePhaseDecision) (c_DecisionRules c);
  wfc_preRules_len : len (c_PreRules c) <= MaxRules;
  wfc_decisionRules_len : len (c_DecisionRules c) <= MaxRules;
  wfc_preRules_live : no_dead_rule (c_PreRules c);
  wfc_decisionRules_live : no_dead_rule (c_DecisionRules c);
  wfc_canonical : Canonical.canonicalize c = Ok (c_Canonical c, c_Hash c)
}.

End WellFormed.
