(* ===== verification/Fixtures.v ===== *)
(** * Concrete policies and answers

    Small inputs on which the theorems' hypotheses are discharged by evaluation. *)

From S2P Require Import Prelude GoFloat GoAny Decision Document CompileQuestion.
From S2P Require Import CompileCondition Canonical Compile.
From stdpp Require Import options.

Module Fixtures.

Definition leaf (lhs : Operand) (op : Operator) (rhs : goany) : Condition :=
  Cond [] [] None (Some lhs) op rhs.
Definition all_of (l : list Condition) : Condition := Cond l [] None None "" ANil.
Definition not_ (c : Condition) : Condition := Cond [] [] (Some c) None "" ANil.
Definition fact (name : string) : Operand := MkOperand name "" "" "".
Definition answer (q : string) (f : AnswerField) : Operand := MkOperand "" q f "".
Definition answer_p (q key : string) : Operand :=
  MkOperand "" q AnswerFieldProbability key.

(** A router: one choice question, one score question, a hard pre-rule over a
    fact and decision rules over the answers. *)
Definition router : Document := {|
  doc_APIVersion := APIVersion;
  doc_Kind := Kind;
  doc_Metadata := MkMetadata "router" "1.0.0" "";
  doc_Spec := {|
    sp_Model := "jev-latest";
    sp_Outcomes := ["allow"; "review"; "block"];
    sp_DefaultOutcome := "review";
    sp_Input := MkInput {["owner.known" := FactTypeBoolean]}
                        {["amount" := FactTypeNumber]} false;
    sp_PreRules := [
      MkRule "unknown-owner" "" (Some (leaf (fact "owner.known") OperatorEq (ABool false)))
        "block"];
    sp_Questions := {[
      "destination" := MkQuestion QuestionTypeChoice (AString "Where to?")
        (AMap [("billing", AString "money"); ("technical", ANil)]);
      "risk" := MkQuestion QuestionTypeScore ANil
        (ASlice [AString "low"; AString "high"])]};
    sp_DecisionRules := [
      MkRule "sure" "" (Some (all_of [
        leaf (answer "destination" AnswerFieldChoice) OperatorEq (AString "billing");
        leaf (answer "destination" AnswerFieldConfidence) OperatorGte
          (AFloat64 (f64_of_ratio 9 10));
        not_ (leaf (answer "risk" AnswerFieldScore) OperatorGt (AInt 0))])) "allow"]
  |}
|}.

Definition dist2 (a b : float64) : gmap string float64 := {["billing" := a; "technical" := b]}.

(** Answers that satisfy the router's questions. *)
Definition router_answers : Answers := {[
  "destination" := MkAnswer QuestionTypeChoice "billing" f64_zero f64_zero
    (f64_of_ratio 95 100) true
    (dist2 (f64_of_ratio 95 100) (f64_of_ratio 5 100)) ∅;
  "risk" := MkAnswer QuestionTypeScore "" f64_zero f64_zero (f64_of_ratio 8 10) true
    {["0" := f64_of_ratio 9 10; "1" := f64_of_ratio 1 10]}
    {["0" := AString "low"; "1" := AString "high"]}]}.

Definition router_facts : Facts := {["owner.known" := ABool true]}.

Definition emptyCompiled : Compiled := {|
  c_Ref := MkRef "" ""; c_Description := ""; c_Model := ""; c_Outcomes := [];
  c_DefaultOutcome := ""; c_outcomeSet := ∅; c_RequiredFacts := ∅; c_OptionalFacts := ∅;
  c_StrictInput := false; c_Questions := ∅; c_QuestionIDs := []; c_PreRules := [];
  c_DecisionRules := []; c_Canonical := ""; c_Hash := "" |}.

(** The compiled router. *)
Definition router_policy : Compiled :=
  match Compile.Compile (Some router) with Ok c => c | Err _ => emptyCompiled end.

Lemma router_policy_ok :
  Compile.CompileWithMaxQuestions (Some router) MaxQuestions = Ok router_policy.
Proof. vm_compute. reflexivity. Qed.

(** A score question whose first level carries a number. *)
Definition weighted : Document := {|
  doc_APIVersion := APIVersion;
  doc_Kind := Kind;
  doc_Metadata := MkMetadata "weighted" "1" "";
  doc_Spec := {|
    sp_Model := "";
    sp_Outcomes := ["ok"];
    sp_DefaultOutcome := "ok";
    sp_Input := MkInput ∅ ∅ false;
    sp_PreRules := [];
    sp_Questions := {["risk" := MkQuestion QuestionTypeScore ANil
      (ASlice [AMap [("weight", AInt 1)]; AString "high"])]};
    sp_DecisionRules := []
  |}
|}.

Definition weighted_policy : Compiled :=
  match Compile.Compile (Some weighted) with Ok c => c | Err _ => emptyCompiled end.

Lemma weighted_policy_ok :
  Compile.CompileWithMaxQuestions (Some weighted) MaxQuestions = Ok weighted_policy.
Proof. vm_compute. reflexivity. Qed.

(** The provider echoes the level it was sent. *)
Definition weighted_legend : goany := AMap [("weight", AFloat64 f64_one)].
Definition weighted_answer : Answer :=
  MkAnswer QuestionTypeScore "" f64_zero f64_zero f64_one true
    {["0" := f64_one; "1" := f64_zero]} {["0" := weighted_legend; "1" := AString "high"]}.
Definition weighted_answers : Answers := {["risk" := weighted_answer]}.

(** A yes/no question with these criteria. *)
Definition yesno (criteria : goany) : Document := {|
  doc_APIVersion := APIVersion;
  doc_Kind := Kind;
  doc_Metadata := MkMetadata "yesno" "1" "";
  doc_Spec := {|
    sp_Model := "";
    sp_Outcomes := ["ok"; "no"];
    sp_DefaultOutcome := "no";
    sp_Input := MkInput ∅ ∅ false;
    sp_PreRules := [];
    sp_Questions := {["spam" := MkQuestion QuestionTypeNoul (AString "Is it?") criteria]};
    sp_DecisionRules := [
      MkRule "likely" "" (Some (leaf (answer "spam" AnswerFieldNoul) OperatorGte
        (AFloat64 (f64_of_ratio 1 2)))) "ok"]
  |}
|}.

(** Absent criteria, and criteria that say nothing. *)
Definition yesno_absent : Compiled :=
  match Compile.Compile (Some (yesno ANil)) with Ok c => c | Err _ => emptyCompiled end.
Definition yesno_empty : Compiled :=
  match Compile.Compile (Some (yesno (AMap []))) with Ok c => c | Err _ => emptyCompiled end.

Lemma yesno_absent_ok : Compile.CompileWithMaxQuestions (Some (yesno ANil)) MaxQuestions = Ok yesno_absent.
Proof. vm_compute. reflexivity. Qed.
Lemma yesno_empty_ok : Compile.CompileWithMaxQuestions (Some (yesno (AMap []))) MaxQuestions = Ok yesno_empty.
Proof. vm_compute. reflexivity. Qed.

End Fixtures.
