(* ===== verification/CompileSound.v ===== *)
(** * The compiler is sound

    Every policy [CompileWithMaxQuestions] returns is well formed
    ([WellFormed.wf_compiled]), carries the fields of its document unchanged, and
    its conditions evaluate as the source conditions read ([denote]). *)

From S2P Require Import Prelude GoFloat GoAny Decision Document Condition.
From S2P Require Import CompileQuestion CompileCondition Canonical Compile WellFormed.
From stdpp Require Import options.
#[local] Open Scope Z_scope.

Module CompileSound.
Import CompileQuestion CompileCondition Compile WellFormed.

(** Turn boolean guards into propositions. *)
Ltac to_props :=
  repeat match goal with
  | H : negb _ = false |- _ => apply negb_false_iff in H
  | H : negb _ = true |- _ => apply negb_true_iff in H
  | H : _ || _ = false |- _ => apply orb_false_iff in H; destruct H
  | H : _ && _ = true |- _ => apply andb_true_iff in H; destruct H
  | H : bool_decide _ = false |- _ => apply bool_decide_eq_false in H
  | H : bool_decide _ = true |- _ => apply bool_decide_eq_true in H
  end.

(** A loop that builds a map key by key. *)
Lemma build_map {V} (step : gmap string V → string → res (gmap string V))
    (R : string → V → Prop) l m0 m :
  (∀ m k m', step m k = Ok m' → ∃ v, R k v ∧ m' = <[k := v]> m) →
  res_foldM step m0 l = Ok m →
  (∀ k, k ∈ l → ∃ v, m !! k = Some v ∧ R k v) ∧ (∀ k, k ∉ l → m !! k = m0 !! k).
Proof.
  intros Hstep. revert m0. induction l as [|x l IH]; intros m0; simpl.
  - intros [= ->]. split; [|done]. intros k Hk. by apply elem_of_nil in Hk.
  - intros (m1 & (v & Hv & ->)%Hstep & Hrest)%bind_Ok. apply IH in Hrest as [H1 H2].
    split.
    + intros k Hk. destruct (decide (k ∈ l)) as [|Hkl]; [by apply H1|].
      apply elem_of_cons in Hk as [->|]; [|done].
      exists v. rewrite H2 by done. by rewrite lookup_insert_eq.
    + intros k [Hx Hk]%not_elem_of_cons. rewrite H2 by done. by rewrite lookup_insert_ne.
Qed.

(** The built map has exactly the keys visited. *)
Lemma build_map_dom {V W} (step : gmap string V → string → res (gmap string V))
    (R : string → V → Prop) (src : gmap string W) m :
  (∀ m k m', step m k = Ok m' → ∃ v, R k v ∧ m' = <[k := v]> m) →
  res_foldM step ∅ (sorted_keys src) = Ok m →
  dom m = dom src ∧ (∀ k v, m !! k = Some v → R k v).
Proof.
  intros Hstep Hrun. apply (build_map _ R) in Hrun as [H1 H2]; [|done].
  setoid_rewrite elem_of_sorted_keys in H1. setoid_rewrite elem_of_sorted_keys in H2.
  split.
  - apply set_eq. intros k. rewrite !elem_of_dom. split.
    + intros [v Hv]. destruct (decide (is_Some (src !! k))); [done|].
      rewrite H2, lookup_empty in Hv by done. done.
    + intros (v & -> & _)%H1. eauto.
  - intros k v Hv. destruct (decide (is_Some (src !! k))) as [Hs|Hs].
    + destruct (H1 k Hs) as (v' & ? & ?). by simplify_eq.
    + rewrite H2, lookup_empty in Hv by done. done.
Qed.

Lemma sorted_keys_dom {V W} (m : gmap string V) (m' : gmap string W) :
  dom m = dom m' → sorted_keys m = sorted_keys m'.
Proof. unfold sorted_keys. by intros ->. Qed.

Lemma msize_dom {V W} (m : gmap string V) (m' : gmap string W) :
  dom m = dom m' → msize m = msize m'.
Proof. unfold msize. intros H. by rewrite <- !size_dom, H. Qed.

(** ** Questions *)
Lemma compileQuestionInstructions_Ok raw v : compileQuestionInstructions raw = Ok v → wf_instructions v.
Proof.
  unfold compileQuestionInstructions. case_decide; [intros [= <-]; by left|].
  destruct (normalizeQuestionValue raw false) as [w|] eqn:Ew; [|done]. cbn [replace_err mbind res_bind].
  destruct (encoded_len w) as [n|] eqn:En; [|done]. intros Hv. inv_ok. to_props. right.
  apply normalizeQuestionValue_inv in Ew as [[_ [=]]|(? & ? & ? & ? & ?)].
  constructor; try done. exists n. split; [done|lia].
Qed.

Lemma compileCriteriaValue_Ok raw allowNull v : compileCriteriaValue raw allowNull = Ok v →
  (v = ANil ∧ allowNull = true) ∨ wf_value MaxCriteriaTextLength v.
Proof.
  unfold compileCriteriaValue. destruct (normalizeQuestionValue raw allowNull) as [w|] eqn:Ew; [|done].
  cbn [replace_err mbind res_bind]. destruct (encoded_len w) as [n|] eqn:En; [|done]. intros Hv. inv_ok. to_props.
  apply normalizeQuestionValue_inv in Ew as [?|(? & ? & ? & ? & ?)]; [by left|right].
  constructor; try done. exists n. split; [done|lia].
Qed.

Lemma compile_description raw allowNull v : compileCriteriaValue raw allowNull = Ok v → wf_description v.
Proof. intros [[-> _]|?]%compileCriteriaValue_Ok; [by left|by right]. Qed.

Lemma compileNoulCriteria_Ok raw r :
  compileNoulCriteria raw = Ok r →
  ∀ m k v, r = Some m → m !! k = Some v → (k = "true" ∨ k = "false") ∧ wf_description v.
Proof.
  unfold compileNoulCriteria. case_decide; [by intros [= <-]|].
  intros Hr m k v -> Hk. inv_ok.
  match goal with H : res_foldM _ _ _ = _ |- _ =>
    apply (build_map_dom _ (λ k v, (k = "true" ∨ k = "false") ∧ wf_description v)) in H as [_ Hm] end;
    [by apply Hm|].
  intros m' k' m'' Hs. inv_ok. eexists. split; [split|done]; [|by eapply compile_description].
  match goal with H : negb _ = false |- _ =>
    apply negb_false_iff, orb_true_iff in H as [H|H]; apply bool_decide_eq_true in H end;
  auto.
Qed.

Lemma compileChoiceCriteria_Ok raw r :
  compileChoiceCriteria raw = Ok r →
  MinChoiceCriteria <= msize r.1 <= MaxChoiceCriteria ∧
  (∀ k v, r.1 !! k = Some v → IsIdentifier k = true ∧ wf_description v) ∧ r.2 = sorted_keys r.1.
Proof.
  unfold compileChoiceCriteria. destruct raw; try done. intros Hr. inv_ok. to_props.
  match goal with H : res_foldM _ _ _ = _ |- _ =>
    apply (build_map_dom _ (λ k v, IsIdentifier k = true ∧ wf_description v)) in H as [Hdom Hm] end; simpl.
  - rewrite (msize_dom _ _ Hdom), (sorted_keys_dom _ _ Hdom).
    split; [lia|]. split; [|done]. intros k v Hv. eauto.
  - intros m k m' Hs. unfold validateChoiceOptionKey in Hs. inv_ok. to_props.
    eauto using compile_description.
Qed.

Lemma compileScoreCriteria_Ok raw r :
  compileScoreCriteria raw = Ok r → MinScoreCriteria <= len r <= MaxScoreCriteria ∧
  Forall (wf_value MaxCriteriaTextLength) r.
Proof.
  unfold compileScoreCriteria. destruct raw; try done. intros Hr. inv_ok. to_props.
  match goal with H : res_mapM _ _ = _ |- _ => apply res_mapM_Ok in H; rename H into Hm end.
  pose proof (Forall2_length Hm). split; [unfold len in *; lia|].
  clear -Hm. induction Hm as [|x y l k Hxy _ IH]; constructor; [|done].
  by apply compileCriteriaValue_Ok in Hxy as [[_ [=]]|?].
Qed.

Lemma compileQuestion_Ok id question q :
  compileQuestion id question = Ok q → wf_question id q.
Proof.
  unfold compileQuestion. intros Hq. inv_ok. to_props.
  match goal with H : compileQuestionCriteria _ _ = _ |- _ => rename H into Hc end.
  match goal with H : compileQuestionInstructions _ = _ |- _ => apply compileQuestionInstructions_Ok in H end.
  unfold compileQuestionCriteria in Hc. repeat case_decide; inv_ok; try done;
    match goal with H : q_Type _ = _ |- _ => rewrite H end.
  - constructor; [done..|]. intros m k v Hm. by eapply compileNoulCriteria_Ok.
  - match goal with H : compileChoiceCriteria _ = _ |- _ =>
      apply compileChoiceCriteria_Ok in H as (? & ? & Hkeys) end.
    simpl in *. subst. by constructor.
  - match goal with H : compileScoreCriteria _ = _ |- _ =>
      apply compileScoreCriteria_Ok in H as [? ?] end. by constructor.
Qed.

Lemma compileQuestions_Ok n declared r :
  compileQuestions n declared = Ok r →
  0 < msize r.1 <= n ∧ dom r.1 = dom declared ∧ r.2 = sorted_keys r.1 ∧
  (∀ id q, r.1 !! id = Some q → wf_question id q).
Proof.
  unfold compileQuestions. intros Hr. inv_ok. to_props. simpl.
  match goal with H : res_foldM _ _ _ = _ |- _ =>
    apply (build_map_dom _ wf_question) in H as [Hdom Hm] end.
  - rewrite (msize_dom _ _ Hdom), (sorted_keys_dom _ _ Hdom).
    assert (0 <= msize declared) by (unfold msize; lia). split; [lia|]. done.
  - intros m k m' Hs. inv_ok. eauto using compileQuestion_Ok.
Qed.

(** ** Metadata, outcomes and facts *)
Lemma compileMetadata_Ok md ref :
  compileMetadata md = Ok ref →
  ref = MkRef (md_Name md) (md_Version md) ∧
  IsDashedIdentifier (md_Name md) = true ∧ md_Version md ≠ "" ∧
  strlen (md_Version md) <= MaxVersionLength ∧ trim_space (md_Version md) = md_Version md ∧
  strlen (md_Description md) <= MaxDescriptionLength.
Proof.
  unfold compileMetadata. intros H. inv_ok. to_props. split; [done|].
  split; [done|]. split; [done|]. split; [lia|]. split; [done|lia].
Qed.

Lemma compileOutcomes_Ok declared d s :
  compileOutcomes declared d = Ok s →
  0 < len declared <= MaxOutcomes ∧ NoDup declared ∧
  Forall (λ o, Outcome_IsValid o = true) declared ∧ s = list_to_set declared ∧
  d ∈ declared.
Proof.
  unfold compileOutcomes. intros H. inv_ok. to_props.
  match goal with H : res_foldM _ _ _ = Ok _ |- _ =>
    apply (res_foldM_inv _ (λ l (s : gset Outcome), NoDup l ∧
      Forall (λ o, Outcome_IsValid o = true) l ∧ s = list_to_set l)) in H
      as (Hn & Hv & ->) end.
  - assert (0 <= len declared) by (unfold len; lia).
    split; [lia|]. repeat (split; [done|]).
    match goal with H : d ∈ _ |- _ => by apply elem_of_list_to_set in H end.
  - split; [constructor|]. by split.
  - intros l o s1 s2 (Hn & Hv & ->) Hs. inv_ok. to_props.
    match goal with H : _ ∉ _ |- _ => rewrite elem_of_list_to_set in H end.
    split; [apply list.NoDup_app; split; [done|]; split;
            [intros x Hx ->%list_elem_of_singleton; done|apply NoDup_singleton]|].
    split; [apply list.Forall_app; split; [done|by constructor]|]. set_solver.
Qed.

Lemma collectFacts_Ok (source all target all' target' : gmap string FactType) :
  collectFacts source (all, target) = Ok (all', target') →
  all' = source ∪ all ∧ target' = source ∪ target ∧ source ##ₘ all ∧
  (∀ name t, source !! name = Some t → IsFactName name = true ∧ FactType_IsValid t = true).
Proof.
  unfold collectFacts. intros H.
  assert (∀ l (st st' : gmap string FactType * gmap string FactType),
    res_foldM (λ st name,
      guard_err (negb (IsFactName name)) ErrInvalidFact ;;
      guard_err (negb (FactType_IsValid (default "" (source !! name)))) ErrInvalidFact ;;
      guard_err (bool_decide (is_Some (st.1 !! name))) ErrInvalidFact ;;
      Ok (<[name := default "" (source !! name)]> st.1,
          <[name := default "" (source !! name)]> st.2)) st l = Ok st' →
    ∀ k, (k ∉ l → st'.1 !! k = st.1 !! k ∧ st'.2 !! k = st.2 !! k) ∧
    (k ∈ l → st'.1 !! k = Some (default "" (source !! k)) ∧
       st'.2 !! k = Some (default "" (source !! k)) ∧ st.1 !! k = None ∧
       IsFactName k = true ∧ FactType_IsValid (default "" (source !! k)) = true)) as Hl.
  { clear H. induction l as [|x l IH]; intros st st' H k; simpl in H.
    { simplify_eq. split; [done|]. intros Hk. by apply elem_of_nil in Hk. }
    apply bind_Ok in H as (st1 & Hs & H). inv_ok. to_props.
    destruct (IH _ _ H k) as [IH1 IH2]. simpl in *.
    split.
    - intros [Hx Hk]%not_elem_of_cons. by rewrite !lookup_insert_ne in IH1 by done; auto.
    - intros [->|Hk]%elem_of_cons.
      + destruct (decide (x ∈ l)) as [Hxl|Hxl].
        * destruct (IH2 Hxl) as (_ & _ & Hc & _). by rewrite lookup_insert_eq in Hc.
        * destruct (IH1 Hxl) as [-> ->]. rewrite !lookup_insert_eq.
          repeat (split; [done|]). by rewrite eq_None_not_Some.
      + destruct (IH2 Hk) as (? & ? & Hc & ?).
        apply lookup_insert_None in Hc as [??]. naive_solver. }
  specialize (Hl _ _ _ H). setoid_rewrite elem_of_sorted_keys in Hl. simpl in Hl.
  assert (∀ k t, source !! k = Some t →
    all' !! k = Some t ∧ target' !! k = Some t ∧ all !! k = None ∧
    IsFactName k = true ∧ FactType_IsValid t = true) as Hin.
  { intros k t E. destruct (Hl k) as [_ H2]. rewrite E in H2. apply H2. eauto. }
  assert (∀ k, source !! k = None → all' !! k = all !! k ∧ target' !! k = target !! k) as Hout.
  { intros k E. apply Hl. rewrite E. by intros []. }
  repeat split.
  - apply map_eq. intros k. destruct (source !! k) as [t|] eqn:E.
    + rewrite (lookup_union_Some_l _ _ _ _ E). by apply Hin.
    + rewrite lookup_union_r by done. by apply Hout.
  - apply map_eq. intros k. destruct (source !! k) as [t|] eqn:E.
    + rewrite (lookup_union_Some_l _ _ _ _ E). by apply Hin.
    + rewrite lookup_union_r by done. by apply Hout.
  - apply map_disjoint_spec. intros k t t' E1 E2. apply Hin in E1. naive_solver.
  - by apply (Hin name t).
  - by apply (Hin name t).
Qed.

(** ** Conditions *)
Lemma AvailableOn_field f t :
  AvailableOn f t = true →
  f = AnswerFieldChoice ∨ f = AnswerFieldScore ∨ f = AnswerFieldNoul ∨
  f = AnswerFieldConfidence ∨ f = AnswerFieldProbability.
Proof.
  unfold AvailableOn. repeat case_decide; try done;
    rewrite ?orb_true_iff, ?bool_decide_eq_true; tauto.
Qed.

Section conditions.
  Context (facts : gmap string FactType) (questions : gmap string CompiledQuestion).
  Notation wf_operand := (wf_operand facts questions).
  Notation right_ok := (right_ok questions).

Lemma validateProbabilityKey_Ok q operand key :
    validateProbabilityKey q operand = Ok key →
    (opd_Field operand = AnswerFieldProbability → wf_probability_key q key) ∧
    (opd_Field operand ≠ AnswerFieldProbability → key = "") ∧
    key = opd_ProbabilityKey operand.
  Proof.
    unfold validateProbabilityKey. case_bool_decide as Hf; simpl.
    2:{ unfold validateNoProbabilityKey. case_decide; [|done]. intros [= <-]. by split. }
    intros H. inv_ok. repeat case_decide; try done.
    - unfold validateChoiceProbabilityKey in *. inv_ok. to_props.
      split; [|by split]. intros _. left. by rewrite <- not_eq_None_Some.
    - unfold validateScoreProbabilityKey in *. case_match; [|done]. inv_ok. to_props.
      split; [|by split]. intros _. right. split; [done|].
      eexists. split; [|symmetry; eassumption]. lia.
  Qed.

Lemma resolveOperand_Ok phase operand o :
    resolveOperand facts questions operand phase = Ok o → wf_operand phase o.
  Proof.
    unfold resolveOperand. intros H. inv_ok.
    case_bool_decide as Ef; case_bool_decide as Ea; simpl in *; try done.
    - unfold resolveAnswerOperand in *. inv_ok. case_match; [|done]. inv_ok.
      to_props.
      match goal with H : validateProbabilityKey _ _ = _ |- _ =>
        apply validateProbabilityKey_Ok in H as (? & ? & _) end.
      apply wf_answer; try done.
      unfold allowsAnswers in *. by to_props.
    - unfold resolveFactOperand in *. inv_ok. case_match; [|done]. inv_ok. to_props.
      by apply wf_fact.
  Qed.

Lemma checkRightValue_Ok phase raw o op v :
    wf_operand phase o → checkRightValue questions raw o op = Ok v → right_ok o op v.
  Proof.
    intros Ho. unfold checkRightValue. case_decide as Hk.
    - unfold checkFactRightValue. repeat case_decide; try done; intros Hr.
      + unfold checkNumberFactRightValue in Hr. case_match; [|done]. inv_ok.
        by apply right_fact_number.
      + unfold checkStringFactRightValue in Hr. inv_ok. case_match; try done. inv_ok. to_props.
        apply right_fact_string; [done|done|done|lia].
      + unfold checkBooleanFactRightValue in Hr. inv_ok. case_match; try done. inv_ok.
        match goal with H : _ && _ = false |- _ => apply andb_false_iff in H end.
        apply right_fact_bool; [done|done|]. naive_solver (by to_props).
    - assert (co_kind o = operandKindAnswer) as Ha by (by destruct (co_kind o)).
      unfold checkAnswerRightValue. case_decide as Hc; intros Hr.
      + unfold checkChoiceRightValue in Hr. inv_ok. case_match; try done. inv_ok. to_props.
        destruct (questions !! co_questionID o) as [q|] eqn:Eq; simpl in *;
          [|by rewrite lookup_empty in *].
        eapply right_choice; try done. by rewrite <- not_eq_None_Some.
      + case_match; [|done]. inv_ok. apply right_answer_number; [done|done|].
        intros Hs. destruct Ho as [|? ? ? ? _ _ _ Hav _ _]; simpl in *; [done|].
        unfold checkNumericAnswerRange in *. simpl in *.
        apply AvailableOn_field in Hav as [->|[->|[->|[->| ->]]]]; try done;
          simpl in *; inv_ok; by to_props.
  Qed.

Lemma compileLeaf_Ok phase lhs op rhs cc :
    compileLeaf facts questions lhs op rhs phase = Ok cc →
    ∃ o rs rl rb, cc = CC conditionKindLeaf [] o op rs rl rb ∧
      resolveOperand facts questions lhs phase = Ok o ∧
      wf_operand phase o ∧ wf_leaf questions o op rs rl rb.
  Proof.
    unfold compileLeaf. intros H. inv_ok.
    match goal with H : resolveOperand _ _ _ _ = Ok _ |- _ =>
      pose proof (resolveOperand_Ok _ _ _ H) as Ho end.
    repeat case_decide; subst; try done.
    - unfold compileExistsLeaf in *. inv_ok. do 4 eexists. repeat (split; [done|]).
      constructor. intros Hk. rewrite Hk in *. simpl in *. by to_props.
    - unfold compileInLeaf, compileRightList in *. inv_ok. case_match; try done. inv_ok.
      to_props. do 4 eexists. repeat (split; [done|]).
      match goal with H : res_mapM _ _ = _ |- _ =>
        apply res_mapM_Ok in H; pose proof H as Hlen; apply Forall2_length in Hlen end.
      constructor; [unfold len in *; lia|].
      match goal with H : Forall2 _ _ _ |- _ => apply (Forall2_Forall_r_imp _ _ _ _ H) end.
      intros raw v _ ?. by eapply checkRightValue_Ok.
    - unfold compileScalarLeaf, compileRightScalar in *. inv_ok. case_decide; [done|].
      do 4 eexists. repeat (split; [done|]). constructor; [done|].
      by eapply checkRightValue_Ok.
  Qed.
End conditions.

(** ** What a source condition means

    Read directly on the document: the operand names a fact or an answer field,
    the right-hand side is the raw document value. *)
Definition operand_value (o : Operand) (facts : Facts) (answers : Answers) : option goany :=
  if decide (opd_Fact o = "") then
    answer ← answers !! opd_Answer o;
    if decide (opd_Field o = AnswerFieldProbability)
    then AFloat64 <$> Probability answer (opd_ProbabilityKey o)
    else Field answer (opd_Field o)
  else facts !! opd_Fact o.

(** [exists] compares presence with the expected boolean, [true] by default; every
    other operator is false on an absent operand and on operands it cannot compare. *)
Definition leaf_holds (o : Operand) (op : Operator) (rhs : goany)
  (facts : Facts) (answers : Answers) : bool :=
  let value := operand_value o facts answers in
  if decide (op = OperatorExists) then
    bool_decide (is_Some value ↔ rhs ≠ ABool false)
  else match value with
  | None => false
  | Some lhs =>
      if decide (op = OperatorEq) then Condition.scalarEqual lhs rhs
      else if decide (op = OperatorNeq) then negb (Condition.scalarEqual lhs rhs)
      else if decide (op = OperatorIn) then
        match rhs with ASlice l => existsb (Condition.scalarEqual lhs) l | _ => false end
      else match AsNumber lhs, AsNumber rhs with
      | Some a, Some b =>
          if decide (op = OperatorLt) then f64_ltb a b
          else if decide (op = OperatorLte) then f64_leb a b
          else if decide (op = OperatorGt) then f64_ltb b a
          else bool_decide (op = OperatorGte) && f64_leb b a
      | _, _ => false
      end
  end.

Fixpoint denote (c : Condition) (facts : Facts) (answers : Answers) : bool :=
  let 'Cond all any not lhs op rhs := c in
  match all, any, not, lhs with
  | _ :: _, _, _, _ => forallb (λ d, denote d facts answers) all
  | [], _ :: _, _, _ => existsb (λ d, denote d facts answers) any
  | [], [], Some d, _ => negb (denote d facts answers)
  | [], [], None, Some o => leaf_holds o op rhs facts answers
  | [], [], None, None => false
  end.

Section correctness.
  Context (facts : gmap string FactType) (questions : gmap string CompiledQuestion).

Lemma scalarEqual_right lhs raw raw' :
    AsNumber raw = AsNumber raw' → (AsNumber raw = None → raw = raw') →
    Condition.scalarEqual lhs raw = Condition.scalarEqual lhs raw'.
  Proof.
    unfold Condition.scalarEqual. intros H1 H2. rewrite <- H1.
    destruct (AsNumber lhs), (AsNumber raw); try done. by rewrite <- H2.
  Qed.

  (** The right-hand value keeps its numeric reading, and itself when it has none. *)
Lemma checkRightValue_reading raw o op v :
    checkRightValue questions raw o op = Ok v →
    AsNumber v = AsNumber raw ∧ (AsNumber raw = None → v = raw).
  Proof.
    unfold checkRightValue, checkFactRightValue, checkAnswerRightValue,
      checkNumberFactRightValue, checkStringFactRightValue, checkBooleanFactRightValue,
      checkChoiceRightValue.
    intros H. repeat case_decide; inv_ok; repeat case_match; inv_ok; done.
  Qed.

Lemma resolveOperand_value phase lhs o fs answers :
    CompileCondition.resolveOperand facts questions lhs phase = Ok o →
    Condition.resolveOperand o fs answers = operand_value lhs fs answers.
  Proof.
    unfold CompileCondition.resolveOperand, operand_value. intros H. inv_ok.
    case_bool_decide as Ef; case_bool_decide as Ea; simpl in *; try done.
    - unfold resolveAnswerOperand in *. inv_ok. case_match; [|done]. inv_ok.
      match goal with H : validateProbabilityKey _ _ = _ |- _ =>
        apply validateProbabilityKey_Ok in H as (_ & _ & ->) end.
      rewrite decide_True by done. unfold Condition.resolveOperand; simpl.
      destruct (answers !! opd_Answer lhs); simpl; [|done]. by repeat case_decide.
    - unfold resolveFactOperand in *. inv_ok. case_match; [|done]. inv_ok.
      by rewrite decide_False.
  Qed.

Lemma compileExistsRight_Ok rhs b :
    compileExistsRight rhs = Ok b → (b = true ↔ rhs ≠ ABool false).
  Proof. destruct rhs as [| |[]| | | | | | | | | | |]; simpl; intros [= <-]; split; done. Qed.

Lemma eqb_bool_decide (P : Prop) `{Decision P} b :
    eqb (bool_decide P) b = bool_decide (P ↔ b = true).
  Proof.
    destruct b; case_bool_decide; simpl; symmetry;
      [apply bool_decide_eq_true|apply bool_decide_eq_false|apply bool_decide_eq_false
      |apply bool_decide_eq_true]; tauto || (split; [done|congruence]) || naive_solver.
  Qed.

  (** The compiled membership test. *)
Lemma existsb_right lhs l l' :
    Forall2 (λ x y, checkRightValue questions x lhs.2 OperatorIn = Ok y) l l' →
    existsb (Condition.scalarEqual lhs.1) l' = existsb (Condition.scalarEqual lhs.1) l.
  Proof.
    induction 1 as [|x y l l' Hxy _ IH]; simpl; [done|]. rewrite IH. f_equal.
    apply checkRightValue_reading in Hxy as [H1 H2]. symmetry.
    apply scalarEqual_right; [done|]. intros Hn. by rewrite H2.
  Qed.

Lemma ordering_leaf lhs rs rhs op :
    op ∈ [OperatorEq; OperatorNeq; OperatorLt; OperatorLte; OperatorGt; OperatorGte] →
    AsNumber rs = AsNumber rhs → (AsNumber rhs = None → rs = rhs) →
    (if decide (op = OperatorEq) then Condition.scalarEqual lhs rs
     else if decide (op = OperatorNeq) then negb (Condition.scalarEqual lhs rs)
     else if IsOrdering op then Condition.compareOrdered lhs rs op else false) =
    (if decide (op = OperatorEq) then Condition.scalarEqual lhs rhs
     else if decide (op = OperatorNeq) then negb (Condition.scalarEqual lhs rhs)
     else match AsNumber lhs, AsNumber rhs with
      | Some a, Some b =>
          if decide (op = OperatorLt) then f64_ltb a b
          else if decide (op = OperatorLte) then f64_leb a b
          else if decide (op = OperatorGt) then f64_ltb b a
          else bool_decide (op = OperatorGte) && f64_leb b a
      | _, _ => false
      end).
  Proof.
    intros Hop Hn Hv. rewrite (scalarEqual_right lhs rs rhs) by (rewrite ?Hn; auto).
    unfold Condition.compareOrdered. rewrite Hn.
    repeat (apply elem_of_cons in Hop as [->|Hop]; [by destruct (AsNumber lhs), (AsNumber rhs)|]).
    by apply elem_of_nil in Hop.
  Qed.

Lemma compileLeaf_correct phase lhs op rhs cc fs answers :
    compileLeaf facts questions lhs op rhs phase = Ok cc →
    Condition.Evaluate cc fs answers = leaf_holds lhs op rhs fs answers.
  Proof.
    unfold compileLeaf. intros H. inv_ok.
    match goal with H : CompileCondition.resolveOperand _ _ _ _ = Ok _ |- _ =>
      pose proof (resolveOperand_value _ _ _ fs answers H) as Hv end.
    unfold leaf_holds. rewrite <- Hv. clear Hv.
    match goal with H : (if decide (op = OperatorExists) then _ else _) = _ |- _ =>
      rename H into Hleaf end.
    case_decide as He; [subst op|case_decide as Hi; [subst op|]].
    - unfold compileExistsLeaf in Hleaf. inv_ok. simpl. unfold Condition.evaluateLeaf. simpl.
      rewrite eqb_bool_decide. apply bool_decide_ext.
      match goal with H : compileExistsRight _ = _ |- _ =>
        apply compileExistsRight_Ok in H; by rewrite H end.
    - unfold compileInLeaf, compileRightList in Hleaf. inv_ok. case_match; try done. inv_ok.
      simpl. unfold Condition.evaluateLeaf. simpl.
      destruct (Condition.resolveOperand _ fs answers) as [v|]; [|done].
      match goal with H : res_mapM _ _ = _ |- _ =>
        apply res_mapM_Ok, (existsb_right (v, _)) in H; done end.
    - case_decide as Hop; [|done]. unfold compileScalarLeaf, compileRightScalar in Hleaf.
      inv_ok. case_decide; [done|]. simpl. unfold Condition.evaluateLeaf.
      rewrite decide_False by done.
      destruct (Condition.resolveOperand _ fs answers) as [v|]; [|done].
      match goal with H : checkRightValue _ _ _ _ = _ |- _ =>
        apply checkRightValue_reading in H as [H1 H2] end.
      rewrite !(decide_False (P := op = OperatorIn)) by done. by apply ordering_leaf.
  Qed.

  (** Both facts about a node: its shape and its meaning. *)
Definition node_ok (phase : rulePhase) (depth : Z) (c : Condition) (cc : CompiledCondition)
    : Prop :=
    wf_condition facts questions phase depth cc ∧
    ∀ fs answers, Condition.Evaluate cc fs answers = denote c fs answers.

Lemma forallb_Forall2 {A B} (f : A → bool) (g : B → bool) l k :
    Forall2 (λ x y, g y = f x) l k → forallb g k = forallb f l.
  Proof. induction 1; simpl; congruence. Qed.
Lemma existsb_Forall2 {A B} (f : A → bool) (g : B → bool) l k :
    Forall2 (λ x y, g y = f x) l k → existsb g k = existsb f l.
  Proof. induction 1; simpl; congruence. Qed.

Lemma compileCombinator_Ok (child : Condition → res CompiledCondition) phase depth l kind cc :
    depth <= MaxConditionDepth →
    Forall (λ c, ∀ cc, child c = Ok cc → node_ok phase (depth + 1) c cc) l →
    0 < len l → kind = conditionKindAll ∨ kind = conditionKindAny →
    compileCombinator child l kind = Ok cc →
    wf_condition facts questions phase depth cc ∧
    ∀ fs answers, Condition.Evaluate cc fs answers =
      if decide (kind = conditionKindAll) then forallb (λ d, denote d fs answers) l
      else existsb (λ d, denote d fs answers) l.
  Proof.
    intros Hd Hl Hlen Hk. unfold compileCombinator. intros H. inv_ok. to_props.
    match goal with H : res_mapM _ _ = _ |- _ => apply res_mapM_Ok in H; rename H into Hm end.
    assert (Forall2 (node_ok phase (depth + 1)) l u0) as Hn.
    { clear -Hl Hm. induction Hm; inversion Hl; subst; constructor; auto. }
    split.
    - apply wf_Comb; [done|done| |].
      + apply Forall2_length in Hm. unfold len in *. lia.
      + apply (Forall2_Forall_r_imp _ _ _ _ Hn). by intros ?? _ [? _].
    - intros fs answers. destruct Hk as [-> | ->]; simpl;
        [apply forallb_Forall2|apply existsb_Forall2];
        (eapply list.Forall2_impl; [exact Hn|by intros ?? [_ ?]]).
  Qed.

Lemma compileCondition_Ok phase c : ∀ depth cc,
    compileCondition facts questions phase c depth = Ok cc → node_ok phase depth c cc.
  Proof.
    induction c as [all any not lhs op rhs IHall IHany IHnot] using Condition_ind.
    intros depth cc H. simpl in H. inv_ok. to_props.
    match goal with H : branches _ = 1 |- _ => rename H into Hb end.
    match goal with H : _ = Ok cc |- _ => rename H into Hrun end.
    unfold branches in Hb; simpl in Hb. unfold node_ok. simpl denote.
    destruct all as [|a all]; [|].
    2:{ rewrite decide_True in Hrun by (unfold len; simpl; lia).
        apply (compileCombinator_Ok _ phase depth) in Hrun; try done; [lia| |by left].
        eapply list.Forall_impl; [exact IHall|]. simpl. intros x Hx ccx. apply Hx. }
    rewrite decide_False in Hrun by (unfold len; simpl; lia).
    destruct any as [|a any].
    2:{ rewrite decide_True in Hrun by (unfold len; simpl; lia).
        apply (compileCombinator_Ok _ phase depth) in Hrun; try done; [lia| |by right].
        eapply list.Forall_impl; [exact IHany|]. simpl. intros x Hx ccx. apply Hx. }
    rewrite decide_False in Hrun by (unfold len; simpl; lia).
    destruct not as [n|]; simpl in *.
    - inv_ok. match goal with H : compileCondition _ _ _ n _ = _ |- _ =>
        apply (IHnot n eq_refl) in H as [Hw He] end.
      split; [apply wf_Not; [lia|done]|]. intros fs answers. simpl. by rewrite He.
    - destruct lhs as [l|]; [|done].
      pose proof Hrun as Hw. apply compileLeaf_Ok in Hw as (o & rs & rl & rb & Hcc & _ & Ho & Hl).
      split; [subst; apply wf_Leaf; [lia|done|done]|]. intros fs answers.
      by eapply compileLeaf_correct.
  Qed.
End correctness.

(** ** Rules *)
Definition rule_when (r : Rule) (facts : Facts) (answers : Answers) : bool :=
  match rule_When r with None => true | Some when => denote when facts answers end.

(** A compiled rule is its source rule: same name and outcome, same meaning. *)
Record rule_ok (r : Rule) (cr : CompiledRule) : Prop := {
  ro_id : cr_ID cr = rule_ID r;
  ro_description : cr_Description cr = rule_Description r;
  ro_outcome : cr_Outcome cr = rule_Outcome r;
  ro_condition : cr_Condition cr = None ↔ rule_When r = None;
  ro_matches facts answers : Condition.Matches cr facts answers = rule_when r facts answers
}.

Section rules.
  Context (outcomes : list Outcome) (facts : gmap string FactType)
    (questions : gmap string CompiledQuestion) (phase : rulePhase).
  Notation wf_rule := (wf_rule facts questions outcomes phase).

Lemma compileRule_Ok ids rule r :
    compileRule (list_to_set outcomes) facts questions phase ids rule = Ok r →
    r.1 = {[cr_ID r.2]} ∪ ids ∧ cr_ID r.2 ∉ ids ∧ wf_rule r.2 ∧ rule_ok rule r.2.
  Proof.
    unfold compileRule. intros H. inv_ok. to_props.
    match goal with H : _ ∈ list_to_set _ |- _ => apply elem_of_list_to_set in H end.
    destruct (rule_When rule) as [w|] eqn:Ew; inv_ok; simpl.
    - match goal with H : compileCondition _ _ _ _ _ = _ |- _ =>
        apply compileCondition_Ok in H as [Hw He] end.
      split; [done|]. split; [done|]. split.
      + split; [done|]. split; [simpl; lia|]. split; [done|]. simpl. by intros c [= <-].
      + split; try done; simpl; [by rewrite Ew|]. intros fs answers.
        unfold Condition.Matches, rule_when. simpl. by rewrite Ew.
    - split; [done|]. split; [done|]. split.
      + split; [done|]. split; [simpl; lia|]. done.
      + split; try done. intros fs answers. unfold rule_when. by rewrite Ew.
  Qed.

  (** What the loop has established after a prefix [done] of the rules. *)
Record rules_inv (ids0 : gset string) (done : list Rule)
    (st : gset string * bool * list CompiledRule) : Prop := {
    ri_ok : Forall2 rule_ok done st.2;
    ri_wf : Forall wf_rule st.2;
    ri_nodup : NoDup (cr_ID <$> st.2);
    ri_fresh : ∀ r, r ∈ st.2 → cr_ID r ∉ ids0;
    ri_ids : st.1.1 = list_to_set (cr_ID <$> st.2) ∪ ids0;
    ri_live : ∀ i r, st.2 !! i = Some r → cr_Condition r = None →
      st.1.2 = true ∧ length st.2 = S i
  }.

Lemma rules_inv_step ids0 pre rule ids saw compiled r :
    rules_inv ids0 pre (ids, saw, compiled) → saw = false →
    compileRule (list_to_set outcomes) facts questions phase ids rule = Ok r →
    rules_inv ids0 (pre ++ [rule])
      (r.1, saw || bool_decide (cr_Condition r.2 = None), compiled ++ [r.2]).
  Proof.
    intros [Hok Hwf Hnd Hfr Hids Hlive] -> (Hr1 & Hnew & Hw & Hro)%compileRule_Ok.
    simpl in *. subst ids. apply not_elem_of_union in Hnew as [Hnew0 Hnew].
    rewrite elem_of_list_to_set in Hnew0. split; simpl.
    - apply Forall2_app; [done|by constructor].
    - apply list.Forall_app. split; [done|by constructor].
    - rewrite fmap_app. apply list.NoDup_app. split; [done|]. split; [|apply NoDup_singleton].
      intros x Hx. simpl. intros ->%list_elem_of_singleton. done.
    - intros x [Hx| ->%list_elem_of_singleton]%elem_of_app; [by apply Hfr|done].
    - rewrite Hr1, fmap_app. simpl. set_solver.
    - intros i x [Hx|[Hi Hx]]%lookup_app_Some Hn.
      + by destruct (Hlive i x Hx Hn).
      + apply list_lookup_singleton_Some in Hx as [Hz <-].
        rewrite bool_decide_eq_true_2 by done. rewrite length_app. simpl. lia.
  Qed.

Lemma compileRules_Ok ids0 rules r :
    compileRules (list_to_set outcomes) facts questions phase ids0 rules = Ok r →
    len rules <= MaxRules ∧ ∃ saw, rules_inv ids0 rules (r.1, saw, r.2).
  Proof.
    unfold compileRules. intros H. inv_ok. to_props. simpl. split; [lia|].
    match goal with H : res_foldM _ _ _ = Ok (_, ?saw, _) |- _ =>
      exists saw; apply (res_foldM_inv _ (rules_inv ids0)) in H; [done| |] end.
    - split; simpl; try done; try constructor; set_solver.
    - intros pre rule [[ids saw] compiled] st2 Hinv Hs. inv_ok.
      by eapply rules_inv_step.
  Qed.
End rules.

(** ** Policies *)

(** What a compiled policy keeps of its document. *)
Record compiled_from (doc : Document) (c : Compiled) : Prop := {
  cf_ref : c_Ref c = MkRef (md_Name (doc_Metadata doc)) (md_Version (doc_Metadata doc));
  cf_description : c_Description c = md_Description (doc_Metadata doc);
  cf_model : c_Model c = sp_Model (doc_Spec doc);
  cf_outcomes : c_Outcomes c = sp_Outcomes (doc_Spec doc);
  cf_default : c_DefaultOutcome c = sp_DefaultOutcome (doc_Spec doc);
  cf_required : c_RequiredFacts c = in_RequiredFacts (sp_Input (doc_Spec doc));
  cf_optional : c_OptionalFacts c = in_OptionalFacts (sp_Input (doc_Spec doc));
  cf_strict : c_StrictInput c = in_Strict (sp_Input (doc_Spec doc));
  cf_questions : dom (c_Questions c) = dom (sp_Questions (doc_Spec doc));
  cf_preRules : Forall2 rule_ok (sp_PreRules (doc_Spec doc)) (c_PreRules c);
  cf_decisionRules : Forall2 rule_ok (sp_DecisionRules (doc_Spec doc)) (c_DecisionRules c)
}.

Lemma resolveMaxQuestions_le n : resolveMaxQuestions n <= MaxQuestions.
Proof. unfold resolveMaxQuestions. repeat case_bool_decide; simpl; lia. Qed.

Lemma compileFacts_Ok input all required optional :
  compileFacts input = Ok (all, required, optional) →
  required = in_RequiredFacts input ∧ optional = in_OptionalFacts input ∧
  all = required ∪ optional ∧ required ##ₘ optional ∧
  msize required + msize optional <= MaxRequiredFacts ∧
  ∀ name t, all !! name = Some t → IsFactName name = true ∧ FactType_IsValid t = true.
Proof.
  unfold compileFacts. intros H. inv_ok. to_props. simpl in *.
  repeat match goal with H : collectFacts _ _ = _ |- _ =>
    apply collectFacts_Ok in H as (-> & -> & ? & ?) end.
  rewrite !(right_id_L ∅ (∪)) in *.
  match goal with H : in_OptionalFacts _ ##ₘ _ |- _ => rename H into Hd end.
  split; [done|]. split; [done|]. split; [by apply map_union_comm|].
  split; [done|]. split; [lia|]. intros name t [|[_ ?]]%lookup_union_Some_raw; eauto.
Qed.

Lemma rules_inv_phases outcomes facts questions pre dec ids1 ids2 saw1 saw2 cs1 cs2 :
  rules_inv outcomes facts questions rulePhasePre ∅ pre (ids1, saw1, cs1) →
  rules_inv outcomes facts questions rulePhaseDecision ids1 dec (ids2, saw2, cs2) →
  NoDup (cr_ID <$> cs1 ++ cs2).
Proof.
  intros [_ _ Hn1 _ Hids _] [_ _ Hn2 Hf _ _]. simpl in *.
  rewrite fmap_app. apply list.NoDup_app. split; [done|]. split; [|done].
  intros x Hx (r & -> & Hr)%list_elem_of_fmap. apply (Hf r Hr). subst ids1.
  apply elem_of_union_l. by apply elem_of_list_to_set.
Qed.

Lemma rules_inv_facts outcomes facts questions phase ids0 rules ids saw cs :
  rules_inv outcomes facts questions phase ids0 rules (ids, saw, cs) →
  Forall2 rule_ok rules cs ∧ Forall (wf_rule facts questions outcomes phase) cs ∧
  len cs = len rules ∧ no_dead_rule cs.
Proof.
  intros [Hok Hwf _ _ _ Hl]. simpl in *. repeat split; try done.
  - apply Forall2_length in Hok. unfold len. lia.
  - intros i r Hi Hn. by apply (Hl i r).
Qed.

Lemma compile_inv doc n c :
  CompileWithMaxQuestions (Some doc) n = Ok c → wf_compiled c ∧ compiled_from doc c.
Proof.
  unfold CompileWithMaxQuestions. intros H. inv_ok.
  match goal with H : validateDocumentIdentity _ = _ |- _ =>
    unfold validateDocumentIdentity in H end.
  inv_ok. simpl in *.
  repeat match goal with
  | H : compileMetadata _ = _ |- _ =>
      apply compileMetadata_Ok in H as (-> & ? & ? & ? & ? & ?)
  | H : compileOutcomes _ _ = _ |- _ =>
      apply compileOutcomes_Ok in H as (? & ? & ? & -> & ?)
  | H : compileFacts _ = _ |- _ =>
      apply compileFacts_Ok in H as (-> & -> & -> & ? & ? & ?)
  | H : compileQuestions _ _ = _ |- _ =>
      apply compileQuestions_Ok in H as ([? ?] & ? & ? & ?)
  | H : compileRules _ _ _ _ _ _ = _ |- _ =>
      apply compileRules_Ok in H as [? [? ?]]
  end.
  pose proof (resolveMaxQuestions_le n). simpl in *.
  match goal with
  | H1 : rules_inv _ _ _ rulePhasePre _ _ _, H2 : rules_inv _ _ _ rulePhaseDecision _ _ _ |- _ =>
      pose proof (rules_inv_phases _ _ _ _ _ _ _ _ _ _ _ H1 H2);
      apply rules_inv_facts in H1 as (? & ? & ? & ?);
      apply rules_inv_facts in H2 as (? & ? & ? & ?)
  end.
  subst. split; split; simpl; try done; lia.
Qed.

(** The ceiling the deployment configured. *)
Lemma compile_ceiling doc n c : CompileWithMaxQuestions (Some doc) n = Ok c → 0 < n →
  msize (c_Questions c) <= n.
Proof.
  unfold CompileWithMaxQuestions. intros H Hn. inv_ok. simpl in *.
  match goal with H : compileQuestions _ _ = _ |- _ => apply compileQuestions_Ok in H as ([? Hle] & _) end.
  simpl in *. etrans; [exact Hle|]. unfold resolveMaxQuestions.
  repeat case_bool_decide; simpl; lia.
Qed.

End CompileSound.
