(* ===== verification/Evaluate.v ===== *)
(** * Evaluating a policy

    [internal/pkg/policy/evaluate.go]: the two rule phases and the check of the
    provider's answers against the questions, with the contract it enforces. *)

From S2P Require Import Prelude GoFloat GoAny Decision Document Condition.
From S2P Require Import CompileQuestion CompileCondition Canonical WellFormed.
From Stdlib Require Import SpecFloat.
From stdpp Require Import options.
#[local] Open Scope Z_scope.

Module Evaluate.
Import Condition CompileCondition WellFormed.

(** [ProbabilitySumTolerance + floatComparisonSlack], a constant expression: exact,
    then rounded once. *)
Definition probabilitySumBound : float64 := f64_of_ratio 20000001 1000000000.

Record Result : Set := MkResult {
  res_Outcome : Outcome;
  res_MatchedRuleID : string;
  res_Path : ExecutionPath
}.

#[export] Instance Result_eq_dec : EqDecision Result.
Proof. solve_decision. Defined.

(** ** Rule phases *)
Definition EvaluatePreRules (c : Compiled) (facts : Facts) : option Result :=
  (λ rule, MkResult (cr_Outcome rule) (cr_ID rule) ExecutionPathPreRule) <$>
    List.find (λ rule, Matches rule facts ∅) (c_PreRules c).

Definition EvaluateDecisionRules (c : Compiled) (facts : Facts) (answers : Answers) : Result :=
  match List.find (λ rule, Matches rule facts answers) (c_DecisionRules c) with
  | Some rule => MkResult (cr_Outcome rule) (cr_ID rule) ExecutionPathDecisionRule
  | None => MkResult (c_DefaultOutcome c) "" ExecutionPathDefault
  end.

(** ** The provider contract *)
Definition isProbability (value : float64) : bool :=
  if f64_is_nan value || f64_is_inf value then false
  else f64_leb minProbability value && f64_leb value maxProbability.

Definition protocol_err (bad : bool) : res unit := guard_err bad ErrProviderProtocol.

Definition validateConfidence (answer : Answer) : res unit :=
  protocol_err (negb (ans_HasConfidence answer)) ;;
  protocol_err (negb (isProbability (ans_Confidence answer))).

Definition validateDistribution (probabilities : gmap string float64) : res unit :=
  total ← res_foldM (λ total key,
    let value := default f64_zero (probabilities !! key) in
    protocol_err (negb (isProbability value)) ;;
    Ok (f64_add total value)) f64_zero (sorted_keys probabilities);
  protocol_err (f64_ltb probabilitySumBound (f64_abs (f64_sub total f64_one))).

Definition validateNoulAnswer (answer : Answer) : res unit :=
  protocol_err (negb (isProbability (ans_Noul answer))).

Definition validateChoiceAnswer (question : CompiledQuestion) (answer : Answer) : res unit :=
  protocol_err (bool_decide (cq_ChoiceCriteria question !! ans_Choice answer = None)) ;;
  validateConfidence answer ;;
  protocol_err (negb (bool_decide
    (msize (ans_Probabilities answer) = len (cq_ChoiceKeys question)))) ;;
  res_forM (λ key, protocol_err (bool_decide (ans_Probabilities answer !! key = None)))
    (cq_ChoiceKeys question) ;;
  validateDistribution (ans_Probabilities answer).

Definition validateScoreRange (answer : Answer) (levels : Z) : res unit :=
  let maxScore := f64_of_Z (levels - 1) in
  protocol_err (f64_is_nan (ans_Score answer) || f64_is_inf (ans_Score answer) ||
                f64_ltb (ans_Score answer) f64_zero || f64_ltb maxScore (ans_Score answer)).

Definition validateScoreCounts (answer : Answer) (levels : Z) : res unit :=
  protocol_err (negb (bool_decide (msize (ans_Probabilities answer) = levels))) ;;
  protocol_err (negb (bool_decide (msize (ans_Legend answer) = levels))).

Definition validateScoreLevelEntries (question : CompiledQuestion) (answer : Answer)
  : res unit :=
  res_forM (λ indexed : nat * goany,
    let key := Itoa (Z.of_nat indexed.1) in
    protocol_err (bool_decide (ans_Probabilities answer !! key = None)) ;;
    match ans_Legend answer !! key with
    | None => Err (EIs ErrProviderProtocol)
    | Some legend => protocol_err (negb (DeepEqual legend indexed.2))
    end) (imap pair (cq_ScoreCriteria question)).

Definition validateScoreAnswer (question : CompiledQuestion) (answer : Answer) : res unit :=
  let levels := len (cq_ScoreCriteria question) in
  validateScoreRange answer levels ;;
  validateConfidence answer ;;
  validateScoreCounts answer levels ;;
  validateScoreLevelEntries question answer ;;
  validateDistribution (ans_Probabilities answer).

Definition validateAnswer (question : CompiledQuestion) (answer : Answer) : res unit :=
  protocol_err (negb (bool_decide (ans_Type answer = cq_Type question))) ;;
  if decide (cq_Type question = QuestionTypeNoul) then validateNoulAnswer answer
  else if decide (cq_Type question = QuestionTypeChoice) then
    validateChoiceAnswer question answer
  else if decide (cq_Type question = QuestionTypeScore) then
    validateScoreAnswer question answer
  else Err (EIs ErrProviderProtocol).

Definition ValidateAnswers (c : Compiled) (answers : Answers) : res unit :=
  protocol_err (negb (bool_decide (msize answers = len (c_QuestionIDs c)))) ;;
  res_forM (λ id,
    match answers !! id with
    | None => Err (EIs ErrProviderProtocol)
    | Some answer =>
        validateAnswer (default Canonical.zeroQuestion (c_Questions c !! id)) answer
    end) (c_QuestionIDs c).

(** ** The contract, declaratively *)
Definition is_prob (f : float64) : Prop := f64_leb f64_zero f = true ∧ f64_leb f f64_one = true.

Record distribution (p : gmap string float64) : Prop := {
  di_range : ∀ k v, p !! k = Some v → is_prob v;
  di_sum : f64_ltb probabilitySumBound
    (f64_abs (f64_sub (foldl f64_add f64_zero ((amap_of p).*2)) f64_one)) = false
}.

Record confident (a : Answer) : Prop := {
  cf_has : ans_HasConfidence a = true;
  cf_prob : is_prob (ans_Confidence a)
}.

Definition level_key (i : nat) : string := Itoa (Z.of_nat i).

(** What a question of each type requires of its answer. *)
Inductive answer_contract (q : CompiledQuestion) (a : Answer) : Prop :=
  | contract_noul :
      ans_Type a = cq_Type q → cq_Type q = QuestionTypeNoul → is_prob (ans_Noul a) →
      answer_contract q a
  | contract_choice :
      ans_Type a = cq_Type q → cq_Type q = QuestionTypeChoice →
      is_Some (cq_ChoiceCriteria q !! ans_Choice a) → confident a →
      dom (ans_Probabilities a) = dom (cq_ChoiceCriteria q) →
      distribution (ans_Probabilities a) → answer_contract q a
  | contract_score :
      ans_Type a = cq_Type q → cq_Type q = QuestionTypeScore →
      f64_leb f64_zero (ans_Score a) = true →
      f64_leb (ans_Score a) (f64_of_Z (len (cq_ScoreCriteria q) - 1)) = true →
      confident a →
      (∀ k, is_Some (ans_Probabilities a !! k) ↔
         ∃ i, (i < length (cq_ScoreCriteria q))%nat ∧ k = level_key i) →
      (∀ k, is_Some (ans_Legend a !! k) ↔
         ∃ i, (i < length (cq_ScoreCriteria q))%nat ∧ k = level_key i) →
      (∀ i level legend, cq_ScoreCriteria q !! i = Some level →
         ans_Legend a !! level_key i = Some legend → DeepEqual legend level = true) →
      distribution (ans_Probabilities a) → answer_contract q a.

(** The provider's part of an evaluation: one answer for each question and no other. *)
Record answers_contract (c : Compiled) (answers : Answers) : Prop := {
  ac_dom : dom answers = dom (c_Questions c);
  ac_answer : ∀ id q a, c_Questions c !! id = Some q → answers !! id = Some a →
    answer_contract q a
}.

Lemma isProbability_true f : isProbability f = true ↔ is_prob f.
Proof.
  unfold isProbability, is_prob, minProbability, maxProbability. rewrite <- andb_true_iff.
  by destruct f as [|[]| |[] ? ?].
Qed.

Lemma protocol_err_Ok b u : protocol_err b = Ok u ↔ b = false.
Proof. apply guard_err_Ok. Qed.

Lemma amap_of_values {V} (d : V) (p : gmap string V) :
  (amap_of p).*2 = (λ k, default d (p !! k)) <$> sorted_keys p.
Proof.
  unfold amap_of. assert (∀ k, k ∈ sorted_keys p → is_Some (p !! k)) as H.
  { intros k. apply elem_of_sorted_keys. }
  induction (sorted_keys p) as [|k l IH]; simpl; [done|].
  destruct (H k ltac:(by left)) as [v Hv]. rewrite Hv. simpl. f_equal.
  apply IH. intros k' Hk'. apply H. by right.
Qed.

(** The summing loop. *)
Lemma sum_loop (p : gmap string float64) l t t' :
  res_foldM (λ total key,
    protocol_err (negb (isProbability (default f64_zero (p !! key)))) ;;
    Ok (f64_add total (default f64_zero (p !! key)))) t l = Ok t' ↔
  Forall (λ k, is_prob (default f64_zero (p !! k))) l ∧
  t' = foldl f64_add t ((λ k, default f64_zero (p !! k)) <$> l).
Proof.
  revert t. induction l as [|k l IH]; intros t; simpl.
  - split; [by intros [= <-]|by intros [_ ->]].
  - rewrite Forall_cons_iff, <- isProbability_true.
    destruct (isProbability _) eqn:E; simpl; [|naive_solver].
    rewrite IH. naive_solver.
Qed.

Lemma validateDistribution_Ok p u : validateDistribution p = Ok u ↔ distribution p.
Proof.
  unfold validateDistribution. rewrite bind_Ok. setoid_rewrite sum_loop.
  setoid_rewrite protocol_err_Ok. setoid_rewrite list.Forall_forall.
  setoid_rewrite elem_of_sorted_keys. split.
  - intros (t & [H ->] & Ht). split; [|by rewrite (amap_of_values f64_zero)].
    intros k v Hv. specialize (H k). rewrite Hv in H. eauto.
  - intros [H Hs]. rewrite (amap_of_values f64_zero) in Hs. eexists. split; [|exact Hs].
    split; [|done]. intros k [v Hv]. rewrite Hv. by apply (H k).
Qed.

Lemma validateConfidence_Ok a u : validateConfidence a = Ok u ↔ confident a.
Proof.
  unfold validateConfidence. rewrite bind_Ok. setoid_rewrite protocol_err_Ok.
  setoid_rewrite negb_false_iff. setoid_rewrite isProbability_true. split.
  - by intros ([] & ? & ?).
  - intros [? ?]. by exists tt.
Qed.

(** Counting and probing the keys pins down the key set. *)
Lemma keys_exact {V} (p : gmap string V) (l : list string) :
  NoDup l →
  (msize p = len l ∧ Forall (λ k, is_Some (p !! k)) l) ↔ (∀ k, is_Some (p !! k) ↔ k ∈ l).
Proof.
  intros Hn. rewrite list.Forall_forall. unfold msize, len. rewrite <- size_dom.
  rewrite <- (size_list_to_set (C := gset string) l) by done. split.
  - intros [Hs Hl] k. rewrite <- elem_of_dom, <- (elem_of_list_to_set (C := gset string)).
    rewrite (set_subseteq_size_eq (list_to_set l) (dom p)); [done| |lia].
    intros x Hx%elem_of_list_to_set. apply elem_of_dom. auto.
  - intros H. split; [|by intros k Hk; apply H]. do 2 f_equal. apply set_eq. intros k.
    by rewrite elem_of_dom, H, elem_of_list_to_set.
Qed.

Lemma level_key_inj i j : level_key i = level_key j → i = j.
Proof. intros H%string_of_Z_inj. lia. Qed.

Definition level_keys (n : nat) : list string := level_key <$> seq 0 n.

Lemma level_keys_NoDup n : NoDup (level_keys n).
Proof.
  unfold level_keys. apply NoDup_fmap_2; [|apply NoDup_seq].
  intros i j. apply level_key_inj.
Qed.

Lemma elem_of_level_keys n k : k ∈ level_keys n ↔ ∃ i, (i < n)%nat ∧ k = level_key i.
Proof.
  unfold level_keys. rewrite list_elem_of_fmap. setoid_rewrite elem_of_seq. naive_solver lia.
Qed.

Lemma len_level_keys n : len (level_keys n) = Z.of_nat n.
Proof. unfold len, level_keys. by rewrite length_fmap, length_seq. Qed.

Lemma validateChoiceAnswer_Ok q a u :
  cq_ChoiceKeys q = sorted_keys (cq_ChoiceCriteria q) →
  validateChoiceAnswer q a = Ok u ↔
  is_Some (cq_ChoiceCriteria q !! ans_Choice a) ∧ confident a ∧
  dom (ans_Probabilities a) = dom (cq_ChoiceCriteria q) ∧ distribution (ans_Probabilities a).
Proof.
  intros Hk. unfold validateChoiceAnswer. rewrite Hk.
  assert (dom (ans_Probabilities a) = dom (cq_ChoiceCriteria q) ↔
    msize (ans_Probabilities a) = len (sorted_keys (cq_ChoiceCriteria q)) ∧
    Forall (λ k, is_Some (ans_Probabilities a !! k)) (sorted_keys (cq_ChoiceCriteria q)))
    as ->.
  { rewrite keys_exact by apply NoDup_sorted_keys. setoid_rewrite elem_of_sorted_keys.
    rewrite set_eq. by setoid_rewrite elem_of_dom. }
  assert (∀ v : res unit, v = Ok u ↔ v = Ok tt) as -> by by destruct u.
  rewrite !seq_Ok, !protocol_err_Ok, validateConfidence_Ok, res_forM_Ok, validateDistribution_Ok.
  rewrite bool_decide_eq_false, negb_false_iff, bool_decide_eq_true, not_eq_None_Some.
  setoid_rewrite protocol_err_Ok. setoid_rewrite bool_decide_eq_false.
  setoid_rewrite not_eq_None_Some. tauto.
Qed.

Lemma score_entries_Ok q a u :
  validateScoreLevelEntries q a = Ok u ↔
  ∀ i level, cq_ScoreCriteria q !! i = Some level →
    is_Some (ans_Probabilities a !! level_key i) ∧
    ∃ legend, ans_Legend a !! level_key i = Some legend ∧ DeepEqual legend level = true.
Proof.
  unfold validateScoreLevelEntries. rewrite res_forM_Ok, Forall_lookup.
  setoid_rewrite list_lookup_imap. split.
  - intros H i level Hi. specialize (H i (i, level)). rewrite Hi in H.
    specialize (H eq_refl). simpl in H. inv_ok.
    rewrite protocol_err_Ok, bool_decide_eq_false, not_eq_None_Some in Hok.
    split; [done|]. fold (level_key i) in *.
    destruct (ans_Legend a !! level_key i) as [legend|]; [|done].
    apply guard_err_Ok, negb_false_iff in Hok0. eauto.
  - intros H i [i' level] Hi. apply fmap_Some in Hi as (x & Hx & [= -> ->]). simpl.
    fold (level_key i). destruct (H i x Hx) as ([p ->] & legend & -> & Hl).
    simpl. by rewrite Hl.
Qed.

(** The score range: finite, from zero to the last level. *)
Lemma validateScoreRange_Ok a levels u :
  0 < levels <= MaxScoreCriteria →
  validateScoreRange a levels = Ok u ↔
  f64_leb f64_zero (ans_Score a) = true ∧ f64_leb (ans_Score a) (f64_of_Z (levels - 1)) = true.
Proof.
  intros Hl. unfold validateScoreRange. rewrite protocol_err_Ok, !orb_false_iff.
  assert (f64_is_nan (f64_of_Z (levels - 1)) = false ∧
          f64_leb (S754_infinity false) (f64_of_Z (levels - 1)) = false) as [Hn Hi].
  { assert (levels ∈ [1; 2; 3; 4; 5; 6; 7; 8; 9; 10]) as Hin.
    { unfold MaxScoreCriteria in Hl. rewrite !elem_of_cons. lia. }
    clear Hl. revert levels Hin. apply list.Forall_forall. repeat constructor. }
  destruct (f64_is_nan (ans_Score a)) eqn:En.
  - split; [naive_solver|]. intros [[_ ?]%f64_leb_not_nan _]. congruence.
  - rewrite !f64_ltb_negb_leb, !negb_false_iff by done.
    split; [naive_solver|]. intros [H1 H2]. repeat split; try done.
    destruct (ans_Score a) as [|[]| |]; try done. congruence.
Qed.

Lemma validateScoreAnswer_Ok q a u :
  MinScoreCriteria <= len (cq_ScoreCriteria q) <= MaxScoreCriteria →
  validateScoreAnswer q a = Ok u ↔
  f64_leb f64_zero (ans_Score a) = true ∧
  f64_leb (ans_Score a) (f64_of_Z (len (cq_ScoreCriteria q) - 1)) = true ∧
  confident a ∧
  (∀ k, is_Some (ans_Probabilities a !! k) ↔
     ∃ i, (i < length (cq_ScoreCriteria q))%nat ∧ k = level_key i) ∧
  (∀ k, is_Some (ans_Legend a !! k) ↔
     ∃ i, (i < length (cq_ScoreCriteria q))%nat ∧ k = level_key i) ∧
  (∀ i level legend, cq_ScoreCriteria q !! i = Some level →
     ans_Legend a !! level_key i = Some legend → DeepEqual legend level = true) ∧
  distribution (ans_Probabilities a).
Proof.
  intros Hlen. set (n := length (cq_ScoreCriteria q)).
  assert (0 < len (cq_ScoreCriteria q) <= MaxScoreCriteria) as Hlen'.
  { unfold MinScoreCriteria in Hlen. lia. }
  unfold validateScoreAnswer, validateScoreCounts.
  assert (∀ v : res unit, v = Ok u ↔ v = Ok tt) as -> by by destruct u.
  rewrite !seq_Ok, !protocol_err_Ok, validateScoreRange_Ok, validateConfidence_Ok,
    score_entries_Ok, validateDistribution_Ok, !negb_false_iff, !bool_decide_eq_true by done.
  setoid_rewrite <- elem_of_level_keys. rewrite <- !keys_exact by apply level_keys_NoDup.
  rewrite !len_level_keys. fold (len (cq_ScoreCriteria q)).
  assert (∀ V (p : gmap string V), Forall (λ k, is_Some (p !! k)) (level_keys n) ↔
    ∀ i level, cq_ScoreCriteria q !! i = Some level → is_Some (p !! level_key i)) as Hf.
  { intros V p. unfold level_keys. rewrite Forall_fmap, Forall_seq. simpl. split.
    - intros H i level Hi%lookup_lt_Some. apply H. fold n in Hi. lia.
    - intros H i [_ Hi]. destruct (lookup_lt_is_Some_2 _ _ Hi) as [level Hl]. eauto. }
  rewrite !Hf.
  enough ((∀ i level, cq_ScoreCriteria q !! i = Some level →
      is_Some (ans_Probabilities a !! level_key i) ∧
      ∃ legend, ans_Legend a !! level_key i = Some legend ∧ DeepEqual legend level = true) ↔
    (∀ i level, cq_ScoreCriteria q !! i = Some level →
      is_Some (ans_Probabilities a !! level_key i)) ∧
    (∀ i level, cq_ScoreCriteria q !! i = Some level → is_Some (ans_Legend a !! level_key i)) ∧
    (∀ i level legend, cq_ScoreCriteria q !! i = Some level →
      ans_Legend a !! level_key i = Some legend → DeepEqual legend level = true)) as ->
    by tauto.
  split.
  - intros He. repeat split.
    + intros i level Hi. by apply (He i level).
    + intros i level Hi. destruct (He i level Hi) as (_ & l & -> & _). eauto.
    + intros i level legend Hi Hleg. destruct (He i level Hi) as (_ & l & Hl & ?). congruence.
  - intros (Hp & Hl & Hd) i level Hi. split; [by eapply Hp|].
    destruct (Hl i level Hi) as [legend Hleg]. eauto.
Qed.

(** One answer against a question the compiler produced. *)
Lemma validateAnswer_Ok id q a u :
  wf_question id q → validateAnswer q a = Ok u ↔ answer_contract q a.
Proof.
  intros Hq. unfold validateAnswer.
  assert (∀ v : res unit, v = Ok u ↔ v = Ok tt) as -> by by destruct u.
  rewrite seq_Ok, protocol_err_Ok, negb_false_iff, bool_decide_eq_true.
  destruct Hq as [ins cr Hid Hcr|ins cr Hid Hlen Hcr|ins levels Hid Hlen]; cbn [cq_Type];
    [rewrite decide_True by done
    |rewrite decide_False, decide_True by done
    |rewrite !decide_False, decide_True by done].
  - unfold validateNoulAnswer. rewrite protocol_err_Ok, negb_false_iff, isProbability_true.
    split; [intros [? ?]; by apply contract_noul|by intros []].
  - rewrite validateChoiceAnswer_Ok by done. simpl.
    split; [intros (? & ? & ? & ? & ?); by apply contract_choice|by intros []].
  - rewrite validateScoreAnswer_Ok by done. simpl.
    split; [intros (? & ? & ? & ? & ? & ? & ? & ?); by apply contract_score|by intros []].
Qed.

Lemma protocol_err_Err b e : protocol_err b = Err e → e = EIs ErrProviderProtocol.
Proof. intros H. by apply guard_err_Err in H as [_ ->]. Qed.

Lemma ValidateAnswers_Ok c answers u :
  wf_compiled c → ValidateAnswers c answers = Ok u ↔ answers_contract c answers.
Proof.
  intros Hwf. unfold ValidateAnswers.
  assert (∀ v : res unit, v = Ok u ↔ v = Ok tt) as -> by by destruct u.
  rewrite seq_Ok, protocol_err_Ok, negb_false_iff, bool_decide_eq_true, res_forM_Ok.
  rewrite (wfc_questionIDs _ Hwf).
  assert (dom answers = dom (c_Questions c) ↔
    msize answers = len (sorted_keys (c_Questions c)) ∧
    Forall (λ k, is_Some (answers !! k)) (sorted_keys (c_Questions c))) as Hdom.
  { rewrite keys_exact by apply NoDup_sorted_keys. setoid_rewrite elem_of_sorted_keys.
    rewrite set_eq. by setoid_rewrite elem_of_dom. }
  setoid_rewrite list.Forall_forall in Hdom. rewrite list.Forall_forall.
  setoid_rewrite elem_of_sorted_keys in Hdom. setoid_rewrite elem_of_sorted_keys.
  split.
  - intros [Hs H]. split.
    + apply Hdom. split; [done|]. intros k Hk. specialize (H k Hk).
      destruct (answers !! k); [eauto|done].
    + intros id q a Hq Ha. specialize (H id ltac:(eauto)). rewrite Ha, Hq in H.
      apply (validateAnswer_Ok id) in H; [done|]. by apply (wfc_questions_valid _ Hwf).
  - intros [Hd Hc]. apply Hdom in Hd as [Hs Hd]. split; [done|]. intros id Hid.
    destruct (Hd id Hid) as [a Ha]. destruct Hid as [q Hq]. rewrite Ha, Hq. simpl.
    apply (validateAnswer_Ok id); [by apply (wfc_questions_valid _ Hwf)|]. eauto.
Qed.

End Evaluate.
