(* ===== verification/EvalSound.v ===== *)
(** * Evaluation is type safe

    What the compiler ([WellFormed.wf_compiled]) and the two run-time checks
    ([Condition.facts_contract], [Evaluate.answers_contract]) buy together: a rule
    never reads an answer that is missing, never compares values of different
    types, and every constant it compares with is an ordinary number. *)

From S2P Require Import Prelude GoFloat GoAny Decision Document Condition.
From S2P Require Import CompileCondition Canonical WellFormed CompileSound Evaluate.
From stdpp Require Import options.
#[local] Open Scope Z_scope.

Module EvalSound.
Import Condition CompileCondition WellFormed Evaluate.

(** ** The constants of a policy marshal, so they are finite *)

(** Every right-hand value below a condition. *)
Fixpoint right_values (c : CompiledCondition) : list goany :=
  let 'CC _ children _ _ rs rl _ := c in
  match children with
  | [] => rs :: rl
  | _ :: _ => List.concat (map right_values children)
  end.

Lemma mapM_id_Some {A} (l : list (option A)) k :
  mapM id l = Some k → ∀ x, x ∈ l → is_Some x.
Proof.
  intros H%mapM_Some x Hx. apply list_elem_of_lookup in Hx as [i Hi].
  destruct (Forall2_lookup_l _ _ _ _ _ H Hi) as (y & _ & Hy). simpl in Hy. eauto.
Qed.

Lemma struct_Some fields j :
  Canonical.struct fields = Some j → ∀ x, x ∈ fields → is_Some x.
Proof.
  unfold Canonical.struct. destruct (mapM id fields) eqn:E; [|done]. intros _.
  by eapply mapM_id_Some.
Qed.

Lemma field_omitempty_Some e name v :
  is_Some (Canonical.field_omitempty e name v) → e = true ∨ is_Some v.
Proof.
  unfold Canonical.field_omitempty, Canonical.field. destruct e; [by left|].
  rewrite fmap_is_Some. by right.
Qed.

Lemma jarr_Some l : is_Some (Canonical.jarr l) → ∀ x, x ∈ l → is_Some x.
Proof.
  unfold Canonical.jarr. rewrite fmap_is_Some. intros [k H]. by eapply mapM_id_Some.
Qed.

Definition marshals (v : goany) : Prop := is_Some (marshal v).

Lemma condition_constants_marshal c :
  is_Some (Canonical.condition_json (Canonical.canonicalizeCondition c)) →
  Forall marshals (right_values c).
Proof.
  induction c as [k children o op rs rl rb IH] using CompiledCondition_ind.
  intros [j Hj]. simpl in Hj. destruct children as [|ch children].
  - set (cc := match co_kind o with operandKindFact => _ | operandKindAnswer => _ end) in Hj.
    assert (Canonical.cnc_RightScalar cc = rs ∧ Canonical.cnc_RightList cc = rl) as [Hs Hl]
      by by subst cc; destruct (co_kind o).
    clearbody cc. destruct cc; simpl in *. subst.
    pose proof (struct_Some _ _ Hj) as H. constructor.
    + destruct (field_omitempty_Some (bool_decide (rs = ANil)) "rightScalar" (marshal rs))
        as [->%bool_decide_eq_true|]; [apply H; in_list|by eexists|done].
    + apply list.Forall_forall. intros v Hv.
      destruct (field_omitempty_Some (Canonical.is_nil rl) "rightList"
        (Canonical.jarr (marshal <$> rl))) as [He|Hr]; [apply H; in_list|destruct rl; [by apply elem_of_nil in Hv|done]|].
      apply (jarr_Some _ Hr). apply list_elem_of_fmap. eauto.
  - pose proof (struct_Some _ _ Hj) as H. simpl in H.
    assert (is_Some (Canonical.jarr (map Canonical.condition_json
      (map Canonical.canonicalizeCondition (ch :: children))))) as Hc.
    { simpl. destruct (field_omitempty_Some false "children" (Canonical.jarr (map
        Canonical.condition_json (map Canonical.canonicalizeCondition (ch :: children)))))
        as [?|?]; [apply H; in_list|done|done]. }
    clear H Hj. simpl. change (right_values ch ++ List.concat (map right_values children))
      with (List.concat (map right_values (ch :: children))).
    rewrite List.map_map in Hc. revert IH Hc. generalize (ch :: children) as l. intros l IH Hc.
    apply list.Forall_forall. intros v Hv%list_elem_of_In.
    apply List.in_concat in Hv as (vs & Hvs & Hv). apply List.in_map_iff in Hvs as (c & <- & Hcl).
    rewrite list.Forall_forall in IH. apply list_elem_of_In in Hcl, Hv.
    specialize (IH c Hcl). cut (Forall marshals (right_values c)).
    { rewrite list.Forall_forall. auto. }
    apply IH.
    apply (jarr_Some _ Hc). apply list_elem_of_In, List.in_map_iff. exists c. split; [done|].
    by apply list_elem_of_In.
Qed.

Lemma rule_constants_marshal rules r c :
  is_Some (Canonical.jarr (Canonical.rule_json <$> Canonical.canonicalRules rules)) →
  r ∈ rules → cr_Condition r = Some c → Forall marshals (right_values c).
Proof.
  intros H Hr Hc. apply condition_constants_marshal.
  assert (is_Some (Canonical.rule_json (Canonical.MkCanonicalRule (cr_ID r)
    (cr_Description r) (cr_Outcome r) (Canonical.canonicalizeCondition <$> cr_Condition r))))
    as [j Hj].
  { apply (jarr_Some _ H). unfold Canonical.canonicalRules. rewrite <- list_fmap_compose.
    apply list_elem_of_fmap. eauto. }
  rewrite Hc in Hj. pose proof (struct_Some _ _ Hj) as Hf. simpl in Hf.
  assert (is_Some (Canonical.field "when" (Canonical.condition_json
    (Canonical.canonicalizeCondition c)))) as Hw by (apply Hf; in_list).
  unfold Canonical.field in Hw. by rewrite fmap_is_Some in Hw.
Qed.

Lemma float_marshals f : marshals (AFloat64 f) → f64_is_finite f = true.
Proof. by intros [j Hj]; destruct f. Qed.

Lemma f64_finite_not_nan f : f64_is_finite f = true → f64_is_nan f = false.
Proof. by destruct f. Qed.

(** ** Typed reads *)

(** Values that [scalarEqual] and [compareOrdered] really compare. *)
Inductive comparable : goany → goany → Prop :=
  | comparable_number l r a b :
      AsNumber l = Some a → AsNumber r = Some b → comparable l r
  | comparable_string s t : comparable (AString s) (AString t)
  | comparable_bool a b : comparable (ABool a) (ABool b).

(** What a validated answer yields for a field. *)
Inductive answer_value (q : CompiledQuestion) (f : AnswerField) : goany → Prop :=
  | av_choice key :
      f = AnswerFieldChoice → is_Some (cq_ChoiceCriteria q !! key) →
      answer_value q f (AString key)
  | av_number x :
      f ≠ AnswerFieldChoice → f64_is_finite x = true → f64_leb f64_zero x = true →
      answer_value q f (AFloat64 x).

Lemma is_prob_finite f : is_prob f → f64_is_finite f = true ∧ f64_leb f64_zero f = true.
Proof. intros [H1 H2]. split; [by apply f64_between_finite|done]. Qed.

Lemma score_finite levels f :
  MinScoreCriteria <= levels <= MaxScoreCriteria → f64_leb f64_zero f = true →
  f64_leb f (f64_of_Z (levels - 1)) = true → f64_is_finite f = true.
Proof.
  intros Hl H0. assert (levels ∈ [2; 3; 4; 5; 6; 7; 8; 9; 10]) as Hin.
  { unfold MinScoreCriteria, MaxScoreCriteria in Hl. rewrite !elem_of_cons. lia. }
  clear Hl. revert levels Hin.
  refine (proj1 (list.Forall_forall
    (λ levels, f64_leb f (f64_of_Z (levels - 1)) = true → f64_is_finite f = true) _) _).
  destruct f as [|[]| |]; try done; repeat constructor; done.
Qed.

Section validated.
  #[local] Set Default Proof Using "Type*".
  Context (c : Compiled) (facts : Facts) (answers : Answers).
  Context (Hwf : wf_compiled c) (Hanswers : answers_contract c answers).

  Notation wf_operand := (wf_operand (declared_facts c) (c_Questions c)).

  (** An answer operand always reads a value of its field's type. *)
Lemma answer_operand_reads phase o q :
    wf_operand phase o → co_kind o = operandKindAnswer →
    c_Questions c !! co_questionID o = Some q →
    ∃ v, Condition.resolveOperand o facts answers = Some v ∧ answer_value q (co_field o) v.
  Proof.
    intros Ho Hk Hq. destruct Ho as [|id q' f key Hph Hid Hq' Hav Hp Hnp]; [done|].
    simpl in *. assert (q' = q) as -> by congruence. clear Hq'.
    assert (is_Some (answers !! id)) as [a Ha].
    { apply elem_of_dom. rewrite (ac_dom _ _ Hanswers). apply elem_of_dom. eauto. }
    pose proof (wfc_questions_valid _ Hwf _ _ Hq) as Hwq.
    pose proof (ac_answer _ _ Hanswers _ _ _ Hq Ha) as Hc.
    unfold Condition.resolveOperand. cbn [co_kind co_questionID co_field]. rewrite Ha.
    cbn [co_probabilityKey].
    pose proof (CompileSound.AvailableOn_field _ _ Hav) as Hcases.
    destruct Hc as [Ht Hqt Hn|Ht Hqt Hch [Hhas Hconf] Hdom [Hdi _]
                   |Ht Hqt Hs1 Hs2 [Hhas Hconf] Hdom _ _ [Hdi _]];
      rewrite Hqt in Hav, Ht; unfold Probability, Field; rewrite Ht;
      destruct Hcases as [-> | [-> | [-> | [-> | ->]]]];
      try (vm_compute in Hav; discriminate Hav); rewrite ?Hhas.
    - eexists. split; [reflexivity|]. apply av_number; [done|by apply is_prob_finite..].
    - eexists. split; [reflexivity|]. by apply av_choice.
    - eexists. split; [reflexivity|]. apply av_number; [done|by apply is_prob_finite..].
    - destruct (Hp eq_refl) as [[_ Hkey]|[Hc _]]; [|by rewrite Hqt in Hc].
      rewrite <- elem_of_dom, <- Hdom, elem_of_dom in Hkey. destruct Hkey as [x Hx].
      exists (AFloat64 x). split; [simpl; by rewrite Hx|].
      apply av_number; [done|by eapply is_prob_finite, Hdi..].
    - eexists. split; [reflexivity|]. apply av_number; [done| |done].
      eapply score_finite; [|done|done]. destruct Hwq; done.
    - eexists. split; [reflexivity|]. apply av_number; [done|by apply is_prob_finite..].
    - destruct (Hp eq_refl) as [[Hc _]|[_ (level & Hlevel & ->)]]; [by rewrite Hqt in Hc|].
      destruct (proj2 (Hdom (Itoa level))) as [x Hx].
      { exists (Z.to_nat level). unfold level_key, len in *. split; [lia|]. f_equal. lia. }
      exists (AFloat64 x). split; [simpl; by rewrite Hx|].
      apply av_number; [done|by eapply is_prob_finite, Hdi..].
  Qed.

  (** A numeric answer operand reads a finite number. *)
Lemma answer_reads_number phase o q :
    wf_operand phase o → co_kind o = operandKindAnswer →
    c_Questions c !! co_questionID o = Some q → co_field o ≠ AnswerFieldChoice →
    ∃ x, Condition.resolveOperand o facts answers = Some (AFloat64 x) ∧ f64_is_finite x = true.
  Proof.
    intros Ho Hk Hq Hf. destruct (answer_operand_reads _ _ _ Ho Hk Hq) as (v & Hv & Hty).
    destruct Hty as [|x _ Hx _]; [done|]. eauto.
  Qed.

  Context (Hfacts : facts_contract c facts).

  (** A fact operand reads a value of the declared type when the fact is present, and
      a required fact is. *)
Lemma fact_operand_reads phase o v :
    wf_operand phase o → co_kind o = operandKindFact →
    Condition.resolveOperand o facts answers = Some v →
    FactType_Matches (co_factType o) v = true.
  Proof using Hfacts.
    intros Ho Hk Hv. destruct Ho as [name t Hn Ht|]; [|done].
    unfold Condition.resolveOperand in Hv. simpl in *.
    apply lookup_union_Some_raw in Ht as [Ht|[_ Ht]].
    - destruct (fc_required _ _ Hfacts _ _ Ht) as (v' & ? & ?). by simplify_eq.
    - by eapply (fc_optional _ _ Hfacts).
  Qed.

Lemma required_fact_reads phase o :
    wf_operand phase o → co_kind o = operandKindFact →
    is_Some (c_RequiredFacts c !! co_factName o) →
    is_Some (Condition.resolveOperand o facts answers).
  Proof.
    intros Ho Hk [t Ht]. destruct Ho as [name t' Hn Ht'|]; [|done].
    destruct (fc_required _ _ Hfacts _ _ Ht) as (v & Hv & _).
    unfold Condition.resolveOperand. simpl in *. eauto.
  Qed.

  (** Nor does a comparison of a fact, whatever the answers. *)
Lemma fact_comparisons_typed phase o op v r :
    wf_operand phase o → co_kind o = operandKindFact →
    Condition.resolveOperand o facts answers = Some v →
    right_ok (c_Questions c) o op r → comparable v r.
  Proof using Hfacts.
    intros Ho Hk Hv Hr. pose proof (fact_operand_reads _ _ _ Ho Hk Hv) as Ht.
    destruct Hr as [f _ Hty|s _ Hty|b _ Hty|? ? Hk' _|? Hk' _]; try congruence;
      rewrite Hty in Ht; destruct v; try discriminate Ht; by econstructor.
  Qed.

  (** No comparison of a rule is between values of different types. *)
Lemma comparisons_typed phase o op v r :
    wf_operand phase o → Condition.resolveOperand o facts answers = Some v →
    right_ok (c_Questions c) o op r → comparable v r.
  Proof.
    intros Ho Hv Hr. destruct (co_kind o) eqn:Hk.
    - by eapply fact_comparisons_typed.
    - assert (∃ q, c_Questions c !! co_questionID o = Some q) as [q Hq].
      { destruct Ho; [done|]. eauto. }
      destruct (answer_operand_reads _ _ _ Ho Hk Hq) as (v' & Hv' & Hty).
      simplify_eq. destruct Hr as [? Hk' _|? Hk' _|? Hk' _|q' key _ Hf _|x _ Hf _];
        try congruence; destruct Hty as [? Hf' _|? Hf' _]; try congruence; by econstructor.
  Qed.
End validated.

End EvalSound.
