(* ===== verification/GoJson.v ===== *)
(** * Reading JSON text

    The scanner of [encoding/json]: the syntax it accepts, the escapes of strings
    (a lone surrogate and an invalid UTF-8 byte become U+FFFD) and the nesting
    limit.  Numbers keep their text. *)

From S2P Require Import Prelude GoFloat GoAny.
From Stdlib Require Import Ascii String.
From stdpp Require Import options.

Definition hex_value (c : ascii) : option N :=
  if in_range 0x30 0x39 c then Some (byte c - 0x30)%N
  else if in_range 0x61 0x66 c then Some (byte c - 0x57)%N
  else if in_range 0x41 0x46 c then Some (byte c - 0x37)%N
  else None.

Definition hex4 (a b c d : ascii) : option N :=
  match hex_value a, hex_value b, hex_value c, hex_value d with
  | Some a, Some b, Some c, Some d => Some (((a * 16 + b) * 16 + c) * 16 + d)%N
  | _, _, _, _ => None
  end.

(** The UTF-8 encoding of a code point; surrogates encode as U+FFFD. *)
Definition utf8_encode (r : N) : string :=
  if (r <? 0x80)%N then bytes [r]
  else if (r <? 0x800)%N then bytes [0xC0 + r / 64; 0x80 + r mod 64]%N
  else if (0xD800 <=? r)%N && (r <=? 0xDFFF)%N then bytes [0xEF; 0xBF; 0xBD]%N
  else if (r <? 0x10000)%N then
    bytes [0xE0 + r / 4096; 0x80 + r / 64 mod 64; 0x80 + r mod 64]%N
  else bytes [0xF0 + r / 262144; 0x80 + r / 4096 mod 64; 0x80 + r / 64 mod 64;
              0x80 + r mod 64]%N.

Definition is_surrogate (r : N) : bool := (0xD800 <=? r)%N && (r <=? 0xDFFF)%N.
Definition is_low_surrogate (r : N) : bool := (0xDC00 <=? r)%N && (r <=? 0xDFFF)%N.
Definition is_high_surrogate (r : N) : bool := (0xD800 <=? r)%N && (r <=? 0xDBFF)%N.

(** One-character escapes. *)
Definition simple_escape (c : ascii) : option string :=
  let b := byte c in
  if decide (b = 0x22%N ∨ b = 0x5C%N ∨ b = 0x2F%N) then Some (String c EmptyString)
  else if decide (b = 0x62%N) then Some (bytes [8]%N)
  else if decide (b = 0x66%N) then Some (bytes [12]%N)
  else if decide (b = 0x6E%N) then Some (bytes [10]%N)
  else if decide (b = 0x72%N) then Some (bytes [13]%N)
  else if decide (b = 0x74%N) then Some (bytes [9]%N)
  else None.

(** The body of a string after its opening quote: the decoded text and what follows
    the closing quote.  [raw] bytes of the current rune are copied as they are. *)
Fixpoint parse_string (raw : nat) (s : string) : option (string * string) :=
  match s with
  | EmptyString => None
  | String c s' =>
      match raw with
      | S k => (λ p, (String c p.1, p.2)) <$> parse_string k s'
      | O =>
          if decide (byte c = 0x22%N) then Some (EmptyString, s')
          else if decide (byte c = 0x5C%N) then
            match s' with
            | EmptyString => None
            | String e s2 =>
                if decide (byte e = 0x75%N) then
                  match s2 with
                  | String h1 (String h2 (String h3 (String h4 s3))) =>
                      match hex4 h1 h2 h3 h4 with
                      | None => None
                      | Some r =>
                          let plain := (λ p, (utf8_encode r +:+ p.1, p.2)) <$> parse_string 0 s3 in
                          match s3 with
                          | String b (String u (String l1 (String l2 (String l3 (String l4 s4))))) =>
                              if is_high_surrogate r && bool_decide (byte b = 0x5C%N) &&
                                 bool_decide (byte u = 0x75%N) then
                                match hex4 l1 l2 l3 l4 with
                                | Some r2 =>
                                    if is_low_surrogate r2 then
                                      let full := ((r - 0xD800) * 1024 + (r2 - 0xDC00) + 0x10000)%N in
                                      (λ p, (utf8_encode full +:+ p.1, p.2)) <$> parse_string 0 s4
                                    else plain
                                | None => plain
                                end
                              else plain
                          | _ => plain
                          end
                      end
                  | _ => None
                  end
                else match simple_escape e with
                | None => None
                | Some t => (λ p, (t +:+ p.1, p.2)) <$> parse_string 0 s2
                end
            end
          else if (byte c <? 0x20)%N then None
          else match rune_size s with
          | Some n => (λ p, (String c p.1, p.2)) <$> parse_string (n - 1) s'
          | None => (λ p, (bytes [0xEF; 0xBF; 0xBD]%N +:+ p.1, p.2)) <$> parse_string 0 s'
          end
      end
  end.

Definition is_space (c : ascii) : bool :=
  let b := byte c in (b =? 0x20)%N || (b =? 0x09)%N || (b =? 0x0A)%N || (b =? 0x0D)%N.

Fixpoint skip_space (s : string) : string :=
  match s with
  | String c s' => if is_space c then skip_space s' else s
  | EmptyString => s
  end.

Definition is_number_char (c : ascii) : bool :=
  is_digit c || bool_decide (c ∈ ["+"; "-"; "."; "e"; "E"]%char).

Fixpoint take_number (s : string) : string * string :=
  match s with
  | String c s' =>
      if is_number_char c then let p := take_number s' in (String c p.1, p.2)
      else (EmptyString, s)
  | EmptyString => (EmptyString, EmptyString)
  end.

(** [maxNestingDepth] *)
Definition max_nesting : nat := 10000.

(** One value and the text after it.  Every step consumes at least one character, so
    the length of the text is fuel enough; [depth] is the nesting still allowed. *)
Fixpoint parse_value (fuel depth : nat) (s : string) : option (json * string) :=
  match fuel with
  | O => None
  | S fuel =>
      match skip_space s with
      | EmptyString => None
      | String c rest =>
          if decide (byte c = 0x22%N) then
            (λ p, (JStr p.1, p.2)) <$> parse_string 0 rest
          else if decide (byte c = 0x5B%N) then
            match depth with
            | O => None
            | S depth =>
                match skip_space rest with
                | String d rest' =>
                    if decide (byte d = 0x5D%N) then Some (JArr [], rest')
                    else (λ p, (JArr p.1, p.2)) <$> parse_elements fuel depth rest
                | EmptyString => None
                end
            end
          else if decide (byte c = 0x7B%N) then
            match depth with
            | O => None
            | S depth =>
                match skip_space rest with
                | String d rest' =>
                    if decide (byte d = 0x7D%N) then Some (JObj [], rest')
                    else (λ p, (JObj p.1, p.2)) <$> parse_members fuel depth rest
                | EmptyString => None
                end
            end
          else match drop_prefix "null" (String c rest) with
          | Some r => Some (JNull, r)
          | None =>
          match drop_prefix "true" (String c rest) with
          | Some r => Some (JBool true, r)
          | None =>
          match drop_prefix "false" (String c rest) with
          | Some r => Some (JBool false, r)
          | None =>
              let p := take_number (String c rest) in
              if is_valid_number p.1 then Some (JNum p.1, p.2) else None
          end end end
      end
  end
with parse_elements (fuel depth : nat) (s : string) : option (list json * string) :=
  match fuel with
  | O => None
  | S fuel =>
      match parse_value fuel depth s with
      | None => None
      | Some (v, rest) =>
          match skip_space rest with
          | String c rest' =>
              if decide (byte c = 0x2C%N) then
                (λ p, (v :: p.1, p.2)) <$> parse_elements fuel depth rest'
              else if decide (byte c = 0x5D%N) then Some ([v], rest')
              else None
          | EmptyString => None
          end
      end
  end
with parse_members (fuel depth : nat) (s : string) : option (list (string * json) * string) :=
  match fuel with
  | O => None
  | S fuel =>
      match skip_space s with
      | String q s1 =>
          if decide (byte q = 0x22%N) then
            match parse_string 0 s1 with
            | None => None
            | Some (key, s2) =>
                match skip_space s2 with
                | String c s3 =>
                    if decide (byte c = 0x3A%N) then
                      match parse_value fuel depth s3 with
                      | None => None
                      | Some (v, rest) =>
                          match skip_space rest with
                          | String d rest' =>
                              if decide (byte d = 0x2C%N) then
                                (λ p, ((key, v) :: p.1, p.2)) <$> parse_members fuel depth rest'
                              else if decide (byte d = 0x7D%N) then Some ([(key, v)], rest')
                              else None
                          | EmptyString => None
                          end
                      end
                    else None
                | EmptyString => None
                end
            end
          else None
      | EmptyString => None
      end
  end.

(** The value at the head of the text, and the text after it: one call of
    [Decoder.Decode]. *)
Definition json_prefix (s : string) : option (json * string) :=
  parse_value (2 * String.length s + 2) max_nesting s.

(** The whole text as one value: the syntax check of [json.Unmarshal]. *)
Definition json_parse (s : string) : option json :=
  match json_prefix s with
  | Some (v, rest) => if decide (skip_space rest = EmptyString) then Some v else None
  | None => None
  end.

Definition json_sample : json :=
  JObj [("a<", JArr [JNum "1.50"; JNull; JStr "x"]); ("b", JObj []); ("c", JBool false)].

Example json_parse_ex : json_parse (" " +:+ json_text json_sample +:+ " ") = Some json_sample.
Proof. vm_compute. reflexivity. Qed.
Example json_parse_surrogates :
  json_parse (bytes [34] +:+ "\ud83d\ude00\ud800" +:+ bytes [34])%N =
  Some (JStr (bytes [0xF0; 0x9F; 0x98; 0x80; 0xEF; 0xBF; 0xBD]%N)).
Proof. vm_compute. reflexivity. Qed.
Example json_parse_reject : json_parse "01" = None ∧ json_parse "[1,]" = None ∧ json_parse "" = None.
Proof. vm_compute. done. Qed.

(** ** JSON text read back

    [encoding/json] reads every text it writes: for a tree whose strings are valid UTF-8,
    whose numbers are JSON numbers and whose nesting is within the decoder's limit,
    [json_parse] of [json_text] is that tree. *)
Module JsonText.

(** ** Strings *)

(** Every rune decodes; [skip] bytes of the current rune remain. *)
Fixpoint utf8_from (skip : nat) (s : string) : bool :=
  match s, skip with
  | EmptyString, O => true
  | EmptyString, S _ => false
  | String _ s', S k => utf8_from k s'
  | String _ s', O =>
      match rune_size s with None => false | Some n => utf8_from (n - 1) s' end
  end.

Definition utf8_valid (s : string) : bool := utf8_from 0 s.

(** Whether a rune is at the head depends on its own bytes only. *)
Lemma rune_size_split s n : rune_size s = Some n →
  ∃ r t, s = r +:+ t ∧ String.length r = n ∧ ∀ u, rune_size (r +:+ u) = Some n.
Proof.
  destruct s as [|c0 s]; [done|]. cbn [rune_size].
  destruct (byte c0 <? 0x80)%N eqn:H0.
  { intros [= <-]. exists (String c0 EmptyString), s. split; [done|]. split; [done|].
    intros u. rewrite !app_String. cbn [rune_size]. by rewrite H0. }
  destruct s as [|c1 s]; [done|].
  destruct ((0xC2 <=? byte c0) && (byte c0 <=? 0xDF))%N eqn:H1.
  { destruct (in_range 0x80 0xBF c1) eqn:H2; [|done]. intros [= <-].
    exists (String c0 (String c1 EmptyString)), s. split; [done|]. split; [done|].
    intros u. rewrite !app_String. cbn [rune_size]. by rewrite H0, H1, H2. }
  destruct s as [|c2 s]; [done|].
  destruct ((0xE0 <=? byte c0) && (byte c0 <=? 0xEF))%N eqn:H2.
  { cbv zeta. destruct (in_range _ _ c1 && in_range _ _ c2) eqn:H3; [|done]. intros [= <-].
    exists (String c0 (String c1 (String c2 EmptyString))), s. split; [done|]. split; [done|].
    intros u. rewrite !app_String. cbn [rune_size]. cbv zeta. by rewrite H0, H1, H2, H3. }
  destruct s as [|c3 s]; [done|].
  destruct ((0xF0 <=? byte c0) && (byte c0 <=? 0xF4))%N eqn:H3; [|done].
  cbv zeta. destruct (in_range _ _ c1 && _ && in_range _ _ c3) eqn:H4; [|done]. intros [= <-].
  exists (String c0 (String c1 (String c2 (String c3 EmptyString)))), s. split; [done|]. split; [done|].
  intros u. rewrite !app_String. cbn [rune_size]. cbv zeta. by rewrite H0, H1, H2, H3, H4.
Qed.

(** A valid string is empty or a rune and a valid string. *)
Lemma utf8_from_skip k r t : String.length r = k → utf8_from k (r +:+ t) = utf8_from 0 t.
Proof.
  revert r. induction k as [|k IH]; intros [|c r] Hr; try done.
  rewrite app_String. cbn. by apply IH; injection Hr.
Qed.

Lemma map_runes_skip f k r t : String.length r = k →
  map_runes f k (r +:+ t) = map_runes f 0 t.
Proof.
  revert r. induction k as [|k IH]; intros [|c r] Hr; try done.
  rewrite app_String. cbn. by apply IH; injection Hr.
Qed.

Lemma utf8_valid_inv s : utf8_valid s = true →
  s = "" ∨ ∃ c r t, s = String c r +:+ t ∧ utf8_valid t = true ∧
    (∀ u, rune_size (String c r +:+ u) = Some (S (String.length r))).
Proof.
  destruct s as [|c s]; [by left|]. right. revert H. unfold utf8_valid. cbn [utf8_from].
  destruct (rune_size (String c s)) as [n|] eqn:Hn; [|done]. intros Hv.
  destruct (rune_size_split _ _ Hn) as (r & t & Hs & Hr & Hu).
  destruct r as [|c' r]; [by cbn in Hr; subst n; specialize (Hu ""); cbn in Hu|].
  change (String c' r +:+ t) with (String c' (r +:+ t)) in Hs. injection Hs as -> ->.
  exists c', r, t. split; [done|]. cbn in Hr. subst n. split; [|done].
  rewrite <- Hv. cbn. rewrite Nat.sub_0_r. by rewrite utf8_from_skip.
Qed.

Lemma substring_rune r t : substring 0 (String.length r) (r +:+ t) = r.
Proof. induction r as [|c r IH]; [by destruct t|]. rewrite app_String. cbn. by rewrite IH. Qed.

Lemma rune_size_ascii c t : rune_size (String c t) = Some 1 → (byte c <? 0x80)%N = true.
Proof.
  cbn [rune_size]. destruct (byte c <? 0x80)%N; [done|]. intros H. repeat case_match; simplify_eq.
Qed.

Lemma rune_size_wide c t n : rune_size (String c t) = Some (S (S n)) → (0x80 <= byte c)%N.
Proof. cbn [rune_size]. destruct (N.ltb_spec (byte c) 0x80); [done|lia]. Qed.

Lemma parse_string_raw k r t : String.length r = k →
  parse_string k (r +:+ t) = (λ p, (r +:+ p.1, p.2)) <$> parse_string 0 t.
Proof.
  revert r. induction k as [|k IH]; intros [|c r] Hr; try done.
  - cbn [String.append]. change ("" +:+ t) with t. by destruct (parse_string 0 t) as [[]|].
  - rewrite app_String. cbn [parse_string]. rewrite IH by (by injection Hr).
    by destruct (parse_string 0 t) as [[]|].
Qed.

(** The three ways a character is read. *)
Lemma parse_plain c u :
  (0x20 <= byte c)%N → (byte c < 0x80)%N → byte c ≠ 0x22%N → byte c ≠ 0x5C%N →
  parse_string 0 (String c u) = (λ p, (String c p.1, p.2)) <$> parse_string 0 u.
Proof.
  intros H1 H2 H3 H4. cbn [parse_string]. rewrite !decide_False by done.
  rewrite (proj2 (N.ltb_ge _ _) H1). cbn [rune_size]. by rewrite (proj2 (N.ltb_lt _ _) H2).
Qed.

Definition backslash : ascii := ascii_of_N 0x5C.

Lemma parse_escape e t u : byte e ≠ 0x75%N → simple_escape e = Some t →
  parse_string 0 (String backslash (String e u)) = (λ p, (t +:+ p.1, p.2)) <$> parse_string 0 u.
Proof.
  intros He Ht. cbn [parse_string]. rewrite (decide_False (P := byte backslash = 0x22%N)) by done.
  rewrite decide_True by done. rewrite decide_False by done. by rewrite Ht.
Qed.

Lemma parse_unicode h1 h2 h3 h4 r u : hex4 h1 h2 h3 h4 = Some r → is_high_surrogate r = false →
  parse_string 0 (String backslash (String "u" (String h1 (String h2 (String h3 (String h4 u)))))) =
    (λ p, (utf8_encode r +:+ p.1, p.2)) <$> parse_string 0 u.
Proof.
  intros Hh Hr.
  transitivity (match u with
    | String b (String v (String l1 (String l2 (String l3 (String l4 s4))))) =>
        (λ p, (utf8_encode r +:+ p.1, p.2)) <$> parse_string 0 u
    | _ => (λ p, (utf8_encode r +:+ p.1, p.2)) <$> parse_string 0 u
    end); [|by destruct u as [|? [|? [|? [|? [|? [|? u]]]]]]].
  cbn [parse_string]. rewrite (decide_False (P := byte backslash = 0x22%N)) by done.
  rewrite (decide_True (P := byte backslash = 0x5C%N)) by done.
  rewrite (decide_True (P := byte "u" = 0x75%N)) by done. rewrite Hh. cbv zeta. by rewrite Hr.
Qed.

(** An escaped ASCII character reads back as itself. *)
Lemma parse_ascii c t u : (byte c <? 0x80)%N = true →
  parse_string 0 (json_escape_rune (String c t) (Some 1) +:+ u) =
    (λ p, (String c p.1, p.2)) <$> parse_string 0 u.
Proof.
  intros Hc. destruct c as [[] [] [] [] [] [] [] []]; try discriminate Hc;
    match goal with
    | |- context [json_escape_rune ?a ?b] =>
        let s := eval vm_compute in (json_escape_rune a b) in
        change (json_escape_rune a b) with s; rewrite ?app_String; change ("" +:+ u) with u
    end;
    first [ solve [apply parse_plain; vm_compute; done]
          | match goal with |- _ = (λ p, (String ?c p.1, p.2)) <$> _ =>
              first [ refine (parse_escape _ (String c EmptyString) u _ _); [discriminate|reflexivity]
                    | refine (parse_unicode _ _ _ _ (byte c) u _ _); reflexivity ] end ].
Qed.

(** A rune of several bytes is copied, or escaped when it is a line separator. *)
Lemma parse_wide c r t u : r ≠ "" →
  (∀ v, rune_size (String c r +:+ v) = Some (S (String.length r))) →
  parse_string 0 (json_escape_rune (String c r +:+ t) (Some (S (String.length r))) +:+ u) =
    (λ p, (String c r +:+ p.1, p.2)) <$> parse_string 0 u.
Proof.
  intros Hr Hu. unfold json_escape_rune. rewrite app_String.
  destruct r as [|d r]; [done|]. cbn [String.length].
  pose proof (substring_rune (String c (String d r)) t) as Hs. rewrite app_String in Hs.
  cbn [String.length] in Hs. rewrite Hs.
  case_decide as E1; [rewrite E1; exact (parse_unicode "2" "0" "2" "8" 0x2028 u eq_refl eq_refl)|].
  case_decide as E2; [rewrite E2; exact (parse_unicode "2" "0" "2" "9" 0x2029 u eq_refl eq_refl)|].
  specialize (Hu u). rewrite app_String in Hu |- *. pose proof (rune_size_wide _ _ _ Hu) as Hw.
  cbn [parse_string]. rewrite !decide_False by lia. rewrite (proj2 (N.ltb_ge _ _)) by lia.
  rewrite Hu. cbn [String.length]. rewrite Nat.sub_succ, Nat.sub_0_r, parse_string_raw by done.
  by destruct (parse_string 0 u) as [[]|].
Qed.

Lemma parse_escaped s u : utf8_valid s = true →
  parse_string 0 (map_runes json_escape_rune 0 s +:+ u) = (λ p, (s +:+ p.1, p.2)) <$> parse_string 0 u.
Proof.
  induction s as [s IH] using (induction_ltof1 _ String.length). unfold ltof in IH. intros Hv.
  destruct (utf8_valid_inv s Hv) as [->|(c & r & t & -> & Ht & Hu)].
  { cbn. change ("" +:+ u) with u. by destruct (parse_string 0 u) as [[]|]. }
  rewrite app_String. cbn [map_runes]. rewrite <- app_String, (Hu t). cbn [default].
  rewrite map_runes_skip by (cbn; lia). rewrite append_assoc.
  assert (parse_string 0 (json_escape_rune (String c r +:+ t) (Some (S (String.length r))) +:+
            map_runes json_escape_rune 0 t +:+ u) =
          (λ p, (String c r +:+ p.1, p.2)) <$> parse_string 0 (map_runes json_escape_rune 0 t +:+ u)) as ->.
  { destruct r as [|d r]; [|by apply parse_wide]. rewrite app_String. apply parse_ascii.
    apply (rune_size_ascii c t). apply (Hu t). }
  rewrite IH; [|rewrite length_append; cbn; lia|done].
  destruct (parse_string 0 u) as [[x y]|]; [|done]. cbn. by rewrite append_assoc.
Qed.

(** [json_quote] is read back, whatever follows. *)
Lemma parse_quoted s u : utf8_valid s = true →
  ∃ body, json_quote s +:+ u = String (ascii_of_N 0x22) body ∧ parse_string 0 body = Some (s, u).
Proof.
  intros Hv. exists (map_runes json_escape_rune 0 s +:+ quote +:+ u).
  unfold json_quote. rewrite !append_assoc. split; [done|].
  rewrite parse_escaped by done. change (quote +:+ u) with (String (ascii_of_N 0x22) u).
  cbn [parse_string]. rewrite decide_True by done. cbn. by rewrite append_nil.
Qed.

(** ** Trees *)
Definition number_ok (t : string) : bool :=
  is_valid_number t && bool_decide (take_number t = (t, "")).

(** What the encoder writes can be read back at nesting depth [d]. *)
Fixpoint json_ok (v : json) (d : nat) : bool :=
  match v with
  | JNull | JBool _ => true
  | JNum t => number_ok t
  | JStr s => utf8_valid s
  | JArr l => match d with O => false | S d => forallb (λ x, json_ok x d) l end
  | JObj l => match d with O => false
              | S d => forallb (λ kv, utf8_valid kv.1 && json_ok kv.2 d) l end
  end.

(** The text goes on with something that is not part of a number. *)
Definition stops (s : string) : bool :=
  match s with String c _ => negb (is_number_char c) | EmptyString => true end.

Lemma take_number_app t u : take_number t = (t, "") → stops u = true → take_number (t +:+ u) = (t, u).
Proof.
  induction t as [|c t IH]; intros Ht Hu.
  - change ("" +:+ u) with u. destruct u as [|d u]; [done|]. cbn in Hu |- *.
    by destruct (is_number_char d).
  - rewrite app_String. cbn in Ht |- *. destruct (is_number_char c); [|done].
    injection Ht as Ht1 Ht2. rewrite IH; [done|by destruct (take_number t); cbn in *; subst|done].
Qed.

(** A number does not start like any other value. *)
Lemma number_head t u : number_ok t = true → ∃ c t', t = String c t' ∧ is_number_char c = true ∧
  skip_space (t +:+ u) = t +:+ u ∧
  byte c ≠ 0x22%N ∧ byte c ≠ 0x5B%N ∧ byte c ≠ 0x7B%N ∧
  drop_prefix "null" (t +:+ u) = None ∧ drop_prefix "true" (t +:+ u) = None ∧
  drop_prefix "false" (t +:+ u) = None.
Proof.
  unfold number_ok. intros [Hv Ht%bool_decide_eq_true]%andb_true_iff.
  destruct t as [|c t]; [done|]. cbn [take_number] in Ht. destruct (is_number_char c) eqn:Hc; [|done].
  exists c, t. rewrite app_String. split; [done|]. split; [done|].
  clear Hv Ht. destruct c as [[] [] [] [] [] [] [] []]; try discriminate Hc; by vm_compute.
Qed.

Lemma parse_number fuel d t u : number_ok t = true → stops u = true →
  parse_value (S fuel) d (t +:+ u) = Some (JNum t, u).
Proof.
  intros Ht Hu. destruct (number_head t u Ht) as (c & t' & -> & Hc & Hs & H1 & H2 & H3 & Hn & Ht' & Hf).
  apply andb_true_iff in Ht as [Hv Htk%bool_decide_eq_true].
  cbn [parse_value]. rewrite Hs. rewrite app_String in *. rewrite !decide_False by done.
  rewrite Hn, Ht', Hf. rewrite <- app_String, (take_number_app _ _ Htk Hu). cbn [fst snd]. by rewrite Hv.
Qed.

(** The value is parsed off the front of its text with fuel twice the text's length. *)
Definition reads (v : json) : Prop := ∀ d fuel u, json_ok v d = true → stops u = true →
  (2 * String.length (json_text v) <= fuel)%nat → parse_value fuel d (json_text v +:+ u) = Some (v, u).

Definition member_text (kv : string * json) : string := json_quote kv.1 +:+ ":" +:+ json_text kv.2.

Lemma comma_sep_cons x y l : comma_sep (x :: y :: l) = x +:+ "," +:+ comma_sep (y :: l).
Proof. reflexivity. Qed.

Lemma length_comma_sep_cons x y l :
  String.length (comma_sep (x :: y :: l)) = (String.length x + S (String.length (comma_sep (y :: l))))%nat.
Proof. rewrite comma_sep_cons, !length_append. reflexivity. Qed.

Lemma parse_elements_text l d fuel u : l ≠ [] → Forall reads l →
  forallb (λ x, json_ok x d) l = true →
  (2 * String.length (comma_sep (json_text <$> l)) + 1 <= fuel)%nat →
  parse_elements fuel d (comma_sep (json_text <$> l) +:+ "]" +:+ u) = Some (l, u).
Proof.
  revert fuel. induction l as [|v l IH]; intros fuel Hne Hl Hok Hf; [done|].
  apply Forall_cons_iff in Hl as [Hv Hl]. cbn [forallb] in Hok. apply andb_true_iff in Hok as [Hokv Hok].
  destruct fuel as [|fuel]; [lia|]. cbn [parse_elements]. destruct l as [|v' l].
  - cbn [fmap list_fmap] in Hf |- *. change (comma_sep [json_text v]) with (json_text v) in *.
    rewrite Hv by (done || lia). cbn [skip_space]. reflexivity.
  - cbn [fmap list_fmap] in Hf |- *. rewrite length_comma_sep_cons in Hf. rewrite comma_sep_cons, !append_assoc.
    rewrite Hv by (done || lia). rewrite app_String, append_nil_l. cbn [skip_space]. specialize (IH fuel). cbn [fmap list_fmap] in IH.
    change (is_space ",") with false. cbv iota. rewrite decide_True by done.
    rewrite IH by (done || lia). done.
Qed.

Lemma parse_members_text l d fuel u : l ≠ [] → Forall (λ kv, reads kv.2) l →
  forallb (λ kv, utf8_valid kv.1 && json_ok kv.2 d) l = true →
  (2 * String.length (comma_sep (member_text <$> l)) + 1 <= fuel)%nat →
  parse_members fuel d (comma_sep (member_text <$> l) +:+ "}" +:+ u) = Some (l, u).
Proof.
  revert fuel. induction l as [|[k v] l IH]; intros fuel Hne Hl Hok Hf; [done|].
  apply Forall_cons_iff in Hl as [Hv Hl]. cbn [forallb fst snd] in Hok.
  apply andb_true_iff in Hok as [[Hk Hokv]%andb_true_iff Hok]. cbn [snd] in Hv.
  destruct fuel as [|fuel]; [lia|].
  assert (∀ w, stops w = true → (String.length (json_text v) * 2 <= fuel)%nat →
    parse_members (S fuel) d (member_text (k, v) +:+ w) =
      match skip_space w with
      | String e rest' =>
          if decide (byte e = 0x2C%N) then (λ p, ((k, v) :: p.1, p.2)) <$> parse_members fuel d rest'
          else if decide (byte e = 0x7D%N) then Some ([(k, v)], rest') else None
      | EmptyString => None
      end) as Hstep.
  { intros w Hw Hfv. unfold member_text. cbn [fst snd]. rewrite !append_assoc.
    destruct (parse_quoted k (":" +:+ json_text v +:+ w) Hk) as (body & -> & Hb).
    cbn [parse_members]. change (skip_space (String (ascii_of_N 34) body)) with (String (ascii_of_N 34) body).
    cbv iota. rewrite decide_True by done. rewrite Hb.
    change (skip_space (":" +:+ json_text v +:+ w)) with (":" +:+ json_text v +:+ w).
    rewrite app_String, append_nil_l. rewrite decide_True by done.
    by rewrite Hv by (done || lia). }
  destruct l as [|kv' l].
  - cbn [fmap list_fmap] in Hf |- *. change (comma_sep [member_text (k, v)]) with (member_text (k, v)) in *.
    unfold member_text in Hf. rewrite !length_append in Hf. cbn [snd] in Hf.
    by rewrite Hstep by (done || lia).
  - cbn [fmap list_fmap] in Hf |- *. rewrite length_comma_sep_cons in Hf. rewrite comma_sep_cons, !append_assoc.
    assert (String.length (json_text v) <= String.length (member_text (k, v)))%nat as Hlen
      by (unfold member_text; rewrite !length_append; cbn [snd]; lia).
    rewrite Hstep by (done || lia). specialize (IH fuel). cbn [fmap list_fmap] in IH.
    rewrite app_String, append_nil_l. cbn [skip_space]. change (is_space ",") with false. cbv iota.
    rewrite decide_True by done. rewrite IH by (done || lia). done.
Qed.

Lemma json_text_nonempty v d : json_ok v d = true → (1 <= String.length (json_text v))%nat.
Proof.
  destruct v as [|[]|t|s|l|l]; cbn [json_text json_ok]; try (cbn; lia).
  - unfold number_ok. destruct t; [done|cbn; lia].
  - unfold json_quote. rewrite !length_append. cbn. lia.
  - rewrite !length_append. cbn. lia.
  - rewrite !length_append. cbn. lia.
Qed.

(** The first character of a value's text is not space and not a closing bracket. *)
Lemma json_text_head v d u : json_ok v d = true → ∃ c r, json_text v +:+ u = String c r ∧
  is_space c = false ∧ byte c ≠ 0x5D%N ∧ byte c ≠ 0x7D%N.
Proof.
  destruct v as [|[]|t|s|l|l]; cbn [json_text json_ok]; intros Hok;
    try (eexists _, _; split; [rewrite app_String; reflexivity|done]).
  - destruct (number_head t "" Hok) as (c & t' & -> & Hc & _). exists c, (t' +:+ u).
    rewrite app_String. split; [done|]. clear Hok.
    destruct c as [[] [] [] [] [] [] [] []]; try discriminate Hc; done.
  - unfold json_quote. rewrite append_assoc. by eexists _, _.
Qed.

Lemma comma_sep_front x l u : ∃ r, comma_sep (x :: l) +:+ u = x +:+ r.
Proof. destruct l as [|y l]; [by exists u|]. rewrite comma_sep_cons, append_assoc. by eexists. Qed.

Lemma skip_space_head c r : is_space c = false → skip_space (String c r) = String c r.
Proof. intros Hc. cbn [skip_space]. by rewrite Hc. Qed.

Lemma all_read v : reads v.
Proof.
  induction v as [|b|t|s|l IH|l IH] using json_ind; intros d fuel u Hok Hu Hf.
  all: destruct fuel as [|fuel]; [pose proof (json_text_nonempty _ _ Hok); lia|].
  - reflexivity.
  - by destruct b.
  - by apply parse_number.
  - cbn [json_text json_ok] in *. destruct (parse_quoted s u Hok) as (body & -> & Hb).
    cbn [parse_value]. rewrite skip_space_head by done. rewrite decide_True by done. by rewrite Hb.
  - cbn [json_text] in *. rewrite !length_append in Hf. cbn [String.length] in Hf.
    rewrite !append_assoc, app_String, append_nil_l. cbn [parse_value].
    rewrite skip_space_head by done. rewrite decide_False, decide_True by done.
    cbn [json_ok] in Hok. destruct d as [|d]; [done|]. destruct l as [|v l]; [reflexivity|].
    destruct (comma_sep_front (json_text v) (json_text <$> l) ("]" +:+ u)) as [r Hr].
    cbn [fmap list_fmap] in *. assert (json_ok v d = true) as Hv by (cbn in Hok; by apply andb_true_iff in Hok as [? _]).
    destruct (json_text_head v d r Hv) as (c & r' & Hc & Hsp & H1 & _). rewrite Hr, Hc.
    rewrite skip_space_head by done. cbv iota. rewrite decide_False by done. rewrite <- Hc, <- Hr.
    by rewrite (parse_elements_text (v :: l)) by (done || (cbn [fmap list_fmap]; lia)).
  - cbn [json_text] in *. fold member_text in *. rewrite !length_append in Hf. cbn [String.length] in Hf.
    rewrite !append_assoc, app_String, append_nil_l. cbn [parse_value].
    rewrite skip_space_head by done. rewrite !decide_False, decide_True by done.
    cbn [json_ok] in Hok. destruct d as [|d]; [done|]. destruct l as [|[k v] l]; [reflexivity|].
    destruct (comma_sep_front (member_text (k, v)) (member_text <$> l) ("}" +:+ u)) as [r Hr].
    cbn [fmap list_fmap] in *.
    assert (∃ r', member_text (k, v) +:+ r = String (ascii_of_N 0x22) r') as [r' Hm].
    { unfold member_text, json_quote. rewrite !append_assoc. by eexists. }
    fold (member_text (k, v)). fold member_text.
    rewrite Hr, Hm. rewrite skip_space_head by done. cbv iota. rewrite decide_False by done.
    rewrite <- Hm, <- Hr.
    by rewrite (parse_members_text ((k, v) :: l)) by (done || (cbn [fmap list_fmap]; lia)).
Qed.

(** The round trip of [json.Marshal] and [json.Unmarshal] at the level of text. *)
Lemma json_prefix_text v u : json_ok v max_nesting = true → stops u = true →
  json_prefix (json_text v +:+ u) = Some (v, u).
Proof. intros Hv Hu. apply all_read; [done..|]. rewrite length_append. lia. Qed.

Lemma json_parse_text v : json_ok v max_nesting = true → json_parse (json_text v) = Some v.
Proof.
  intros Hv. unfold json_parse. rewrite <- (append_nil (json_text v)), json_prefix_text by done.
  by rewrite decide_True.
Qed.

End JsonText.
