(* ===== verification/CanonicalSound.v ===== *)
(** * The canonical form identifies the policy

    [internal/pkg/policy/hash.go] hashes a projection of the compiled policy that
    leaves out everything derivable.  On well-formed policies the projection loses
    nothing: two policies with the same canonical form are the same policy.  The text that
    is hashed loses one thing: absent noul criteria and empty ones are both left out. *)

From S2P Require Import Prelude GoFloat GoAny Decision Document CompileCondition.
From S2P Require Import CompileQuestion Canonical WellFormed EvalSound GoJson.
From stdpp Require Import options.
#[local] Open Scope Z_scope.

Module CanonicalSound.
Import CompileQuestion CompileCondition Canonical WellFormed EvalSound.

Lemma conditionKindName_inj k k' : conditionKindName k = conditionKindName k' → k = k'.
Proof. by destruct k, k'. Qed.

(** Two lists whose images under [f] coincide, element by element. *)
Lemma map_inj_Forall {A B} (f : A → B) (P : A → Prop) l l' :
  Forall (λ x, ∀ y, P y → f x = f y → x = y) l → Forall P l' → map f l = map f l' → l = l'.
Proof.
  intros Hl. revert l'. induction Hl as [|x l Hx Hl IH]; intros [|y l'] Hl'; try done.
  simpl. intros [= Hf Hm]. inversion Hl'; subst. f_equal; auto.
Qed.

Section conditions.
  Context (facts : gmap string FactType) (questions questions' : gmap string CompiledQuestion).
  Context (Htypes : ∀ id q q', questions !! id = Some q → questions' !! id = Some q' → cq_Type q = cq_Type q').

  (** A resolved operand is determined by the names it canonicalises to. *)
Lemma wf_operand_inj phase phase' o o' :
    wf_operand facts questions phase o → wf_operand facts questions' phase' o' →
    co_kind o = co_kind o' →
    (co_kind o = operandKindFact → co_factName o = co_factName o') →
    (co_kind o = operandKindAnswer → co_questionID o = co_questionID o' ∧
       co_field o = co_field o' ∧ co_probabilityKey o = co_probabilityKey o') →
    o = o'.
  Proof using Htypes.
    intros [name t _ Ht|id q f key _ _ Hq _ _ _] [name' t' _ Ht'|id' q' f' key' _ _ Hq' _ _ _];
      simpl; intros Hk Hf Ha; try done.
    - specialize (Hf eq_refl). subst. congruence.
    - destruct (Ha eq_refl) as (-> & -> & ->). by rewrite (Htypes _ _ _ Hq Hq').
  Qed.

  (** A resolved operand names something. *)
Lemma wf_operand_named qs phase o :
    wf_operand facts qs phase o →
    (co_kind o = operandKindFact → co_factName o ≠ "") ∧
    (co_kind o = operandKindAnswer → co_questionID o ≠ "").
  Proof. by intros []. Qed.

Lemma wf_children qs phase depth k children o op rs rl rb :
    wf_condition facts qs phase depth (CC k children o op rs rl rb) →
    Forall (wf_condition facts qs phase (depth + 1)) children.
  Proof. inversion 1; subst; by repeat constructor. Qed.

Lemma canonicalizeCondition_inj phase phase' c : ∀ depth depth' c',
    wf_condition facts questions phase depth c →
    wf_condition facts questions' phase' depth' c' →
    canonicalizeCondition c = canonicalizeCondition c' → c = c'.
  Proof using Htypes.
    induction c as [k children o op rs rl rb IH] using CompiledCondition_ind.
    intros depth depth' c' Hc Hc' Heq.
    assert (∀ d l l', Forall (wf_condition facts questions phase d) l →
      Forall (λ c, ∀ depth depth' c', wf_condition facts questions phase depth c →
        wf_condition facts questions' phase' depth' c' →
        canonicalizeCondition c = canonicalizeCondition c' → c = c') l →
      ∀ d', Forall (wf_condition facts questions' phase' d') l' →
      map canonicalizeCondition l = map canonicalizeCondition l' → l = l') as Hlist.
    { intros d l l' Hl HIH d' Hl'. apply (map_inj_Forall _ (wf_condition facts questions' phase' d'));
        [|done]. rewrite list.Forall_forall in HIH, Hl |- *. eauto. }
    destruct c' as [k' children' o' op' rs' rl' rb'].
    destruct children as [|x l], children' as [|x' l'].
    - inversion Hc as [? ? ? ? ? ? _ Ho _|? ? ? _ _ Hlen _|]; subst;
        [|unfold len in Hlen; simpl in Hlen; lia].
      inversion Hc' as [? ? ? ? ? ? _ Ho' _|? ? ? _ _ Hlen _|]; subst;
        [|unfold len in Hlen; simpl in Hlen; lia].
      destruct (wf_operand_named _ _ _ Ho) as [Hnf Hna].
      destruct (wf_operand_named _ _ _ Ho') as [Hnf' Hna'].
      assert (o = o') as <-.
      { apply (wf_operand_inj phase phase'); [done|done|..]; simpl in Heq;
          destruct (co_kind o) eqn:E, (co_kind o') eqn:E'; injection Heq; intros; try done;
          first [exfalso; by apply Hnf|exfalso; by apply Hna]. }
      simpl in Heq. destruct (co_kind o); by simplify_eq/=.
    - simpl in Heq. by destruct (co_kind o).
    - simpl in Heq. by destruct (co_kind o').
    - simpl in Heq. injection Heq as Hk Hx Hl. apply conditionKindName_inj in Hk as <-.
      assert (x :: l = x' :: l') as Hll.
      { apply (Hlist (depth + 1) _ _) with (d' := depth' + 1);
          [by eapply wf_children|exact IH|by eapply wf_children|]. simpl. congruence. }
      injection Hll as <- <-.
      inversion Hc; inversion Hc'; subst; done.
  Qed.
End conditions.

Definition canonical_question (q : CompiledQuestion) : canonicalQuestion :=
  MkCanonicalQuestion (cq_ID q) (cq_Type q) (cq_Instructions q) (cq_NoulCriteria q)
    (cq_ChoiceCriteria q) (cq_ScoreCriteria q).

Lemma wf_question_id id q : wf_question id q → cq_ID q = id.
Proof. by intros []. Qed.

Lemma canonical_question_inj id id' q q' :
  wf_question id q → wf_question id' q' →
  canonical_question q = canonical_question q' → q = q'.
Proof. intros [] []; unfold canonical_question; simpl; intros; by simplify_eq. Qed.

(** ** The text that is hashed *)

(** Two optional segments of a struct under the same name. *)
Definition seg (name : string) (s : option (list (string * json))) : Prop :=
  ∀ l, s = Some l → l = [] ∨ ∃ j, l = [(name, j)].

Lemma seg_field name v : seg name (field name v).
Proof. intros l (j & _ & ->)%fmap_Some. eauto. Qed.
Lemma seg_omitempty e name v : seg name (field_omitempty e name v).
Proof. destruct e; [intros l [= <-]; by left|apply seg_field]. Qed.

Lemma concat_names names segs l :
  Forall2 seg names segs → mapM id segs = Some l → ∀ kv, kv ∈ List.concat l → kv.1 ∈ names.
Proof.
  intros Hs. revert l. induction Hs as [|n s names segs Hn _ IH]; intros l Hl; simpl in Hl.
  - injection Hl as <-. intros kv Hkv. by apply elem_of_nil in Hkv.
  - destruct s as [a|]; [|done]. simpl in Hl. apply bind_Some in Hl as (r & Hr & [= <-]). simpl.
    intros kv [Ha|Hkv]%elem_of_app; [|right; by eapply IH].
    destruct (Hn a eq_refl) as [->|[j ->]]; [by apply elem_of_nil in Ha|].
    apply list_elem_of_singleton in Ha as ->. left.
Qed.

(** A struct is its fields: equal trees have equal segments. *)
Lemma struct_inj names segs segs' j : NoDup names → Forall2 seg names segs → Forall2 seg names segs' →
  struct segs = Some j → struct segs' = Some j → segs = segs'.
Proof.
  unfold struct. intros Hnd H1 H2 (l & Hl & ->)%fmap_Some (l' & Hl' & [= Heq])%fmap_Some.
  apply mapM_Some in Hl, Hl'. revert segs' l l' Hl Hl' Heq H2.
  induction H1 as [|n s names segs Hs Hsegs IH]; intros segs' l l' Hl Hl' Heq H2; [by inversion H2|].
  inversion H2 as [|? s' ? segs2 Hs' Hsegs']; subst. apply list.NoDup_cons in Hnd as [Hn Hnd].
  inversion Hl as [|? a ? r Ha Hr]; subst. inversion Hl' as [|? a' ? r' Ha' Hr']; subst.
  unfold id in Ha, Ha'. subst. simpl in Heq.
  pose proof (concat_names _ _ _ Hsegs (proj2 (mapM_Some _ _ _) Hr)) as Hin.
  pose proof (concat_names _ _ _ Hsegs' (proj2 (mapM_Some _ _ _) Hr')) as Hin'.
  assert (a = a' ∧ List.concat r = List.concat r') as [<- Hrest].
  { destruct (Hs a eq_refl) as [->|[x ->]], (Hs' a' eq_refl) as [->|[y ->]]; simpl in Heq.
    - done.
    - exfalso. apply Hn. specialize (Hin (n, y)). rewrite Heq in Hin. apply Hin. left.
    - exfalso. apply Hn. specialize (Hin' (n, x)). rewrite <- Heq in Hin'. apply Hin'. left.
    - injection Heq as -> ->. done. }
  f_equal. by eapply IH.
Qed.

Lemma field_inj name v v' : field name v = field name v' → v = v'.
Proof. unfold field. destruct v, v'; simpl; congruence. Qed.

Lemma field_Some name v : is_Some (field name v) → is_Some v.
Proof. unfold field. by rewrite fmap_is_Some. Qed.

Lemma omitempty_inj e e' name v v' :
  field_omitempty e name v = field_omitempty e' name v' → e = e' ∧ (e = false → v = v').
Proof.
  destruct e, e'; simpl; try done; [by destruct v'|by destruct v|].
  by intros ->%field_inj.
Qed.

Lemma jarr_inj {A} (f : A → option json) l l' j :
  Forall (λ x, ∀ y j, y ∈ l' → f x = Some j → f y = Some j → x = y) l →
  jarr (map f l) = Some j → jarr (map f l') = Some j → l = l'.
Proof.
  unfold jarr. intros Hf (k & Hk & ->)%fmap_Some (k' & Hk' & [= <-])%fmap_Some.
  assert (∀ l, mapM id (map f l) = Some k → Forall2 (λ x j, f x = Some j) l k) as Hm.
  { intros m Hm%mapM_Some. clear -Hm. remember (map f m) as l eqn:E. revert m E.
    induction Hm as [|x y l k Hxy _ IH]; intros [|a m] [= ]; subst; constructor; auto. }
  apply Hm in Hk, Hk'. clear Hm. revert l' Hk' Hf. induction Hk as [|x y l k Hx _ IH]; intros l' Hk' Hf.
  { by inversion Hk'. }
  inversion Hk' as [|x' ? l2 ? Hx' Hl2]; subst. inversion Hf as [|? ? Hfx Hfl]; subst. f_equal.
  - by eapply Hfx; [left|..].
  - apply IH; [done|]. eapply list.Forall_impl; [exact Hfl|]. intros z Hz w jw Hw. apply Hz. by right.
Qed.

Lemma jmap_inj {V} (f : V → option json) (m m' : gmap string V) j :
  (∀ k v v' j, m !! k = Some v → m' !! k = Some v' → f v = Some j → f v' = Some j → v = v') →
  jmap f m = Some j → jmap f m' = Some j → m = m'.
Proof.
  unfold jmap. intros Hf (k & Hk%mapM_Some & ->)%fmap_Some (k' & Hk'%mapM_Some & [= <-])%fmap_Some.
  assert (amap_of m = amap_of m') as Heq.
  { assert (∀ kv, kv ∈ amap_of m → m !! kv.1 = Some kv.2) as Hm by (intros; by apply amap_of_elem).
    assert (∀ kv, kv ∈ amap_of m' → m' !! kv.1 = Some kv.2) as Hm' by (intros; by apply amap_of_elem).
    revert Hk' Hm Hm'. generalize (amap_of m') as l'. revert Hk. generalize (amap_of m) as l.
    intros l Hl. induction Hl as [|kv y l k Hkv _ IH]; intros l' Hl' Hm Hm'; [by inversion Hl'|].
    inversion Hl' as [|kv' ? l2 ? Hkv' Hl2]; subst.
    apply fmap_Some in Hkv as (a & Ha & ->). apply fmap_Some in Hkv' as (b & Hb & [= Hk <-]).
    destruct kv as [x v], kv' as [x' v']. simpl in *. subst x'.
    f_equal; [|apply IH; [done|..]; intros; [apply Hm|apply Hm']; by right].
    f_equal. eapply (Hf x); [apply (Hm (x, v))|apply (Hm' (x, v'))|..]; try done; left. }
  apply map_eq. intros k0. apply option_eq. intros v.
  rewrite <- (amap_of_elem m (k0, v)), <- (amap_of_elem m' (k0, v)). by rewrite Heq.
Qed.

(** ** Values *)

(** What question values are made of, and what conditions compare with. *)
Definition question_value (v : goany) : Prop := json_value v = true ∧ numbers_present v = true.
Definition reads_back_float (f : float64) : Prop := f64_text f ≫= parse_float = Some f.
Definition right_value (v : goany) : Prop :=
  match v with
  | ANil | AString _ | ABool _ => True
  | AFloat64 f => reads_back_float f
  | _ => False
  end.

Lemma right_value_inj v v' j : right_value v → right_value v' →
  marshal v = Some j → marshal v' = Some j → v = v'.
Proof.
  destruct v, v'; simpl; try done; intros Hv Hv' H1 H2; simplify_eq/=; try done;
    repeat match goal with H : _ <$> _ = Some _ |- _ => apply fmap_Some in H as (? & ? & ?) end; simplify_eq; try done.
  f_equal. unfold reads_back_float in *. congruence.
Qed.

(** The value a tree was written from. *)
Fixpoint written_from (j : json) : goany :=
  match j with
  | JNull => ANil
  | JBool b => ABool b
  | JNum t => ANumber t
  | JStr s => AString s
  | JArr l => ASlice (map written_from l)
  | JObj l => AMap (map (λ kv, (kv.1, written_from kv.2)) l)
  end.

Lemma question_value_written v : ∀ j, question_value v → marshal v = Some j → written_from j = v.
Proof.
  unfold question_value. induction v as [| | | | | | | | |t| |l IH|kvs IH|] using goany_ind;
    intros j [Hj Hp] Hm; try discriminate Hj; simpl in Hm, Hj, Hp; try by injection Hm as <-.
  - apply negb_true_iff, bool_decide_eq_false in Hp. rewrite decide_False in Hm by done.
    destruct (is_valid_number t); [by injection Hm as <-|done].
  - apply fmap_Some in Hm as (k & Hk%mapM_Some & ->). simpl. f_equal.
    induction Hk as [|x y l k Hxy _ IHk]; simpl in *; [done|].
    inversion IH; subst. apply andb_true_iff in Hj as [? ?], Hp as [? ?]. f_equal; auto.
  - apply fmap_Some in Hm as (k & Hk%mapM_Some & ->). simpl. f_equal.
    induction Hk as [|[x v] y l k Hxy _ IHk]; simpl in *; [done|].
    inversion IH; subst. apply andb_true_iff in Hj as [? ?], Hp as [? ?].
    apply fmap_Some in Hxy as (z & Hz & ->). simpl. f_equal; [f_equal|]; auto.
Qed.

Lemma question_value_inj v v' j : question_value v → question_value v' →
  marshal v = Some j → marshal v' = Some j → v = v'.
Proof. intros Hv Hv' <-%question_value_written <-%question_value_written; done. Qed.

(** ** Conditions, rules and questions *)
Lemma cons_eq {A} (x y : A) l k : x :: l = y :: k → x = y ∧ l = k.
Proof. by intros [= -> ->]. Qed.

Ltac segments := repeat (constructor; [first [apply seg_omitempty|apply seg_field]|]); constructor.

Lemma string_field_inj name s s' : field name (jstr s) = field name (jstr s') → s = s'.
Proof. by intros [= ->]%field_inj. Qed.

Lemma string_segment_inj name s s' :
  field_omitempty (is_empty_string s) name (jstr s) = field_omitempty (is_empty_string s') name (jstr s') → s = s'.
Proof.
  intros [He Hs]%omitempty_inj. unfold is_empty_string in *.
  destruct (decide (s = "")) as [->|Hn].
  - rewrite (bool_decide_eq_true_2 ("" = "")) in He by done. symmetry in He. by apply bool_decide_eq_true in He as ->.
  - rewrite (bool_decide_eq_false_2 (s = "")) in Hs by done. by injection (Hs eq_refl).
Qed.

Definition condition_names : list string :=
  ["kind"; "children"; "fact"; "question"; "field"; "probabilityKey"; "op"; "rightScalar"; "rightList"; "rightBool"].

Lemma condition_segments c c' j : condition_json c = Some j → condition_json c' = Some j →
  cnc_Kind c = cnc_Kind c' ∧ cnc_Fact c = cnc_Fact c' ∧ cnc_Question c = cnc_Question c' ∧
  cnc_Field c = cnc_Field c' ∧ cnc_ProbabilityKey c = cnc_ProbabilityKey c' ∧ cnc_Op c = cnc_Op c' ∧
  cnc_RightBool c = cnc_RightBool c' ∧
  field_omitempty (is_nil (cnc_Children c)) "children" (jarr (map condition_json (cnc_Children c))) =
    field_omitempty (is_nil (cnc_Children c')) "children" (jarr (map condition_json (cnc_Children c'))) ∧
  field_omitempty (bool_decide (cnc_RightScalar c = ANil)) "rightScalar" (marshal (cnc_RightScalar c)) =
    field_omitempty (bool_decide (cnc_RightScalar c' = ANil)) "rightScalar" (marshal (cnc_RightScalar c')) ∧
  field_omitempty (is_nil (cnc_RightList c)) "rightList" (jarr (marshal <$> cnc_RightList c)) =
    field_omitempty (is_nil (cnc_RightList c')) "rightList" (jarr (marshal <$> cnc_RightList c')) ∧
  is_Some (field_omitempty (is_nil (cnc_Children c)) "children" (jarr (map condition_json (cnc_Children c)))) ∧
  is_Some (field_omitempty (bool_decide (cnc_RightScalar c = ANil)) "rightScalar" (marshal (cnc_RightScalar c))) ∧
  is_Some (field_omitempty (is_nil (cnc_RightList c)) "rightList" (jarr (marshal <$> cnc_RightList c))).
Proof.
  destruct c as [k ch f q fl pk op rs rl rb], c' as [k' ch' f' q' fl' pk' op' rs' rl' rb']. intros H H'.
  cbn [condition_json cnc_Kind cnc_Children cnc_Fact cnc_Question cnc_Field cnc_ProbabilityKey cnc_Op
       cnc_RightScalar cnc_RightList cnc_RightBool] in H, H'.
  pose proof (struct_Some _ _ H) as Hsome.
  eapply (struct_inj condition_names) in H; [| | | |exact H'];
    [|apply (bool_decide_unpack _); by vm_compute|segments|segments].
  repeat match goal with H : _ :: _ = _ :: _ |- _ => apply cons_eq in H as [? H] end.
  cbn [cnc_Kind cnc_Children cnc_Fact cnc_Question cnc_Field cnc_ProbabilityKey cnc_Op cnc_RightScalar
       cnc_RightList cnc_RightBool] in *.
  assert (rb = rb') as ->.
  { match goal with H : field_omitempty _ "rightBool" _ = _ |- _ => apply omitempty_inj in H as [H _] end.
    destruct rb, rb'; simpl in *; congruence. }
  split_and!; eauto using eq_sym, string_field_inj, string_segment_inj; apply Hsome; in_list.
Qed.

(** The right-hand values of a leaf, when there are any. *)
Lemma scalar_inj (P : goany → Prop) name v v' j :
  (∀ v v' j, P v → P v' → marshal v = Some j → marshal v' = Some j → v = v') → P v → P v' →
  field_omitempty (bool_decide (v = ANil)) name (marshal v) = Some j →
  field_omitempty (bool_decide (v = ANil)) name (marshal v) =
    field_omitempty (bool_decide (v' = ANil)) name (marshal v') → v = v'.
Proof.
  intros HP Hv Hv' Hj [He Hm]%omitempty_inj. destruct (decide (v = ANil)) as [->|Hn].
  - rewrite (bool_decide_eq_true_2 (ANil = ANil)) in He by done. symmetry in He. by apply bool_decide_eq_true in He.
  - rewrite (bool_decide_eq_false_2 (v = ANil)) in He, Hm, Hj by done. specialize (Hm eq_refl).
    apply fmap_Some in Hj as (m & Hj & _). eapply HP; try done. by rewrite <- Hm.
Qed.

Lemma list_seg_inj {A} (f : A → option json) name (l l' : list A) j :
  (∀ x y j, x ∈ l → y ∈ l' → f x = Some j → f y = Some j → x = y) →
  field_omitempty (is_nil l) name (jarr (map f l)) = Some j →
  field_omitempty (is_nil l) name (jarr (map f l)) = field_omitempty (is_nil l') name (jarr (map f l')) → l = l'.
Proof.
  intros Hf Hj [He Hm]%omitempty_inj. destruct l as [|x l], l' as [|y l']; try done.
  specialize (Hm eq_refl). apply fmap_Some in Hj as (t & Hj & _).
  eapply (jarr_inj f); [|exact Hj|by rewrite <- Hm]. apply list.Forall_forall. eauto.
Qed.

Lemma right_values_below l c v : c ∈ l → v ∈ right_values c → v ∈ List.concat (map right_values l).
Proof.
  induction 1 as [|c y l Hc IH]; intros Hv; simpl; apply elem_of_app; [by left|right; auto].
Qed.

Lemma condition_text_inj c : ∀ c' j,
  Forall right_value (right_values c) → Forall right_value (right_values c') →
  condition_json (canonicalizeCondition c) = Some j → condition_json (canonicalizeCondition c') = Some j →
  canonicalizeCondition c = canonicalizeCondition c'.
Proof.
  induction c as [k children o op rs rl rb IH] using CompiledCondition_ind.
  intros [k' children' o' op' rs' rl' rb'] j Hv Hv' H H'.
  destruct (condition_segments _ _ _ H H') as (E1 & E2 & E3 & E4 & E5 & E6 & E7 & Ech & Ers & Erl & Sch & Srs & Srl).
  clear H H'. destruct Sch as [jc Sch], Srs as [js Srs], Srl as [jl Srl].
  destruct children as [|x l], children' as [|x' l'].
  - cbn [right_values] in Hv, Hv'. inversion Hv as [|? ? Hs Hl]; inversion Hv' as [|? ? Hs' Hl']; subst.
    assert (rs = rs') as <-.
    { cbn [canonicalizeCondition] in Srs, Ers. destruct (co_kind o), (co_kind o'); by eapply (scalar_inj right_value); [exact right_value_inj|..]. }
    assert (rl = rl') as <-.
    { rewrite list.Forall_forall in Hl, Hl'.
      cbn [canonicalizeCondition] in Srl, Erl. destruct (co_kind o), (co_kind o');
        (eapply (list_seg_inj marshal); [|exact Srl|exact Erl]); eauto using right_value_inj. }
    cbn [canonicalizeCondition] in *. destruct (co_kind o), (co_kind o'); cbn in *; by f_equal.
  - cbn [canonicalizeCondition] in Ech. destruct (co_kind o); by apply omitempty_inj in Ech as [? _].
  - cbn [canonicalizeCondition] in Ech. destruct (co_kind o'); by apply omitempty_inj in Ech as [? _].
  - assert (map canonicalizeCondition (x :: l) = map canonicalizeCondition (x' :: l')) as Hm.
    { eapply (list_seg_inj condition_json); [|exact Sch|exact Ech].
      intros y y' jy Hy Hy' Hjy Hjy'. apply list_elem_of_fmap in Hy as (c & -> & Hc).
      apply list_elem_of_fmap in Hy' as (c' & -> & Hc'). rewrite list.Forall_forall in IH.
      apply (IH c Hc c' jy); [..|done|done]; apply list.Forall_forall; intros v Hvc.
      - rewrite list.Forall_forall in Hv. apply Hv. cbn [right_values].
        by apply (right_values_below _ c).
      - rewrite list.Forall_forall in Hv'. apply Hv'. cbn [right_values].
        by apply (right_values_below _ c'). }
    cbn [canonicalizeCondition]. cbn in E1. by rewrite E1, Hm.
Qed.

(** ** Rules *)
Definition canonical_rule (rule : CompiledRule) : canonicalRule :=
  MkCanonicalRule (cr_ID rule) (cr_Description rule) (cr_Outcome rule) (canonicalizeCondition <$> cr_Condition rule).

Definition rule_values (r : CompiledRule) : Prop :=
  ∀ c, cr_Condition r = Some c → Forall right_value (right_values c).

Lemma rule_text_inj r r' j : rule_values r → rule_values r' →
  rule_json (canonical_rule r) = Some j → rule_json (canonical_rule r') = Some j →
  canonical_rule r = canonical_rule r'.
Proof.
  destruct r as [id d c o], r' as [id' d' c' o']. unfold rule_values, canonical_rule, rule_json.
  cbn [cr_ID cr_Description cr_Condition cr_Outcome cnr_ID cnr_Description cnr_Outcome cnr_When]. intros Hv Hv' H H'.
  pose proof (struct_Some _ _ H) as Hsome.
  assert (∀ w, seg "when" match w with Some c => field "when" (condition_json c) | None => Some [] end) as Hw.
  { intros [w|]; [apply seg_field|]. intros l [= <-]. by left. }
  eapply (struct_inj ["id"; "description"; "outcome"; "when"]) in H; [| | | |exact H'];
    [|apply (bool_decide_unpack _); by vm_compute|..];
    try (repeat (constructor; [first [apply seg_field|apply Hw]|]); constructor).
  apply cons_eq in H as [->%string_field_inj H]. apply cons_eq in H as [->%string_field_inj H].
  apply cons_eq in H as [->%string_field_inj H]. apply cons_eq in H as [H _].
  assert (is_Some match canonicalizeCondition <$> c with
    Some c => field "when" (condition_json c) | None => Some [] end) as [t Ht] by (apply Hsome; in_list).
  f_equal. destruct c as [c|], c' as [c'|]; cbn [fmap option_fmap option_map] in *; try done.
  - f_equal. apply fmap_Some in Ht as (x & Hx & _). apply field_inj in H.
    apply (condition_text_inj c c' x); [by apply Hv|by apply Hv'|done|congruence].
  - unfold field in H. destruct (condition_json _); discriminate H.
  - unfold field in H. destruct (condition_json _); discriminate H.
Qed.

Lemma rules_text_inj rules rules' j : Forall rule_values rules → Forall rule_values rules' →
  jarr (rule_json <$> canonicalRules rules) = Some j → jarr (rule_json <$> canonicalRules rules') = Some j →
  canonicalRules rules = canonicalRules rules'.
Proof.
  intros Hv Hv'. change (canonicalRules rules) with (map canonical_rule rules).
  change (canonicalRules rules') with (map canonical_rule rules'). apply jarr_inj.
  rewrite list.Forall_forall in Hv, Hv'. apply list.Forall_forall.
  intros x (r & -> & Hr)%list_elem_of_fmap y jr (r' & -> & Hr')%list_elem_of_fmap.
  apply rule_text_inj; auto.
Qed.

Lemma canonicalRules_inj facts questions questions' outcomes phase rules rules' :
  (∀ id q q', questions !! id = Some q → questions' !! id = Some q' → cq_Type q = cq_Type q') →
  Forall (wf_rule facts questions outcomes phase) rules →
  Forall (wf_rule facts questions' outcomes phase) rules' →
  canonicalRules rules = canonicalRules rules' → rules = rules'.
Proof.
  intros Ht H H'. unfold canonicalRules.
  apply (map_inj_Forall _ (wf_rule facts questions' outcomes phase)); [|done].
  eapply list.Forall_impl; [exact H|]. simpl.
  intros [id d c o] (_ & _ & _ & Hc) [id' d' c' o'] (_ & _ & _ & Hc') [= -> -> -> Hcond].
  f_equal. destruct c as [c|], c' as [c'|]; simplify_eq/=; [|done]. f_equal.
  by eapply (canonicalizeCondition_inj facts questions questions' Ht); [apply Hc|apply Hc'|].
Qed.

(** ** Questions *)

(** Empty noul criteria are forgotten. *)
Definition forget_noul (criteria : option (gmap string goany)) : option (gmap string goany) :=
  if decide (default ∅ criteria = ∅) then None else criteria.

Definition forget_question (q : CompiledQuestion) : CompiledQuestion :=
  MkCompiledQuestion (cq_ID q) (cq_Type q) (cq_Instructions q) (forget_noul (cq_NoulCriteria q))
    (cq_ChoiceCriteria q) (cq_ChoiceKeys q) (cq_ScoreCriteria q).

Definition forget_canonical (q : canonicalQuestion) : canonicalQuestion :=
  MkCanonicalQuestion (cnq_ID q) (cnq_Type q) (cnq_Instructions q) (forget_noul (cnq_NoulCriteria q))
    (cnq_ChoiceCriteria q) (cnq_ScoreCriteria q).

Lemma forget_noul_default criteria : default ∅ (forget_noul criteria) = default ∅ criteria.
Proof. unfold forget_noul. by case_decide. Qed.

Lemma forget_noul_inj m m' : default ∅ m = default ∅ m' → forget_noul m = forget_noul m'.
Proof. unfold forget_noul. intros H. rewrite H. case_decide; [done|]. by destruct m, m'; simplify_eq/=. Qed.

(** The text of a question does not tell. *)
Lemma forget_canonical_text q : question_json (forget_canonical q) = question_json q.
Proof. unfold question_json. cbn [forget_canonical cnq_NoulCriteria]. by rewrite forget_noul_default. Qed.

Lemma wf_value_question limit v : wf_value limit v → question_value v.
Proof. intros []. by split. Qed.

Lemma wf_instructions_question v : wf_instructions v → question_value v.
Proof. intros [->|H]; [done|by eapply wf_value_question]. Qed.
Lemma wf_description_question v : wf_description v → question_value v.
Proof. intros [->|H]; [done|by eapply wf_value_question]. Qed.

(** The values of a question, as its canonical form has them. *)
Record question_values (q : canonicalQuestion) : Prop := {
  qv_instructions : question_value (cnq_Instructions q);
  qv_noul : ∀ k v, default ∅ (cnq_NoulCriteria q) !! k = Some v → question_value v;
  qv_choice : ∀ k v, cnq_ChoiceCriteria q !! k = Some v → question_value v;
  qv_score : Forall question_value (cnq_ScoreCriteria q)
}.

Lemma wf_question_values id q : wf_question id q → question_values (canonical_question q).
Proof.
  intros [ins cr _ Hi Hc|ins cr _ Hi _ Hc|ins ls _ Hi _ Hl]; constructor; cbn; try done;
    try by apply wf_instructions_question.
  - intros k v Hk. destruct cr as [m|]; [|done]. by eapply wf_description_question, (Hc m k v).
  - intros k v Hk. by apply wf_description_question, (Hc k v).
  - eapply list.Forall_impl; [exact Hl|]. intros v. apply wf_value_question.
Qed.

Definition question_names : list string :=
  ["id"; "type"; "instructions"; "noulCriteria"; "choiceCriteria"; "scoreCriteria"].

Lemma map_segment_inj name (m m' : gmap string goany) j :
  (∀ k v, m !! k = Some v → question_value v) → (∀ k v, m' !! k = Some v → question_value v) →
  field_omitempty (bool_decide (m = ∅)) name (jmap marshal m) = Some j →
  field_omitempty (bool_decide (m = ∅)) name (jmap marshal m) =
    field_omitempty (bool_decide (m' = ∅)) name (jmap marshal m') → m = m'.
Proof.
  intros Hv Hv' Hj [He Hm]%omitempty_inj. destruct (decide (m = ∅)) as [->|Hn].
  - rewrite (bool_decide_eq_true_2 (∅ = ∅)) in He by done. symmetry in He. by apply bool_decide_eq_true in He.
  - rewrite (bool_decide_eq_false_2 (m = ∅)) in He, Hm, Hj by done. specialize (Hm eq_refl).
    apply fmap_Some in Hj as (t & Hj & _). eapply (jmap_inj marshal); [|exact Hj|by rewrite <- Hm].
    intros k v v' jv Hk Hk'. apply question_value_inj; eauto.
Qed.

Lemma question_text_inj q q' j : question_values q → question_values q' →
  question_json q = Some j → question_json q' = Some j → forget_canonical q = forget_canonical q'.
Proof.
  destruct q as [id t ins noul choice score], q' as [id' t' ins' noul' choice' score'].
  intros [Hi Hn Hc Hs] [Hi' Hn' Hc' Hs'] H H'. unfold question_json in H, H'.
  cbn [cnq_ID cnq_Type cnq_Instructions cnq_NoulCriteria cnq_ChoiceCriteria cnq_ScoreCriteria] in *.
  pose proof (struct_Some _ _ H) as Hsome.
  eapply (struct_inj question_names) in H; [| | | |exact H'];
    [|apply (bool_decide_unpack _); by vm_compute|segments|segments].
  apply cons_eq in H as [->%string_field_inj H]. apply cons_eq in H as [->%string_field_inj H].
  apply cons_eq in H as [Ei H]. apply cons_eq in H as [En H]. apply cons_eq in H as [Ec H].
  apply cons_eq in H as [Es _].
  assert (ins = ins') as <-.
  { assert (is_Some (field_omitempty (bool_decide (ins = ANil)) "instructions" (marshal ins))) as [x Hx]
      by (apply Hsome; in_list). by eapply (scalar_inj question_value); [exact question_value_inj|..]. }
  assert (default ∅ noul = default ∅ noul') as Hnoul.
  { assert (is_Some (field_omitempty (bool_decide (default ∅ noul = ∅)) "noulCriteria" (jmap marshal (default ∅ noul))))
      as [x Hx] by (apply Hsome; in_list). by eapply map_segment_inj. }
  assert (choice = choice') as <-.
  { assert (is_Some (field_omitempty (bool_decide (choice = ∅)) "choiceCriteria" (jmap marshal choice))) as [x Hx]
      by (apply Hsome; in_list). by eapply map_segment_inj. }
  assert (score = score') as <-.
  { assert (is_Some (field_omitempty (is_nil score) "scoreCriteria" (jarr (marshal <$> score)))) as [x Hx]
      by (apply Hsome; in_list). rewrite list.Forall_forall in Hs, Hs'.
    eapply (list_seg_inj marshal); [|exact Hx|exact (eq_sym Es)]. eauto using question_value_inj. }
  unfold forget_canonical. cbn. by rewrite (forget_noul_inj _ _ Hnoul).
Qed.

Lemma forget_question_wf id q : wf_question id q → wf_question id (forget_question q).
Proof.
  intros [ins cr Hid Hi Hc|ins cr Hid Hi Hn Hc|ins ls Hid Hi Hn Hl].
  - constructor; [done..|]. cbn. unfold forget_noul. case_decide; [done|]. done.
  - unfold forget_question. cbn. by constructor.
  - unfold forget_question. cbn. by constructor.
Qed.

Lemma canonical_forget q : canonical_question (forget_question q) = forget_canonical (canonical_question q).
Proof. done. Qed.

Lemma canonicalQuestions_forget_inj c c' :
  wf_compiled c → wf_compiled c' →
  forget_canonical <$> canonicalQuestions c = forget_canonical <$> canonicalQuestions c' →
  forget_question <$> c_Questions c = forget_question <$> c_Questions c'.
Proof.
  assert (∀ c, wf_compiled c → ∀ id q, (forget_question <$> c_Questions c) !! id = Some q ↔
    canonical_question q ∈ forget_canonical <$> canonicalQuestions c ∧ cq_ID q = id ∧ wf_question id q) as Hmem.
  { intros d Hd id q. unfold canonicalQuestions. rewrite lookup_fmap, fmap_Some. split.
    - intros (q0 & Hq & ->). pose proof (wfc_questions_valid _ Hd _ _ Hq) as Hw.
      pose proof (forget_question_wf _ _ Hw) as Hw'.
      split; [|split; [by eapply wf_question_id|done]]. rewrite canonical_forget. apply list_elem_of_fmap_2.
      apply list_elem_of_fmap. exists id. rewrite (wfc_questionIDs _ Hd), elem_of_sorted_keys, Hq. done.
    - intros ((p & Heq & Hp)%list_elem_of_fmap & <- & Hw).
      apply list_elem_of_fmap in Hp as (id' & -> & Hid).
      rewrite (wfc_questionIDs _ Hd), elem_of_sorted_keys in Hid. destruct Hid as [q' Hq']. rewrite Hq' in Heq.
      pose proof (wfc_questions_valid _ Hd _ _ Hq') as Hw'.
      change (canonical_question q = canonical_question (forget_question q')) in Heq.
      apply (canonical_question_inj _ _ _ _ Hw (forget_question_wf _ _ Hw')) in Heq as ->.
      exists q'. split; [|done]. cbn. by rewrite (wf_question_id _ _ Hw'). }
  intros Hc Hc' Heq. apply map_eq. intros id. apply option_eq. intros q.
  by rewrite (Hmem c Hc), (Hmem c' Hc'), Heq.
Qed.

(** ** Policies *)

(** A policy without its text and hash, and with empty noul criteria forgotten. *)
Definition forget (c : Compiled) : Compiled :=
  {| c_Ref := c_Ref c; c_Description := c_Description c; c_Model := c_Model c;
     c_Outcomes := c_Outcomes c; c_DefaultOutcome := c_DefaultOutcome c; c_outcomeSet := c_outcomeSet c;
     c_RequiredFacts := c_RequiredFacts c; c_OptionalFacts := c_OptionalFacts c;
     c_StrictInput := c_StrictInput c; c_Questions := forget_question <$> c_Questions c;
     c_QuestionIDs := c_QuestionIDs c; c_PreRules := c_PreRules c; c_DecisionRules := c_DecisionRules c;
     c_Canonical := ""; c_Hash := "" |}.

Definition policy_names : list string :=
  ["apiVersion"; "kind"; "name"; "version"; "description"; "model"; "outcomes"; "defaultOutcome";
   "requiredFacts"; "optionalFacts"; "strictInput"; "questions"; "preRules"; "decisionRules"].

Lemma jstr_list_inj l l' j : jarr (jstr <$> l) = Some j → jarr (jstr <$> l') = Some j → l = l'.
Proof. apply jarr_inj, list.Forall_forall. by intros x _ y jx _ [= <-] [= ->]. Qed.

Lemma jstr_map_inj (m m' : gmap string string) j : jmap jstr m = Some j → jmap jstr m' = Some j → m = m'.
Proof. apply jmap_inj. by intros k v v' jv _ _ [= <-] [= ->]. Qed.

Lemma canonicalQuestions_values c : wf_compiled c → Forall question_values (canonicalQuestions c).
Proof.
  intros Hc. unfold canonicalQuestions. apply list.Forall_forall. intros q (id & -> & Hid)%list_elem_of_fmap.
  rewrite (wfc_questionIDs _ Hc), elem_of_sorted_keys in Hid. destruct Hid as [q Hq]. rewrite Hq.
  by eapply wf_question_values, (wfc_questions_valid _ Hc).
Qed.

Lemma questions_text_inj l l' j : Forall question_values l → Forall question_values l' →
  jarr (question_json <$> l) = Some j → jarr (question_json <$> l') = Some j →
  forget_canonical <$> l = forget_canonical <$> l'.
Proof.
  intros Hl Hl' H H'.
  assert (∀ k : list canonicalQuestion, question_json <$> k = question_json <$> (forget_canonical <$> k)) as Hf.
  { intros k. rewrite <- list_fmap_compose. apply list_fmap_ext. intros i q _. unfold compose.
    by rewrite forget_canonical_text. }
  rewrite Hf in H, H'. revert H H'. apply jarr_inj. rewrite list.Forall_forall in Hl, Hl'. apply list.Forall_forall.
  intros x (q & -> & Hq)%list_elem_of_fmap y jq (q' & -> & Hq')%list_elem_of_fmap. rewrite !forget_canonical_text.
  intros Hj Hj'. by apply (question_text_inj q q' jq); auto.
Qed.

(** The numbers a policy compares with are read back from their text. *)
Definition numbers_read_back (c : Compiled) : Prop :=
  ∀ rule cond f, rule ∈ all_rules c → cr_Condition rule = Some cond → AFloat64 f ∈ right_values cond →
    reads_back_float f.

Lemma wf_right_values facts questions phase c : ∀ depth v, wf_condition facts questions phase depth c →
  v ∈ right_values c → match v with ANil | AString _ | ABool _ | AFloat64 _ => True | _ => False end.
Proof.
  induction c as [k children o op rs rl rb IH] using CompiledCondition_ind. intros depth v Hc Hv.
  destruct children as [|x l].
  - cbn in Hv. inversion Hc as [? ? ? ? ? ? _ _ Hleaf|? ? ? _ _ Hlen _|]; subst;
      [|unfold len in Hlen; simpl in Hlen; lia].
    assert (∀ o op v, right_ok questions o op v → match v with ANil | AString _ | ABool _ | AFloat64 _ => True | _ => False end)
      as Hr by by intros ? ? ? [].
    inversion Hleaf as [b Hb|l' Hl' Hall|op' v' _ Hok]; subst.
    + by apply list_elem_of_singleton in Hv as ->.
    + apply elem_of_cons in Hv as [->|Hv]; [done|]. rewrite list.Forall_forall in Hall. by eapply Hr, Hall.
    + apply list_elem_of_singleton in Hv as ->. by eapply Hr.
  - rewrite list.Forall_forall in IH. pose proof (wf_children _ _ _ _ _ _ _ _ _ _ _ Hc) as Hch.
    rewrite list.Forall_forall in Hch. cbn [right_values] in Hv.
    assert (∃ y, y ∈ x :: l ∧ v ∈ right_values y) as (y & Hy & Hvy).
    { clear -Hv. induction (x :: l) as [|y k IHk]; simpl in Hv; [by apply elem_of_nil in Hv|].
      apply elem_of_app in Hv as [Hv|Hv]; [exists y; split; [left|done]|].
      destruct (IHk Hv) as (z & ? & ?). exists z. split; [by right|done]. }
    by eapply (IH y Hy _ v), Hvy; apply Hch.
Qed.

Lemma wf_rules_values facts questions outcomes phase rules :
  Forall (wf_rule facts questions outcomes phase) rules →
  (∀ rule cond f, rule ∈ rules → cr_Condition rule = Some cond → AFloat64 f ∈ right_values cond → reads_back_float f) →
  Forall rule_values rules.
Proof.
  intros Hw Hf. rewrite list.Forall_forall in Hw |- *. intros r Hr c Hc. apply list.Forall_forall. intros v Hv.
  destruct (Hw r Hr) as (_ & _ & _ & Hcond). pose proof (wf_right_values _ _ _ _ _ _ (Hcond c Hc) Hv) as Hk.
  destruct v; try done. by eapply Hf.
Qed.

(** The text is the text of a tree that is read back: its strings are UTF-8 and its
    numbers are numbers of JSON. *)
Definition text_reads_back (c : Compiled) : Prop :=
  ∀ j, policy_json (canonicalForm c) = Some j → JsonText.json_ok j max_nesting = true.

Lemma policy_text_inj c c' j : wf_compiled c → wf_compiled c' →
  numbers_read_back c → numbers_read_back c' →
  policy_json (canonicalForm c) = Some j → policy_json (canonicalForm c') = Some j →
  let f := canonicalForm c in let f' := canonicalForm c' in
  c_Ref c = c_Ref c' ∧ c_Description c = c_Description c' ∧ c_Model c = c_Model c' ∧
  c_Outcomes c = c_Outcomes c' ∧ c_DefaultOutcome c = c_DefaultOutcome c' ∧
  c_RequiredFacts c = c_RequiredFacts c' ∧ c_OptionalFacts c = c_OptionalFacts c' ∧
  c_StrictInput c = c_StrictInput c' ∧
  forget_canonical <$> canonicalQuestions c = forget_canonical <$> canonicalQuestions c' ∧
  canonicalRules (c_PreRules c) = canonicalRules (c_PreRules c') ∧
  canonicalRules (c_DecisionRules c) = canonicalRules (c_DecisionRules c').
Proof.
  intros Hc Hc' Hn Hn' H H'.
  assert (∀ d, wf_compiled d → numbers_read_back d →
    Forall rule_values (c_PreRules d) ∧ Forall rule_values (c_DecisionRules d)) as Hrules.
  { intros d Hd Hdn. split; (eapply wf_rules_values; [apply Hd|]); intros r cond f Hr; apply Hdn, elem_of_app; auto. }
  destruct (Hrules c Hc Hn) as [Hp Hd], (Hrules c' Hc' Hn') as [Hp' Hd']. clear Hrules.
  unfold policy_json, canonicalForm in H, H'.
  cbn [cn_APIVersion cn_Kind cn_Name cn_Version cn_Description cn_Model cn_Outcomes cn_DefaultOutcome cn_RequiredFacts
       cn_OptionalFacts cn_StrictInput cn_Questions cn_PreRules cn_DecisionRules] in H, H'.
  pose proof (struct_Some _ _ H) as Hsome.
  eapply (struct_inj policy_names) in H; [| | | |exact H'];
    [|apply (bool_decide_unpack _); by vm_compute|segments|segments]. symmetry in H.
  do 14 (let E := fresh "E" in apply cons_eq in H as [E H]; apply field_inj in E). clear H.
  repeat match goal with E : jstr _ = jstr _ |- _ => injection E as E end.
  destruct (field_Some "outcomes" (jarr (jstr <$> c_Outcomes c))) as [jo Ho]; [apply Hsome; in_list|].
  destruct (field_Some "requiredFacts" (jmap jstr (c_RequiredFacts c))) as [jr Hr]; [apply Hsome; in_list|].
  destruct (field_Some "optionalFacts" (jmap jstr (c_OptionalFacts c))) as [jp Hop]; [apply Hsome; in_list|].
  destruct (field_Some "questions" (jarr (question_json <$> canonicalQuestions c))) as [jq Hq]; [apply Hsome; in_list|].
  destruct (field_Some "preRules" (jarr (rule_json <$> canonicalRules (c_PreRules c)))) as [jpre Hpre];
    [apply Hsome; in_list|].
  destruct (field_Some "decisionRules" (jarr (rule_json <$> canonicalRules (c_DecisionRules c)))) as [jd Hdec];
    [apply Hsome; in_list|].
  clear Hsome H'.
  split_and!.
  - destruct (c_Ref c), (c_Ref c'); cbn in *; congruence.
  - congruence.
  - congruence.
  - eapply jstr_list_inj; [exact Ho|congruence].
  - congruence.
  - eapply jstr_map_inj; [exact Hr|congruence].
  - eapply jstr_map_inj; [exact Hop|congruence].
  - congruence.
  - eapply questions_text_inj; [by apply canonicalQuestions_values..|exact Hq|congruence].
  - eapply rules_text_inj; [done..|exact Hpre|congruence].
  - eapply rules_text_inj; [done..|exact Hdec|congruence].
Qed.

(** Policies of the same text are the same, up to the noul criteria the text forgets. *)
Lemma canonical_text_inj c c' : wf_compiled c → wf_compiled c' →
  numbers_read_back c → numbers_read_back c' → text_reads_back c → text_reads_back c' →
  c_Canonical c = c_Canonical c' → forget c = forget c'.
Proof.
  intros Hc Hc' Hn Hn' Ht Ht' Heq.
  pose proof (wfc_canonical _ Hc) as Hcan. pose proof (wfc_canonical _ Hc') as Hcan'.
  unfold canonicalize in Hcan, Hcan'.
  destruct (policy_json (canonicalForm c)) as [j|] eqn:Ej; [|done]. injection Hcan as Htx Hh.
  destruct (policy_json (canonicalForm c')) as [j'|] eqn:Ej'; [|done]. injection Hcan' as Htx' Hh'.
  assert (j' = j) as ->.
  { pose proof (JsonText.json_parse_text j (Ht j Ej)) as Hp.
    rewrite Htx, Heq, <- Htx', (JsonText.json_parse_text j' (Ht' j' Ej')) in Hp. by injection Hp. }
  destruct (policy_text_inj c c' j Hc Hc' Hn Hn' Ej Ej')
    as (Hr & Hd & Hm & Ho & Hdef & Hreq & Hopt & Hst & Hq & Hpre & Hdec).
  apply canonicalQuestions_forget_inj in Hq; [|done..].
  assert (∀ id q q', c_Questions c !! id = Some q → c_Questions c' !! id = Some q' → cq_Type q = cq_Type q') as Hty.
  { intros id q q' E E'. apply (f_equal (lookup id)) in Hq. rewrite !lookup_fmap, E, E' in Hq.
    apply (f_equal (λ o, cq_Type <$> o)) in Hq. cbn in Hq. congruence. }
  pose proof (wfc_preRules _ Hc) as H1. pose proof (wfc_preRules _ Hc') as H1'.
  pose proof (wfc_decisionRules _ Hc) as H2. pose proof (wfc_decisionRules _ Hc') as H2'.
  unfold declared_facts in *. rewrite <- Hreq, <- Hopt, <- Ho in H1', H2'.
  apply (canonicalRules_inj _ _ _ _ _ _ _ Hty H1 H1') in Hpre.
  apply (canonicalRules_inj _ _ _ _ _ _ _ Hty H2 H2') in Hdec.
  assert (c_QuestionIDs c = c_QuestionIDs c') as Hids.
  { rewrite (wfc_questionIDs _ Hc), (wfc_questionIDs _ Hc'). unfold sorted_keys.
    by rewrite <- (dom_fmap_L forget_question (c_Questions c)), Hq, dom_fmap_L. }
  unfold forget. f_equal; try congruence.
  by rewrite (wfc_outcomeSet _ Hc), (wfc_outcomeSet _ Hc'), Ho.
Qed.

Lemma forget_text c : policy_json (canonicalForm (forget c)) = policy_json (canonicalForm c).
Proof.
  unfold policy_json, canonicalForm. cbn [cn_APIVersion cn_Kind cn_Name cn_Version cn_Description cn_Model cn_Outcomes
    cn_DefaultOutcome cn_RequiredFacts cn_OptionalFacts cn_StrictInput cn_Questions cn_PreRules cn_DecisionRules
    c_Ref c_Description c_Model c_Outcomes c_DefaultOutcome c_RequiredFacts c_OptionalFacts c_StrictInput
    c_PreRules c_DecisionRules forget].
  assert (question_json <$> canonicalQuestions (forget c) = question_json <$> canonicalQuestions c) as ->; [|done].
  unfold canonicalQuestions. cbn [forget c_QuestionIDs c_Questions]. rewrite <- !list_fmap_compose.
  apply list_fmap_ext. intros _ id _. unfold compose. rewrite lookup_fmap.
  destruct (c_Questions c !! id) as [q|]; [|done]. cbn.
  change (question_json (forget_canonical (canonical_question q)) = question_json (canonical_question q)).
  apply forget_canonical_text.
Qed.

(** Policies that are the same up to those criteria have the same text and hash. *)
Lemma forget_canonicalize c c' : wf_compiled c → wf_compiled c' → forget c = forget c' →
  c_Canonical c = c_Canonical c' ∧ c_Hash c = c_Hash c'.
Proof.
  intros Hc Hc' Hf. pose proof (wfc_canonical _ Hc) as H. pose proof (wfc_canonical _ Hc') as H'.
  unfold canonicalize in H, H'. rewrite <- forget_text, Hf, forget_text in H. rewrite H' in H.
  by injection H.
Qed.

End CanonicalSound.
