(* ===== verification/PolicyTheorems.v ===== *)
(** * The policy language: its theorems

    What the compiler, the two run-time checks and the evaluator guarantee
    together, stated on the operations of [internal/pkg/policy]. *)

From S2P Require Import Prelude GoFloat GoAny Decision Document Condition.
From S2P Require Import CompileQuestion CompileCondition Canonical Compile WellFormed.
From S2P Require Import Fixtures CompileSound Evaluate EvalSound GoJson CanonicalSound.
From stdpp Require Import options.
#[local] Open Scope Z_scope.

Module PolicyTheorems.
Import Compile WellFormed CompileSound Condition Evaluate EvalSound Fixtures.

(** ** Reference semantics: the rules of a document, first match wins *)
Definition source_pre (doc : Document) (facts : Facts) : option Result :=
  (λ rule, MkResult (rule_Outcome rule) (rule_ID rule) ExecutionPathPreRule) <$>
    List.find (λ rule, rule_when rule facts ∅) (sp_PreRules (doc_Spec doc)).

Definition source_decision (doc : Document) (facts : Facts) (answers : Answers) : Result :=
  match List.find (λ rule, rule_when rule facts answers) (sp_DecisionRules (doc_Spec doc)) with
  | Some rule => MkResult (rule_Outcome rule) (rule_ID rule) ExecutionPathDecisionRule
  | None => MkResult (sp_DefaultOutcome (doc_Spec doc)) "" ExecutionPathDefault
  end.

Lemma find_rules rules crs facts answers :
  Forall2 rule_ok rules crs →
  match List.find (λ r, rule_when r facts answers) rules,
        List.find (λ r, Matches r facts answers) crs with
  | Some r, Some cr => cr_Outcome cr = rule_Outcome r ∧ cr_ID cr = rule_ID r
  | None, None => True
  | _, _ => False
  end.
Proof.
  induction 1 as [|r cr rules crs Hr _ IH]; simpl; [done|].
  rewrite (ro_matches _ _ Hr). destruct (rule_when r facts answers); [|done].
  split; [apply Hr|apply Hr].
Qed.

(** C1: a document that compiles yields a well-formed policy: every reference
    resolves, right-hand values have the type of their operand, pre-rules read facts
    only, outcomes are declared, identifiers are unique, and the ceilings hold: the numbers
    of outcomes, facts, questions, criteria, rules and conditions and their depth, the
    lengths of the version, the descriptions and the compared strings, the nodes, levels
    and encoded bytes of every structured value, and the question ceiling that the
    deployment configured. *)
Theorem compile_sound doc n c :
  CompileWithMaxQuestions (Some doc) n = Ok c →
  wf_compiled c ∧ (0 < n → msize (c_Questions c) <= n).
Proof. intros H. split; [by apply (compile_inv doc n c)|by apply (compile_ceiling doc n c)]. Qed.

Lemma compile_sound_witness :
  CompileWithMaxQuestions (Some router) MaxQuestions = Ok router_policy ∧
  wf_compiled router_policy ∧ msize (c_Questions router_policy) <= MaxQuestions.
Proof.
  split; [exact router_policy_ok|].
  destruct (compile_sound router MaxQuestions router_policy router_policy_ok) as [Hwf Hn].
  split; [exact Hwf|]. apply Hn. reflexivity.
Defined.

(** C2: the compiler preserves meaning: both rule phases of the compiled policy
    decide exactly as the source document reads, rule by rule in file order. *)
Theorem compile_preserves_decisions doc n c :
  CompileWithMaxQuestions (Some doc) n = Ok c →
  (∀ facts, EvaluatePreRules c facts = source_pre doc facts) ∧
  (∀ facts answers, EvaluateDecisionRules c facts answers = source_decision doc facts answers).
Proof.
  intros [_ Hc]%compile_inv. split.
  - intros facts. unfold EvaluatePreRules, source_pre.
    pose proof (find_rules _ _ facts ∅ (cf_preRules _ _ Hc)) as Hf.
    repeat case_match; try done. simpl. by destruct Hf as [-> ->].
  - intros facts answers. unfold EvaluateDecisionRules, source_decision.
    pose proof (find_rules _ _ facts answers (cf_decisionRules _ _ Hc)) as Hf.
    repeat case_match; try done; [by destruct Hf as [-> ->]|by rewrite (cf_default _ _ Hc)].
Qed.

Lemma compile_preserves_decisions_witness :
  EvaluateDecisionRules router_policy router_facts router_answers =
  source_decision router router_facts router_answers.
Proof.
  exact (proj2 (compile_preserves_decisions router MaxQuestions router_policy
    router_policy_ok) router_facts router_answers).
Defined.

(** ** Phases and outcomes *)
Lemma quantifiers_ext {A} (f g : A → bool) l :
  (∀ x, x ∈ l → f x = g x) → forallb f l = forallb g l ∧ existsb f l = existsb g l.
Proof.
  induction l as [|x l IH]; intros H; simpl; [done|].
  rewrite (H x) by by left. destruct IH as [-> ->]; [|done]. intros y Hy. apply H. by right.
Qed.

Lemma pre_condition_ignores facts questions c : ∀ depth fs a1 a2,
  wf_condition facts questions CompileCondition.rulePhasePre depth c →
  Evaluate c fs a1 = Evaluate c fs a2.
Proof.
  induction c as [k children o op rs rl rb IH] using CompiledCondition_ind.
  intros depth fs a1 a2 Hc. inversion Hc as [? ? ? ? ? ? _ Ho _|? ? ? _ Hk _ Hch|? child _ Hch];
    subst; simpl.
  - inversion Ho; subst; [|done]. done.
  - rewrite list.Forall_forall in IH, Hch.
    assert (∀ d, d ∈ children → Evaluate d fs a1 = Evaluate d fs a2) as Hd by eauto.
    apply quantifiers_ext in Hd as [Hall Hany]. destruct Hk as [-> | ->]; done.
  - inversion IH; subst. f_equal. eauto.
Qed.

(** the pre-rule phase is decided by the facts alone: no answer can change
    whether a pre-rule matches. *)
Theorem pre_rules_ignore_answers doc n c rule facts answers1 answers2 :
  CompileWithMaxQuestions (Some doc) n = Ok c → rule ∈ c_PreRules c →
  Matches rule facts answers1 = Matches rule facts answers2.
Proof.
  intros [Hwf _]%compile_inv Hr. pose proof (wfc_preRules _ Hwf) as Hp.
  rewrite list.Forall_forall in Hp. destruct (Hp rule Hr) as (_ & _ & _ & Hc).
  unfold Matches. destruct (cr_Condition rule) as [cond|]; [|done].
  by eapply pre_condition_ignores, Hc.
Qed.

Definition router_pre_rule : CompiledRule :=
  default (MkCompiledRule "" "" None "") (c_PreRules router_policy !! 0%nat).

Lemma pre_rules_ignore_answers_witness :
  router_pre_rule ∈ c_PreRules router_policy ∧
  Matches router_pre_rule router_facts router_answers =
  Matches router_pre_rule router_facts ∅.
Proof.
  assert (router_pre_rule ∈ c_PreRules router_policy) as H
    by (vm_compute; apply list_elem_of_here).
  split; [exact H|].
  exact (pre_rules_ignore_answers router MaxQuestions router_policy router_pre_rule
    router_facts router_answers ∅ router_policy_ok H).
Defined.

(** The result of the decision phase is one of three things. *)
Lemma find_first rules facts answers r :
  List.find (λ r, Matches r facts answers) rules = Some r →
  r ∈ rules ∧ ∃ before after, rules = before ++ r :: after ∧
    Matches r facts answers = true ∧ Forall (λ r', Matches r' facts answers = false) before.
Proof.
  intros (before & after & -> & Hm & Hb)%find_Some_first. split; [set_solver|eauto 10].
Qed.

(** whichever path an evaluation takes, the outcome it selects is one the policy
    declares. *)
Theorem outcome_declared doc n c facts answers :
  CompileWithMaxQuestions (Some doc) n = Ok c →
  HasOutcome c (res_Outcome (EvaluateDecisionRules c facts answers)) = true ∧
  ∀ r, EvaluatePreRules c facts = Some r → HasOutcome c (res_Outcome r) = true.
Proof.
  intros [Hwf _]%compile_inv.
  assert (∀ o, o ∈ c_Outcomes c → HasOutcome c o = true) as Ho.
  { intros o Hin. unfold HasOutcome. apply bool_decide_eq_true.
    by rewrite (wfc_outcomeSet _ Hwf), elem_of_list_to_set. }
  pose proof (wfc_decisionRules _ Hwf) as Hd. pose proof (wfc_preRules _ Hwf) as Hp.
  rewrite list.Forall_forall in Hd, Hp. split.
  - unfold EvaluateDecisionRules. case_match eqn:E; simpl.
    + apply find_first in E as [Hin _]. apply Ho, (Hd _ Hin).
    + apply Ho, Hwf.
  - intros r Hr. unfold EvaluatePreRules in Hr.
    apply fmap_Some in Hr as (rule & [Hin _]%find_first & ->). simpl. apply Ho, (Hp _ Hin).
Qed.

Lemma outcome_declared_witness :
  HasOutcome router_policy
    (res_Outcome (EvaluateDecisionRules router_policy router_facts router_answers)) = true.
Proof.
  exact (proj1 (outcome_declared router MaxQuestions router_policy router_facts
    router_answers router_policy_ok)).
Defined.

(** C5: the decision phase is first match wins: a rule is reported exactly when it is
    the first in file order whose condition holds, and when none holds, and only then, the
    result is the default outcome on the default path; the rule identifier alone tells the
    two apart. *)
Theorem decision_first_match doc n c facts answers id :
  CompileWithMaxQuestions (Some doc) n = Ok c → id ≠ "" →
  (res_MatchedRuleID (EvaluateDecisionRules c facts answers) = id ↔
   ∃ before rule after, c_DecisionRules c = before ++ rule :: after ∧ cr_ID rule = id ∧
     Matches rule facts answers = true ∧
     Forall (λ r, Matches r facts answers = false) before ∧
     EvaluateDecisionRules c facts answers =
       MkResult (cr_Outcome rule) id ExecutionPathDecisionRule) ∧
  (res_MatchedRuleID (EvaluateDecisionRules c facts answers) = "" ↔
   Forall (λ r, Matches r facts answers = false) (c_DecisionRules c)) ∧
  (EvaluateDecisionRules c facts answers = MkResult (c_DefaultOutcome c) "" ExecutionPathDefault ↔
   Forall (λ r, Matches r facts answers = false) (c_DecisionRules c)).
Proof.
  intros [Hwf _]%compile_inv Hid.
  assert (∀ r, r ∈ c_DecisionRules c → cr_ID r ≠ "") as Hne.
  { intros r Hr E. pose proof (wfc_decisionRules _ Hwf) as Hd.
    rewrite list.Forall_forall in Hd. destruct (Hd r Hr) as [Hi _]. by rewrite E in Hi. }
  unfold EvaluateDecisionRules.
  destruct (List.find _ (c_DecisionRules c)) as [rule|] eqn:E; simpl.
  - destruct (find_first _ _ _ _ E) as (Hin & before & after & Hsplit & Hm & Hb).
    assert (¬ Forall (λ r, Matches r facts answers = false) (c_DecisionRules c)) as Hnone.
    { intros H. rewrite list.Forall_forall in H. specialize (H rule Hin). congruence. }
    split; [split|split; split]; try done.
    + intros <-. by exists before, rule, after.
    + intros (? & r & ? & _ & _ & _ & _ & Heq). by injection Heq.
    + intros H. by apply Hne in Hin.
  - apply find_None_forall in E. split; [split|split; split]; try done.
    intros (before & r & after & Hs & _ & Hm & _). rewrite Hs in E.
    apply list.Forall_app in E as [_ E]. inversion E. congruence.
Qed.

Lemma decision_first_match_witness :
  res_MatchedRuleID (EvaluateDecisionRules router_policy router_facts router_answers) = "sure"
  ∧ ∃ before rule after, c_DecisionRules router_policy = before ++ rule :: after ∧
     cr_ID rule = "sure" ∧ Matches rule router_facts router_answers = true ∧
     Forall (λ r, Matches r router_facts router_answers = false) before ∧
     EvaluateDecisionRules router_policy router_facts router_answers =
       MkResult (cr_Outcome rule) "sure" ExecutionPathDecisionRule.
Proof.
  assert (res_MatchedRuleID (EvaluateDecisionRules router_policy router_facts router_answers)
          = "sure") as H by (vm_compute; reflexivity).
  split; [exact H|].
  refine (proj1 (proj1 (decision_first_match router MaxQuestions router_policy router_facts
    router_answers "sure" router_policy_ok _)) H). discriminate.
Defined.

(** ** The run-time checks *)

Lemma validateAnswer_Err q a e : validateAnswer q a = Err e → e = EIs ErrProviderProtocol.
Proof.
  unfold validateAnswer, validateNoulAnswer, validateChoiceAnswer, validateScoreAnswer,
    validateConfidence, validateDistribution, validateScoreRange, validateScoreCounts,
    validateScoreLevelEntries.
  intros H. repeat match goal with
  | H : (_ ≫= _) = Err _ |- _ => apply bind_Err in H as [H|(? & _ & H)]
  | H : protocol_err _ = Err _ |- _ => by apply protocol_err_Err in H
  | H : res_foldM _ _ _ = Err _ |- _ => apply res_foldM_Err in H as (? & ? & _ & H)
  | H : Ok _ = Err _ |- _ => discriminate H
  | H : res_forM _ _ = Err _ |- _ => apply res_forM_Err in H as (? & _ & H)
  | H : (if decide _ then _ else _) = Err _ |- _ => case_decide
  | H : match ?x with Some _ => _ | None => _ end = Err _ |- _ => destruct x
  | H : Err _ = Err _ |- _ => by injection H as <-
  end.
Qed.

Lemma ValidateAnswers_err c answers e :
  ValidateAnswers c answers = Err e → e = EIs ErrProviderProtocol.
Proof.
  unfold ValidateAnswers. intros [H%protocol_err_Err|(_ & _ & H)]%bind_Err; [done|].
  apply res_forM_Err in H as (id & _ & H).
  case_match; [by eapply validateAnswer_Err|by injection H as <-].
Qed.

(** C4: the run-time checks are exact.  The facts check accepts exactly the facts that meet
    the policy's input contract (required present, types right, nothing undeclared in
    strict mode), and rejects as a validation failure.  Against a compiled policy the answer
    check accepts exactly the answer sets that meet the provider contract (one answer per
    question and no other, declared types and options, finite numbers in range, complete
    distributions that sum to one within the tolerance), and rejects as a protocol error. *)
Theorem checks_exact doc n c facts answers :
  CompileWithMaxQuestions (Some doc) n = Ok c →
  (ValidateFacts c facts = Ok tt ↔ facts_contract c facts) ∧
  (∀ e, ValidateFacts c facts = Err e → e = EIs ErrValidationFailed) ∧
  (ValidateAnswers c answers = Ok tt ↔ answers_contract c answers) ∧
  (∀ e, ValidateAnswers c answers = Err e → e = EIs ErrProviderProtocol).
Proof.
  intros [Hwf _]%compile_inv. split; [apply ValidateFacts_iff|split; [apply ValidateFacts_err|]].
  split; [by apply ValidateAnswers_Ok|apply ValidateAnswers_err].
Qed.

Lemma checks_exact_witness :
  facts_contract router_policy router_facts ∧ answers_contract router_policy router_answers.
Proof.
  destruct (checks_exact router MaxQuestions router_policy router_facts router_answers
    router_policy_ok) as (Hf & _ & Ha & _).
  split; [apply Hf|apply Ha]; vm_compute; reflexivity.
Defined.

(** ** Type safety of a validated evaluation *)

(** A leaf below a condition, with the constants it compares with. *)
Inductive leaf_of : CompiledCondition → CompiledOperand → Operator → list goany → Prop :=
  | leaf_here o op rs rl rb : leaf_of (CC conditionKindLeaf [] o op rs rl rb) o op
      (if decide (op = OperatorExists) then [] else if decide (op = OperatorIn) then rl else [rs])
  | leaf_below k children d o op vs o' op' rs rl rb :
      d ∈ children → leaf_of d o op vs → leaf_of (CC k children o' op' rs rl rb) o op vs.

Lemma leaf_wf facts questions phase c o op vs :
  leaf_of c o op vs → ∀ depth, wf_condition facts questions phase depth c →
  wf_operand facts questions phase o ∧
  ∃ rs rl rb, wf_leaf questions o op rs rl rb ∧
    vs = (if decide (op = OperatorExists) then []
          else if decide (op = OperatorIn) then rl else [rs]).
Proof.
  induction 1 as [o op rs rl rb|k children d o op vs o' op' rs rl rb Hd Hl IH];
    intros depth Hc.
  - inversion Hc as [? ? ? ? ? ? _ Ho Hleaf|? ? ? _ [] _ _|]; subst; try done.
    split; [done|]. by exists rs, rl, rb.
  - inversion Hc as [|? ? ? _ _ _ Hch|? child _ Hch]; subst.
    + by apply elem_of_nil in Hd.
    + rewrite list.Forall_forall in Hch. eauto.
    + apply list_elem_of_singleton in Hd as ->. eauto.
Qed.

Lemma leaf_right_ok questions o op rs rl rb v :
  wf_leaf questions o op rs rl rb →
  v ∈ (if decide (op = OperatorExists) then []
       else if decide (op = OperatorIn) then rl else [rs]) →
  right_ok questions o op v.
Proof.
  intros [b Hb|l Hlen Hl|op' v' Hop Hv] Hin.
  - by apply elem_of_nil in Hin.
  - rewrite list.Forall_forall in Hl. by apply Hl.
  - assert (op' ≠ OperatorExists ∧ op' ≠ OperatorIn) as [??].
    { split; intros ->; set_unfold in Hop; naive_solver. }
    rewrite !decide_False in Hin by done. by apply list_elem_of_singleton in Hin as ->.
Qed.

(** C3: every comparison a rule makes is between values of the same type: in the pre-rule
    phase on facts that passed their check, whatever the answers, and in the decision phase
    on facts and answers that passed theirs; and an answer that a decision rule reads is
    always there. *)
Theorem evaluation_type_safe doc n c facts answers rule cond o op vs :
  CompileWithMaxQuestions (Some doc) n = Ok c → ValidateFacts c facts = Ok tt →
  cr_Condition rule = Some cond → leaf_of cond o op vs →
  (rule ∈ c_PreRules c → co_kind o = operandKindFact ∧
     ∀ lhs v, Condition.resolveOperand o facts answers = Some lhs → v ∈ vs → comparable lhs v) ∧
  (rule ∈ c_DecisionRules c → ValidateAnswers c answers = Ok tt →
     (co_kind o = operandKindAnswer → is_Some (Condition.resolveOperand o facts answers)) ∧
     ∀ lhs v, Condition.resolveOperand o facts answers = Some lhs → v ∈ vs → comparable lhs v).
Proof.
  intros [Hwf _]%compile_inv Hf%ValidateFacts_iff Hc Hl. split.
  - intros Hr. pose proof (wfc_preRules _ Hwf) as Hd. rewrite list.Forall_forall in Hd.
    destruct (Hd rule Hr) as (_ & _ & _ & Hcond).
    destruct (leaf_wf _ _ _ _ _ _ _ Hl _ (Hcond _ Hc)) as (Ho & rs & rl & rb & Hleaf & ->).
    assert (co_kind o = operandKindFact) as Hk by by destruct Ho.
    split; [done|]. intros lhs v Hlhs Hv. eapply fact_comparisons_typed; try done. by eapply leaf_right_ok.
  - intros Hr Ha%ValidateAnswers_Ok; [|done].
    pose proof (wfc_decisionRules _ Hwf) as Hd. rewrite list.Forall_forall in Hd.
    destruct (Hd rule Hr) as (_ & _ & _ & Hcond).
    destruct (leaf_wf _ _ _ _ _ _ _ Hl _ (Hcond _ Hc)) as (Ho & rs & rl & rb & Hleaf & ->).
    split.
    + intros Hk. assert (∃ q, c_Questions c !! co_questionID o = Some q) as [q Hq].
      { destruct Ho; [done|]. eauto. }
      destruct (answer_operand_reads c facts answers Hwf Ha _ _ _ Ho Hk Hq) as (v & -> & _). eauto.
    + intros lhs v Hlhs Hv. eapply comparisons_typed; try done. by eapply leaf_right_ok.
Qed.

Definition router_rule : CompiledRule :=
  default (MkCompiledRule "" "" None "") (c_DecisionRules router_policy !! 0%nat).
Definition router_condition : CompiledCondition :=
  default (CC conditionKindLeaf [] zeroOperand "" ANil [] false) (cr_Condition router_rule).
Definition router_operand : CompiledOperand :=
  MkCompiledOperand operandKindAnswer "" "" "destination" AnswerFieldChoice
    QuestionTypeChoice "".

Lemma evaluation_type_safe_witness :
  is_Some (Condition.resolveOperand router_operand router_facts router_answers) ∧
  comparable (AString "billing") (AString "billing").
Proof.
  assert (leaf_of router_condition router_operand OperatorEq [AString "billing"]) as Hl.
  { vm_compute. eapply leaf_below; [apply list_elem_of_here|].
    exact (leaf_here router_operand OperatorEq (AString "billing") [] false). }
  assert (router_rule ∈ c_DecisionRules router_policy) as Hr
    by (vm_compute; apply list_elem_of_here).
  destruct (proj2 (evaluation_type_safe router MaxQuestions router_policy router_facts
    router_answers router_rule router_condition router_operand OperatorEq [AString "billing"]
    router_policy_ok ltac:(vm_compute; reflexivity) ltac:(vm_compute; reflexivity) Hl) Hr
    ltac:(vm_compute; reflexivity)) as [H1 H2].
  split; [apply H1; reflexivity|]. apply H2; [vm_compute; reflexivity|apply list_elem_of_here].
Defined.

(** every number a compiled policy compares with is finite: a document with a NaN
    or an infinity on a right-hand side does not compile. *)
Theorem constants_finite doc n c rule cond f :
  CompileWithMaxQuestions (Some doc) n = Ok c → rule ∈ all_rules c →
  cr_Condition rule = Some cond → AFloat64 f ∈ right_values cond → f64_is_finite f = true.
Proof.
  intros [Hwf _]%compile_inv Hr Hc Hf. pose proof (wfc_canonical _ Hwf) as Hcan.
  unfold Canonical.canonicalize in Hcan.
  destruct (Canonical.policy_json _) as [j|] eqn:E; [|done]. clear Hcan.
  pose proof (struct_Some _ _ E) as Hs. unfold Canonical.canonicalForm in Hs. simpl in Hs.
  assert (Forall marshals (right_values cond)) as Hm.
  { apply elem_of_app in Hr as [Hr|Hr].
    - eapply (rule_constants_marshal (c_PreRules c)); [|done|done].
      cut (is_Some (Canonical.field "preRules" (Canonical.jarr
        (Canonical.rule_json <$> Canonical.canonicalRules (c_PreRules c))))).
      + unfold Canonical.field. by rewrite fmap_is_Some.
      + apply Hs. in_list.
    - eapply (rule_constants_marshal (c_DecisionRules c)); [|done|done].
      cut (is_Some (Canonical.field "decisionRules" (Canonical.jarr
        (Canonical.rule_json <$> Canonical.canonicalRules (c_DecisionRules c))))).
      + unfold Canonical.field. by rewrite fmap_is_Some.
      + apply Hs. in_list. }
  rewrite list.Forall_forall in Hm. by apply float_marshals, Hm.
Qed.

Lemma constants_finite_witness : f64_is_finite (f64_of_ratio 9 10) = true.
Proof.
  refine (constants_finite router MaxQuestions router_policy router_rule router_condition
    (f64_of_ratio 9 10) router_policy_ok _ _ _).
  - vm_compute. in_list.
  - vm_compute. reflexivity.
  - vm_compute. in_list.
Defined.

(** on validated answers the ordering operators are total: for an answer operand
    and a finite constant, [lt] holds exactly when [gte] does not, and [gt] exactly when
    [lte] does not. *)
Theorem answer_ordering_total doc n c facts answers o f :
  CompileWithMaxQuestions (Some doc) n = Ok c → ValidateAnswers c answers = Ok tt →
  wf_operand (declared_facts c) (c_Questions c) CompileCondition.rulePhaseDecision o →
  co_kind o = operandKindAnswer → co_field o ≠ AnswerFieldChoice → f64_is_finite f = true →
  evaluateLeaf o OperatorLt (AFloat64 f) [] false facts answers =
    negb (evaluateLeaf o OperatorGte (AFloat64 f) [] false facts answers) ∧
  evaluateLeaf o OperatorGt (AFloat64 f) [] false facts answers =
    negb (evaluateLeaf o OperatorLte (AFloat64 f) [] false facts answers).
Proof.
  intros [Hwf _]%compile_inv Ha%ValidateAnswers_Ok Ho Hk Hc Hf; [|done].
  assert (∃ q, c_Questions c !! co_questionID o = Some q) as [q Hq].
  { destruct Ho; [done|]. eauto. }
  destruct (answer_reads_number c facts answers Hwf Ha _ _ _ Ho Hk Hq Hc) as (x & Hx & Hfin).
  unfold evaluateLeaf. rewrite Hx. simpl. unfold compareOrdered. simpl.
  apply f64_finite_not_nan in Hfin, Hf. by split; apply f64_ltb_negb_leb.
Qed.

Definition router_question : CompiledQuestion :=
  default Canonical.zeroQuestion (c_Questions router_policy !! "destination").
Definition router_confidence : CompiledOperand :=
  MkCompiledOperand operandKindAnswer "" "" "destination" AnswerFieldConfidence
    (cq_Type router_question) "".

Lemma router_confidence_wf :
  wf_operand (declared_facts router_policy) (c_Questions router_policy)
    CompileCondition.rulePhaseDecision router_confidence.
Proof.
  apply wf_answer; try done; vm_compute; reflexivity.
Qed.

Lemma answer_ordering_total_witness :
  evaluateLeaf router_confidence OperatorLt (AFloat64 f64_one) [] false
    router_facts router_answers = true.
Proof.
  rewrite (proj1 (answer_ordering_total router MaxQuestions router_policy router_facts
    router_answers router_confidence f64_one router_policy_ok
    ltac:(vm_compute; reflexivity) router_confidence_wf eq_refl ltac:(discriminate)
    ltac:(vm_compute; reflexivity))).
  vm_compute. reflexivity.
Defined.

(** ** Identity *)

(** What the text forgets, no check and no rule looks at. *)
Lemma forget_behaviour c c' : CanonicalSound.forget c = CanonicalSound.forget c' → ∀ facts answers,
  ValidateFacts c facts = ValidateFacts c' facts ∧ ValidateAnswers c answers = ValidateAnswers c' answers ∧
  EvaluatePreRules c facts = EvaluatePreRules c' facts ∧
  EvaluateDecisionRules c facts answers = EvaluateDecisionRules c' facts answers.
Proof.
  intros Hf facts answers.
  assert (∀ d, ValidateFacts (CanonicalSound.forget d) facts = ValidateFacts d facts) as Hvf by done.
  assert (∀ d, EvaluatePreRules (CanonicalSound.forget d) facts = EvaluatePreRules d facts) as Hpre by done.
  assert (∀ d, EvaluateDecisionRules (CanonicalSound.forget d) facts answers =
    EvaluateDecisionRules d facts answers) as Hdec by done.
  assert (∀ d, ValidateAnswers (CanonicalSound.forget d) answers = ValidateAnswers d answers) as Hva.
  { intros d. unfold ValidateAnswers. cbn [CanonicalSound.forget c_QuestionIDs c_Questions].
    destruct (protocol_err _); [|done]. cbn [mbind res_bind]. apply res_forM_ext. intros id.
    rewrite lookup_fmap. by destruct (answers !! id), (c_Questions d !! id). }
  rewrite <- (Hvf c), <- (Hvf c'), <- (Hpre c), <- (Hpre c'), <- (Hdec c), <- (Hdec c'), <- (Hva c), <- (Hva c').
  by rewrite Hf.
Qed.

(** C6: the text that is hashed identifies the policy.  For compiled policies whose strings are
    UTF-8 and whose numbers are read back from their text, the texts are equal exactly when
    the policies are, up to one difference: absent noul criteria and empty ones have the same
    text.  Policies of the same text have the same hash, check every facts and answers
    alike and select the same outcome for them; those two, though, are not sent to the
    provider alike ([TypesafeTheorems.same_text_other_request]). *)
Theorem canonical_identifies doc1 n1 c1 doc2 n2 c2 :
  CompileWithMaxQuestions (Some doc1) n1 = Ok c1 →
  CompileWithMaxQuestions (Some doc2) n2 = Ok c2 →
  CanonicalSound.numbers_read_back c1 → CanonicalSound.numbers_read_back c2 →
  CanonicalSound.text_reads_back c1 → CanonicalSound.text_reads_back c2 →
  (c_Canonical c1 = c_Canonical c2 ↔ CanonicalSound.forget c1 = CanonicalSound.forget c2) ∧
  (c_Canonical c1 = c_Canonical c2 → c_Hash c1 = c_Hash c2 ∧ ∀ facts answers,
     ValidateFacts c1 facts = ValidateFacts c2 facts ∧ ValidateAnswers c1 answers = ValidateAnswers c2 answers ∧
     EvaluatePreRules c1 facts = EvaluatePreRules c2 facts ∧
     EvaluateDecisionRules c1 facts answers = EvaluateDecisionRules c2 facts answers).
Proof.
  intros [H1 _]%compile_inv [H2 _]%compile_inv Hn1 Hn2 Ht1 Ht2.
  assert (c_Canonical c1 = c_Canonical c2 → CanonicalSound.forget c1 = CanonicalSound.forget c2) as Hinj
    by by apply CanonicalSound.canonical_text_inj.
  split; [split; [done|]|]; intros H.
  - by apply CanonicalSound.forget_canonicalize.
  - apply Hinj in H. split; [by apply CanonicalSound.forget_canonicalize|by apply forget_behaviour].
Qed.

Lemma yesno_numbers c : c_PreRules c = [] → (∀ rule, rule ∈ c_DecisionRules c → cr_Condition rule =
    Some (CC conditionKindLeaf [] (MkCompiledOperand operandKindAnswer "" "" "spam" AnswerFieldNoul QuestionTypeNoul "")
      OperatorGte (AFloat64 (f64_of_ratio 1 2)) [] false)) →
  CanonicalSound.numbers_read_back c.
Proof.
  intros Hp Hd rule cond f [Hr|Hr]%elem_of_app Hc Hf; [rewrite Hp in Hr; by apply elem_of_nil in Hr|].
  rewrite (Hd rule Hr) in Hc. injection Hc as <-. apply list_elem_of_singleton in Hf as [= ->]. by vm_compute.
Qed.

Lemma yesno_text c : match Canonical.policy_json (Canonical.canonicalForm c) with
    Some j => JsonText.json_ok j max_nesting | None => true end = true → CanonicalSound.text_reads_back c.
Proof. intros H j Hj. by rewrite Hj in H. Qed.

(** A noul question with absent and with empty criteria: two policies, one text. *)
Lemma canonical_identifies_witness :
  yesno_absent ≠ yesno_empty ∧ c_Canonical yesno_absent = c_Canonical yesno_empty ∧
  c_Hash yesno_absent = c_Hash yesno_empty ∧
  CanonicalSound.forget yesno_absent = CanonicalSound.forget yesno_empty.
Proof.
  assert (∀ c, c = yesno_absent ∨ c = yesno_empty →
    CanonicalSound.numbers_read_back c ∧ CanonicalSound.text_reads_back c) as Hc.
  { intros c Hc. split; [|apply yesno_text; by destruct Hc as [-> | ->]; vm_compute].
    apply yesno_numbers; [by destruct Hc as [-> | ->]; vm_compute|].
    intros rule Hr. destruct Hc as [-> | ->]; vm_compute in Hr; by apply list_elem_of_singleton in Hr as ->. }
  destruct (Hc yesno_absent) as [Hn1 Ht1]; [by left|]. destruct (Hc yesno_empty) as [Hn2 Ht2]; [by right|].
  destruct (canonical_identifies (yesno ANil) MaxQuestions yesno_absent (yesno (AMap [])) MaxQuestions yesno_empty
    yesno_absent_ok yesno_empty_ok Hn1 Hn2 Ht1 Ht2) as [Hiff Hsame].
  assert (c_Canonical yesno_absent = c_Canonical yesno_empty) as Heq by by vm_compute.
  split; [|split; [exact Heq|split; [by apply Hsame|by apply Hiff]]].
  intros H. apply (f_equal (λ c, (cq_NoulCriteria <$> c_Questions c !! "spam"))) in H. by vm_compute in H.
Defined.

(** ** Values and grammars *)

(** a structured question value is accepted exactly when it has at most 512 nodes
    and at most 16 levels, whatever order its maps are visited in. *)
Theorem question_value_bound v :
  CompileQuestion.json_value v = true →
  is_ok (CompileQuestion.validateQuestionValue v 1 0) = true ↔
  CompileQuestion.node_count v <= MaxQuestionValueNodes ∧
  CompileQuestion.height v <= MaxQuestionValueDepth.
Proof.
  intros Hv.
  assert (∀ n, CompileQuestion.validateQuestionValue v 1 0 = Ok n ↔
    n = 0 + CompileQuestion.node_count v ∧ n <= MaxQuestionValueNodes ∧
    1 + CompileQuestion.height v - 1 <= MaxQuestionValueDepth) as Hn
    by (intros n; by apply CompileQuestion.validateQuestionValue_Ok).
  destruct (CompileQuestion.validateQuestionValue v 1 0) as [n|e]; simpl.
  - destruct (Hn n) as [H _]. specialize (H eq_refl). split; [intros _; lia|done].
  - split; [done|]. intros [H1 H2].
    destruct (Hn (CompileQuestion.node_count v)) as [_ H]. discriminate H. lia.
Qed.

Lemma question_value_bound_witness :
  is_ok (CompileQuestion.validateQuestionValue
    (ASlice (replicate 511 (AString "x"))) 1 0) = true ∧
  is_ok (CompileQuestion.validateQuestionValue
    (ASlice (replicate 512 (AString "x"))) 1 0) = false.
Proof.
  split.
  - apply (question_value_bound (ASlice (replicate 511 (AString "x"))));
      [vm_compute; reflexivity|]. vm_compute. split; discriminate.
  - vm_compute. reflexivity.
Defined.

(** a fact name is at most 128 bytes of identifiers (a letter, then letters,
    digits and underscores) joined by single dots. *)
Theorem fact_name_grammar s :
  IsFactName s = true ↔
  (strlen s ≤ MaxFactNameLength)%Z ∧
  ∃ segs, segs ≠ [] ∧ String.list_ascii_of_string s = join_dots segs ∧
    Forall (ident_shape is_word) segs.
Proof.
  unfold IsFactName, Regexp.MatchString.
  rewrite andb_true_iff, Z.leb_le, Regexp.re_match_spec. by rewrite fact_pattern_in.
Qed.

(** ** A contract no provider can meet *)

(** The value holds a number kept as its source text ([json.Number]). *)
Fixpoint has_number (v : goany) : bool :=
  match v with
  | ANumber _ => true
  | ASlice l => existsb has_number l
  | AMap kvs => existsb (λ kv, has_number kv.2) kvs
  | _ => false
  end.

Lemma DeepEqual_has_number a : ∀ b, DeepEqual a b = true → has_number a = has_number b.
Proof.
  induction a as [| | | | | | | | | | |l IH|kvs IH|kvs IH] using goany_ind;
    intros v H; destruct v as [| | | | | | | | | | |k|kvs2|kvs2]; try discriminate H; try done.
  - simpl in *. revert k H. induction IH as [|x l Hx _ IHl]; intros [|y k] H; try done.
    apply andb_true_iff in H as [H1 H2]. simpl. by rewrite (Hx _ H1), (IHl _ H2).
  - simpl in *. revert kvs2 H. induction IH as [|[s x] l Hx _ IHl]; intros [|[t y] k] H; try done.
    apply andb_true_iff in H as [[_ H1]%andb_true_iff H2]. simpl in *.
    by rewrite (Hx _ H1), (IHl _ H2).
Qed.

Lemma amap_insert_has_number k v m :
  has_number v = false → existsb (λ kv : string * goany, has_number kv.2) m = false →
  existsb (λ kv : string * goany, has_number kv.2) (amap_insert k v m) = false.
Proof.
  intros Hv. induction m as [|[k' v'] m IH]; simpl; [by rewrite Hv|].
  intros [H1 H2]%orb_false_iff. destruct (String.compare k k'); simpl; rewrite ?Hv, ?H1; auto.
Qed.

(** Decoding without [UseNumber] leaves no number text. *)
Lemma decode_any_has_number j : ∀ v, decode_any false j = Some v → has_number v = false.
Proof.
  induction j as [| | | |l IH|l IH] using json_ind; simpl; intros v H.
  - by injection H as <-.
  - by injection H as <-.
  - apply fmap_Some in H as (f & _ & ->). done.
  - by injection H as <-.
  - apply fmap_Some in H as (k & Hk & ->). apply mapM_Some in Hk. simpl.
    induction Hk as [|x y l k Hxy _ IHk]; simpl; [done|].
    inversion IH as [|? ? Hx Hl]; subst. rewrite (Hx _ Hxy). by apply IHk.
  - apply fmap_Some in H as (k & Hk & ->). apply mapM_Some in Hk. simpl.
    assert (existsb (λ kv : string * goany, has_number kv.2) k = false) as Hno.
    { induction Hk as [|x y l k Hxy _ IHk]; simpl; [done|].
      inversion IH as [|? ? Hx Hl]; subst. apply fmap_Some in Hxy as (z & Hz & ->). simpl.
      rewrite (Hx _ Hz). by apply IHk. }
    clear Hk IH. assert (existsb (λ kv : string * goany, has_number kv.2) [] = false) as H0 by done.
    revert H0. generalize (@nil (string * goany)) as acc.
    induction k as [|[s x] k IHk]; intros acc Hacc; simpl in *; [done|].
    apply orb_false_iff in Hno as [Hx Hk]. apply IHk; [done|]. by apply amap_insert_has_number.
Qed.

(** a score level that contains a number anywhere can never be answered: the
    criterion keeps the number as [json.Number] while a legend decoded from the
    provider's response holds a [float64], the two are never deeply equal, and the
    whole answer set is refused as a protocol error however the provider echoes it. *)
Theorem numeric_criterion_unanswerable doc n c answers id q a i level j legend :
  CompileWithMaxQuestions (Some doc) n = Ok c → c_Questions c !! id = Some q →
  cq_Type q = QuestionTypeScore → cq_ScoreCriteria q !! i = Some level →
  has_number level = true → answers !! id = Some a →
  decode_any false j = Some legend → ans_Legend a !! level_key i = Some legend →
  ValidateAnswers c answers = Err (EIs ErrProviderProtocol).
Proof.
  intros [Hwf _]%compile_inv Hq Hty Hi Hnum Ha Hj Hleg.
  destruct (ValidateAnswers c answers) as [[]|e] eqn:E.
  - apply (ValidateAnswers_Ok c answers tt Hwf) in E.
    destruct (ac_answer _ _ E _ _ _ Hq Ha) as [_ Hn _|_ Hn _ _ _ _|_ _ _ _ _ _ _ Hdeep _];
      [by rewrite Hty in Hn|by rewrite Hty in Hn|].
    apply (Hdeep i level legend Hi) in Hleg. apply DeepEqual_has_number in Hleg.
    apply decode_any_has_number in Hj. congruence.
  - by apply ValidateAnswers_err in E as ->.
Qed.

Definition weighted_question : CompiledQuestion :=
  default Canonical.zeroQuestion (c_Questions weighted_policy !! "risk").

Lemma numeric_criterion_unanswerable_witness :
  ValidateAnswers weighted_policy weighted_answers = Err (EIs ErrProviderProtocol).
Proof.
  exact (numeric_criterion_unanswerable weighted MaxQuestions weighted_policy weighted_answers
    "risk" weighted_question weighted_answer 0%nat (AMap [("weight", ANumber "1")])
    (JObj [("weight", JNum "1")]) weighted_legend weighted_policy_ok
    ltac:(vm_compute; reflexivity) ltac:(vm_compute; reflexivity)
    ltac:(vm_compute; reflexivity) ltac:(vm_compute; reflexivity)
    ltac:(vm_compute; reflexivity) ltac:(vm_compute; reflexivity)
    ltac:(vm_compute; reflexivity)).
Defined.

End PolicyTheorems.
