(* ===== verification/NetUrl.v ===== *)
(** * URLs and the request multiplexer

    What the server and its client use of [net/url] and [net/http]: percent escapes of
    path segments and query components, the parsing of a query, the resolution of a
    relative reference, and the pattern matching of [ServeMux]. *)

From S2P Require Import Prelude GoFloat GoAny GoJson.
From Stdlib Require Import Ascii String.
From stdpp Require Import options.

Module NetUrl.

(** ** Escapes *)
Inductive mode : Set := PathSegment | QueryComponent.

Definition unreserved (c : ascii) : bool :=
  in_range 0x41 0x5A c || in_range 0x61 0x7A c || is_digit c ||
  bool_decide (c ∈ ["-"; "_"; "."; "~"]%char).

(** [shouldEscape] *)
Definition should_escape (m : mode) (c : ascii) : bool :=
  if unreserved c then false
  else match m with
  | PathSegment => negb (bool_decide (c ∈ ["$"; "&"; "+"; ":"; "="; "@"]%char))
  | QueryComponent => true
  end.

Definition upper_hex (n : N) : ascii :=
  if (n <? 10)%N then ascii_of_N (0x30 + n) else ascii_of_N (0x37 + n).

Definition escape_byte (m : mode) (c : ascii) : string :=
  match m, bool_decide (c = " "%char) with
  | QueryComponent, true => "+"
  | _, _ =>
      if should_escape m c then
        String "%" (String (upper_hex (byte c / 16)) (String (upper_hex (byte c mod 16)) EmptyString))
      else String c EmptyString
  end.

Fixpoint escape (m : mode) (s : string) : string :=
  match s with
  | EmptyString => EmptyString
  | String c s => escape_byte m c +:+ escape m s
  end.

(** [PathUnescape] and [QueryUnescape]. *)
Fixpoint unescape (m : mode) (s : string) : option string :=
  match s with
  | EmptyString => Some EmptyString
  | String c s1 =>
      if decide (c = "%"%char) then
        match s1 with
        | String h (String l s2) =>
            match hex_value h, hex_value l with
            | Some h, Some l => String (ascii_of_N (h * 16 + l)) <$> unescape m s2
            | _, _ => None
            end
        | _ => None
        end
      else if decide (c = "+"%char) then
        String (match m with QueryComponent => " "%char | PathSegment => c end) <$> unescape m s1
      else String c <$> unescape m s1
  end.

Definition PathEscape : string → string := escape PathSegment.
Definition QueryEscape : string → string := escape QueryComponent.

Lemma unescape_byte m c s : unescape m (escape_byte m c +:+ s) = String c <$> unescape m s.
Proof.
  destruct m, c as [[] [] [] [] [] [] [] []];
    match goal with |- context [escape_byte ?m ?c] =>
      let e := eval vm_compute in (escape_byte m c) in change (escape_byte m c) with e end;
    rewrite ?app_String, append_nil_l; reflexivity.
Qed.

(** Every string survives its escape. *)
Lemma unescape_escape m s : unescape m (escape m s) = Some s.
Proof. induction s as [|c s IH]; [done|]. cbn [escape]. by rewrite unescape_byte, IH. Qed.

(** The characters an escaped path segment consists of. *)
Definition segment_char (c : ascii) : bool :=
  unreserved c || bool_decide (c ∈ ["$"; "&"; "+"; ":"; "="; "@"; "%"]%char).

Fixpoint string_forall (P : ascii → bool) (s : string) : bool :=
  match s with EmptyString => true | String c s => P c && string_forall P s end.

Lemma string_forall_app P a b : string_forall P (a +:+ b) = string_forall P a && string_forall P b.
Proof. induction a as [|c a IH]; [done|]. rewrite app_String. cbn. by rewrite IH, andb_assoc. Qed.

Lemma escape_chars s : string_forall segment_char (PathEscape s) = true.
Proof.
  induction s as [|c s IH]; [done|]. unfold PathEscape in *. cbn [escape].
  rewrite string_forall_app, IH, andb_true_r. clear IH s.
  destruct c as [[] [] [] [] [] [] [] []]; reflexivity.
Qed.

(** ** Splitting *)

(** [strings.Split] at one character. *)
Fixpoint split_on (sep : ascii) (s : string) : list string :=
  match s with
  | EmptyString => [EmptyString]
  | String c s =>
      if decide (c = sep) then EmptyString :: split_on sep s
      else match split_on sep s with
           | p :: l => String c p :: l
           | [] => [String c EmptyString]
           end
  end.

(** [strings.Cut] at one character: a missing separator leaves the rest empty. *)
Fixpoint cut (sep : ascii) (s : string) : string * string :=
  match s with
  | EmptyString => (EmptyString, EmptyString)
  | String c s =>
      if decide (c = sep) then (EmptyString, s)
      else let p := cut sep s in (String c p.1, p.2)
  end.

(** [strings.Join] *)
Fixpoint join_with (sep : string) (l : list string) : string :=
  match l with
  | [] => ""
  | [s] => s
  | s :: l => s +:+ sep +:+ join_with sep l
  end.

(** [strings.Contains] *)
Fixpoint contains_string (sub s : string) : bool :=
  String.prefix sub s ||
  match s with String _ s => contains_string sub s | EmptyString => false end.

Definition contains_char (c : ascii) (s : string) : bool := negb (string_forall (λ d, negb (bool_decide (d = c))) s).

(** ** Queries *)

(** One [key=value] of a query; what does not decode is dropped. *)
Definition add_parameter (m : gmap string (list string)) (part : string) : gmap string (list string) :=
  if decide (part = "") then m
  else if contains_char ";" part then m
  else
    let kv := cut "=" part in
    match unescape QueryComponent kv.1, unescape QueryComponent kv.2 with
    | Some key, Some value => <[key := default [] (m !! key) ++ [value]]> m
    | _, _ => m
    end.

(** [URL.Query()] of a raw query. *)
Definition parse_query (query : string) : gmap string (list string) :=
  foldl add_parameter ∅ (split_on "&" query).

(** ** Paths *)

(** [path.Clean] on the segments of a rooted path. *)
Definition clean_segments (l : list string) : list string :=
  reverse (foldl (λ stack s,
    if decide (s = "" ∨ s = ".") then stack
    else if decide (s = "..") then tail stack else s :: stack) [] l).

Definition join_path (l : list string) : string := foldr (λ s p, "/" +:+ s +:+ p) "" l.

Definition ends_with_slash (s : string) : bool :=
  match list.last (String.list_ascii_of_string s) with Some c => bool_decide (c = "/"%char) | None => false end.

(** [cleanPath] of the multiplexer. *)
Definition cleanPath (p : string) : string :=
  let p := match p with String "/" _ => p | _ => "/" +:+ p end in
  let np := join_path (clean_segments (split_on "/" p)) in
  if decide (np = "") then "/" else if ends_with_slash p then np +:+ "/" else np.

(** The part of a path up to and including its last slash. *)
Fixpoint directory (p : string) : string :=
  match p with
  | EmptyString => EmptyString
  | String c p => if contains_char "/" (String c p) then String c (directory p) else EmptyString
  end.

(** One element of a path being resolved; the flag is set while nothing was written. *)
Definition resolve_step (state : string * bool) (elem : string) : string * bool :=
  let '(dst, first) := state in
  if decide (elem = ".") then (dst, false)
  else if decide (elem = "..") then
    match dst with
    | String c str =>
        if contains_char "/" str
        then (let d := directory str in "/" +:+ substring 0 (String.length d - 1) d, false)
        else ("/", true)
    | EmptyString => (dst, first)
    end
  else ((if first then dst else dst +:+ "/") +:+ elem, false).

(** [resolvePath] of a base path and a reference, on escaped paths: the dot segments go. *)
Definition resolvePath (base ref : string) : string :=
  let full := if decide (ref = "") then base
              else match ref with String "/" _ => ref | _ => directory base +:+ ref end in
  let elems := split_on "/" full in
  let dst := (foldl resolve_step ("/", true) elems).1 in
  let dst := match list.last elems with
             | Some e => if decide (e = "." ∨ e = "..") then dst +:+ "/" else dst
             | None => dst
             end in
  match dst with
  | String "/" (String "/" r) => String "/" r
  | _ => dst
  end.

Example resolve_ex :
  resolvePath "/v1/" "./evaluations/x" = "/v1/evaluations/x" ∧
  resolvePath "/v1/" "./policies/../versions/2" = "/v1/versions/2" ∧
  resolvePath "/api" "./policies" = "/policies" ∧
  cleanPath "/v1//policies/./a/../b/" = "/v1/policies/b/".
Proof. vm_compute. done. Qed.

(** ** [ServeMux] *)

(** Patterns without hosts and without trailing multi wildcards; [{$}] is the literal
    segment of a trailing slash. *)
Inductive segment : Set := Lit (s : string) | Wild (name : string).
Record pattern : Set := MkPattern { pt_method : string; pt_segments : list segment }.

Definition parse_segment (s : string) : segment :=
  match s with
  | String "{" r =>
      let name := substring 0 (String.length r - 1) r in
      if decide (name = "$") then Lit "/" else Wild name
  | _ => Lit s
  end.

Definition parse_pattern (s : string) : pattern :=
  let '(method, path) := if contains_char " " s then cut " " s else ("", s) in
  MkPattern method (parse_segment <$> tail (split_on "/" path)).

(** The segments of a path as the routing tree reads them: unescaped one by one, a
    trailing slash being the segment "/". *)
Definition path_segment (s : string) : string := default s (unescape PathSegment s).
Fixpoint last_slash (l : list string) : list string :=
  match l with
  | [] => []
  | [s] => if decide (s = "") then ["/"] else [path_segment s]
  | s :: l => path_segment s :: last_slash l
  end.
Definition path_segments (path : string) : list string := last_slash (tail (split_on "/" path)).

Section mux.
Context {A : Type}.

Definition after_literal (s : string) (route : list segment * A) : option (list segment * A) :=
  match route.1 with
  | Lit s' :: l => if decide (s' = s) then Some (l, route.2) else None
  | _ => None
  end.
Definition after_wildcard (route : list segment * A) : option (list segment * A) :=
  match route.1 with Wild _ :: l => Some (l, route.2) | _ => None end.

(** [matchPath]: literals first, then single wildcards, which take any segment but "/". *)
Fixpoint match_path (routes : list (list segment * A)) (path : list string) (matches : list string)
  : option (A * list string) :=
  match path with
  | [] => (λ r, (r.2, matches)) <$> List.find (λ r, bool_decide (r.1 = [])) routes
  | s :: path =>
      match match_path (omap (after_literal s) routes) path matches with
      | Some r => Some r
      | None => if decide (s = "/") then None
                else match_path (omap after_wildcard routes) path (matches ++ [s])
      end
  end.

Definition with_method (method : string) (routes : list (pattern * A)) : list (list segment * A) :=
  (λ r, (pt_segments r.1, r.2)) <$> filter (λ r, pt_method r.1 = method) routes.

(** [matchMethodAndPath] *)
Definition match_route (routes : list (pattern * A)) (method path : string) : option (A * list string) :=
  let segments := path_segments path in
  match match_path (with_method method routes) segments [] with
  | Some r => Some r
  | None =>
      match (if decide (method = "HEAD") then match_path (with_method "GET" routes) segments [] else None) with
      | Some r => Some r
      | None => match_path (with_method "" routes) segments []
      end
  end.

End mux.

Definition wildcards (p : pattern) : list string :=
  omap (λ s, match s with Wild name => Some name | Lit _ => None end) (pt_segments p).

(** What the multiplexer does with a request. *)
Inductive dispatch (H : Type) : Type :=
  | Matched (pattern : string) (values : gmap string string) (handler : H)
  | RedirectTo (path : string)
  | MethodNotAllowed
  | NotFound.
Arguments Matched {H} _ _ _.
Arguments RedirectTo {H} _.
Arguments MethodNotAllowed {H}.
Arguments NotFound {H}.

(** [ServeMux.findHandler] over the registered patterns. *)
Definition find_handler {H} (routes : list (string * H)) (method escapedPath : string) : dispatch H :=
  let table := (λ r, (parse_pattern r.1, r)) <$> routes in
  let path := cleanPath escapedPath in
  match match_route table method path with
  | None =>
      if negb (ends_with_slash path) && bool_decide (is_Some (match_route table method (path +:+ "/")))
      then RedirectTo (path +:+ "/")
      else if decide (path = escapedPath) then
        if existsb (λ r, bool_decide (is_Some (match_route table (pt_method r.1) path))) table
        then MethodNotAllowed else NotFound
      else RedirectTo path
  | Some ((text, handler), matches) =>
      if decide (path = escapedPath) then
        Matched text (list_to_map (zip (wildcards (parse_pattern text)) matches)) handler
      else RedirectTo path
  end.

(** ** A match comes from the table *)
Lemma match_path_elem {A} (routes : list (list segment * A)) path matches a matches' :
  match_path routes path matches = Some (a, matches') → ∃ l, (l, a) ∈ routes.
Proof.
  revert routes matches. induction path as [|s path IH]; intros routes matches; cbn.
  - intros ([l a'] & Hf & [= -> _])%fmap_Some. exists l. cbn.
    apply List.find_some in Hf as [Hin _]. by apply list_elem_of_In.
  - destruct (match_path (omap (after_literal s) routes) path matches) as [[a1 m1]|] eqn:E.
    + intros [= -> ->]. destruct (IH _ _ E) as [l Hl]. apply list_elem_of_omap in Hl as ([l' a'] & Hin & Hl).
      unfold after_literal in Hl. cbn in Hl. destruct l' as [|[s'|] l']; [done| |done].
      case_decide; [|done]. injection Hl as -> ->. by eexists.
    + case_decide; [done|]. intros E'. destruct (IH _ _ E') as [l Hl].
      apply list_elem_of_omap in Hl as ([l' a'] & Hin & Hl). unfold after_wildcard in Hl. cbn in Hl.
      destruct l' as [|[|] l']; [done..|]. injection Hl as -> ->. by eexists.
Qed.

Lemma with_method_elem {A} method (routes : list (pattern * A)) l a :
  (l, a) ∈ with_method method routes → ∃ p, (p, a) ∈ routes.
Proof.
  intros ([p a'] & [= _ ->] & Hin)%list_elem_of_fmap. apply list_elem_of_filter in Hin as [_ Hin].
  by exists p.
Qed.

Lemma match_route_elem {A} (routes : list (pattern * A)) method path a matches :
  match_route routes method path = Some (a, matches) → ∃ p, (p, a) ∈ routes.
Proof.
  unfold match_route. intros Hm. destruct (match_path (with_method method routes) _ _) as [r|] eqn:E1.
  { injection Hm as ->. apply match_path_elem in E1 as [l Hl]. by eapply with_method_elem. }
  destruct (decide (method = "HEAD")).
  - destruct (match_path (with_method "GET" routes) _ _) as [r|] eqn:E2;
      [injection Hm as ->; apply match_path_elem in E2 as [l Hl]|
       apply match_path_elem in Hm as [l Hl]]; by eapply with_method_elem.
  - apply match_path_elem in Hm as [l Hl]. by eapply with_method_elem.
Qed.

Lemma find_handler_Matched {H} (routes : list (string * H)) method path pattern values handler :
  find_handler routes method path = Matched pattern values handler → (pattern, handler) ∈ routes.
Proof.
  unfold find_handler. destruct (match_route _ _ _) as [[[text h] matches]|] eqn:E.
  - case_decide; [|done]. intros [= -> _ ->]. apply match_route_elem in E as [p Hp].
    apply list_elem_of_fmap in Hp as ([t' h'] & [= _ -> ->] & Hin). done.
  - repeat case_match; try done; repeat case_decide; done.
Qed.

End NetUrl.
