(* ===== verification/NetUrlSpec.v ===== *)
(** * What URLs and the multiplexer guarantee

    A reference made of plain segments resolves below its base, survives the cleaning of
    the multiplexer and is split back into the segments it was made of; a pattern is
    reached segment by segment; a query made of escaped pairs parses into those pairs. *)

From S2P Require Import Prelude GoFloat GoAny GoJson NetUrl.
From Stdlib Require Import Ascii String.
From stdpp Require Import options.

Module NetUrlSpec.
Import NetUrl.

(** ** Splitting *)
Definition without (sep : ascii) (s : string) : bool := string_forall (λ c, negb (bool_decide (c = sep))) s.

Lemma split_on_without sep s : without sep s = true → split_on sep s = [s].
Proof.
  induction s as [|c s IH]; [done|]. unfold without in *. cbn. intros [Hc Hs]%andb_prop.
  apply negb_true_iff, bool_decide_eq_false in Hc. rewrite decide_False by done. by rewrite (IH Hs).
Qed.

Lemma split_on_app sep a b : split_on sep (a +:+ String sep b) = split_on sep a ++ split_on sep b.
Proof.
  induction a as [|c a IH].
  - rewrite append_nil_l. cbn [split_on]. by rewrite decide_True.
  - rewrite app_String. cbn [split_on]. case_decide; [by rewrite IH|]. rewrite IH.
    destruct (split_on sep a) as [|p l] eqn:E; [|done].
    exfalso. revert E. destruct a as [|d a]; [done|]. cbn. case_decide; [done|]. by destruct (split_on sep a).
Qed.

Lemma join_with_cons sep s l : l ≠ [] → join_with sep (s :: l) = s +:+ sep +:+ join_with sep l.
Proof. by destruct l. Qed.

Lemma split_on_join sep l : l ≠ [] → Forall (λ s, without sep s = true) l →
  split_on sep (join_with (String sep EmptyString) l) = l.
Proof.
  intros Hne Hl. induction Hl as [|s l Hs Hl IH]; [done|]. destruct l as [|s' l].
  - cbn. by apply split_on_without.
  - rewrite join_with_cons, app_String, append_nil_l, split_on_app, IH by done.
    by rewrite split_on_without.
Qed.

Lemma cut_without sep s : without sep s = true → cut sep s = (s, "").
Proof.
  induction s as [|c s IH]; [done|]. unfold without in *. cbn. intros [Hc Hs]%andb_prop.
  apply negb_true_iff, bool_decide_eq_false in Hc. rewrite decide_False by done. by rewrite (IH Hs).
Qed.

Lemma cut_app sep a b : without sep a = true → cut sep (a +:+ String sep b) = (a, b).
Proof.
  induction a as [|c a IH]; [intros _; rewrite append_nil_l; cbn; by rewrite decide_True|].
  unfold without in *. cbn [string_forall]. intros [Hc Ha]%andb_prop.
  apply negb_true_iff, bool_decide_eq_false in Hc.
  rewrite app_String. cbn [cut]. rewrite decide_False by done. by rewrite (IH Ha).
Qed.

Lemma without_app sep a b : without sep (a +:+ b) = without sep a && without sep b.
Proof. apply string_forall_app. Qed.

Lemma string_forall_impl P Q s : (∀ c, P c = true → Q c = true) → string_forall P s = true → string_forall Q s = true.
Proof. intros H. induction s as [|c s IH]; [done|]. cbn. intros [?%H ?%IH]%andb_prop. by apply andb_true_intro. Qed.

(** ** Plain segments *)
Definition plain_segment (s : string) : Prop :=
  s ≠ "" ∧ s ≠ "." ∧ s ≠ ".." ∧ without "/" s = true.

Lemma escape_without sep v : segment_char sep = false → without sep (PathEscape v) = true.
Proof.
  intros Hsep. eapply string_forall_impl; [|apply escape_chars]. intros c Hc.
  apply negb_true_iff, bool_decide_eq_false. intros ->. congruence.
Qed.

Lemma escape_plain v : v ≠ "" → v ≠ "." → v ≠ ".." → plain_segment (PathEscape v).
Proof.
  intros H1 H2 H3. pose proof (unescape_escape PathSegment v) as Hv. unfold PathEscape.
  split_and!; [intros E; rewrite E in Hv; vm_compute in Hv; congruence..|by apply escape_without].
Qed.

(** ** Paths of plain segments *)
Definition rooted (l : list string) : string := "/" +:+ join_with "/" l.

Lemma split_rooted l : l ≠ [] → Forall plain_segment l → split_on "/" (rooted l) = "" :: l.
Proof.
  intros Hne Hl. unfold rooted. rewrite app_String, append_nil_l. cbn [split_on]. rewrite decide_True by done.
  f_equal. apply (split_on_join "/"); [done|]. eapply list.Forall_impl; [exact Hl|]. by intros s (_ & _ & _ & Hs).
Qed.

Lemma resolve_plain l d : Forall plain_segment l →
  foldl resolve_step (d, false) l = (d +:+ foldr (λ s p, "/" +:+ s +:+ p) "" l, false).
Proof.
  intros Hl. revert d. induction Hl as [|s l (_ & H1 & H2 & _) Hl IH]; intros d; cbn [foldl foldr].
  - by rewrite append_nil.
  - unfold resolve_step at 2. rewrite !decide_False by done. rewrite IH. by rewrite !append_assoc.
Qed.

Lemma join_path_rooted l : l ≠ [] → join_path l = rooted l.
Proof.
  unfold rooted. induction l as [|s l IH]; [done|]. intros _. cbn [join_path foldr].
  change (foldr _ "" l) with (join_path l). destruct l as [|s' l]; [by rewrite append_nil|].
  rewrite IH by done. by rewrite (join_with_cons _ s).
Qed.

Lemma last_plain (l : list string) : l ≠ [] → Forall plain_segment l → ∃ s, list.last l = Some s ∧ plain_segment s.
Proof.
  intros Hne Hl. destruct (list.last l) as [s|] eqn:E.
  - exists s. split; [done|]. apply last_Some_elem_of in E. exact (proj1 (list.Forall_forall _ _) Hl s E).
  - by apply last_None in E.
Qed.

Lemma rooted_app a b : a ≠ [] → b ≠ [] → rooted a +:+ rooted b = rooted (a ++ b).
Proof.
  unfold rooted. intros Ha Hb. rewrite append_assoc. f_equal.
  induction a as [|s a IH]; [done|]. destruct a as [|s' a].
  - cbn [app]. by rewrite (join_with_cons _ s b).
  - rewrite (join_with_cons _ s) by done. change ((s :: s' :: a) ++ b) with (s :: (s' :: a) ++ b).
    rewrite (join_with_cons _ s) by done. rewrite <- (IH ltac:(done)). by rewrite !append_assoc.
Qed.

Lemma contains_last_slash a : contains_char "/" (a +:+ "/") = true.
Proof.
  unfold contains_char. rewrite string_forall_app. cbn. by rewrite andb_false_r.
Qed.

Lemma directory_slash a : directory (a +:+ "/") = a +:+ "/".
Proof.
  induction a as [|c a IH]; [done|]. rewrite app_String. cbn [directory].
  rewrite <- app_String, contains_last_slash. by rewrite app_String, IH.
Qed.

(** A reference below a base directory. *)
Lemma resolve_rooted base l : base ≠ [] → l ≠ [] → Forall plain_segment base → Forall plain_segment l →
  resolvePath (rooted base +:+ "/") ("./" +:+ join_with "/" l) = rooted (base ++ l).
Proof.
  intros Hb Hl Hbase Hsegs. unfold resolvePath. rewrite decide_False by done.
  rewrite !app_String, append_nil_l. rewrite directory_slash.
  assert (split_on "/" ((rooted base +:+ "/") +:+ String "." (String "/" (join_with "/" l))) =
    "" :: base ++ "." :: l) as ->.
  { rewrite append_assoc, app_String, append_nil_l, split_on_app, split_rooted by done.
    change (String "." (String "/" (join_with "/" l))) with ("." +:+ String "/" (join_with "/" l)).
    rewrite split_on_app, (split_on_join "/") by
      (done || (eapply list.Forall_impl; [exact Hsegs|]; by intros s (_ & _ & _ & Hs))).
    done. }
  destruct (last_plain l Hl Hsegs) as (e & He & (_ & H1 & H2 & _)).
  rewrite last_cons, last_app, last_cons, He. cbn [default].
  rewrite decide_False by tauto. cbn [foldl]. change (resolve_step ("/", true) "") with ("/", false).
  rewrite foldl_app, resolve_plain by done. cbn [foldl].
  change (resolve_step (?d, false) ".") with (d, false).
  rewrite resolve_plain by done. cbn [fst].
  change (foldr _ "" base) with (join_path base). change (foldr _ "" l) with (join_path l).
  rewrite append_assoc, !join_path_rooted, rooted_app by done. unfold rooted.
  by rewrite !app_String, !append_nil_l.
Qed.

(** ** Cleaning *)
Lemma clean_plain l stack : Forall plain_segment l →
  foldl (λ stack s,
    if decide (s = "" ∨ s = ".") then stack
    else if decide (s = "..") then tail stack else s :: stack) stack l = reverse l ++ stack.
Proof.
  intros Hl. revert stack. induction Hl as [|s l (H1 & H2 & H3 & _) Hl IH]; intros stack; [done|].
  cbn [foldl]. rewrite decide_False by tauto. rewrite decide_False by done. rewrite IH.
  by rewrite reverse_cons, <- app_assoc.
Qed.

Lemma clean_segments_rooted l : Forall plain_segment l → clean_segments ("" :: l) = l.
Proof.
  intros Hl. unfold clean_segments. cbn [foldl]. rewrite decide_True by (by left).
  by rewrite clean_plain, app_nil_r, reverse_involutive.
Qed.

Lemma list_ascii_app a b :
  String.list_ascii_of_string (a +:+ b) = String.list_ascii_of_string a ++ String.list_ascii_of_string b.
Proof. induction a as [|c a IH]; [done|]. rewrite app_String. cbn. by rewrite IH. Qed.

Lemma ends_with_slash_app a b : b ≠ "" → ends_with_slash (a +:+ b) = ends_with_slash b.
Proof.
  intros Hb. unfold ends_with_slash. rewrite list_ascii_app, last_app.
  destruct b as [|c b]; [done|]. cbn [String.list_ascii_of_string].
  destruct (list.last (c :: String.list_ascii_of_string b)) as [d|] eqn:E; [done|]. by apply last_None in E.
Qed.

Lemma ends_with_slash_plain s : plain_segment s → ends_with_slash s = false.
Proof.
  intros (_ & _ & _ & Hs). unfold ends_with_slash.
  destruct (list.last (String.list_ascii_of_string s)) as [c|] eqn:E; [|done].
  apply last_Some_elem_of in E. apply bool_decide_eq_false. intros ->.
  induction s as [|d s IH]; [by apply elem_of_nil in E|]. cbn in E. unfold without in Hs. cbn in Hs.
  apply andb_prop in Hs as [Hd Hs]. apply elem_of_cons in E as [<-|E]; [done|by apply IH].
Qed.

Lemma ends_with_slash_rooted l : l ≠ [] → Forall plain_segment l → ends_with_slash (rooted l) = false.
Proof.
  intros Hne Hl. induction Hl as [|s l Hs Hl IH]; [done|]. unfold rooted. destruct l as [|s' l].
  - rewrite ends_with_slash_app by apply Hs. by apply ends_with_slash_plain.
  - rewrite (join_with_cons _ s) by done. rewrite <- append_assoc.
    change ("/" +:+ join_with "/" (s' :: l)) with (rooted (s' :: l)).
    rewrite ends_with_slash_app by done. by apply IH.
Qed.

Lemma cleanPath_rooted l : l ≠ [] → Forall plain_segment l → cleanPath (rooted l) = rooted l.
Proof.
  intros Hne Hl. assert (∃ r, rooted l = String "/" r) as [r Hr] by (unfold rooted; rewrite app_String; by eexists).
  unfold cleanPath. rewrite Hr. cbn beta iota. rewrite <- Hr, split_rooted by done.
  rewrite clean_segments_rooted, join_path_rooted by done.
  rewrite decide_False by (by rewrite Hr). by rewrite ends_with_slash_rooted.
Qed.

(** ** Segments of the routing tree *)
Lemma path_segments_rooted l : l ≠ [] → Forall plain_segment l →
  path_segments (rooted l) = path_segment <$> l.
Proof.
  intros Hne Hl. unfold path_segments. rewrite split_rooted by done. cbn [tail].
  induction Hl as [|s l Hs Hl IH]; [done|]. cbn [last_slash]. destruct l as [|s' l].
  - rewrite decide_False by apply Hs. done.
  - rewrite IH by done. done.
Qed.

Lemma path_segment_escape v : path_segment (PathEscape v) = v.
Proof. unfold path_segment, PathEscape. by rewrite unescape_escape. Qed.

(** ** Matching *)
Lemma match_path_lit {A} (routes : list (list segment * A)) s path matches r :
  match_path (omap (after_literal s) routes) path matches = Some r →
  match_path routes (s :: path) matches = Some r.
Proof. intros H. cbn [match_path]. by rewrite H. Qed.

Lemma match_path_nil {A} path matches : match_path (A:=A) [] path matches = None.
Proof. revert matches. induction path as [|s path IH]; intros matches; [done|]. cbn. rewrite !IH. by case_decide. Qed.

Lemma match_path_wild {A} (routes : list (list segment * A)) s path matches r :
  omap (after_literal s) routes = [] → s ≠ "/" →
  match_path (omap after_wildcard routes) path (matches ++ [s]) = Some r →
  match_path routes (s :: path) matches = Some r.
Proof. intros H Hs Hr. cbn [match_path]. rewrite H, match_path_nil, decide_False by done. done. Qed.

(** A path of plain segments reaches the route its segments match. *)
Lemma find_handler_rooted {H} (routes : list (string * H)) method l text h matches :
  l ≠ [] → Forall plain_segment l →
  match_path (with_method method ((λ r, (parse_pattern r.1, r)) <$> routes)) (path_segment <$> l) [] =
    Some ((text, h), matches) →
  find_handler routes method (rooted l) =
    Matched text (list_to_map (zip (wildcards (parse_pattern text)) matches)) h.
Proof.
  intros Hne Hl Hm. unfold find_handler, match_route.
  rewrite cleanPath_rooted, path_segments_rooted, Hm by done. by rewrite decide_True.
Qed.

(** ** Queries *)
Definition query_char (c : ascii) : bool := unreserved c || bool_decide (c ∈ ["+"; "%"]%char).

Lemma query_escape_chars s : string_forall query_char (QueryEscape s) = true.
Proof.
  induction s as [|c s IH]; [done|]. unfold QueryEscape in *. cbn [escape].
  rewrite string_forall_app, IH, andb_true_r. clear IH s.
  destruct c as [[] [] [] [] [] [] [] []]; reflexivity.
Qed.

Lemma query_escape_without sep v : query_char sep = false → without sep (QueryEscape v) = true.
Proof.
  intros Hsep. eapply string_forall_impl; [|apply query_escape_chars]. intros c Hc.
  apply negb_true_iff, bool_decide_eq_false. intros ->. congruence.
Qed.

Definition fragment (kv : string * string) : string := QueryEscape kv.1 +:+ "=" +:+ QueryEscape kv.2.

Definition add_pair (m : gmap string (list string)) (kv : string * string) : gmap string (list string) :=
  <[kv.1 := default [] (m !! kv.1) ++ [kv.2]]> m.

Lemma fragment_without sep kv : query_char sep = false → sep ≠ "="%char → without sep (fragment kv) = true.
Proof.
  intros Hq Hs. unfold fragment. rewrite !without_app, !query_escape_without by done.
  unfold without. cbn. by rewrite bool_decide_eq_false_2.
Qed.

Lemma add_fragment m kv : add_parameter m (fragment kv) = add_pair m kv.
Proof.
  unfold add_parameter. rewrite decide_False; [|by unfold fragment; destruct (QueryEscape kv.1)].
  unfold contains_char. pose proof (fragment_without ";" kv eq_refl ltac:(done)) as Hw.
  unfold without in Hw. rewrite Hw. cbn [negb]. unfold fragment.
  rewrite app_String, append_nil_l, cut_app by (by apply query_escape_without). cbn [fst snd].
  unfold QueryEscape. by rewrite !unescape_escape.
Qed.

Lemma parse_query_fragments l :
  parse_query (join_with "&" (fragment <$> l)) = foldl add_pair ∅ l.
Proof.
  unfold parse_query. destruct (decide (l = [])) as [->|Hl]; [done|].
  rewrite (split_on_join "&").
  - generalize (∅ : gmap string (list string)) as m. clear Hl. induction l as [|kv l IH]; intros m; [done|].
    cbn. by rewrite add_fragment, IH.
  - by destruct l.
  - apply list.Forall_forall. intros s (kv & -> & _)%list_elem_of_fmap. by apply fragment_without.
Qed.

(** The value of a key that occurs once. *)
Lemma add_pairs_lookup_ne l m k : k ∉ l.*1 → foldl add_pair m l !! k = m !! k.
Proof.
  revert m. induction l as [|[k' v] l IH]; intros m Hk; [done|]. cbn in *.
  rewrite IH by (intros ?; apply Hk; by right). unfold add_pair. cbn.
  apply lookup_insert_ne. intros ->. apply Hk. left.
Qed.

Lemma add_pairs_lookup l k v : NoDup (l.*1) → (k, v) ∈ l → foldl add_pair ∅ l !! k = Some [v].
Proof.
  assert (∀ m, m !! k = None → NoDup (l.*1) → (k, v) ∈ l → foldl add_pair m l !! k = Some [v]) as Hg.
  { induction l as [|[k' v'] l IH]; intros m Hm Hn Hin; [by apply elem_of_nil in Hin|].
    cbn in Hn. apply list.NoDup_cons in Hn as [Hk' Hn]. cbn [foldl].
    apply elem_of_cons in Hin as [[= <- <-]|Hin].
    - rewrite add_pairs_lookup_ne by done. unfold add_pair. cbn. by rewrite Hm, lookup_insert_eq.
    - assert (k ≠ k') as Hne. { intros ->. apply Hk'. apply list_elem_of_fmap. by exists (k', v). }
      apply IH; [|done|done]. unfold add_pair. cbn. by rewrite lookup_insert_ne. }
  intros Hn Hin. apply Hg; [by apply lookup_empty|done|done].
Qed.

End NetUrlSpec.
