(* ===== verification/Store.v ===== *)
(** * Rows and repositories

    The rows of [internal/pkg/db/models/models.go], and the interface the
    generated repositories offer over them.

    The services use the repositories through the class [Database], whose laws
    ([DatabaseLaws]) are the behaviour of their statements on the tables of the migrations;
    the generated repositories meet it ([RepositoriesTheorems]).  Any operation may fail; a failed
    statement changes nothing.  [column_time] is the precision of the timestamp
    columns (PostgreSQL keeps microseconds). *)

From S2P Require Import Prelude.
From stdpp Require Import options.
#[local] Open Scope Z_scope.

(** Times are nanoseconds since the epoch, durations nanoseconds, identifiers the
    text the [TEXT] columns hold. *)
Abbreviation time := Z.
Abbreviation duration := Z.
Abbreviation uuid := string.

Module Models.

Definition TablePolicySnapshots : string := "policy_snapshots".
Definition TableEvaluations : string := "evaluations".
Definition TableIdempotencyRecords : string := "idempotency_records".
Definition TableEvaluationFeedback : string := "evaluation_feedback".

Definition EvaluationStatus : Set := string.
Definition EvaluationStatusCompleted : EvaluationStatus := "completed".
Definition EvaluationStatusProviderFailed : EvaluationStatus := "provider_failed".
Definition EvaluationStatusRejected : EvaluationStatus := "rejected".

Definition EvaluationStatus_IsValid (s : EvaluationStatus) : bool :=
  bool_decide (s ∈ [EvaluationStatusCompleted; EvaluationStatusProviderFailed;
                    EvaluationStatusRejected]).

Record PolicySnapshot : Set := MkPolicySnapshot {
  ps_Hash : string;
  ps_Name : string;
  ps_Version : string;
  ps_CanonicalJSON : string;
  ps_LoadedAt : time
}.

Record Evaluation : Set := MkEvaluation {
  ev_ID : uuid;
  ev_PolicySnapshotHash : string;
  ev_PolicyName : string;
  ev_PolicyVersion : string;
  ev_PolicyKind : string;
  ev_Status : string;
  ev_Outcome : string;
  ev_MatchedRuleID : string;
  ev_ExecutionPath : string;
  ev_RequestedModel : string;
  ev_ResolvedModel : string;
  ev_AnswersJSON : string;
  ev_InputTokens : Z;
  ev_OutputTokens : Z;
  ev_ProviderAttempts : Z;
  ev_ProviderDurationMS : Z;
  ev_TotalDurationMS : Z;
  ev_RequestID : string;
  ev_MetadataJSON : string;
  ev_EncryptedInput : option string;   (** [None] is the nil slice *)
  ev_FailureCode : string;
  ev_CreatedAt : time
}.

Record IdempotencyRecord : Set := MkIdempotencyRecord {
  ir_KeyHash : string;
  ir_CanonicalRequestHash : string;
  ir_EvaluationID : uuid;
  ir_ExpiresAt : time;
  ir_CreatedAt : time
}.

Record EvaluationFeedback : Set := MkEvaluationFeedback {
  fb_ID : uuid;
  fb_EvaluationID : uuid;
  fb_ExpectedOutcome : string;
  fb_Note : string;
  fb_CreatedAt : time
}.

#[export] Instance PolicySnapshot_eq_dec : EqDecision PolicySnapshot.
Proof. solve_decision. Defined.
#[export] Instance Evaluation_eq_dec : EqDecision Evaluation.
Proof. solve_decision. Defined.
#[export] Instance IdempotencyRecord_eq_dec : EqDecision IdempotencyRecord.
Proof. solve_decision. Defined.
#[export] Instance EvaluationFeedback_eq_dec : EqDecision EvaluationFeedback.
Proof. solve_decision. Defined.

End Models.
Export Models.

(** The tables of the migrations, each keyed by its primary key. *)
Record Tables : Set := MkTables {
  t_snapshots : gmap string PolicySnapshot;
  t_evaluations : gmap uuid Evaluation;
  t_idempotency : gmap string IdempotencyRecord;
  t_feedback : gmap uuid EvaluationFeedback
}.

Definition with_snapshots f t := MkTables (f (t_snapshots t)) (t_evaluations t) (t_idempotency t) (t_feedback t).
Definition with_evaluations f t := MkTables (t_snapshots t) (f (t_evaluations t)) (t_idempotency t) (t_feedback t).
Definition with_idempotency f t := MkTables (t_snapshots t) (t_evaluations t) (f (t_idempotency t)) (t_feedback t).
Definition with_feedback f t := MkTables (t_snapshots t) (t_evaluations t) (t_idempotency t) (f (t_feedback t)).

(** What a row holds once its timestamp columns are stored. *)
Section stored.
Context (ct : time → time).
Definition stored_snapshot (r : PolicySnapshot) : PolicySnapshot :=
  let 'MkPolicySnapshot h n v c t := r in MkPolicySnapshot h n v c (ct t).
Definition stored_evaluation (r : Evaluation) : Evaluation :=
  {| ev_ID := ev_ID r; ev_PolicySnapshotHash := ev_PolicySnapshotHash r;
     ev_PolicyName := ev_PolicyName r; ev_PolicyVersion := ev_PolicyVersion r;
     ev_PolicyKind := ev_PolicyKind r; ev_Status := ev_Status r; ev_Outcome := ev_Outcome r;
     ev_MatchedRuleID := ev_MatchedRuleID r; ev_ExecutionPath := ev_ExecutionPath r;
     ev_RequestedModel := ev_RequestedModel r; ev_ResolvedModel := ev_ResolvedModel r;
     ev_AnswersJSON := ev_AnswersJSON r; ev_InputTokens := ev_InputTokens r;
     ev_OutputTokens := ev_OutputTokens r; ev_ProviderAttempts := ev_ProviderAttempts r;
     ev_ProviderDurationMS := ev_ProviderDurationMS r;
     ev_TotalDurationMS := ev_TotalDurationMS r; ev_RequestID := ev_RequestID r;
     ev_MetadataJSON := ev_MetadataJSON r; ev_EncryptedInput := ev_EncryptedInput r;
     ev_FailureCode := ev_FailureCode r; ev_CreatedAt := ct (ev_CreatedAt r) |}.
Definition stored_idempotency (r : IdempotencyRecord) : IdempotencyRecord :=
  let 'MkIdempotencyRecord k h e x t := r in MkIdempotencyRecord k h e (ct x) (ct t).
Definition stored_feedback (r : EvaluationFeedback) : EvaluationFeedback :=
  let 'MkEvaluationFeedback i e o n t := r in MkEvaluationFeedback i e o n (ct t).
End stored.

(** [ORDER BY created_at DESC, id DESC]: the first argument comes no later. *)
Definition newest_first (a b : Evaluation) : Prop :=
  ev_CreatedAt b < ev_CreatedAt a ∨
  (ev_CreatedAt b = ev_CreatedAt a ∧ str_le (ev_ID b) (ev_ID a)).

#[export] Instance newest_first_dec a b : Decision (newest_first a b).
Proof. unfold newest_first. apply _. Defined.

#[export] Instance newest_first_total : Total newest_first.
Proof.
  intros a b. unfold newest_first.
  destruct (Z.lt_total (ev_CreatedAt a) (ev_CreatedAt b)) as [?|[E|?]]; auto.
  destruct (total str_le (ev_ID a) (ev_ID b)); auto.
Qed.

#[export] Instance newest_first_trans : Transitive newest_first.
Proof.
  intros a b c [H1|[H1 H2]] [H3|[H3 H4]]; unfold newest_first; try (left; lia).
  right. split; [lia|by etrans].
Qed.

(** The conditions of a [WHERE] clause, one per comparison the program writes; a
    statement's conditions are joined by [AND]. *)
Inductive EvaluationCond : Set :=
  | EvPolicyNameEq (s : string)
  | EvPolicyVersionEq (s : string)
  | EvOutcomeEq (s : string)
  | EvStatusEq (s : string)
  | EvCreatedAtLt (t : time)
  | EvIDIn (ids : list uuid).
Inductive FeedbackCond : Set := FbEvaluationIDIn (ids : list uuid).
Inductive IdempotencyCond : Set := IrExpiresAtLt (t : time).

(** Whether a stored row meets a condition; a time is sent at the precision of the
    timestamp columns. *)
Section conditions.
Context (ct : time → time).
Definition evaluation_holds (c : EvaluationCond) (r : Evaluation) : bool :=
  match c with
  | EvPolicyNameEq s => bool_decide (ev_PolicyName r = s)
  | EvPolicyVersionEq s => bool_decide (ev_PolicyVersion r = s)
  | EvOutcomeEq s => bool_decide (ev_Outcome r = s)
  | EvStatusEq s => bool_decide (ev_Status r = s)
  | EvCreatedAtLt t => bool_decide (ev_CreatedAt r < ct t)
  | EvIDIn ids => bool_decide (ev_ID r ∈ ids)
  end.
Definition feedback_holds (c : FeedbackCond) (r : EvaluationFeedback) : bool :=
  match c with FbEvaluationIDIn ids => bool_decide (fb_EvaluationID r ∈ ids) end.
Definition idempotency_holds (c : IdempotencyCond) (r : IdempotencyRecord) : bool :=
  match c with IrExpiresAtLt t => bool_decide (ir_ExpiresAt r < ct t) end.
End conditions.

(** A [SELECT] on the evaluations table. *)
Record EvaluationQuery : Type := MkQuery {
  qry_where : list EvaluationCond;
  qry_ordered : bool;       (** newest first, or no [ORDER BY] *)
  qry_limit : Z;
  qry_offset : option Z     (** [None]: [Offset] is not called *)
}.

(** The rows a query selects, in the order of the query. *)
Definition matching (ct : time → time) (q : EvaluationQuery) (t : Tables) : list Evaluation :=
  filter (λ r, forallb (λ c, evaluation_holds ct c r) (qry_where q) = true)
    (map_to_list (t_evaluations t)).*2.

Definition page {A} (limit : Z) (offset : option Z) (l : list A) : list A :=
  take (Z.to_nat limit) (drop (Z.to_nat (default 0 offset)) l).

(** ** The interface *)
Class Database (W : Type) := {
  tables : W → Tables;
  column_time : time → time;
  (** [INSERT ... ON CONFLICT DO NOTHING] *)
  PolicySnapshot_CreateIgnore : PolicySnapshot → W → W * res unit;
  Evaluation_Create : Evaluation → W → W * res unit;
  IdempotencyRecord_Create : IdempotencyRecord → W → W * res unit;
  EvaluationFeedback_Create : EvaluationFeedback → W → W * res unit;
  (** [WHERE <primary key> = ... ORDER BY ... LIMIT 1] *)
  IdempotencyRecord_First : string → W → W * res IdempotencyRecord;
  Evaluation_First : uuid → W → W * res Evaluation;
  Evaluation_Find : EvaluationQuery → W → W * res (list Evaluation);
  (** deletions report the rows affected *)
  IdempotencyRecord_DeleteLimit : list IdempotencyCond → Z → W → W * res Z;
  EvaluationFeedback_Delete : list FeedbackCond → W → W * res Z;
  Evaluation_Delete : list EvaluationCond → W → W * res Z;
  (** [Transaction(fn)]: [fn] runs on the open transaction *)
  Transaction : ∀ X : Type, (W * X → (W * X) * res unit) → W * X → (W * X) * res unit;
  (** what runs on the connection of a world leaves every other connection alone *)
  scope : W → W → Prop
}.

(** An insertion into one table. *)
Definition inserts {V} (get : Tables → gmap string V) (set : (gmap string V → gmap string V) → Tables → Tables)
  (k : string) (v : V) (t t' : Tables) (r : res unit) : Prop :=
  match r with
  | Ok _ => get t !! k = None ∧ t' = set (insert k v) t
  | Err _ => t' = t
  end.

(** A deletion from one table: what is removed satisfies the condition, and no more
    rows match when fewer than the limit were removed. *)
Definition deletes {V} (get : Tables → gmap string V) (set : (gmap string V → gmap string V) → Tables → Tables)
  (P : V → bool) (limit : option Z) (t t' : Tables) (r : res Z) : Prop :=
  match r with
  | Ok n => ∃ m, t' = set (λ _, m) t ∧ m ⊆ get t ∧
      (∀ k v, get t !! k = Some v → m !! k = None → P v = true) ∧
      n = Z.of_nat (size (get t)) - Z.of_nat (size m) ∧
      ((∃ l, limit = Some l ∧ l <= n) ∨ ∀ k v, m !! k = Some v → P v = false)
  | Err _ => t' = t
  end.

Class DatabaseLaws (W : Type) `{Database W} := {
  snapshot_create_law s w : match (PolicySnapshot_CreateIgnore s w).2 with
    | Ok _ => tables (PolicySnapshot_CreateIgnore s w).1 =
        match t_snapshots (tables w) !! ps_Hash s with
        | Some _ => tables w
        | None => with_snapshots (insert (ps_Hash s) (stored_snapshot column_time s)) (tables w)
        end
    | Err _ => tables (PolicySnapshot_CreateIgnore s w).1 = tables w
    end;
  evaluation_create_law r w :
    inserts t_evaluations with_evaluations (ev_ID r) (stored_evaluation column_time r)
      (tables w) (tables (Evaluation_Create r w).1) (Evaluation_Create r w).2;
  idempotency_create_law r w :
    inserts t_idempotency with_idempotency (ir_KeyHash r) (stored_idempotency column_time r)
      (tables w) (tables (IdempotencyRecord_Create r w).1) (IdempotencyRecord_Create r w).2;
  feedback_create_law r w :
    inserts t_feedback with_feedback (fb_ID r) (stored_feedback column_time r)
      (tables w) (tables (EvaluationFeedback_Create r w).1) (EvaluationFeedback_Create r w).2;
  idempotency_first_frame k w : tables (IdempotencyRecord_First k w).1 = tables w;
  idempotency_first_law k w : match (IdempotencyRecord_First k w).2 with
    | Ok r => t_idempotency (tables w) !! k = Some r
    | Err e => errors_Is e GormRecordNotFound = true → t_idempotency (tables w) !! k = None
    end;
  evaluation_first_frame k w : tables (Evaluation_First k w).1 = tables w;
  evaluation_first_law k w : match (Evaluation_First k w).2 with
    | Ok r => t_evaluations (tables w) !! k = Some r
    | Err e => errors_Is e GormRecordNotFound = true → t_evaluations (tables w) !! k = None
    end;
  evaluation_find_frame q w : tables (Evaluation_Find q w).1 = tables w;
  evaluation_find_law q w rows : 0 < qry_limit q → (Evaluation_Find q w).2 = Ok rows →
    ∃ all, all ≡ₚ matching column_time q (tables w) ∧ rows = page (qry_limit q) (qry_offset q) all ∧
      (qry_ordered q = true → Sorted newest_first all);
  (** a deletion without a condition is refused *)
  idempotency_delete_law cs n w : cs ≠ [] → 0 < n →
    deletes t_idempotency with_idempotency
      (λ r, forallb (λ c, idempotency_holds column_time c r) cs) (Some n) (tables w)
      (tables (IdempotencyRecord_DeleteLimit cs n w).1) (IdempotencyRecord_DeleteLimit cs n w).2;
  feedback_delete_law cs w : cs ≠ [] →
    deletes t_feedback with_feedback (λ r, forallb (λ c, feedback_holds c r) cs) None (tables w)
      (tables (EvaluationFeedback_Delete cs w).1) (EvaluationFeedback_Delete cs w).2;
  evaluation_delete_law cs w : cs ≠ [] →
    deletes t_evaluations with_evaluations
      (λ r, forallb (λ c, evaluation_holds column_time c r) cs) None (tables w)
      (tables (Evaluation_Delete cs w).1) (Evaluation_Delete cs w).2;
  scope_preorder :: PreOrder (scope (W:=W));
  evaluation_create_scope r w : scope w (Evaluation_Create r w).1;
  idempotency_create_scope r w : scope w (IdempotencyRecord_Create r w).1;
  (** the transaction may fail to start *)
  transaction_trace (X : Type) (f : W * X → (W * X) * res unit) w x :
    let out := Transaction X f (w, x) in
    out.1.2 = x ∨ ∃ w0, out.1.2 = (f (w0, x)).1.2;
  (** commit on success, roll back on failure, when the body only uses the connection of
      the transaction; the transaction may also fail to start or to commit *)
  transaction_law (X : Type) (f : W * X → (W * X) * res unit) w x :
    (∀ w x, scope w (f (w, x)).1.1) →
    let out := Transaction X f (w, x) in
    (out.1.2 = x ∧ tables out.1.1 = tables w ∧ ∃ e, out.2 = Err e) ∨
    ∃ w0, tables w0 = tables w ∧ out.1.2 = (f (w0, x)).1.2 ∧
      match (f (w0, x)).2 with
      | Err e => out.2 = Err e ∧ tables out.1.1 = tables w
      | Ok _ => (out.2 = Ok tt ∧ tables out.1.1 = tables (f (w0, x)).1.1) ∨
                (∃ e, out.2 = Err e) ∧ tables out.1.1 = tables w
      end
}.
