(* ===== verification/JsonStruct.v ===== *)
(** * JSON by struct tags

    How [encoding/json] writes and reads the generated types, by their struct tags.  A
    struct is the list of its tagged fields, written in that order; reading goes
    through the fields of the struct: an exact name first, else the first field equal under
    case folding; a [null] clears a pointer or a map and leaves anything else as it is; an
    unknown field is ignored, or refused by a decoder with [DisallowUnknownFields]; a value
    of another type is an error.  Arrays are read afresh (a repeated key with an array
    value would reuse the old elements in Go). *)

From S2P Require Import Prelude GoFloat GoAny GoTime Decision Document Canonical Store.
From Stdlib Require Import Ascii String.
From stdpp Require Import options.
#[local] Open Scope Z_scope.

(** [uuid.UUID.UnmarshalText]: the canonical text of what it reads. *)
Class UuidText := uuid_UnmarshalText : string → option uuid.

(** ** Codecs *)
Module JsonStruct.

(** A value read over the current one. *)
Definition into (T : Type) : Type := json → T → option T.

(** How a type is written ([None] is a marshalling error), read, strictly or not, and its
    zero value. *)
Record codec (A : Type) : Type := MkCodec {
  write : A → option json;
  read : bool → into A;
  zero : A
}.
Arguments MkCodec {A} _ _ _.
Arguments write {A} _ _.
Arguments read {A} _ _ _ _.
Arguments zero {A} _.

(** A tagged field, left out when [tg_omit] says so. *)
Record tag (A : Type) : Type := MkTag { tg_name : string; tg_omit : A → bool; tg_codec : codec A }.
Arguments MkTag {A} _ _ _.
Arguments tg_name {A} _.
Arguments tg_omit {A} _ _.
Arguments tg_codec {A} _.

(** The fields of a struct, over the tuple of their values. *)
Inductive fields : Type → Type :=
  | FNil : fields unit
  | FCons {A X : Type} (t : tag A) (fs : fields X) : fields (A * X).

Fixpoint names {X} (fs : fields X) : list string :=
  match fs with FNil => [] | FCons t fs => tg_name t :: names fs end.

Fixpoint zeros {X} (fs : fields X) : X :=
  match fs with FNil => tt | FCons t fs => (zero (tg_codec t), zeros fs) end.

Definition write_tag {A} (t : tag A) (a : A) : option (list (string * json)) :=
  if tg_omit t a then Some [] else (λ j, [(tg_name t, j)]) <$> write (tg_codec t) a.

Fixpoint write_fields {X} (fs : fields X) : X → option (list (string * json)) :=
  match fs with
  | FNil => λ _, Some []
  | FCons t fs => λ x, here ← write_tag t x.1; rest ← write_fields fs x.2; Some (here ++ rest)
  end.

(** [foldName], as far as it can meet an ASCII name: letters fold to upper case, and so
    do the long s and the Kelvin sign. *)
Definition fold_rune (s : string) (n : option nat) : string :=
  match n, s with
  | Some 1%nat, String c _ =>
      if in_range 0x61 0x7A c then bytes [byte c - 0x20]%N else String c EmptyString
  | Some k, _ =>
      let r := substring 0 k s in
      if decide (r = bytes [0xC5; 0xBF]%N) then "S"
      else if decide (r = bytes [0xE2; 0x84; 0xAA]%N) then "K" else r
  | None, _ => substring 0 1 s
  end.

Definition foldName (s : string) : string := map_runes fold_rune 0 s.

(** Reading into the first field whose name passes; [None] when there is none. *)
Fixpoint read_named {X} (strict : bool) (p : string → bool) (fs : fields X) (j : json)
  : X → option (option X) :=
  match fs with
  | FNil => λ _, None
  | FCons t fs => λ x,
      if p (tg_name t) then Some ((λ a, (a, x.2)) <$> read (tg_codec t) strict j x.1)
      else (λ r : option _, pair x.1 <$> r) <$> read_named strict p fs j x.2
  end.

Definition read_member {X} (strict : bool) (fs : fields X) (key : string) (j : json) (x : X) : option X :=
  match read_named strict (λ name, bool_decide (name = key)) fs j x with
  | Some r => r
  | None =>
      match read_named strict (λ name, bool_decide (foldName name = foldName key)) fs j x with
      | Some r => r
      | None => if strict then None else Some x
      end
  end.

Fixpoint read_members {X} (strict : bool) (fs : fields X) (l : list (string * json)) (x : X) : option X :=
  match l with
  | [] => Some x
  | (key, j) :: l => x ← read_member strict fs key j x; read_members strict fs l x
  end.

(** *** Primitive types *)
Definition into_string : into string := λ j t,
  match j with JNull => Some t | JStr s => Some s | _ => None end.
Definition into_bool : into bool := λ j t,
  match j with JNull => Some t | JBool b => Some b | _ => None end.
Definition into_int : into Z := λ j t,
  match j with JNull => Some t | JNum n => Atoi n | _ => None end.
Definition into_float : into float64 := λ j t,
  match j with JNull => Some t | JNum n => parse_float n | _ => None end.
Definition into_any : into goany := λ j _, decode_any false j.

Definition cstring : codec string := MkCodec Canonical.jstr (λ _, into_string) "".
Definition cbool : codec bool := MkCodec (λ b, Some (JBool b)) (λ _, into_bool) false.
Definition cint : codec Z := MkCodec (λ n, Some (JNum (Itoa n))) (λ _, into_int) 0.
Definition cfloat : codec float64 := MkCodec (λ f, JNum <$> f64_text f) (λ _, into_float) f64_zero.
Definition cany : codec goany := MkCodec marshal (λ _, into_any) ANil.

(** The zero [time.Time] is not a number of the model; a read always sets it. *)
Definition ctime : codec time :=
  MkCodec (λ t, JStr <$> GoTime.rfc3339 t)
    (λ _ j t, match j with JNull => Some t | JStr s => GoTime.parse_rfc3339 s | _ => None end) 0.

Definition zero_uuid : uuid := "00000000-0000-0000-0000-000000000000".
Definition cuuid `{UuidText} : codec uuid :=
  MkCodec Canonical.jstr
    (λ _ j t, match j with JNull => Some t | JStr s => uuid_UnmarshalText s | _ => None end) zero_uuid.

(** *** Pointers, maps, slices, structs *)
Definition cptr {A} (c : codec A) : codec (option A) :=
  MkCodec (λ v, match v with Some a => write c a | None => Some JNull end)
    (λ strict j v, match j with JNull => Some None | _ => Some <$> read c strict j (default (zero c) v) end)
    None.

(** Entries are added to the map, each value starting at its zero. *)
Definition read_entries {A} (c : codec A) (strict : bool) (l : list (string * json)) (m : gmap string A)
  : option (gmap string A) :=
  foldl (λ m kv, m ← m; v ← read c strict kv.2 (zero c); Some (<[kv.1 := v]> m)) (Some m) l.

Definition cmap {A} (c : codec A) : codec (gmap string A) :=
  MkCodec (Canonical.jmap (write c))
    (λ strict j m, match j with
                   | JNull => Some ∅ | JObj l => read_entries c strict l m | _ => None end) ∅.

(** A [map[string]any] kept as its sorted association list. *)
Definition cdocument : codec (list (string * goany)) :=
  MkCodec (λ l, marshal (AMap l))
    (λ _ j t, match j with
      | JNull => Some []
      | JObj l => foldl (λ m kv, m ← m; v ← decode_any false kv.2;
                         Some (amap_insert (utf8_sanitize kv.1) v m)) (Some t) l
      | _ => None
      end) [].

Definition cslice {A} (c : codec A) : codec (list A) :=
  MkCodec (λ l, Canonical.jarr (write c <$> l))
    (λ strict j t, match j with
      | JNull => Some [] | JArr l => mapM (λ v, read c strict v (zero c)) l | _ => None end) [].

(** A struct type: its fields and the tuple of a value. *)
Definition cstruct {T X} (fs : fields X) (out : T → X) (in_ : X → T) : codec T :=
  MkCodec (λ t, JObj <$> write_fields fs (out t))
    (λ strict j t, match j with
      | JNull => Some t | JObj l => in_ <$> read_members strict fs l (out t) | _ => None end)
    (in_ (zeros fs)).

(** *** Tags *)
Definition req {A} (name : string) (c : codec A) : tag A := MkTag name (λ _, false) c.

(** A pointer tagged [omitempty]. *)
Definition opt {A} (name : string) (c : codec A) : tag (option A) :=
  MkTag name (λ v, match v with None => true | Some _ => false end) (cptr c).

(** An [interface{}] tagged [omitempty]. *)
Definition opt_any (name : string) : tag goany := MkTag name (λ v, bool_decide (v = ANil)) cany.

End JsonStruct.

Declare Scope tags_scope.
Delimit Scope tags_scope with tags.
Infix "::" := JsonStruct.FCons (at level 60, right associativity) : tags_scope.
Notation "[ ]" := JsonStruct.FNil (format "[ ]") : tags_scope.
