(* ===== verification/JsonStructSpec.v ===== *)
(** * The codecs are sound

    Two facts about the codecs of [JsonStruct], by type: a strict reader accepts a part of
    what a lenient one accepts, with the same value; and what is written is read back,
    where the leaves allow it (integers in range, identifiers in canonical form, numbers
    and free-form values whose text reads back). *)

From S2P Require Import Prelude GoFloat GoAny GoTime Decision Document Canonical Store JsonStruct.
From stdpp Require Import options.
#[local] Open Scope Z_scope.

Module CodecSound.
Import JsonStruct.

(** ** Strictness *)

(** What the strict reader accepts, the lenient one reads alike. *)
Definition lax {A} (c : codec A) : Prop := ∀ j t r, read c true j t = Some r → read c false j t = Some r.

Fixpoint fields_lax {X} (fs : fields X) : Prop :=
  match fs with FNil => True | FCons t fs => lax (tg_codec t) ∧ fields_lax fs end.

Lemma read_named_lax {X} p (fs : fields X) j x : fields_lax fs →
  match read_named true p fs j x with
  | Some (Some r) => read_named false p fs j x = Some (Some r)
  | Some None => is_Some (read_named false p fs j x)
  | None => read_named false p fs j x = None
  end.
Proof.
  induction fs as [|A X t fs IH]; cbn; [done|]. intros [Ht Hfs]. destruct (p (tg_name t)).
  - destruct (read (tg_codec t) true j x.1) as [a|] eqn:E; cbn; [by rewrite (Ht _ _ _ E)|done].
  - specialize (IH x.2 Hfs). destruct (read_named true p fs j x.2) as [[r|]|]; cbn.
    + by rewrite IH.
    + destruct IH as [r ->]. done.
    + by rewrite IH.
Qed.

Lemma read_member_lax {X} (fs : fields X) key j x r : fields_lax fs →
  read_member true fs key j x = Some r → read_member false fs key j x = Some r.
Proof.
  intros H. unfold read_member.
  pose proof (read_named_lax (λ name, bool_decide (name = key)) fs j x H) as H1.
  pose proof (read_named_lax (λ name, bool_decide (foldName name = foldName key)) fs j x H) as H2.
  destruct (read_named true _ fs j x) as [[r1|]|]; [intros [= ->]; by rewrite H1|done|rewrite H1].
  destruct (read_named true _ fs j x) as [[r1|]|]; [intros [= ->]; by rewrite H2|done..].
Qed.

Lemma read_members_lax {X} (fs : fields X) l x r : fields_lax fs →
  read_members true fs l x = Some r → read_members false fs l x = Some r.
Proof.
  intros H. revert x. induction l as [|[key j] l IH]; intros x; cbn; [done|].
  intros (x' & E%read_member_lax & Hl)%bind_Some; [|done]. rewrite E. cbn. by apply IH.
Qed.

Lemma cstruct_lax {T X} (fs : fields X) (out : T → X) (in_ : X → T) :
  fields_lax fs → lax (cstruct fs out in_).
Proof.
  intros H j t r. destruct j as [| | | | |l]; cbn; [done..|].
  intros (x & E & ->)%fmap_Some. by rewrite (read_members_lax fs l _ x H E).
Qed.

Lemma cptr_lax {A} (c : codec A) : lax c → lax (cptr c).
Proof. intros H j t r. destruct j; cbn; [done|..]; intros (v & ->%H & ->)%fmap_Some; done. Qed.

(** A reader that does not look at the flag. *)
Lemma plain_lax {A} (w : A → option json) (r : into A) (z : A) : lax (MkCodec w (λ _, r) z).
Proof. by intros j t r'. Qed.

Lemma read_entries_lax {A} (c : codec A) l m r :
  lax c → read_entries c true l m = Some r → read_entries c false l m = Some r.
Proof.
  intros H. unfold read_entries. generalize (Some m) as m'. induction l as [|kv l IH]; intros m'; cbn; [done|].
  destruct m' as [m'|]; cbn; [|apply IH].
  destruct (read c true kv.2 (zero c)) as [v|] eqn:E; cbn.
  - rewrite (H _ _ _ E). apply IH.
  - intros Hf. exfalso. revert Hf. clear. induction l; [done|]. cbn. apply IHl.
Qed.

Lemma cmap_lax {A} (c : codec A) : lax c → lax (cmap c).
Proof. intros H j t r. destruct j; cbn; [done..|]. by apply read_entries_lax. Qed.

Create HintDb codec.
#[export] Hint Resolve cptr_lax cmap_lax : codec.
#[export] Hint Extern 1 (lax _) => apply plain_lax : codec.

(** ** Reading back *)

(** A value that is written is read back, over the zero value. *)
Definition reads_back {A} (c : codec A) (a : A) : Prop :=
  ∀ strict j, write c a = Some j → read c strict j (zero c) = Some a.

(** What is written is never [null], so that a pointer to it is not lost. *)
Definition never_null {A} (c : codec A) : Prop := ∀ a, write c a ≠ Some JNull.

(** A field: left out only at its zero value. *)
Definition tag_reads_back {A} (t : tag A) (a : A) : Prop :=
  if tg_omit t a then a = zero (tg_codec t) else reads_back (tg_codec t) a.

Fixpoint fields_read_back {X} (fs : fields X) : X → Prop :=
  match fs with FNil => λ _, True | FCons t fs => λ x, tag_reads_back t x.1 ∧ fields_read_back fs x.2 end.

(** *** Fields *)
Lemma read_named_skip {X} strict p (fs : fields X) j x :
  (∀ n, n ∈ names fs → p n = false) → read_named strict p fs j x = None.
Proof.
  induction fs as [|A X t fs IH]; cbn; intros H; [done|].
  rewrite (H (tg_name t)) by left. rewrite IH; [done|]. intros n Hn. apply H. by right.
Qed.

Lemma read_member_here {A X} strict (t : tag A) (fs : fields X) j a x :
  read_member strict (FCons t fs) (tg_name t) j (a, x) = (λ a, (a, x)) <$> read (tg_codec t) strict j a.
Proof. unfold read_member. cbn. by rewrite bool_decide_eq_true_2. Qed.

Lemma read_named_exact {X} strict (fs : fields X) key j x :
  key ∈ names fs → is_Some (read_named strict (λ name, bool_decide (name = key)) fs j x).
Proof.
  induction fs as [|A X t fs IH]; cbn; [by intros ?%elem_of_nil|].
  intros [->|Hin]%elem_of_cons; [by rewrite bool_decide_eq_true_2|].
  case_bool_decide; [done|]. destruct (IH x.2 Hin) as [r ->]. done.
Qed.

Lemma read_member_later {A X} strict (t : tag A) (fs : fields X) key j a x :
  key ∈ names fs → tg_name t ≠ key →
  read_member strict (FCons t fs) key j (a, x) = pair a <$> read_member strict fs key j x.
Proof.
  intros Hin Hne. unfold read_member. cbn. rewrite bool_decide_eq_false_2 by done.
  destruct (read_named_exact strict fs key j x Hin) as [r ->]. done.
Qed.

Lemma read_members_later {A X} strict (t : tag A) (fs : fields X) l a x :
  tg_name t ∉ names fs → Forall (λ kv, kv.1 ∈ names fs) l →
  read_members strict (FCons t fs) l (a, x) = pair a <$> read_members strict fs l x.
Proof.
  intros Hn. revert x. induction l as [|[key j] l IH]; intros x; cbn; [done|].
  intros [Hin Hl]%Forall_cons_iff. cbn in Hin. rewrite read_member_later; [|done|intros Heq; by rewrite Heq in Hn].
  destruct (read_member strict fs key j x); cbn; [by apply IH|done].
Qed.

Lemma write_fields_names {X} (fs : fields X) x l :
  write_fields fs x = Some l → Forall (λ kv, kv.1 ∈ names fs) l.
Proof.
  revert l. induction fs as [|A X t fs IH]; intros l; cbn; [by intros [= <-]|].
  intros (here & Hh & (rest & Hr & [= <-])%bind_Some)%bind_Some. apply Forall_app. split.
  - unfold write_tag in Hh. destruct (tg_omit t x.1); [by injection Hh as <-|].
    apply fmap_Some in Hh as (j & _ & ->). repeat constructor.
  - apply Forall_forall. intros kv Hkv. right. by apply (proj1 (Forall_forall _ _) (IH _ _ Hr)).
Qed.

Lemma read_write_fields {X} strict (fs : fields X) x l :
  NoDup (names fs) → fields_read_back fs x → write_fields fs x = Some l →
  read_members strict fs l (zeros fs) = Some x.
Proof.
  revert l. induction fs as [|A X t fs IH]; intros l Hn Hx; cbn.
  { intros [= <-]. by destruct x. }
  destruct x as [a x]. destruct Hx as [Ha Hx]. cbn in Ha, Hx. apply list.NoDup_cons in Hn as [Hnt Hn].
  intros (here & Hh & (rest & Hr & [= <-])%bind_Some)%bind_Some. cbn in Hh, Hr.
  assert (read_members strict (FCons t fs) rest (a, zeros fs) = Some (a, x)) as Hrest.
  { rewrite read_members_later by (done || by eapply write_fields_names). by rewrite (IH x rest Hn Hx Hr). }
  unfold write_tag in Hh. unfold tag_reads_back in Ha. destruct (tg_omit t a).
  - injection Hh as <-. subst a. exact Hrest.
  - apply fmap_Some in Hh as (j & Hj & ->). cbn [app read_members].
    rewrite read_member_here, (Ha strict j Hj). exact Hrest.
Qed.

(** *** Structs *)
Lemma cstruct_reads_back {T X} (fs : fields X) (out : T → X) (in_ : X → T) t :
  out (in_ (zeros fs)) = zeros fs → in_ (out t) = t → NoDup (names fs) →
  fields_read_back fs (out t) → reads_back (cstruct fs out in_) t.
Proof.
  intros Hz Ht Hn Hf strict j (l & Hl & ->)%fmap_Some. cbn.
  rewrite Hz, (read_write_fields strict fs (out t) l Hn Hf Hl). cbn. by rewrite Ht.
Qed.

Lemma cstruct_never_null {T X} (fs : fields X) (out : T → X) (in_ : X → T) : never_null (cstruct fs out in_).
Proof. intros t. cbn. by destruct (write_fields fs (out t)). Qed.

(** *** Leaves *)
Lemma cstring_reads_back s : reads_back cstring s.
Proof. by intros strict j [= <-]. Qed.
Lemma cbool_reads_back b : reads_back cbool b.
Proof. by intros strict j [= <-]. Qed.
Lemma cint_reads_back n : wrap64 n = n → reads_back cint n.
Proof. intros Hn strict j [= <-]. cbn. by apply Atoi_Itoa. Qed.
Lemma ctime_reads_back t : reads_back ctime t.
Proof. intros strict j (s & Hs & ->)%fmap_Some. cbn. by apply GoTime.parse_rfc3339_rfc3339. Qed.

(** A number, and a free-form value, whose text reads back. *)
Definition float_ok (f : float64) : Prop := f64_text f ≫= parse_float = Some f.
Definition any_ok (a : goany) : Prop := marshal a ≫= decode_any false = Some a.

Lemma cfloat_reads_back f : float_ok f → reads_back cfloat f.
Proof. unfold float_ok. intros Hf strict j (s & Hs & ->)%fmap_Some. rewrite Hs in Hf. exact Hf. Qed.
Lemma cany_reads_back a : any_ok a → reads_back cany a.
Proof. unfold any_ok. intros Ha strict j Hj. cbn in *. rewrite Hj in Ha. exact Ha. Qed.
Lemma cuuid_reads_back `{UuidText} id : uuid_UnmarshalText id = Some id → reads_back cuuid id.
Proof. by intros Hid strict j [= <-]. Qed.

(** *** Slices and maps *)
Lemma jarr_written {A} (f : A → option json) l j :
  Canonical.jarr (f <$> l) = Some j → ∃ k, j = JArr k ∧ Forall2 (λ a v, f a = Some v) l k.
Proof.
  unfold Canonical.jarr. intros (k & Hk & ->)%fmap_Some. exists k. split; [done|].
  apply mapM_Some in Hk. by apply Forall2_fmap_l in Hk.
Qed.

Lemma cslice_reads_back {A} (c : codec A) l : (∀ a, a ∈ l → reads_back c a) → reads_back (cslice c) l.
Proof.
  intros Hl strict j (k & -> & Hk)%jarr_written. cbn. apply mapM_Some.
  induction Hk as [|a v l k Hav Hk IH]; constructor.
  - by apply Hl; [left|].
  - apply IH. intros a' Ha'. apply Hl. by right.
Qed.

Lemma foldl_insert_lookup {A} (m : gmap string A) l m0 k :
  (∀ kv, kv ∈ l → m !! kv.1 = Some kv.2) →
  foldl (λ (m : gmap string A) kv, <[kv.1 := kv.2]> m) m0 l !! k = if decide (k ∈ l.*1) then m !! k else m0 !! k.
Proof.
  revert m0. induction l as [|[k1 v1] l IH]; intros m0 Hl; cbn [foldl].
  { by rewrite decide_False by apply not_elem_of_nil. }
  rewrite IH by (intros; apply Hl; by right). cbn [fmap list_fmap fst].
  destruct (decide (k ∈ l.*1)) as [Hin|Hin]; [by rewrite decide_True by by right|].
  destruct (decide (k = k1)) as [->|Hne].
  - rewrite lookup_insert_eq, decide_True by left. symmetry. apply (Hl (k1, v1)). left.
  - rewrite lookup_insert_ne by done. rewrite decide_False; [done|]. by intros [?|?]%elem_of_cons.
Qed.

Lemma foldl_insert_amap_of {A} (m : gmap string A) :
  foldl (λ (m : gmap string A) kv, <[kv.1 := kv.2]> m) ∅ (amap_of m) = m.
Proof.
  apply map_eq. intros k. rewrite (foldl_insert_lookup m) by (intros kv; apply amap_of_elem).
  case_decide as Hk; [done|]. rewrite lookup_empty. destruct (m !! k) as [a|] eqn:E; [|done].
  exfalso. apply Hk. apply list_elem_of_fmap. exists (k, a). split; [done|]. by apply amap_of_elem.
Qed.

(** A map written entry by entry, read entry by entry. *)
Lemma read_entries_jmap {A B} (f : A → option json) (c : codec B) (g : A → B) strict (m : gmap string A) l :
  Canonical.jmap f m = Some (JObj l) →
  (∀ k a j, m !! k = Some a → f a = Some j → read c strict j (zero c) = Some (g a)) →
  read_entries c strict l ∅ = Some (g <$> m).
Proof.
  intros (l' & Hl%mapM_Some & [= ->])%fmap_Some Hm. unfold read_entries.
  assert (∀ kv, kv ∈ amap_of m → ∀ j, f kv.2 = Some j → read c strict j (zero c) = Some (g kv.2)) as Hr.
  { intros kv Hkv%amap_of_elem j. by eapply Hm. }
  rewrite <- (foldl_insert_amap_of m) at 1.
  assert ((∅ : gmap string B) = g <$> (∅ : gmap string A)) as -> by by rewrite fmap_empty.
  generalize (∅ : gmap string A) as m0. clear Hm.
  induction Hl as [|kv [k v] kvs l Hkv Hl IH]; intros m0; [done|].
  apply fmap_Some in Hkv as (j & Hj & [= -> ->]). cbn [foldl mbind option_bind snd fst].
  rewrite (Hr kv ltac:(left) j Hj). cbn [mbind option_bind]. rewrite <- fmap_insert. apply IH.
  intros kv' Hin. apply Hr. by right.
Qed.

Lemma cmap_reads_back {A} (c : codec A) m :
  (∀ k a, m !! k = Some a → reads_back c a) → reads_back (cmap c) m.
Proof.
  intros Hm strict j Hj. pose proof Hj as (l & _ & ->)%fmap_Some. cbn in *.
  rewrite (read_entries_jmap (write c) c id strict m l Hj); [by rewrite map_fmap_id|].
  intros k a j Ha Hw. by apply (Hm k a Ha).
Qed.

(** A fold that has failed stays failed. *)
Lemma foldl_None {A B} (f : A → B → option A) l : foldl (λ m x, m ← m; f m x) None l = None.
Proof. by induction l. Qed.

Lemma read_document_any l t :
  foldl (λ m kv, m ← m; v ← decode_any false kv.2; Some (amap_insert (utf8_sanitize kv.1) v m)) (Some t) l =
  (λ kvs, foldl (λ m kv, amap_insert (utf8_sanitize kv.1) kv.2 m) t kvs) <$>
    mapM (λ kv, (λ x, (kv.1, x)) <$> decode_any false kv.2) l.
Proof.
  revert t. induction l as [|kv l IH]; intros t; [done|]. cbn.
  destruct (decode_any false kv.2) as [v|]; cbn.
  - rewrite IH. by destruct (mapM _ l).
  - apply (foldl_None (λ m kv, v ← decode_any false kv.2; Some (amap_insert (utf8_sanitize kv.1) v m))).
Qed.

Lemma cdocument_reads_back l : any_ok (AMap l) → reads_back cdocument l.
Proof.
  unfold any_ok. intros Ha strict j Hj. cbn [write cdocument] in Hj. rewrite Hj in Ha. cbn [mbind option_bind] in Ha.
  cbn [marshal] in Hj. apply fmap_Some in Hj as (k & _ & ->). cbn [read cdocument zero].
  rewrite read_document_any. cbn [decode_any] in Ha. destruct (mapM _ k); [|done]. cbn in *. by injection Ha as ->.
Qed.

(** *** Fields *)
Lemma cstring_never_null : never_null cstring.
Proof. done. Qed.
Lemma cbool_never_null : never_null cbool.
Proof. done. Qed.
Lemma cint_never_null : never_null cint.
Proof. done. Qed.
Lemma cfloat_never_null : never_null cfloat.
Proof. intros f. cbn. by destruct (f64_text f). Qed.
Lemma cmap_never_null {A} (c : codec A) : never_null (cmap c).
Proof. intros m. cbn. unfold Canonical.jmap. by destruct (mapM _ _). Qed.
Lemma cslice_never_null {A} (c : codec A) : never_null (cslice c).
Proof. intros l. cbn. unfold Canonical.jarr. by destruct (mapM _ _). Qed.
Lemma cdocument_never_null : never_null cdocument.
Proof. intros l. cbn. by destruct (mapM _ _). Qed.

Lemma req_reads_back {A} name (c : codec A) a : reads_back c a → tag_reads_back (req name c) a.
Proof. done. Qed.

Lemma opt_reads_back {A} name (c : codec A) v :
  never_null c → (∀ a, v = Some a → reads_back c a) → tag_reads_back (opt name c) v.
Proof.
  intros Hn Hv. unfold tag_reads_back. destruct v as [a|]; [|done]. cbn. intros strict j Hj. cbn in *.
  pose proof (Hv a eq_refl strict j Hj) as E. destruct j; [by destruct (Hn a)|..]; cbn in *; by rewrite E.
Qed.

Lemma opt_any_reads_back name a : any_ok a → tag_reads_back (opt_any name) a.
Proof.
  intros Ha. unfold tag_reads_back. cbn. case_bool_decide; [done|]. by apply cany_reads_back.
Qed.

#[export] Hint Resolve cstring_reads_back cbool_reads_back cint_reads_back ctime_reads_back cfloat_reads_back
  cany_reads_back cuuid_reads_back cslice_reads_back cmap_reads_back cdocument_reads_back req_reads_back
  opt_reads_back opt_any_reads_back cstruct_never_null cstring_never_null cbool_never_null cint_never_null
  cfloat_never_null cmap_never_null cslice_never_null cdocument_never_null : codec.

End CodecSound.
