(* ===== verification/OapiClient.v ===== *)
(** * What the generated clients share

    oapi-codegen emits the same client twice, in [pkg/http/api/client/client.gen.go] and in
    [pkg/gotypesafe/api.gen.go]: how a path is resolved against the server URL, the request
    that is built, the client with its options, and what is sent after the request
    editors.  The HTTP transport is a parameter. *)

From S2P Require Import Prelude GoFloat GoAny GoJson NetUrl Store JsonStruct.
From Stdlib Require Import Ascii String.
From stdpp Require Import options.
#[local] Open Scope Z_scope.

Module OapiClient.
Import JsonStruct.

(** ** URLs *)

(** The escaped path of an absolute URL: what follows the authority, without query and
    fragment.  URLs that [url.Parse] refuses are not represented. *)
Fixpoint after_scheme (s : string) : option string :=
  match drop_prefix "://" s with
  | Some r => Some r
  | None => match s with String _ s => after_scheme s | EmptyString => None end
  end.

Fixpoint from_slash (s : string) : string :=
  match s with
  | String c s' => if decide (c = "/"%char) then s else from_slash s'
  | EmptyString => EmptyString
  end.

Definition url_path (url : string) : string :=
  let s := (NetUrl.cut "?" (NetUrl.cut "#" url).1).1 in
  match after_scheme s with Some r => from_slash r | None => s end.

(** [serverURL.Parse("." + operationPath)]: the escaped path and the raw query. *)
Definition operation_url (server operationPath : string) : string * string :=
  let ref := NetUrl.cut "?" (NetUrl.cut "#" ("." +:+ operationPath)).1 in
  (NetUrl.resolvePath (url_path server) ref.1, ref.2).

(** ** Requests *)
Record request : Set := MkRequest {
  rq_method : string;
  rq_path : string;
  rq_query : string;
  rq_header : gmap string (list string);
  rq_body : option string
}.

Definition header_add (name value : string) (h : gmap string (list string)) : gmap string (list string) :=
  <[name := default [] (h !! name) ++ [value]]> h.
Definition header_set (name value : string) (h : gmap string (list string)) : gmap string (list string) :=
  <[name := [value]]> h.

Definition buildError : goerr := EForeign "build request".

Definition or_error {A} (v : option A) : res A :=
  match v with Some a => Ok a | None => Err buildError end.

(** A request without a body, and one with a body and its content type. *)
Definition new_request (method : string) (url : string * string) : request :=
  MkRequest method url.1 url.2 ∅ None.
Definition new_body_request (method : string) (url : string * string) (contentType body : string) : request :=
  MkRequest method url.1 url.2 (header_add "Content-Type" contentType ∅) (Some body).

(** [json.Marshal] *)
Definition json_Marshal {A} (c : codec A) (a : A) : res string := or_error (json_text <$> write c a).

(** The query fragments of one optional parameter. *)
Definition query_fragments {A} (style : A → option string) (v : option A) : res (list string) :=
  match v with
  | None => Ok []
  | Some v => frag ← or_error (style v); Ok (NetUrl.split_on "&" frag)
  end.

(** ** Sending *)
Record httpResponse : Set := MkHttpResponse {
  hr_StatusCode : Z;
  hr_Header : gmap string string;          (** first values, by canonical name *)
  hr_Body : string * option goerr          (** the bytes of the stream and the error it ends with *)
}.

(** [Header.Get] *)
Definition header_get (name : string) (rsp : httpResponse) : string := default "" (hr_Header rsp !! name).

(** [io.ReadAll] *)
Definition read_all (body : string * option goerr) : res string :=
  match body.2 with None => Ok body.1 | Some err => Err err end.

(** [Client]; an editor changes the request it is given or fails. *)
Definition RequestEditorFn : Type := request → res request.

Record Client (W : Type) : Type := MkClient {
  Server : string;
  Doer : request → W → W * res httpResponse;
  RequestEditors : list RequestEditorFn
}.
Arguments MkClient {W} _ _ _.
Arguments Server {W} _.
Arguments Doer {W} _ _ _.
Arguments RequestEditors {W} _.

Section client.
Context {W : Type}.

Definition ClientOption : Type := Client W → res (Client W).

Definition has_slash_suffix (s : string) : bool := NetUrl.ends_with_slash s.

(** [NewClient]; [do_default] is the [Do] of a fresh [http.Client]. *)
Definition NewClient (do_default : request → W → W * res httpResponse) (server : string)
  (opts : list ClientOption) : res (Client W) :=
  client ← res_foldM (λ c o, o c) (MkClient server do_default []) opts;
  Ok (if has_slash_suffix (Server client) then client
      else MkClient (Server client +:+ "/") (Doer client) (RequestEditors client)).

Definition WithHTTPClient (doer : request → W → W * res httpResponse) : ClientOption :=
  λ c, Ok (MkClient (Server c) doer (RequestEditors c)).

Definition WithRequestEditorFn (fn : RequestEditorFn) : ClientOption :=
  λ c, Ok (MkClient (Server c) (Doer c) (RequestEditors c ++ [fn])).

Definition applyEditors (c : Client W) (req : request) (additionalEditors : list RequestEditorFn) : res request :=
  req ← res_foldM (λ req r, r req) req (RequestEditors c);
  res_foldM (λ req r, r req) req additionalEditors.

(** A call: build, edit, do. *)
Definition send (c : Client W) (built : res request) (reqEditors : list RequestEditorFn) (w : W)
  : W * res httpResponse :=
  match built with
  | Err err => (w, Err err)
  | Ok req =>
      match applyEditors c req reqEditors with
      | Err err => (w, Err err)
      | Ok req => Doer c req w
      end
  end.

End client.
End OapiClient.
