(* ===== verification/Effects.v ===== *)
(** * The effects of the evaluation pipeline

    The provider boundary of [internal/pkg/provider/provider.go], the clock,
    identifier and randomness sources the service is built with, and the monad its
    methods run in: the outside world, a trace of the calls that leave the service,
    and Go's error results. *)

From S2P Require Import Prelude GoFloat GoAny Decision Document Store.
From stdpp Require Import options.
#[local] Open Scope Z_scope.

(** ** The provider boundary *)
Module Provider.

Record Question : Set := MkQuestion {
  pq_ID : string;
  pq_Type : QuestionType;
  pq_Instructions : goany;
  pq_NoulCriteria : option (gmap string goany);
  pq_ChoiceCriteria : gmap string goany;
  pq_ScoreCriteria : list goany
}.

Record Request : Set := MkRequest {
  pr_Model : string;
  pr_State : goany;
  pr_Questions : list Question
}.

Record Usage : Set := MkUsage { us_InputTokens : Z; us_OutputTokens : Z }.

Record Attempt : Set := MkAttempt {
  at_Number : Z;
  at_StatusCode : Z;
  at_Duration : duration;
  at_Err : option goerr
}.

Record Response : Set := MkResponse {
  rs_Model : string;
  rs_Answers : Answers;
  rs_Usage : Usage;
  rs_Attempts : list Attempt;
  rs_Duration : duration
}.

Definition AttemptCount (r : Response) : Z := Z.of_nat (length (rs_Attempts r)).

End Provider.

(** [Provider.Evaluate], as the world answers it. *)
Class ProviderPort (W : Type) := {
  Provider_Evaluate : Provider.Request → W → W * res Provider.Response
}.

(** [time.Now], [uuid.New] and [crypto/rand.Read]. *)
Class Runtime (W : Type) := {
  world_now : W → W * time;
  world_newID : W → W * uuid;
  rand_Read : Z → W → W * res string
}.

(** None of them touches the database, and the randomness asked for is returned. *)
Class OutsideLaws (W : Type) `{Database W} `{ProviderPort W} `{Runtime W} := {
  provider_frame q w : tables (Provider_Evaluate q w).1 = tables w;
  now_frame w : tables (world_now w).1 = tables w;
  newID_frame w : tables (world_newID w).1 = tables w;
  rand_frame n w : tables (rand_Read n w).1 = tables w;
  now_scope w : scope w (world_now w).1;
  rand_length n w bytes : 0 <= n → (rand_Read n w).2 = Ok bytes → strlen bytes = n
}.

(** ** Calls that leave the service *)
Inductive event : Set :=
  | EvProviderEvaluate (request : Provider.Request)
  | EvProviderCallStarted
  | EvProviderCallFinished
  | EvObserveProviderCall (attempts : Z)
  | EvObserveTokens (model : string) (input output : Z)
  | EvObserveEvaluation (policyKind outcome executionPath : string) (milliseconds : Z)
  | EvObserveRetentionRun (failed : bool) (deletedByOperation : gmap string Z).

(** ** The monad *)
Record St (W : Type) : Type := MkSt { st_world : W; st_events : list event }.
Arguments MkSt {W} _ _.
Arguments st_world {W} _.
Arguments st_events {W} _.

Definition M (W A : Type) : Type := St W → St W * res A.

#[export] Instance M_ret W : MRet (M W) := λ A a s, (s, Ok a).
#[export] Instance M_bind W : MBind (M W) := λ A B f m s,
  match m s with
  | (s', Ok a) => f a s'
  | (s', Err e) => (s', Err e)
  end.

Section operations.
Context {W : Type}.

(** A pure result. *)
Definition lift {A} (r : res A) : M W A := λ s, (s, r).
Definition fail {A} (e : goerr) : M W A := λ s, (s, Err e).

(** A call on the world. *)
Definition call {A} (f : W → W * res A) : M W A := λ s,
  let p := f (st_world s) in (MkSt p.1 (st_events s), p.2).
Definition ask {A} (f : W → W * A) : M W A := λ s,
  let p := f (st_world s) in (MkSt p.1 (st_events s), Ok p.2).

Definition emit (e : event) : M W unit := λ s,
  (MkSt (st_world s) (st_events s ++ [e]), Ok tt).

(** The measurement the recorder panics on: a counter cannot go down
    ([Metrics.token_panic_exact]). *)
Definition refused (e : event) : bool :=
  match e with
  | EvObserveTokens model input output =>
      negb (bool_decide (model = "")) && ((input <? 0) || (output <? 0))
  | _ => false
  end.

Definition counterPanic : goerr := EForeign "panic: counter cannot decrease in value".

(** A measurement that may panic.  A panic ends the run as an error that no method looks
    at; deferred calls still run. *)
Definition observe (e : event) : M W unit := λ s,
  (MkSt (st_world s) (st_events s ++ [e]), if refused e then Err counterPanic else Ok tt).

(** Whether a run panicked: one of the measurements it asked for was refused. *)
Definition panicked (s s' : St W) : bool :=
  existsb refused (drop (length (st_events s)) (st_events s')).

(** Look at the error of a call instead of returning it. *)
Definition attempt {A} (m : M W A) : M W (res A) := λ s, let p := m s in (p.1, Ok p.2).

(** The same around a method that may panic: a panic goes through. *)
Definition settle {A} (m : M W A) : M W (res A) := λ s,
  let p := m s in
  match p.2 with
  | Ok a => (p.1, Ok (Ok a))
  | Err e => (p.1, if panicked s p.1 then Err e else Ok (Err e))
  end.

(** [defer] of an emission. *)
Definition deferring {A} (e : event) (m : M W A) : M W A := λ s,
  let p := m s in (MkSt (st_world p.1) (st_events p.1 ++ [e]), p.2).

(** [Transaction(fn)]; the trace is carried through. *)
Definition transaction `{Database W} (m : M W unit) : M W unit := λ s,
  let p := Transaction (list event)
    (λ wx, let q := m (MkSt wx.1 wx.2) in ((st_world q.1, st_events q.1), q.2))
    (st_world s, st_events s) in
  (MkSt p.1.1 p.1.2, p.2).

Definition when (b : bool) (m : M W unit) : M W unit := if b then m else mret tt.

End operations.

(** A run that succeeds goes through a success of its first step. *)
Lemma M_bind_Ok {W A B} (m : M W A) (f : A → M W B) s s' b :
  (m ≫= f) s = (s', Ok b) ↔ ∃ s1 a, m s = (s1, Ok a) ∧ f a s1 = (s', Ok b).
Proof.
  unfold mbind, M_bind. destruct (m s) as [s1 [a|e]].
  - split; [intros H; by exists s1, a|]. intros (? & ? & ? & ?). by simplify_eq.
  - split; [done|]. intros (? & ? & ? & ?). by simplify_eq.
Qed.

Lemma M_bind_run {W A B} (m : M W A) (f : A → M W B) s :
  (m ≫= f) s = match m s with (s', Ok a) => f a s' | (s', Err e) => (s', Err e) end.
Proof. done. Qed.

Lemma M_ret_inv {W A} (a b : A) (s s' : St W) :
  (mret a : M W A) s = (s', Ok b) → s = s' ∧ a = b.
Proof. by intros [= -> ->]. Qed.

Lemma M_bind_Err {W A B} (m : M W A) (f : A → M W B) s s' e :
  (m ≫= f) s = (s', Err e) →
  m s = (s', Err e) ∨ ∃ s1 a, m s = (s1, Ok a) ∧ f a s1 = (s', Err e).
Proof. unfold mbind, M_bind. destruct (m s) as [s1 [a|e']]; [eauto|]. intros [= -> ->]. auto. Qed.

(** A pure first step keeps the state. *)
Lemma M_lift_Err {W A B} (r : res A) (f : A → M W B) s s' e :
  (lift r ≫= f) s = (s', Err e) →
  (s' = s ∧ r = Err e) ∨ ∃ a, r = Ok a ∧ f a s = (s', Err e).
Proof. unfold mbind, M_bind, lift. destruct r; [eauto|]. intros [= -> ->]. auto. Qed.
