(* ===== verification/Loader.v ===== *)
(** * Loading policies: [internal/pkg/policy/loader.go]

    Parsing one document, the immutable policy set, and the directory scan.  The
    YAML decoder and the file system are parameters; [path/filepath] is modelled
    as far as the loader uses it. *)

From S2P Require Import Prelude GoFloat GoAny Decision Document CompileQuestion Compile.
From Stdlib Require Import Ascii.
From stdpp Require Import options.
#[local] Open Scope Z_scope.

(** ** The parameters *)

(** [gopkg.in/yaml.v3] with [KnownFields(true)]: the first [Decode] into a
    [Document], and whether the second one returns [io.EOF]. *)
Class YamlDecoder := {
  yaml_Decode : string → res Document;
  yaml_trailing_EOF : string → bool
}.

Record FileInfo : Set := MkFileInfo {
  fi_Symlink : bool;    (** [Mode()&os.ModeSymlink != 0] *)
  fi_Regular : bool;    (** [Mode().IsRegular()] *)
  fi_Size : Z
}.

(** [os.ReadDir] (entry names), [os.Lstat] and [os.ReadFile]. *)
Class FileSystem := {
  os_ReadDir : string → res (list string);
  os_Lstat : string → res FileInfo;
  os_ReadFile : string → res string
}.

(** ** [path/filepath] on Unix and [strings.ToLower] on extensions *)
Definition slash : ascii := "/"%char.
Definition dot : ascii := "."%char.

(** Split on a character. *)
Fixpoint split_on (c : ascii) (l : list ascii) : list (list ascii) :=
  match l with
  | [] => [[]]
  | x :: l' =>
      if decide (x = c) then [] :: split_on c l'
      else match split_on c l' with
           | [] => [[x]]
           | s :: r => (x :: s) :: r
           end
  end.

(** The element after the last slash. *)
Definition last_element (l : list ascii) : list ascii := default [] (list.last (split_on slash l)).

Fixpoint drop_slashes (l : list ascii) : list ascii :=
  match l with
  | x :: l' => if decide (x = slash) then drop_slashes l' else l
  | [] => []
  end.

Definition filepath_Base (path : string) : string :=
  let l := String.list_ascii_of_string path in
  match l with
  | [] => "."
  | _ => match last_element (reverse (drop_slashes (reverse l))) with
         | [] => "/"
         | e => String.string_of_list_ascii e
         end
  end.

(** From the last dot of the last element, or empty. *)
Definition filepath_Ext (path : string) : string :=
  let e := last_element (String.list_ascii_of_string path) in
  match split_on dot e with
  | _ :: (_ :: _) as parts =>
      String.string_of_list_ascii (dot :: default [] (list.last parts))
  | _ => ""
  end.

(** [filepath.Clean]: the elements kept, last first. *)
Definition clean_step (rooted : bool) (kept : list (list ascii)) (e : list ascii)
  : list (list ascii) :=
  if decide (e = [] ∨ e = [dot]) then kept
  else if decide (e = [dot; dot]) then
    match kept with
    | top :: rest => if decide (top = [dot; dot]) then e :: kept else rest
    | [] => if rooted then [] else [e]
    end
  else e :: kept.

Fixpoint join_slash (l : list (list ascii)) : list ascii :=
  match l with
  | [] => []
  | [x] => x
  | x :: l' => x ++ slash :: join_slash l'
  end.

Definition filepath_Clean (path : string) : string :=
  let l := String.list_ascii_of_string path in
  let rooted := match l with c :: _ => bool_decide (c = slash) | [] => false end in
  let kept := join_slash (reverse (foldl (clean_step rooted) [] (split_on slash l))) in
  match rooted, kept with
  | true, _ => String.string_of_list_ascii (slash :: kept)
  | false, [] => "."
  | false, _ => String.string_of_list_ascii kept
  end.

(** [filepath.Join] of a non-empty directory and a name. *)
Definition filepath_Join (dir name : string) : string :=
  filepath_Clean (dir +:+ "/" +:+ name).

(** ASCII lower case: enough to compare with [.yaml] and [.yml], since no other
    letter lowers to one of theirs. *)
Definition lower (c : ascii) : ascii :=
  if in_range 0x41 0x5A c then ascii_of_N (byte c + 32) else c.
Definition strings_ToLower (s : string) : string :=
  String.string_of_list_ascii (lower <$> String.list_ascii_of_string s).

Example filepath_Clean_ex :
  filepath_Join "/etc//vibe/./x/../" "p.yaml" = "/etc/vibe/p.yaml" ∧
  filepath_Ext "/a.b/router.YAML" = ".YAML" ∧ filepath_Base "a/b/" = "b".
Proof. vm_compute. done. Qed.

Module Loader.
Import CompileQuestion Compile.

Definition DefaultMaxPolicyBytes : Z := 262144.

Definition isPolicyExtension (ext : string) : bool :=
  bool_decide (ext = ".yaml") || bool_decide (ext = ".yml").

Definition resolveMaxBytes (maxBytes : Z) : Z :=
  if bool_decide (maxBytes <= 0) then DefaultMaxPolicyBytes else maxBytes.

(** ** One document *)
Section parse.
Context `{YamlDecoder}.

Definition ParseDocument (data : string) (maxBytes : Z) : res Document :=
  guard_err (bool_decide (resolveMaxBytes maxBytes < strlen data)) ErrPolicyTooLarge ;;
  guard_err (bool_decide (trim_space data = "")) ErrInvalidDocument ;;
  doc ← replace_err ErrInvalidDocument (yaml_Decode data);
  guard_err (negb (yaml_trailing_EOF data)) ErrInvalidDocument ;;
  Ok doc.

Definition CompileBytesWithMaxQuestions (data : string) (maxBytes maxQuestions : Z)
  : res Compiled :=
  doc ← ParseDocument data maxBytes;
  CompileWithMaxQuestions (Some doc) maxQuestions.

Definition CompileBytes (data : string) (maxBytes : Z) : res Compiled :=
  CompileBytesWithMaxQuestions data maxBytes MaxQuestions.
End parse.

(** ** The policy set *)
Record Set_ : Set := MkSet {
  byRef : gmap Ref Compiled;
  refs : list Ref
}.

(** The order [sort.Slice] is given, made reflexive. *)
Definition ref_le (a b : Ref) : Prop :=
  (ref_Name a ≠ ref_Name b ∧ str_le (ref_Name a) (ref_Name b)) ∨
  (ref_Name a = ref_Name b ∧ str_le (ref_Version a) (ref_Version b)).

#[export] Instance ref_le_dec a b : Decision (ref_le a b).
Proof. unfold ref_le. apply _. Defined.

Definition NewSet (policies : list Compiled) : res Set_ :=
  set ← res_foldM (λ set compiled,
    guard_err (bool_decide (is_Some (byRef set !! c_Ref compiled))) ErrDuplicatePolicy ;;
    Ok (MkSet (<[c_Ref compiled := compiled]> (byRef set)) (refs set ++ [c_Ref compiled])))
    (MkSet ∅ []) policies;
  Ok (MkSet (byRef set) (merge_sort ref_le (refs set))).

Definition Get (s : Set_) (ref : Ref) : option Compiled := byRef s !! ref.

Definition Len (s : Set_) : Z := len (refs s).

Definition Refs (s : Set_) : list Ref := refs s.

(** Every reference of a set is a key, so no entry is the nil pointer. *)
Definition All (s : Set_) : list Compiled := omap (λ ref, byRef s !! ref) (refs s).

(** ** The directory *)
Section directory.
Context `{YamlDecoder} `{FileSystem}.

Definition checkRegularFile (info : FileInfo) : res unit :=
  guard_err (fi_Symlink info) ErrUnsafePolicyPath ;;
  guard_err (negb (fi_Regular info)) ErrUnsafePolicyPath.

Definition loadPolicyFile (dir name : string) (maxBytes maxQuestions : Z) : res Compiled :=
  guard_err (negb (bool_decide (name = filepath_Base name))) ErrUnsafePolicyPath ;;
  let path := filepath_Join dir name in
  info ← os_Lstat path;
  checkRegularFile info ;;
  guard_err (bool_decide (resolveMaxBytes maxBytes < fi_Size info)) ErrPolicyTooLarge ;;
  data ← os_ReadFile path;
  CompileBytesWithMaxQuestions data maxBytes maxQuestions.

Definition policyNames (entries : list string) : list string :=
  merge_sort str_le
    (filter (λ name, isPolicyExtension (strings_ToLower (filepath_Ext name)) = true) entries).

Definition LoadDirWithMaxQuestions (dir : string) (maxBytes maxQuestions : Z) : res Set_ :=
  if decide (dir = "") then NewSet []
  else
    entries ← os_ReadDir dir;
    policies ← res_mapM (λ name, loadPolicyFile dir name maxBytes maxQuestions)
                 (policyNames entries);
    NewSet policies.

Definition LoadDir (dir : string) (maxBytes : Z) : res Set_ :=
  LoadDirWithMaxQuestions dir maxBytes MaxQuestions.
End directory.

(** ** What a set holds *)
#[export] Instance ref_le_total : Total ref_le.
Proof.
  intros a b. unfold ref_le. destruct (decide (ref_Name a = ref_Name b)) as [E|E].
  - destruct (total str_le (ref_Version a) (ref_Version b)); auto.
  - destruct (total str_le (ref_Name a) (ref_Name b)); auto.
Qed.

#[export] Instance ref_le_trans : Transitive ref_le.
Proof.
  intros a b c [[H1 H2]|[H1 H2]] [[H3 H4]|[H3 H4]]; unfold ref_le.
  - left. split; [|by etrans]. intros E. rewrite E in *. apply H1.
    by apply (anti_symm str_le).
  - left. rewrite <- H3. done.
  - left. rewrite H1. done.
  - right. split; [congruence|by etrans].
Qed.

(** An indexed set: the references are the keys, once each, in order, and each key
    is the identity of its policy. *)
Record set_inv (policies : list Compiled) (s : Set_) : Prop := {
  si_refs : refs s ≡ₚ c_Ref <$> policies;
  si_nodup : NoDup (refs s);
  si_get : ∀ ref c, byRef s !! ref = Some c ↔ c ∈ policies ∧ c_Ref c = ref
}.

Lemma NewSet_Ok policies s :
  NewSet policies = Ok s → set_inv policies s ∧ Sorted ref_le (refs s).
Proof.
  unfold NewSet. intros (u & Hrun & [= <-])%bind_Ok.
  apply (res_foldM_inv _ set_inv) in Hrun as [Hr Hn Hg].
  - simpl. split; [split; simpl|apply Sorted_merge_sort; apply _].
    + by rewrite merge_sort_Permutation.
    + by rewrite merge_sort_Permutation.
    + done.
  - split; simpl; [done|constructor|]. intros ref c. rewrite lookup_empty. set_solver.
  - intros done c [m rs] s2 [Hr Hn Hg] Hs. inv_ok. simpl in *.
    apply bool_decide_eq_false in Hok. split; simpl.
    + by rewrite fmap_app, Hr.
    + apply list.NoDup_app. split; [done|]. split; [|apply NoDup_singleton].
      intros x Hx ->%list_elem_of_singleton. apply Hok.
      rewrite Hr in Hx. apply list_elem_of_fmap in Hx as (c' & E & Hc').
      exists c'. by apply Hg.
    + intros ref c'. destruct (decide (ref = c_Ref c)) as [->|Hne].
      * rewrite lookup_insert_eq, elem_of_app, list_elem_of_singleton. split.
        -- intros [= ->]. auto.
        -- intros [[Hc'| ->] E]; [|done]. exfalso. apply Hok. exists c'. by apply Hg.
      * rewrite lookup_insert_ne by done. rewrite Hg, elem_of_app, list_elem_of_singleton.
        naive_solver.
Qed.

(** The only failure is a repeated identity. *)
Lemma NewSet_fail policies e :
  NewSet policies = Err e → e = EIs ErrDuplicatePolicy.
Proof.
  unfold NewSet. intros [H|(s & _ & H)]%bind_Err; [|done].
  apply res_foldM_Err in H as (s & c & _ & [H|(_ & _ & H)]%bind_Err); [|done].
  by apply guard_err_Err in H as [_ ->].
Qed.

Lemma NewSet_distinct policies :
  NoDup (c_Ref <$> policies) → ∃ s, NewSet policies = Ok s.
Proof.
  intros Hn. destruct (NewSet policies) as [s|e] eqn:E; [eauto|]. exfalso.
  unfold NewSet in E. apply bind_Err in E as [E|(s & _ & E)]; [|done].
  cut (∀ l s0, NoDup (c_Ref <$> l) → (∀ c, c ∈ l → byRef s0 !! c_Ref c = None) →
    res_foldM (λ set compiled,
      guard_err (bool_decide (is_Some (byRef set !! c_Ref compiled))) ErrDuplicatePolicy ;;
      Ok (MkSet (<[c_Ref compiled := compiled]> (byRef set)) (refs set ++ [c_Ref compiled])))
      s0 l ≠ Err e).
  { intros Hcut. apply (Hcut policies (MkSet ∅ [])); [done| |done]. intros c _. done. }
  clear. induction l as [|c l IH]; intros s0 Hn Hf; simpl; [done|].
  rewrite (Hf c) by by left. rewrite bool_decide_eq_false_2 by by intros []. simpl.
  inversion Hn as [|? ? Hc Hl]; subst. apply IH; [done|].
  intros d Hd. simpl. rewrite lookup_insert_ne; [by apply Hf; right|].
  intros E. apply Hc. rewrite E. by apply list_elem_of_fmap_2.
Qed.

(** [All] lists every policy once. *)
Lemma All_Permutation policies s : set_inv policies s → NoDup (c_Ref <$> policies) →
  All s ≡ₚ policies.
Proof.
  intros [Hr _ Hg] Hn. unfold All. rewrite Hr. clear Hr.
  assert (∀ l, l ⊆ policies →
    omap (λ ref, byRef s !! ref) (c_Ref <$> l) = l) as Hl.
  { induction l as [|c l IH]; intros Hsub; simpl; [done|].
    assert (byRef s !! c_Ref c = Some c) as ->.
    { apply Hg. split; [apply Hsub; by left|done]. }
    f_equal. apply IH. intros x Hx. apply Hsub. by right. }
  by rewrite Hl.
Qed.

(** [All] is in the order of [Refs]. *)
Lemma All_refs policies s : set_inv policies s → c_Ref <$> All s = refs s.
Proof.
  intros [Hr _ Hg]. unfold All.
  assert (∀ l, l ⊆ c_Ref <$> policies → c_Ref <$> omap (λ ref, byRef s !! ref) l = l) as Hl.
  { induction l as [|ref l IH]; intros Hsub; simpl; [done|].
    assert (ref ∈ c_Ref <$> policies) as (c & E & Hc)%list_elem_of_fmap by (apply Hsub; by left).
    assert (byRef s !! ref = Some c) as -> by by apply Hg.
    simpl. rewrite <- E. f_equal. apply IH. intros x Hx. apply Hsub. by right. }
  apply Hl. intros ref Hin. by rewrite <- Hr.
Qed.

Section directory_spec.
Context `{YamlDecoder} `{FileSystem}.

(** A policy file that was read and compiled. *)
Record loaded_from (dir : string) (maxBytes maxQuestions : Z) (name : string) (c : Compiled)
  : Prop := {
  lf_plain : filepath_Base name = name;
  lf_info : ∃ info, os_Lstat (filepath_Join dir name) = Ok info ∧ fi_Symlink info = false ∧
    fi_Regular info = true ∧ fi_Size info <= resolveMaxBytes maxBytes;
  lf_data : ∃ data, os_ReadFile (filepath_Join dir name) = Ok data ∧
    CompileBytesWithMaxQuestions data maxBytes maxQuestions = Ok c
}.

Lemma loadPolicyFile_Ok dir name maxBytes maxQuestions c :
  loadPolicyFile dir name maxBytes maxQuestions = Ok c ↔
  loaded_from dir maxBytes maxQuestions name c.
Proof.
  unfold loadPolicyFile, checkRegularFile. rewrite seq_Ok, guard_err_Ok, negb_false_iff,
    bool_decide_eq_true, bind_Ok. split.
  - intros (Hb & info & Hi & Hrest). rewrite !seq_Ok, !guard_err_Ok in Hrest.
    destruct Hrest as ([Hs Hr%negb_false_iff] & Hsz%bool_decide_eq_false & Hd).
    apply bind_Ok in Hd as (data & Hd & Hc). split; [done| |eauto].
    exists info. repeat split; try done. lia.
  - intros [Hb (info & Hi & Hs & Hr & Hsz) (data & Hd & Hc)]. split; [done|].
    exists info. split; [done|]. rewrite Hs, Hr. simpl.
    rewrite bool_decide_eq_false_2 by lia. simpl. rewrite Hd. done.
Qed.

Lemma LoadDir_Ok dir maxBytes maxQuestions s :
  dir ≠ "" → LoadDirWithMaxQuestions dir maxBytes maxQuestions = Ok s →
  ∃ entries policies, os_ReadDir dir = Ok entries ∧
    Forall2 (loaded_from dir maxBytes maxQuestions) (policyNames entries) policies ∧
    NewSet policies = Ok s.
Proof.
  intros Hd. unfold LoadDirWithMaxQuestions. rewrite decide_False by done.
  intros (entries & He & (policies & Hp & Hs)%bind_Ok)%bind_Ok.
  exists entries, policies. split; [done|]. split; [|done].
  apply res_mapM_Ok in Hp. eapply list.Forall2_impl; [exact Hp|].
  intros name c. apply loadPolicyFile_Ok.
Qed.

Lemma elem_of_policyNames entries name :
  name ∈ policyNames entries ↔
  name ∈ entries ∧ isPolicyExtension (strings_ToLower (filepath_Ext name)) = true.
Proof.
  unfold policyNames. rewrite merge_sort_Permutation, list_elem_of_filter. tauto.
Qed.
End directory_spec.

End Loader.
