(* ===== verification/Policies.v ===== *)
(** * The policies service

    [internal/pkg/core/policies]: lookups in the loaded set, the public projection
    of a compiled policy and the validation of a submitted document. *)

From S2P Require Import Prelude GoFloat GoAny Decision Document Canonical Compile Loader.
From stdpp Require Import options.
#[local] Open Scope Z_scope.

Module Policies.

(** ** The generated API shapes ([internal/pkg/http/api]); a pointer is an option *)
Record PolicyQuestion : Set := MkPolicyQuestion {
  apq_Id : string;
  apq_Type : string;
  apq_Instructions : goany;
  apq_ChoiceCriteria : option (gmap string goany);
  apq_NoulCriteria : option (gmap string goany);
  apq_ScoreCriteria : option (list goany)
}.

Record Policy : Set := MkPolicy {
  ap_Name : string;
  ap_Version : string;
  ap_Description : option string;
  ap_Hash : string;
  ap_Model : option string;
  ap_Outcomes : list string;
  ap_DefaultOutcome : string;
  ap_RequiredFacts : option (gmap string string);
  ap_OptionalFacts : option (gmap string string);
  ap_StrictInput : option bool;
  ap_Questions : list PolicyQuestion;
  ap_PreRuleIds : option (list string);
  ap_DecisionRuleIds : option (list string)
}.

Record PolicyValidation : Set := MkPolicyValidation {
  apv_Valid : bool;
  apv_Policy : option Policy;
  apv_Error : option goerr       (** the error whose text is reported *)
}.

(** ** Converters *)
Definition optionalString (value : string) : option string :=
  if decide (value = "") then None else Some value.

(** A copied map or slice, or no pointer when empty. *)
Definition optionalMap {V} (source : gmap string V) : option (gmap string V) :=
  if decide (msize source > 0) then Some source else None.
Definition optionalList {A} (source : list A) : option (list A) :=
  if decide (len source > 0) then Some source else None.

Definition factTypesToAPI (source : gmap string FactType) : option (gmap string string) :=
  if decide (msize source = 0) then None else Some source.

Definition ruleIDsToAPI (rules : list CompiledRule) : option (list string) :=
  if decide (len rules = 0) then None else Some (cr_ID <$> rules).

Definition questionToAPI (question : CompiledQuestion) : PolicyQuestion :=
  MkPolicyQuestion (cq_ID question) (cq_Type question) (cq_Instructions question)
    (optionalMap (cq_ChoiceCriteria question))
    (optionalMap (default ∅ (cq_NoulCriteria question)))
    (optionalList (cq_ScoreCriteria question)).

Definition CompiledToAPI (compiled : Compiled) : Policy := {|
  ap_Name := ref_Name (c_Ref compiled);
  ap_Version := ref_Version (c_Ref compiled);
  ap_Description := optionalString (c_Description compiled);
  ap_Hash := c_Hash compiled;
  ap_Model := optionalString (c_Model compiled);
  ap_Outcomes := c_Outcomes compiled;
  ap_DefaultOutcome := c_DefaultOutcome compiled;
  ap_RequiredFacts := factTypesToAPI (c_RequiredFacts compiled);
  ap_OptionalFacts := factTypesToAPI (c_OptionalFacts compiled);
  ap_StrictInput := Some (c_StrictInput compiled);
  ap_Questions :=
    (λ id, questionToAPI (default Canonical.zeroQuestion (c_Questions compiled !! id))) <$>
      c_QuestionIDs compiled;
  ap_PreRuleIds := ruleIDsToAPI (c_PreRules compiled);
  ap_DecisionRuleIds := ruleIDsToAPI (c_DecisionRules compiled)
|}.

(** A decoded JSON object, re-encoded for the one policy parser. *)
Definition encodeDocument (document : list (string * goany)) : res string :=
  match marshal (AMap document) with
  | None => Err (EIs ErrMarshalFailed)
  | Some tree => Ok (json_text tree)
  end.

(** ** The service *)
Record Service : Set := MkService {
  psv_set : Loader.Set_;
  psv_maxPolicyBytes : Z;
  psv_maxQuestions : Z
}.

Definition NewWithMaxQuestions (set : Loader.Set_) (maxPolicyBytes maxQuestions : Z) : Service :=
  MkService set maxPolicyBytes maxQuestions.

Definition New (set : Loader.Set_) (maxPolicyBytes : Z) : Service :=
  NewWithMaxQuestions set maxPolicyBytes MaxQuestions.

(** [Service.Compiled] *)
Definition Service_Compiled (s : Service) (ref : Ref) : res Compiled :=
  match Loader.Get (psv_set s) ref with
  | None => Err (EIs ErrNotFound)
  | Some compiled => Ok compiled
  end.

Definition List (s : Service) : list Policy := CompiledToAPI <$> Loader.All (psv_set s).

Definition Get (s : Service) (name version : string) : res Policy :=
  compiled ← Service_Compiled s (MkRef name version);
  Ok (CompiledToAPI compiled).

Definition Validate `{YamlDecoder} (s : Service) (document : list (string * goany))
  : res PolicyValidation :=
  guard_err (bool_decide (len document = 0)) ErrValidationFailed ;;
  encoded ← encodeDocument document;
  match Loader.CompileBytesWithMaxQuestions encoded (psv_maxPolicyBytes s)
          (psv_maxQuestions s) with
  | Err compileErr => Ok (MkPolicyValidation false None (Some compileErr))
  | Ok compiled => Ok (MkPolicyValidation true (Some (CompiledToAPI compiled)) None)
  end.

End Policies.
