(* ===== verification/Secrets.v ===== *)
(** * Sealing retained input: [internal/pkg/secrets/secrets.go]

    AES-256-GCM and base64 are parameters ([AEADConstruction]): the class gives the
    interface of [cipher.AEAD] and its laws are what GCM promises of its own output. *)

From S2P Require Import Prelude GoAny Store Effects.
From stdpp Require Import options.
#[local] Open Scope Z_scope.

Lemma substring_prefix a b : String.substring 0 (String.length a) (a +:+ b) = a.
Proof. induction a as [|c a IH]; simpl; [by destruct b|]. by rewrite IH. Qed.

Lemma substring_all b : String.substring 0 (String.length b) b = b.
Proof. induction b as [|c b IH]; simpl; [done|]. by rewrite IH. Qed.

Lemma substring_suffix a b :
  String.substring (String.length a) (String.length b) (a +:+ b) = b.
Proof. induction a as [|c a IH]; simpl; [apply substring_all|done]. Qed.

(** A [cipher.AEAD] value. *)
Record AEAD : Type := MkAEAD {
  NonceSize : Z;
  aead_Seal : string → string → string;             (** nonce, plaintext *)
  aead_Open : string → string → option string       (** nonce, ciphertext *)
}.

(** [encoding/base64], [aes.NewCipher] with [cipher.NewGCM]. *)
Class AEADConstruction := {
  base64_DecodeString : string → option string;
  base64_EncodeToString : string → string;
  new_gcm : string → res AEAD
}.

Class AEADLaws `{AEADConstruction} := {
  base64_roundtrip s : base64_DecodeString (base64_EncodeToString s) = Some s;
  gcm_key_length key : strlen key = 32 → ∃ a, new_gcm key = Ok a;
  gcm_nonce_size key a : new_gcm key = Ok a → 0 <= NonceSize a;
  gcm_open_seal key a nonce plain : new_gcm key = Ok a → strlen nonce = NonceSize a →
    aead_Open a nonce (aead_Seal a nonce plain) = Some plain
}.

Module Secrets.

Definition DataKeyBytes : Z := 32.

(** [*Sealer]: [None] is the nil pointer; the cipher inside may itself be nil. *)
Record Sealer : Type := MkSealer { sealer_aead : option AEAD }.

Section sealer.
Context `{AEADConstruction}.

Definition NewSealer (base64Key : string) : res Sealer :=
  guard_err (bool_decide (base64Key = "")) ErrRequiredConfigValueNotSet ;;
  match base64_DecodeString base64Key with
  | None => Err (EIs ErrInvalidValue)
  | Some key =>
      guard_err (negb (bool_decide (strlen key = DataKeyBytes))) ErrInvalidValue ;;
      aead ← new_gcm key;
      Ok (MkSealer (Some aead))
  end.
End sealer.

(** The cipher of a sealer that can encrypt. *)
Definition cipher_of (s : option Sealer) : option AEAD := s ≫= sealer_aead.

Definition Enabled (s : option Sealer) : bool := match cipher_of s with Some _ => true | None => false end.

Section effects.
Context {W : Type} `{Runtime W}.

(** [nonce||ciphertext]; [None] is the nil slice of a disabled sealer. *)
Definition Seal (s : option Sealer) (plaintext : string) : M W (option string) :=
  match cipher_of s with
  | None => mret None
  | Some aead =>
      nonce ← call (rand_Read (NonceSize aead));
      mret (Some (nonce +:+ aead_Seal aead nonce plaintext))
  end.

Definition GenerateDataKey `{AEADConstruction} : M W string :=
  key ← call (rand_Read DataKeyBytes);
  mret (base64_EncodeToString key).
End effects.

Definition Open (s : option Sealer) (sealed : string) : res string :=
  match cipher_of s with
  | None => Err (EIs ErrUnavailable)
  | Some aead =>
      let nonceSize := NonceSize aead in
      guard_err (bool_decide (strlen sealed < nonceSize)) ErrInvalidValue ;;
      let nonce := String.substring 0 (Z.to_nat nonceSize) sealed in
      let rest := String.substring (Z.to_nat nonceSize)
                    (String.length sealed - Z.to_nat nonceSize) sealed in
      match aead_Open aead nonce rest with
      | None => Err (EIs ErrParseFailed)
      | Some plaintext => Ok plaintext
      end
  end.

(** A sealer built from a key. *)
Definition keyed_sealer `{AEADConstruction} (s : option Sealer) : Prop :=
  ∀ aead, cipher_of s = Some aead → ∃ key, new_gcm key = Ok aead.

Lemma NewSealer_keyed `{AEADConstruction} base64Key sealer :
  NewSealer base64Key = Ok sealer → keyed_sealer (Some sealer) ∧ Enabled (Some sealer) = true.
Proof.
  unfold NewSealer. intros [_ Hs]%seq_Ok. destruct (base64_DecodeString base64Key); [|done].
  apply seq_Ok in Hs as [_ (aead & Ha & [= <-])%bind_Ok]. split; [|done].
  intros a [= <-]. eauto.
Qed.

(** What was sealed opens. *)
Lemma Open_Seal `{AEADLaws} {W} `{OutsideLaws W} s plaintext st st' sealed :
  keyed_sealer s → Seal s plaintext st = (st', Ok (Some sealed)) →
  Open s sealed = Ok plaintext.
Proof.
  intros Hk. unfold Seal, Open. destruct (cipher_of s) as [aead|] eqn:Ec.
  2: { by intros []%M_ret_inv. }
  destruct (Hk aead Ec) as [key Hkey]. pose proof (gcm_nonce_size key aead Hkey) as Hpos.
  intros (st1 & nonce & Hc & [_ [= <-]]%M_ret_inv)%M_bind_Ok.
  assert (strlen nonce = NonceSize aead) as Hn.
  { unfold call in Hc. injection Hc as _ Hc. by eapply rand_length. }
  unfold strlen in *. rewrite length_append in *.
  rewrite bool_decide_eq_false_2 by lia. simpl.
  replace (Z.to_nat (NonceSize aead)) with (String.length nonce) by lia.
  rewrite substring_prefix, Nat.add_comm, Nat.add_sub, substring_suffix.
  by rewrite (gcm_open_seal key) by done.
Qed.

End Secrets.
