(* ===== verification/EvalConvert.v ===== *)
(** * The evaluation service: converters and request checks

    [internal/pkg/core/evaluations/{converters,validate,errors}.go]: the request,
    the ceilings on it, the audit row's JSON columns and the public projection. *)

From S2P Require Import Prelude GoFloat GoAny GoJson Decision Document.
From S2P Require Import Store Effects Loader Policies.
From stdpp Require Import options.
#[local] Open Scope Z_scope.

Module EvalConvert.

(** ** Requests and configuration ([service.go]) *)
Definition PolicyKind : Set := string.
Definition PolicyKindNamed : PolicyKind := "named".
Definition PolicyKindInline : PolicyKind := "inline".

Record Config : Set := MkConfig {
  cfg_AllowInlinePolicies : bool;
  cfg_MaxPolicyBytes : Z;
  cfg_MaxStateBytes : Z;
  cfg_MaxQuestions : Z;
  cfg_MaxFacts : Z;
  cfg_MaxMetadataEntries : Z;
  cfg_MaxMetadataValueLength : Z;
  cfg_StoreInputs : bool;
  cfg_IdempotencyRetention : duration
}.

(** [Facts] and [Metadata] are [None] for a nil map, which encodes as [null]. *)
Record CreateInput : Set := MkCreateInput {
  ci_PolicyRef : option Ref;
  ci_InlinePolicy : list (string * goany);
  ci_State : goany;
  ci_Facts : option Facts;
  ci_Metadata : option (gmap string string);
  ci_IdempotencyKey : string;
  ci_RequestID : string
}.

Definition facts_of (input : CreateInput) : Facts := default ∅ (ci_Facts input).
Definition metadata_of (input : CreateInput) : gmap string string :=
  default ∅ (ci_Metadata input).

(** ** Failure codes ([errors.go]) *)
Definition FailureCode : Set := string.
Definition FailureCodeProviderAuth : FailureCode := "PROVIDER_AUTH_FAILED".
Definition FailureCodeProviderRateLimited : FailureCode := "PROVIDER_RATE_LIMITED".
Definition FailureCodeProviderUnavailable : FailureCode := "PROVIDER_UNAVAILABLE".
Definition FailureCodeProviderTimeout : FailureCode := "PROVIDER_TIMEOUT".
Definition FailureCodeProviderProtocol : FailureCode := "PROVIDER_PROTOCOL_ERROR".
Definition FailureCodeProviderRejected : FailureCode := "PROVIDER_REJECTED_REQUEST".
Definition FailureCodeInputInvalid : FailureCode := "INPUT_VALIDATION_FAILED".

(** ** Request ceilings ([validate.go]) *)
Definition isScalarFact (value : goany) : bool :=
  match value with
  | AString _ | ABool _ => true
  | _ => match AsNumber value with Some _ => true | None => false end
  end.

Definition validateStateSize (config : Config) (state : goany) : res unit :=
  match marshal state with
  | None => Err (EIs ErrValidationFailed)
  | Some encoded =>
      guard_err (bool_decide (0 < cfg_MaxStateBytes config) &&
                 bool_decide (cfg_MaxStateBytes config < strlen (json_text encoded)))
        ErrValidationFailed
  end.

Definition validateFactCount (config : Config) (facts : Facts) : res unit :=
  guard_err (bool_decide (0 < cfg_MaxFacts config) &&
             bool_decide (cfg_MaxFacts config < msize facts)) ErrValidationFailed ;;
  res_forM (λ name,
    guard_err (negb (IsFactName name)) ErrValidationFailed ;;
    guard_err (negb (isScalarFact (default ANil (facts !! name)))) ErrValidationFailed)
    (sorted_keys facts).

Definition validateMetadata (config : Config) (metadata : gmap string string) : res unit :=
  guard_err (bool_decide (0 < cfg_MaxMetadataEntries config) &&
             bool_decide (cfg_MaxMetadataEntries config < msize metadata)) ErrValidationFailed ;;
  res_forM (λ key,
    guard_err (negb (IsFactName key)) ErrValidationFailed ;;
    guard_err (bool_decide (0 < cfg_MaxMetadataValueLength config) &&
               bool_decide (cfg_MaxMetadataValueLength config <
                            strlen (default "" (metadata !! key)))) ErrValidationFailed)
    (sorted_keys metadata).

Definition validateRequestShape (config : Config) (input : CreateInput) : res unit :=
  validateStateSize config (ci_State input) ;;
  validateFactCount config (facts_of input) ;;
  validateMetadata config (metadata_of input).

(** ** JSON columns *)

(** A nil map is [null]; keys are sorted. *)
Definition map_json {V} (f : V → option json) (m : option (gmap string V)) : option json :=
  match m with
  | None => Some JNull
  | Some m => JObj <$> mapM (λ kv, (λ j, (kv.1, j)) <$> f kv.2) (amap_of m)
  end.

(** [null] for [state] when it is nil, and so on: the three fields the request hash
    and the retained input share. *)
Definition input_fields (input : CreateInput) : option (list (string * json)) :=
  state ← marshal (ci_State input);
  facts ← map_json marshal (ci_Facts input);
  metadata ← map_json (λ s, Some (JStr s)) (ci_Metadata input);
  Some [("state", state); ("facts", facts); ("metadata", metadata)].

(** An [omitempty] number field. *)
Definition omit_zero (name : string) (f : float64) : option (list (string * json)) :=
  if f64_eqb f f64_zero then Some [] else (λ t, [(name, JNum t)]) <$> f64_text f.

(** [decision.Answer] through its struct tags. *)
Definition answer_json (a : Answer) : option json :=
  score ← omit_zero "score" (ans_Score a);
  noul ← omit_zero "noul" (ans_Noul a);
  confidence ← omit_zero "confidence" (ans_Confidence a);
  probabilities ← (if decide (msize (ans_Probabilities a) = 0) then Some []
                   else (λ j, [("probabilities", j)]) <$>
                     map_json (λ f, JNum <$> f64_text f) (Some (ans_Probabilities a)));
  legend ← (if decide (msize (ans_Legend a) = 0) then Some []
            else (λ j, [("legend", j)]) <$> map_json marshal (Some (ans_Legend a)));
  Some (JObj (
    [("type", JStr (ans_Type a))] ++
    (if decide (ans_Choice a = "") then [] else [("choice", JStr (ans_Choice a))]) ++
    score ++ noul ++ confidence ++ [("hasConfidence", JBool (ans_HasConfidence a))] ++
    probabilities ++ legend)).

Definition encodeAnswers (answers : Answers) : res string :=
  match map_json answer_json (Some answers) with
  | None => Err (EIs ErrMarshalFailed)
  | Some tree => Ok (json_text tree)
  end.

(** The error is dropped by the caller, so only the text matters: a metadata map of
    strings always marshals. *)
Definition encodeMetadata (metadata : gmap string string) : string :=
  if decide (msize metadata = 0) then ""
  else match map_json (λ s, Some (JStr s)) (Some metadata) with
       | Some tree => json_text tree
       | None => ""
       end.

(** *** Decoding: [json.Unmarshal] into the tagged struct.  A [null] leaves a field as
    it is, a value of another type is an error, which the callers answer with the
    empty map.  The rows are written by [encodeAnswers], so keys match exactly. *)
Definition zeroAnswer : Answer := MkAnswer "" "" f64_zero f64_zero f64_zero false ∅ ∅.

Definition decode_float (current : float64) (j : json) : option float64 :=
  match j with JNull => Some current | JNum t => parse_float t | _ => None end.
Definition decode_string (current : string) (j : json) : option string :=
  match j with JNull => Some current | JStr s => Some s | _ => None end.
Definition decode_bool (current : bool) (j : json) : option bool :=
  match j with JNull => Some current | JBool b => Some b | _ => None end.

(** Into a map: [null] makes it nil, an object adds to it. *)
Definition decode_map {V} (f : json → option V) (current : gmap string V) (j : json)
  : option (gmap string V) :=
  match j with
  | JNull => Some ∅
  | JObj l => foldl (λ m kv, m ← m; v ← f kv.2; Some (<[kv.1 := v]> m)) (Some current) l
  | _ => None
  end.

Definition decode_field (a : Answer) (kv : string * json) : option Answer :=
  let 'MkAnswer t c s n f h p l := a in
  if decide (kv.1 = "type") then (λ t, MkAnswer t c s n f h p l) <$> decode_string t kv.2
  else if decide (kv.1 = "choice") then (λ c, MkAnswer t c s n f h p l) <$> decode_string c kv.2
  else if decide (kv.1 = "score") then (λ s, MkAnswer t c s n f h p l) <$> decode_float s kv.2
  else if decide (kv.1 = "noul") then (λ n, MkAnswer t c s n f h p l) <$> decode_float n kv.2
  else if decide (kv.1 = "confidence") then
    (λ f, MkAnswer t c s n f h p l) <$> decode_float f kv.2
  else if decide (kv.1 = "hasConfidence") then
    (λ h, MkAnswer t c s n f h p l) <$> decode_bool h kv.2
  else if decide (kv.1 = "probabilities") then
    (λ p, MkAnswer t c s n f h p l) <$> decode_map (decode_float f64_zero) p kv.2
  else if decide (kv.1 = "legend") then
    (λ l, MkAnswer t c s n f h p l) <$> decode_map (decode_any false) l kv.2
  else Some a.

Definition decode_answer (j : json) : option Answer :=
  match j with
  | JNull => Some zeroAnswer
  | JObj l => foldl (λ a kv, a ← a; decode_field a kv) (Some zeroAnswer) l
  | _ => None
  end.

Definition decodeAnswersJSON (encoded : string) : Answers :=
  if decide (encoded = "") then ∅
  else match json_parse encoded with
       | None => ∅
       | Some tree => default ∅ (decode_map decode_answer ∅ tree)
       end.

(** [None] is the nil map. *)
Definition decodeMetadataJSON (encoded : string) : option (gmap string string) :=
  if decide (encoded = "") then None
  else match json_parse encoded with
       | None => None
       | Some tree => decode_map (decode_string "") ∅ tree
       end.

(** ** The public shapes ([internal/pkg/http/api]) *)
Record APIAnswer : Set := MkAPIAnswer {
  aa_Type : string;
  aa_Noul : option float64;
  aa_Choice : option string;
  aa_Score : option float64;
  aa_Confidence : option float64;
  aa_Probabilities : option (gmap string float64);
  aa_Legend : option (gmap string goany)
}.

Record APIEvaluation : Set := MkAPIEvaluation {
  ae_Id : uuid;
  ae_Policy : Ref;
  ae_PolicyHash : string;
  ae_PolicyKind : string;
  ae_Status : string;
  ae_Outcome : string;
  ae_ExecutionPath : string;
  ae_Answers : gmap string APIAnswer;
  ae_Usage : Z * Z;
  ae_CreatedAt : time;
  ae_MatchedRuleId : option string;
  ae_FailureCode : option string;
  ae_RequestedModel : option string;
  ae_ResolvedModel : option string;
  ae_RequestId : option string;
  ae_ProviderAttempts : option Z;
  ae_ProviderDurationMs : option Z;
  ae_TotalDurationMs : option Z;
  ae_Metadata : option (gmap string string)
}.

Record APIFeedback : Set := MkAPIFeedback {
  af_Id : uuid;
  af_EvaluationId : uuid;
  af_ExpectedOutcome : string;
  af_Note : option string;
  af_CreatedAt : time
}.

Definition probabilitiesToAPI (source : gmap string float64) : option (gmap string float64) :=
  if decide (msize source = 0) then None else Some source.
Definition legendToAPI (source : gmap string goany) : option (gmap string goany) :=
  if decide (msize source = 0) then None else Some source.

Definition answerToAPI (answer : Answer) : APIAnswer :=
  let confidence := if ans_HasConfidence answer then Some (ans_Confidence answer) else None in
  let t := ans_Type answer in
  if decide (t = QuestionTypeNoul) then
    MkAPIAnswer t (Some (ans_Noul answer)) None None confidence None None
  else if decide (t = QuestionTypeChoice) then
    MkAPIAnswer t None (Some (ans_Choice answer)) None confidence
      (probabilitiesToAPI (ans_Probabilities answer)) None
  else if decide (t = QuestionTypeScore) then
    MkAPIAnswer t None None (Some (ans_Score answer)) confidence
      (probabilitiesToAPI (ans_Probabilities answer)) (legendToAPI (ans_Legend answer))
  else MkAPIAnswer t None None None confidence None None.

Definition answersToAPI (answers : Answers) : gmap string APIAnswer := answerToAPI <$> answers.

Definition evaluationModelToAPI (record : Evaluation) : APIEvaluation := {|
  ae_Id := ev_ID record;
  ae_Policy := MkRef (ev_PolicyName record) (ev_PolicyVersion record);
  ae_PolicyHash := ev_PolicySnapshotHash record;
  ae_PolicyKind := ev_PolicyKind record;
  ae_Status := ev_Status record;
  ae_Outcome := ev_Outcome record;
  ae_ExecutionPath := ev_ExecutionPath record;
  ae_Answers := answersToAPI (decodeAnswersJSON (ev_AnswersJSON record));
  ae_Usage := (ev_InputTokens record, ev_OutputTokens record);
  ae_CreatedAt := ev_CreatedAt record;
  ae_MatchedRuleId := Policies.optionalString (ev_MatchedRuleID record);
  ae_FailureCode := Policies.optionalString (ev_FailureCode record);
  ae_RequestedModel := Policies.optionalString (ev_RequestedModel record);
  ae_ResolvedModel := Policies.optionalString (ev_ResolvedModel record);
  ae_RequestId := Policies.optionalString (ev_RequestID record);
  ae_ProviderAttempts := Some (ev_ProviderAttempts record);
  ae_ProviderDurationMs := Some (ev_ProviderDurationMS record);
  ae_TotalDurationMs := Some (ev_TotalDurationMS record);
  ae_Metadata :=
    match decodeMetadataJSON (ev_MetadataJSON record) with
    | Some metadata => if decide (msize metadata > 0) then Some metadata else None
    | None => None
    end
|}.

Definition feedbackModelToAPI (record : EvaluationFeedback) : APIFeedback :=
  MkAPIFeedback (fb_ID record) (fb_EvaluationID record) (fb_ExpectedOutcome record)
    (Policies.optionalString (fb_Note record)) (fb_CreatedAt record).

End EvalConvert.
