(* ===== verification/Evaluations.v ===== *)
(** * The evaluation pipeline

    [internal/pkg/core/evaluations]: policy resolution, idempotency, the snapshot,
    the decision with its one provider call, persistence, reads and feedback.  Log
    lines are left out; the observer's measurements are events. *)

From S2P Require Import Prelude GoFloat GoAny Decision Document Condition Canonical Evaluate.
From S2P Require Import Store Effects Loader Policies Secrets EvalConvert.
From stdpp Require Import options.
#[local] Open Scope Z_scope.

Module Evaluations.
Import EvalConvert.

Record Service : Type := MkService {
  svc_policies : Policies.Service;
  svc_sealer : option Secrets.Sealer;
  svc_config : Config;
  svc_observer : bool           (** an observer is installed *)
}.

(** ** Updates of the row under construction *)
Definition applyResult (record : Evaluation) (result : Evaluate.Result) : Evaluation :=
  let 'MkEvaluation id h n v k st _ _ _ rm sm aj it ot pa pd td rq mj ei fc ca := record in
  MkEvaluation id h n v k st (Evaluate.res_Outcome result) (Evaluate.res_MatchedRuleID result)
    (Evaluate.res_Path result) rm sm aj it ot pa pd td rq mj ei fc ca.

(** [Duration.Milliseconds] *)
Definition Milliseconds (d : duration) : Z := Z.quot d 1000000.

Definition applyUsage (record : Evaluation) (response : Provider.Response) : Evaluation :=
  let 'MkEvaluation id h n v k st oc mr ep rm _ aj _ _ _ _ td rq mj ei fc ca := record in
  MkEvaluation id h n v k st oc mr ep rm (Provider.rs_Model response) aj
    (Provider.us_InputTokens (Provider.rs_Usage response))
    (Provider.us_OutputTokens (Provider.rs_Usage response))
    (Provider.AttemptCount response) (Milliseconds (Provider.rs_Duration response))
    td rq mj ei fc ca.

(** [record.Status = ...; record.FailureCode = ...; record.TotalDurationMS = ...] *)
Definition finished (record : Evaluation) (status code : string) (total : Z) : Evaluation :=
  let 'MkEvaluation id h n v k _ oc mr ep rm sm aj it ot pa pd _ rq mj ei fc ca := record in
  MkEvaluation id h n v k status oc mr ep rm sm aj it ot pa pd total rq mj ei code ca.

Definition with_answers (record : Evaluation) (answersJSON : string) : Evaluation :=
  let 'MkEvaluation id h n v k st oc mr ep rm sm _ it ot pa pd td rq mj ei fc ca := record in
  MkEvaluation id h n v k st oc mr ep rm sm answersJSON it ot pa pd td rq mj ei fc ca.

Definition with_input (record : Evaluation) (sealed : option string) : Evaluation :=
  let 'MkEvaluation id h n v k st oc mr ep rm sm aj it ot pa pd td rq mj _ fc ca := record in
  MkEvaluation id h n v k st oc mr ep rm sm aj it ot pa pd td rq mj sealed fc ca.

(** ** Idempotency ([idempotency.go]) *)
Definition hashKey (key : string) : string := sha256_hex key.

Definition canonicalRequestHash (policyHash : string) (input : CreateInput) : res string :=
  match input_fields input with
  | None => Err (EIs ErrMarshalFailed)
  | Some fields =>
      Ok (sha256_hex (json_text (JObj (("policyHash", JStr policyHash) :: fields))))
  end.

(** ** Provider errors *)
Definition classifyProviderFailure (err : goerr) : FailureCode :=
  if errors_Is err ErrNotAuthenticated || errors_Is err ErrRequiredConfigValueNotSet
  then FailureCodeProviderAuth
  else if errors_Is err ErrRateLimited then FailureCodeProviderRateLimited
  else if errors_Is err ErrTimeout then FailureCodeProviderTimeout
  else if errors_Is err ErrValidationFailed then FailureCodeProviderRejected
  else if errors_Is err ErrParseFailed || errors_Is err ErrResponseTooLarge
  then FailureCodeProviderProtocol
  else FailureCodeProviderUnavailable.

Definition buildProviderRequest (compiled : Compiled) (input : CreateInput) : Provider.Request :=
  Provider.MkRequest (c_Model compiled) (ci_State input)
    ((λ id, let question := default Canonical.zeroQuestion (c_Questions compiled !! id) in
            Provider.MkQuestion (cq_ID question) (cq_Type question) (cq_Instructions question)
              (cq_NoulCriteria question) (cq_ChoiceCriteria question)
              (cq_ScoreCriteria question)) <$> c_QuestionIDs compiled).

(** ** Policy selection *)
Definition compileInline `{YamlDecoder} (document : list (string * goany))
  (maxBytes maxQuestions : Z) : res Compiled :=
  encoded ← Policies.encodeDocument document;
  Loader.CompileBytesWithMaxQuestions encoded maxBytes maxQuestions.

Definition resolvePolicy `{YamlDecoder} (s : Service) (input : CreateInput)
  : res (Compiled * PolicyKind) :=
  let hasRef := match ci_PolicyRef input with Some _ => true | None => false end in
  let hasInline := bool_decide (0 < len (ci_InlinePolicy input)) in
  guard_err (eqb hasRef hasInline) ErrPolicySelection ;;
  match ci_PolicyRef input with
  | Some ref =>
      compiled ← Policies.Service_Compiled (svc_policies s) ref;
      Ok (compiled, PolicyKindNamed)
  | None =>
      guard_err (negb (cfg_AllowInlinePolicies (svc_config s))) ErrInlinePoliciesDisabled ;;
      compiled ← compileInline (ci_InlinePolicy input) (cfg_MaxPolicyBytes (svc_config s))
                   (cfg_MaxQuestions (svc_config s));
      Ok (compiled, PolicyKindInline)
  end.

(** [newRecord] *)
Definition newRecord (compiled : Compiled) (kind : PolicyKind) (input : CreateInput)
  (id : uuid) (startedAt : time) : Evaluation := {|
  ev_ID := id;
  ev_PolicySnapshotHash := c_Hash compiled;
  ev_PolicyName := ref_Name (c_Ref compiled);
  ev_PolicyVersion := ref_Version (c_Ref compiled);
  ev_PolicyKind := kind;
  ev_Status := ""; ev_Outcome := ""; ev_MatchedRuleID := ""; ev_ExecutionPath := "";
  ev_RequestedModel := c_Model compiled;
  ev_ResolvedModel := ""; ev_AnswersJSON := ""; ev_InputTokens := 0; ev_OutputTokens := 0;
  ev_ProviderAttempts := 0; ev_ProviderDurationMS := 0; ev_TotalDurationMS := 0;
  ev_RequestID := ci_RequestID input;
  ev_MetadataJSON := encodeMetadata (metadata_of input);
  ev_EncryptedInput := None;
  ev_FailureCode := "";
  ev_CreatedAt := startedAt
|}.

(** ** The list filter ([list.go]) *)
Record ListFilter : Set := MkListFilter {
  lf_Limit : Z;
  lf_Offset : Z;
  lf_PolicyName : string;
  lf_PolicyVersion : string;
  lf_Outcome : string;
  lf_Status : string
}.

(** One condition per non-empty filter. *)
Definition filtered (filter : ListFilter) : list EvaluationCond :=
  let query := [] in
  let query := if decide (lf_PolicyName filter = "") then query
    else query ++ [EvPolicyNameEq (lf_PolicyName filter)] in
  let query := if decide (lf_PolicyVersion filter = "") then query
    else query ++ [EvPolicyVersionEq (lf_PolicyVersion filter)] in
  let query := if decide (lf_Outcome filter = "") then query
    else query ++ [EvOutcomeEq (lf_Outcome filter)] in
  if decide (lf_Status filter = "") then query
  else query ++ [EvStatusEq (lf_Status filter)].

Record EvaluationList : Set := MkEvaluationList {
  el_Items : list APIEvaluation;
  el_Limit : Z;
  el_Offset : Z;
  el_HasMore : bool
}.

(** ** Feedback ([feedback.go]) *)
Definition MaxFeedbackNoteLength : Z := 2000.

Record FeedbackInput : Set := MkFeedbackInput {
  fi_EvaluationID : uuid;
  fi_ExpectedOutcome : string;
  fi_Note : string
}.

Definition validateFeedback (input : FeedbackInput) : res unit :=
  guard_err (negb (Outcome_IsValid (fi_ExpectedOutcome input))) ErrValidationFailed ;;
  guard_err (bool_decide (MaxFeedbackNoteLength < strlen (fi_Note input))) ErrValidationFailed.

Definition validateExpectedOutcome (s : Service) (evaluation : Evaluation)
  (input : FeedbackInput) : res unit :=
  match Policies.Service_Compiled (svc_policies s)
          (MkRef (ev_PolicyName evaluation) (ev_PolicyVersion evaluation)) with
  | Err _ => Ok tt
  | Ok compiled =>
      guard_err (negb (bool_decide (fi_ExpectedOutcome input ∈ c_Outcomes compiled)))
        ErrValidationFailed
  end.

(** ** Effectful methods *)
Section service.
Context {W : Type} `{Database W} `{ProviderPort W} `{Runtime W} `{YamlDecoder}.
Context (s : Service).

Definition now : M W time := ask world_now.
Definition newID : M W uuid := ask world_newID.

Definition elapsedMS (startedAt : time) : M W Z :=
  t ← now; mret (Milliseconds (t - startedAt)).

(** [findEvaluation]: the driver's not-found becomes the project's. *)
Definition findEvaluation (id : uuid) : M W Evaluation :=
  r ← attempt (call (Evaluation_First id));
  match r with
  | Ok record => mret record
  | Err e => fail (if errors_Is e GormRecordNotFound then EIs ErrNotFound else e)
  end.

(** [Service.Get] *)
Definition Get (id : uuid) : M W APIEvaluation :=
  record ← findEvaluation id; mret (evaluationModelToAPI record).

(** [replay]: [None] when there is nothing to replay. *)
Definition replay (input : CreateInput) (requestHash : string) : M W (option APIEvaluation) :=
  if decide (ci_IdempotencyKey input = "") then mret None
  else
    r ← attempt (call (IdempotencyRecord_First (hashKey (ci_IdempotencyKey input))));
    match r with
    | Err e => if errors_Is e GormRecordNotFound then mret None else fail e
    | Ok record =>
        t ← now;
        if decide (ir_ExpiresAt record < t) then mret None
        else if decide (ir_CanonicalRequestHash record = requestHash) then
          e ← attempt (Get (ir_EvaluationID record));
          match e with
          | Ok evaluation => mret (Some evaluation)
          | Err err => if errors_Is err ErrNotFound then mret None else fail err
          end
        else fail (EIs ErrIdempotencyConflict)
    end.

(** [ensureSnapshot] *)
Definition ensureSnapshot (compiled : Compiled) : M W unit :=
  t ← now;
  call (PolicySnapshot_CreateIgnore
    (MkPolicySnapshot (c_Hash compiled) (ref_Name (c_Ref compiled))
       (ref_Version (c_Ref compiled)) (c_Canonical compiled) t)).

(** [askProvider]: the row with the usage applied, and the response. *)
Definition askProvider (record : Evaluation) (compiled : Compiled) (input : CreateInput)
  : M W (res (Evaluation * Provider.Response)) :=
  let request := buildProviderRequest compiled input in
  let body :=
    emit (EvProviderEvaluate request) ;;
    response ← attempt (call (Provider_Evaluate request));
    match response with
    | Err e => mret (Err e)
    | Ok response =>
        when (svc_observer s) (emit (EvObserveProviderCall (Provider.AttemptCount response))) ;;
        when (svc_observer s)
          (observe (EvObserveTokens (Provider.rs_Model response)
                      (Provider.us_InputTokens (Provider.rs_Usage response))
                      (Provider.us_OutputTokens (Provider.rs_Usage response)))) ;;
        mret (Ok (applyUsage record response, response))
    end in
  if svc_observer s then emit EvProviderCallStarted ;; deferring EvProviderCallFinished body
  else body.

(** [applyPreRules] *)
Definition applyPreRules (record : Evaluation) (compiled : Compiled) (input : CreateInput)
  (startedAt : time) : M W (option Evaluation) :=
  match Evaluate.EvaluatePreRules compiled (facts_of input) with
  | None => mret None
  | Some preResult =>
      total ← elapsedMS startedAt;
      mret (Some (finished (applyResult record preResult) EvaluationStatusCompleted
                    (ev_FailureCode record) total))
  end.

(** [recordProviderFailure] *)
Definition recordProviderFailure (record : Evaluation) (startedAt : time) (err : goerr)
  : M W Evaluation :=
  if errors_Is err ContextCanceled then fail err
  else
    total ← elapsedMS startedAt;
    mret (finished record EvaluationStatusProviderFailed (classifyProviderFailure err) total).

(** [recordProtocolFailure] *)
Definition recordProtocolFailure (record : Evaluation) (startedAt : time) : M W Evaluation :=
  total ← elapsedMS startedAt;
  mret (finished record EvaluationStatusProviderFailed FailureCodeProviderProtocol total).

(** [decide] *)
Definition decide_ (compiled : Compiled) (kind : PolicyKind) (input : CreateInput)
  : M W Evaluation :=
  startedAt ← now;
  id ← newID;
  let record := newRecord compiled kind input id startedAt in
  lift (Condition.ValidateFacts compiled (facts_of input)) ;;
  pre ← applyPreRules record compiled input startedAt;
  match pre with
  | Some record => mret record
  | None =>
      answered ← askProvider record compiled input;
      match answered with
      | Err providerErr => recordProviderFailure record startedAt providerErr
      | Ok (record, response) =>
          match Evaluate.ValidateAnswers compiled (Provider.rs_Answers response) with
          | Err _ => recordProtocolFailure record startedAt
          | Ok _ =>
              answersJSON ← lift (encodeAnswers (Provider.rs_Answers response));
              total ← elapsedMS startedAt;
              mret (finished
                (applyResult (with_answers record answersJSON)
                   (Evaluate.EvaluateDecisionRules compiled (facts_of input)
                      (Provider.rs_Answers response)))
                EvaluationStatusCompleted (ev_FailureCode record) total)
          end
      end
  end.

(** [sealInput] *)
Definition sealInput (input : CreateInput) : M W (option string) :=
  if negb (cfg_StoreInputs (svc_config s)) || negb (Secrets.Enabled (svc_sealer s))
  then mret None
  else match input_fields input with
  | None => fail (EIs ErrMarshalFailed)
  | Some fields => Secrets.Seal (svc_sealer s) (json_text (JObj fields))
  end.

(** [persist]: the row as written. *)
Definition persist (record : Evaluation) (input : CreateInput) (requestHash : string)
  : M W Evaluation :=
  sealed ← sealInput input;
  let record := with_input record sealed in
  transaction (
    call (Evaluation_Create record) ;;
    if decide (ci_IdempotencyKey input = "") then mret tt
    else
      t ← now;
      call (IdempotencyRecord_Create
        (MkIdempotencyRecord (hashKey (ci_IdempotencyKey input)) requestHash (ev_ID record)
           (t + cfg_IdempotencyRetention (svc_config s)) t))) ;;
  mret record.

(** [observeCompleted] *)
Definition observeCompleted (record : Evaluation) (kind : PolicyKind) : M W unit :=
  when (svc_observer s)
    (emit (EvObserveEvaluation kind
       (if decide (ev_Outcome record = "") then ev_Status record else ev_Outcome record)
       (if decide (ev_ExecutionPath record = "") then EvaluationStatusProviderFailed
        else ev_ExecutionPath record)
       (ev_TotalDurationMS record))).

(** [Service.Create] *)
Definition Create (input : CreateInput) : M W APIEvaluation :=
  ck ← lift (resolvePolicy s input);
  lift (validateRequestShape (svc_config s) input) ;;
  requestHash ← lift (canonicalRequestHash (c_Hash ck.1) input);
  replayed ← replay input requestHash;
  match replayed with
  | Some evaluation => mret evaluation
  | None =>
      ensureSnapshot ck.1 ;;
      record ← decide_ ck.1 ck.2 input;
      record ← persist record input requestHash;
      observeCompleted record ck.2 ;;
      mret (evaluationModelToAPI record)
  end.

(** [Service.List] *)
Definition List (filter : ListFilter) : M W EvaluationList :=
  lift (guard_err (bool_decide (lf_Limit filter <= 0) || bool_decide (lf_Offset filter < 0))
          ErrInvalidArgument) ;;
  rows ← call (Evaluation_Find (MkQuery (filtered filter) true (lf_Limit filter)
                 (Some (lf_Offset filter))));
  probe ← call (Evaluation_Find (MkQuery (filtered filter) true 1
                 (Some (wrap64 (lf_Offset filter + lf_Limit filter)))));
  mret (MkEvaluationList (evaluationModelToAPI <$> rows) (lf_Limit filter) (lf_Offset filter)
          (bool_decide (0 < len probe))).

(** [Service.SubmitFeedback] *)
Definition SubmitFeedback (input : FeedbackInput) : M W APIFeedback :=
  lift (validateFeedback input) ;;
  evaluation ← findEvaluation (fi_EvaluationID input);
  lift (validateExpectedOutcome s evaluation input) ;;
  id ← newID;
  t ← now;
  let record := MkEvaluationFeedback id (ev_ID evaluation) (fi_ExpectedOutcome input)
                  (fi_Note input) t in
  call (EvaluationFeedback_Create record) ;;
  mret (feedbackModelToAPI record).

End service.

End Evaluations.
