(* ===== verification/MemStore.v ===== *)
(** * An in-memory world

    A concrete database, provider and clock: the laws of [Store] and [Effects] hold of
    it, so theorems stated against the interfaces have instances to run on.  Each
    statement consumes one entry of a fault plan and fails when the entry says so. *)

From S2P Require Import Prelude GoFloat GoAny Decision Document Store Effects.
From stdpp Require Import options.
#[local] Open Scope Z_scope.

Module MemStore.

Record World : Type := MkWorld {
  mw_tables : Tables;
  mw_faults : list bool;                (** which statements fail *)
  mw_clock : time;                      (** advances by a millisecond per reading *)
  mw_next : nat;                        (** identifiers given out *)
  mw_script : list (res Provider.Response)
}.

Definition set_tables (t : Tables) (w : World) : World :=
  MkWorld t (mw_faults w) (mw_clock w) (mw_next w) (mw_script w).

(** Run a statement on the tables unless the plan makes it fail. *)
Definition statement {A} (f : Tables → Tables * res A) (w : World) : World * res A :=
  let w' := MkWorld (mw_tables w) (tail (mw_faults w)) (mw_clock w) (mw_next w) (mw_script w) in
  match mw_faults w with
  | true :: _ => (w', Err (EForeign "database is unavailable"))
  | _ => let p := f (mw_tables w) in (set_tables p.1 w', p.2)
  end.

(** PostgreSQL's microseconds. *)
Definition microseconds (t : time) : time := t / 1000 * 1000.

Definition insert_row {V} (get : Tables → gmap string V)
  (set : (gmap string V → gmap string V) → Tables → Tables) (k : string) (v : V)
  (t : Tables) : Tables * res unit :=
  match get t !! k with
  | Some _ => (t, Err (EForeign "UNIQUE constraint failed"))
  | None => (set (insert k v) t, Ok tt)
  end.

Definition first_row {V} (get : Tables → gmap string V) (k : string) (t : Tables)
  : Tables * res V :=
  (t, match get t !! k with Some v => Ok v | None => Err (EIs GormRecordNotFound) end).

(** The rows that meet every condition go. *)
Definition delete_rows {V} (get : Tables → gmap string V)
  (set : (gmap string V → gmap string V) → Tables → Tables) (P : V → bool) (t : Tables)
  : Tables * res Z :=
  let kept := filter (λ kv : string * V, P kv.2 = false) (get t) in
  (set (λ _, kept) t, Ok (Z.of_nat (size (get t)) - Z.of_nat (size kept))).

Definition create_ignore (s : PolicySnapshot) (t : Tables) : Tables * res unit :=
  (match t_snapshots t !! ps_Hash s with
   | Some _ => t
   | None => with_snapshots (insert (ps_Hash s) (stored_snapshot microseconds s)) t
   end, Ok tt).

Definition find_rows (q : EvaluationQuery) (t : Tables) : Tables * res (list Evaluation) :=
  let all := if qry_ordered q then merge_sort newest_first (matching microseconds q t)
             else matching microseconds q t in
  (t, Ok (page (qry_limit q) (qry_offset q) all)).

#[export] Instance MemDatabase : Database World := {
  tables := mw_tables;
  column_time := microseconds;
  PolicySnapshot_CreateIgnore s := statement (create_ignore s);
  Evaluation_Create r := statement
    (insert_row t_evaluations with_evaluations (ev_ID r) (stored_evaluation microseconds r));
  IdempotencyRecord_Create r := statement
    (insert_row t_idempotency with_idempotency (ir_KeyHash r)
       (stored_idempotency microseconds r));
  EvaluationFeedback_Create r := statement
    (insert_row t_feedback with_feedback (fb_ID r) (stored_feedback microseconds r));
  IdempotencyRecord_First k := statement (first_row t_idempotency k);
  Evaluation_First k := statement (first_row t_evaluations k);
  Evaluation_Find q := statement (find_rows q);
  IdempotencyRecord_DeleteLimit cs _ := statement (delete_rows t_idempotency with_idempotency
    (λ r, forallb (λ c, idempotency_holds microseconds c r) cs));
  EvaluationFeedback_Delete cs := statement (delete_rows t_feedback with_feedback
    (λ r, forallb (λ c, feedback_holds c r) cs));
  Evaluation_Delete cs := statement (delete_rows t_evaluations with_evaluations
    (λ r, forallb (λ c, evaluation_holds microseconds c r) cs));
  Transaction X f wx :=
    let p := f wx in
    match p.2 with
    | Ok _ => (p.1, Ok tt)
    | Err e => ((set_tables (mw_tables wx.1) p.1.1, p.1.2), Err e)
    end;
  scope _ _ := True
}.

#[export] Instance MemProvider : ProviderPort World := {
  Provider_Evaluate _ w :=
    (MkWorld (mw_tables w) (mw_faults w) (mw_clock w) (mw_next w) (tail (mw_script w)),
     default (Err (EForeign "no more answers")) (head (mw_script w)))
}.

#[export] Instance MemRuntime : Runtime World := {
  world_now w := (MkWorld (mw_tables w) (mw_faults w) (mw_clock w + 1000000) (mw_next w)
                    (mw_script w), mw_clock w);
  world_newID w := (MkWorld (mw_tables w) (mw_faults w) (mw_clock w) (S (mw_next w))
                      (mw_script w), "id-" +:+ Itoa (Z.of_nat (mw_next w)));
  rand_Read n w := (w, Ok (String.string_of_list_ascii (replicate (Z.to_nat n) Ascii.zero)))
}.

#[export] Instance MemOutside : OutsideLaws World.
Proof.
  split; try done. intros n w bytes Hn. simpl. intros [= <-]. unfold strlen.
  rewrite length_string_of_list_ascii, length_replicate. lia.
Qed.

(** A failed statement changes nothing; a successful one is its table function. *)
Lemma statement_cases {A} (f : Tables → Tables * res A) w :
  (mw_tables (statement f w).1 = mw_tables w ∧ ∃ tag, (statement f w).2 = Err (EForeign tag)) ∨
  (mw_tables (statement f w).1 = (f (mw_tables w)).1 ∧ (statement f w).2 = (f (mw_tables w)).2).
Proof. unfold statement. destruct (mw_faults w) as [|[] l]; simpl; eauto 10. Qed.

Lemma statement_inserts {V} (get : Tables → gmap string V) set k v w :
  inserts get set k v (mw_tables w) (mw_tables (statement (insert_row get set k v) w).1)
    (statement (insert_row get set k v) w).2.
Proof.
  destruct (statement_cases (insert_row get set k v) w) as [[-> (e & ->)]|[-> ->]]; [done|].
  unfold inserts, insert_row. by destruct (get (mw_tables w) !! k) eqn:E.
Qed.

Lemma statement_deletes {V} (get : Tables → gmap string V) set P limit w :
  (∀ f t, get (set f t) = f (get t)) →
  deletes get set P limit (mw_tables w) (mw_tables (statement (delete_rows get set P) w).1)
    (statement (delete_rows get set P) w).2.
Proof.
  intros Hset.
  destruct (statement_cases (delete_rows get set P) w) as [[-> (e & ->)]|[-> ->]]; [done|].
  simpl. exists (filter (λ kv : string * V, P kv.2 = false) (get (mw_tables w))).
  split; [done|]. split; [apply map_filter_subseteq|]. split; [|split; [done|right]].
  - intros k v Hv Hn. destruct (P v) eqn:E; [done|].
    apply map_lookup_filter_None in Hn as [Hn|Hn]; [congruence|]. by apply Hn in Hv.
  - intros k v Hv. by apply map_lookup_filter_Some in Hv as [_ Hv].
Qed.

Lemma statement_first {V} (get : Tables → gmap string V) k w :
  mw_tables (statement (first_row get k) w).1 = mw_tables w ∧
  match (statement (first_row get k) w).2 with
  | Ok r => get (mw_tables w) !! k = Some r
  | Err e => errors_Is e GormRecordNotFound = true → get (mw_tables w) !! k = None
  end.
Proof.
  destruct (statement_cases (first_row get k) w) as [[-> (e & ->)]|[-> ->]]; [by split|].
  simpl. split; [done|]. by destruct (get (mw_tables w) !! k).
Qed.

#[export] Instance MemLaws : DatabaseLaws World.
Proof.
  split; intros; simpl.
  - destruct (statement_cases (create_ignore s) w) as [[-> (e & ->)]|[-> ->]]; [done|].
    unfold create_ignore. by destruct (t_snapshots (mw_tables w) !! ps_Hash s).
  - apply statement_inserts.
  - apply statement_inserts.
  - apply statement_inserts.
  - apply statement_first.
  - apply statement_first.
  - apply statement_first.
  - apply statement_first.
  - by destruct (statement_cases (find_rows q) w) as [[-> _]|[-> _]].
  - destruct (statement_cases (find_rows q) w) as [[_ (e & Hs)]|[_ Hs]];
      simpl in *; rewrite Hs in *; [done|].
    simplify_eq.
    exists (if qry_ordered q then merge_sort newest_first (matching microseconds q (mw_tables w))
            else matching microseconds q (mw_tables w)).
    split; [|split; [done|]]; destruct (qry_ordered q); try done.
    + apply merge_sort_Permutation.
    + intros _. apply Sorted_merge_sort. apply _.
  - by apply statement_deletes.
  - by apply statement_deletes.
  - by apply statement_deletes.
  - by split.
  - done.
  - done.
  - right. exists w. subst out. simpl. by destruct (f (w, x)) as [[w' x'] [[]|e]].
  - right. exists w. split; [done|]. subst out. simpl.
    destruct (f (w, x)) as [[w' x'] [[]|e]]; simpl; by auto.
Qed.

Definition empty_tables : Tables := MkTables ∅ ∅ ∅ ∅.

(** A fresh world whose provider answers from a script. *)
Definition world_of (t : Tables) (script : list (res Provider.Response)) : World :=
  MkWorld t [] 1700000000000000000 0 script.

End MemStore.
