(* ===== verification/Repositories.v ===== *)
(** * The generated repositories

    [internal/pkg/db/repositories/*.gen.go]: per table the typed columns, the field map and
    the handle that follows a connection; the methods of a data object, the same for every
    table; and the [Query] that holds the four of them, with its transactions.  The library
    under them is a parameter: [Gen] has the columns, connections and data objects of
    gorm.io/gen, [GenExec] the statements a data object runs. *)

From S2P Require Import Prelude GoFloat GoAny Decision Document Store.
From stdpp Require Import options.
#[local] Open Scope Z_scope.

Module Repositories.

(** ** The models as tables ([models.go]) *)
Inductive model : Set :=
  | ModelPolicySnapshot | ModelEvaluation | ModelIdempotencyRecord | ModelEvaluationFeedback.

#[export] Instance model_eq_dec : EqDecision model.
Proof. solve_decision. Defined.

Definition TableName (m : model) : string :=
  match m with
  | ModelPolicySnapshot => TablePolicySnapshots
  | ModelEvaluation => TableEvaluations
  | ModelIdempotencyRecord => TableIdempotencyRecords
  | ModelEvaluationFeedback => TableEvaluationFeedback
  end.

(** The Go types of the struct fields, and what a column holds. *)
Inductive goType : Set :=
  | TypeString | TypeUUID | TypeInt | TypeInt64 | TypeBytes | TypeTime.

Inductive cell : Set :=
  | CellText (s : string)
  | CellInt (n : Z)
  | CellBytes (b : option string)
  | CellTime (t : time).

#[export] Instance cell_eq_dec : EqDecision cell.
Proof. solve_decision. Defined.

(** A [gorm:column] tag with the field it is on; the first column is the primary key. *)
Definition column (R : Type) : Type := string * goType * (R → cell).

Definition PolicySnapshot_columns : list (column PolicySnapshot) :=
  [("hash", TypeString, λ r, CellText (ps_Hash r));
   ("name", TypeString, λ r, CellText (ps_Name r));
   ("version", TypeString, λ r, CellText (ps_Version r));
   ("canonical_json", TypeString, λ r, CellText (ps_CanonicalJSON r));
   ("loaded_at", TypeTime, λ r, CellTime (ps_LoadedAt r))].

Definition Evaluation_columns : list (column Evaluation) :=
  [("id", TypeUUID, λ r, CellText (ev_ID r));
   ("policy_snapshot_hash", TypeString, λ r, CellText (ev_PolicySnapshotHash r));
   ("policy_name", TypeString, λ r, CellText (ev_PolicyName r));
   ("policy_version", TypeString, λ r, CellText (ev_PolicyVersion r));
   ("policy_kind", TypeString, λ r, CellText (ev_PolicyKind r));
   ("status", TypeString, λ r, CellText (ev_Status r));
   ("outcome", TypeString, λ r, CellText (ev_Outcome r));
   ("matched_rule_id", TypeString, λ r, CellText (ev_MatchedRuleID r));
   ("execution_path", TypeString, λ r, CellText (ev_ExecutionPath r));
   ("requested_model", TypeString, λ r, CellText (ev_RequestedModel r));
   ("resolved_model", TypeString, λ r, CellText (ev_ResolvedModel r));
   ("answers_json", TypeString, λ r, CellText (ev_AnswersJSON r));
   ("input_tokens", TypeInt, λ r, CellInt (ev_InputTokens r));
   ("output_tokens", TypeInt, λ r, CellInt (ev_OutputTokens r));
   ("provider_attempts", TypeInt, λ r, CellInt (ev_ProviderAttempts r));
   ("provider_duration_ms", TypeInt64, λ r, CellInt (ev_ProviderDurationMS r));
   ("total_duration_ms", TypeInt64, λ r, CellInt (ev_TotalDurationMS r));
   ("request_id", TypeString, λ r, CellText (ev_RequestID r));
   ("metadata_json", TypeString, λ r, CellText (ev_MetadataJSON r));
   ("encrypted_input", TypeBytes, λ r, CellBytes (ev_EncryptedInput r));
   ("failure_code", TypeString, λ r, CellText (ev_FailureCode r));
   ("created_at", TypeTime, λ r, CellTime (ev_CreatedAt r))].

Definition IdempotencyRecord_columns : list (column IdempotencyRecord) :=
  [("key_hash", TypeString, λ r, CellText (ir_KeyHash r));
   ("canonical_request_hash", TypeString, λ r, CellText (ir_CanonicalRequestHash r));
   ("evaluation_id", TypeUUID, λ r, CellText (ir_EvaluationID r));
   ("expires_at", TypeTime, λ r, CellTime (ir_ExpiresAt r));
   ("created_at", TypeTime, λ r, CellTime (ir_CreatedAt r))].

Definition EvaluationFeedback_columns : list (column EvaluationFeedback) :=
  [("id", TypeUUID, λ r, CellText (fb_ID r));
   ("evaluation_id", TypeUUID, λ r, CellText (fb_EvaluationID r));
   ("expected_outcome", TypeString, λ r, CellText (fb_ExpectedOutcome r));
   ("note", TypeString, λ r, CellText (fb_Note r));
   ("created_at", TypeTime, λ r, CellTime (fb_CreatedAt r))].

(** [interface{}] values the library returns: a pointer to one model, or a slice of
    pointers to one. *)
Inductive row : Set :=
  | RowPolicySnapshot (r : PolicySnapshot)
  | RowEvaluation (r : Evaluation)
  | RowIdempotencyRecord (r : IdempotencyRecord)
  | RowEvaluationFeedback (r : EvaluationFeedback).

Inductive slice : Set :=
  | SlicePolicySnapshot (l : list PolicySnapshot)
  | SliceEvaluation (l : list Evaluation)
  | SliceIdempotencyRecord (l : list IdempotencyRecord)
  | SliceEvaluationFeedback (l : list EvaluationFeedback).

(** What a model type is: its table, its columns, the conversion to [interface{}], the
    assertions back, and its place in the database. *)
Class Model (R : Type) := {
  model_of : model;
  columns_of : list (column R);
  to_row : R → row;
  to_slice : list R → slice;
  as_row : row → option R;
  as_slice : slice → option (list R);
  rows_of : Tables → gmap string R;
  with_rows : (gmap string R → gmap string R) → Tables → Tables;
  key_of : R → string;
  stored_row : (time → time) → R → R
}.

#[export] Instance PolicySnapshot_model : Model PolicySnapshot := {
  model_of := ModelPolicySnapshot;
  columns_of := PolicySnapshot_columns;
  to_row := RowPolicySnapshot;
  to_slice := SlicePolicySnapshot;
  as_row r := match r with RowPolicySnapshot r => Some r | _ => None end;
  as_slice l := match l with SlicePolicySnapshot l => Some l | _ => None end;
  rows_of := t_snapshots;
  with_rows := with_snapshots;
  key_of := ps_Hash;
  stored_row := stored_snapshot
}.

#[export] Instance Evaluation_model : Model Evaluation := {
  model_of := ModelEvaluation;
  columns_of := Evaluation_columns;
  to_row := RowEvaluation;
  to_slice := SliceEvaluation;
  as_row r := match r with RowEvaluation r => Some r | _ => None end;
  as_slice l := match l with SliceEvaluation l => Some l | _ => None end;
  rows_of := t_evaluations;
  with_rows := with_evaluations;
  key_of := ev_ID;
  stored_row := stored_evaluation
}.

#[export] Instance IdempotencyRecord_model : Model IdempotencyRecord := {
  model_of := ModelIdempotencyRecord;
  columns_of := IdempotencyRecord_columns;
  to_row := RowIdempotencyRecord;
  to_slice := SliceIdempotencyRecord;
  as_row r := match r with RowIdempotencyRecord r => Some r | _ => None end;
  as_slice l := match l with SliceIdempotencyRecord l => Some l | _ => None end;
  rows_of := t_idempotency;
  with_rows := with_idempotency;
  key_of := ir_KeyHash;
  stored_row := stored_idempotency
}.

#[export] Instance EvaluationFeedback_model : Model EvaluationFeedback := {
  model_of := ModelEvaluationFeedback;
  columns_of := EvaluationFeedback_columns;
  to_row := RowEvaluationFeedback;
  to_slice := SliceEvaluationFeedback;
  as_row r := match r with RowEvaluationFeedback r => Some r | _ => None end;
  as_slice l := match l with SliceEvaluationFeedback l => Some l | _ => None end;
  rows_of := t_feedback;
  with_rows := with_feedback;
  key_of := fb_ID;
  stored_row := stored_feedback
}.

(** ** gorm.io/gen *)

(** The constructors of package [field]. *)
Inductive fieldKind : Set :=
  | NewField | NewString | NewInt | NewInt64 | NewBytes | NewTime.

(** A chaining method of [gen.DO] with its arguments. *)
Inductive chainCall {Expr Clause Ctx Config Tabler Relation Assign DO : Type} : Type :=
  | CallDebug
  | CallWithContext (ctx : Ctx)
  | CallSession (config : Config)
  | CallClauses (conds : list Clause)
  | CallReturning (columns : list string)
  | CallNot (conds : list Expr)
  | CallOr (conds : list Expr)
  | CallSelect (conds : list Expr)
  | CallWhere (conds : list Expr)
  | CallOrder (conds : list Expr)
  | CallDistinct (cols : list Expr)
  | CallOmit (cols : list Expr)
  | CallJoin (table : Tabler) (on : list Expr)
  | CallLeftJoin (table : Tabler) (on : list Expr)
  | CallRightJoin (table : Tabler) (on : list Expr)
  | CallGroup (cols : list Expr)
  | CallHaving (conds : list Expr)
  | CallLimit (limit : Z)
  | CallOffset (offset : Z)
  | CallScopes (funcs : list (DO → DO))
  | CallUnscoped
  | CallAttrs (attrs : list Assign)
  | CallAssign (attrs : list Assign)
  | CallJoins (field : Relation)
  | CallPreload (field : Relation)
  | CallAs (alias : string).
Arguments chainCall : clear implicits.

Class Gen := {
  (** package [field]: an expression is a column, an order or a condition *)
  Expr : Type;
  field_New : fieldKind → string → string → Expr;
  field_NewAsterisk : string → Expr;
  field_IsOrderExpr : Expr → bool;
  field_Eq : Expr → cell → Expr;
  field_Lt : Expr → cell → Expr;
  field_In : Expr → list cell → Expr;
  field_Desc : Expr → Expr;
  (** clauses and options *)
  Clause : Type;
  OnConflictDoNothing : Clause;
  dbresolver_Read : Clause;
  dbresolver_Write : Clause;
  Ctx : Type;
  Config : Type;
  Tabler : Type;
  Relation : Type;
  Assign : Type;
  DOOption : Type;
  (** [*gorm.DB] and the connection of its statement *)
  ConnPool : Type;
  ConnPool_eq_dec :: EqDecision ConnPool;
  GormDB : Type;
  Statement_ConnPool : GormDB → ConnPool;
  DB_Clauses : Clause → GormDB → GormDB;
  (** [gen.DO] *)
  DO : Type;
  zero_DO : DO;
  DO_UseDB : GormDB → list DOOption → DO → DO;
  DO_UseModel : model → DO → DO;
  DO_UseTable : string → DO → DO;
  DO_TableName : DO → string;
  DO_ReplaceDB : GormDB → DO → DO;
  DO_ReplaceConnPool : ConnPool → DO → DO;
  DO_chain : chainCall Expr Clause Ctx Config Tabler Relation Assign DO → DO → DO
}.

Class GenExec (W : Type) `{Gen} := {
  (** the precision of the timestamp columns *)
  gen_column_time : time → time;
  (** statements of a data object; the results are [interface{}] values *)
  DO_Create : DO → slice → W → W * option goerr;
  DO_CreateInBatches : DO → slice → Z → W → W * option goerr;
  DO_Save : DO → slice → W → W * option goerr;
  DO_First : DO → W → W * res row;
  DO_Take : DO → W → W * res row;
  DO_Last : DO → W → W * res row;
  DO_FirstOrInit : DO → W → W * res row;
  DO_FirstOrCreate : DO → W → W * res row;
  DO_Find : DO → W → W * (slice * option goerr);
  DO_Count : DO → W → W * (Z * option goerr);
  DO_Delete : DO → slice → W → W * (Z * option goerr);
  (** the batches are read into a slice of the model's type, which the function sees *)
  DO_FindInBatches : ∀ R (m : Model R) (X : Type), DO → Z →
    (DO → Z → list R → W * X → (W * X) * option goerr) → W * X → (W * X) * option goerr;
  (** [*gorm.DB] *)
  DB_Transaction : ∀ X : Type, GormDB → (GormDB → W * X → (W * X) * res unit) →
    W * X → (W * X) * res unit;
  DB_Begin : GormDB → W → W * (GormDB * option goerr);
  DB_Commit : GormDB → W → W * option goerr;
  DB_Rollback : GormDB → W → W * option goerr;
  DB_SavePoint : string → GormDB → W → W * option goerr;
  DB_RollbackTo : string → GormDB → W → W * option goerr
}.

(** A call that returns, or whose type assertion panics. *)
Inductive ran (A : Type) : Type :=
  | Returns (a : A)
  | Panics.
Arguments Returns {A} _.
Arguments Panics {A}.

(** ** Data objects: [evaluationDo] and its three twins *)
Section Do.
Context `{Gen} {W : Type} `{!GenExec W} {R : Type} `{!Model R}.

Definition withDO (i do : DO) : DO := do.

Definition Do_Debug (i : DO) : DO := withDO i (DO_chain CallDebug i).
Definition Do_WithContext (i : DO) (ctx : Ctx) : DO := withDO i (DO_chain (CallWithContext ctx) i).
Definition Do_Clauses (i : DO) (conds : list Clause) : DO := withDO i (DO_chain (CallClauses conds) i).
Definition Do_ReadDB (i : DO) : DO := Do_Clauses i [dbresolver_Read].
Definition Do_WriteDB (i : DO) : DO := Do_Clauses i [dbresolver_Write].
Definition Do_Session (i : DO) (config : Config) : DO := withDO i (DO_chain (CallSession config) i).
Definition Do_Returning (i : DO) (columns : list string) : DO :=
  withDO i (DO_chain (CallReturning columns) i).
Definition Do_Not (i : DO) (conds : list Expr) : DO := withDO i (DO_chain (CallNot conds) i).
Definition Do_Or (i : DO) (conds : list Expr) : DO := withDO i (DO_chain (CallOr conds) i).
Definition Do_Select (i : DO) (conds : list Expr) : DO := withDO i (DO_chain (CallSelect conds) i).
Definition Do_Where (i : DO) (conds : list Expr) : DO := withDO i (DO_chain (CallWhere conds) i).
Definition Do_Order (i : DO) (conds : list Expr) : DO := withDO i (DO_chain (CallOrder conds) i).
Definition Do_Distinct (i : DO) (cols : list Expr) : DO := withDO i (DO_chain (CallDistinct cols) i).
Definition Do_Omit (i : DO) (cols : list Expr) : DO := withDO i (DO_chain (CallOmit cols) i).
Definition Do_Join (i : DO) (table : Tabler) (on : list Expr) : DO :=
  withDO i (DO_chain (CallJoin table on) i).
Definition Do_LeftJoin (i : DO) (table : Tabler) (on : list Expr) : DO :=
  withDO i (DO_chain (CallLeftJoin table on) i).
Definition Do_RightJoin (i : DO) (table : Tabler) (on : list Expr) : DO :=
  withDO i (DO_chain (CallRightJoin table on) i).
Definition Do_Group (i : DO) (cols : list Expr) : DO := withDO i (DO_chain (CallGroup cols) i).
Definition Do_Having (i : DO) (conds : list Expr) : DO := withDO i (DO_chain (CallHaving conds) i).
Definition Do_Limit (i : DO) (limit : Z) : DO := withDO i (DO_chain (CallLimit limit) i).
Definition Do_Offset (i : DO) (offset : Z) : DO := withDO i (DO_chain (CallOffset offset) i).
Definition Do_Scopes (i : DO) (funcs : list (DO → DO)) : DO := withDO i (DO_chain (CallScopes funcs) i).
Definition Do_Unscoped (i : DO) : DO := withDO i (DO_chain CallUnscoped i).
Definition Do_Attrs (i : DO) (attrs : list Assign) : DO := withDO i (DO_chain (CallAttrs attrs) i).
Definition Do_Assign (i : DO) (attrs : list Assign) : DO := withDO i (DO_chain (CallAssign attrs) i).
Definition Do_Joins (i : DO) (fields : list Relation) : DO :=
  foldl (λ i f, withDO i (DO_chain (CallJoins f) i)) i fields.
Definition Do_Preload (i : DO) (fields : list Relation) : DO :=
  foldl (λ i f, withDO i (DO_chain (CallPreload f) i)) i fields.

(** *** Statements *)

(** Nothing to create is not an error, and no statement. *)
Definition Do_Create (i : DO) (values : list R) (w : W) : W * option goerr :=
  if decide (len values = 0) then (w, None) else DO_Create i (to_slice values) w.
Definition Do_CreateInBatches (i : DO) (values : list R) (batchSize : Z) (w : W) : W * option goerr :=
  DO_CreateInBatches i (to_slice values) batchSize w.
Definition Do_Save (i : DO) (values : list R) (w : W) : W * option goerr :=
  if decide (len values = 0) then (w, None) else DO_Save i (to_slice values) w.

(** The single results are asserted to be of the model's type. *)
Definition asserted (p : W * res row) : W * ran (res R) :=
  match p with
  | (w, Err err) => (w, Returns (Err err))
  | (w, Ok result) => (w, match as_row result with Some r => Returns (Ok r) | None => Panics end)
  end.

Definition Do_First (i : DO) (w : W) : W * ran (res R) := asserted (DO_First i w).
Definition Do_Take (i : DO) (w : W) : W * ran (res R) := asserted (DO_Take i w).
Definition Do_Last (i : DO) (w : W) : W * ran (res R) := asserted (DO_Last i w).
Definition Do_FirstOrInit (i : DO) (w : W) : W * ran (res R) := asserted (DO_FirstOrInit i w).
Definition Do_FirstOrCreate (i : DO) (w : W) : W * ran (res R) := asserted (DO_FirstOrCreate i w).

(** The slice is asserted before the error is looked at. *)
Definition Do_Find (i : DO) (w : W) : W * ran (list R * option goerr) :=
  let '(w, (result, err)) := DO_Find i w in
  (w, match as_slice result with Some l => Returns (l, err) | None => Panics end).

Definition Do_FindInBatches (X : Type) (i : DO) (batchSize : Z)
  (fc : DO → Z → list R → W * X → (W * X) * option goerr) (wx : W * X) : (W * X) * option goerr :=
  DO_FindInBatches R _ X i batchSize fc wx.

(** The batches are appended also when the callback fails. *)
Definition Do_FindInBatch (i : DO) (batchSize : Z) (fc : DO → Z → W → W * option goerr) (w : W)
  : W * (list R * option goerr) :=
  let '((w, results), err) := DO_FindInBatches R _ (list R) i batchSize
    (λ tx batch buf wx, let '(w, results) := wx in
       let '(w, err) := fc tx batch w in ((w, results ++ buf), err)) (w, []) in
  (w, (results, err)).

Definition Do_Delete (i : DO) (models : list R) (w : W) : W * (Z * option goerr) :=
  DO_Delete i (to_slice models) w.

(** A page with the number of rows before it; a page that is not full counts itself. *)
Definition Do_FindByPage (i : DO) (offset limit : Z) (w : W) : W * ran (list R * Z * option goerr) :=
  match Do_Find (Do_Limit (Do_Offset i offset) limit) w with
  | (w, Panics) => (w, Panics)
  | (w, Returns (result, Some err)) => (w, Returns (result, 0, Some err))
  | (w, Returns (result, None)) =>
      let size := len result in
      if bool_decide (0 < limit) && bool_decide (0 < size) && bool_decide (size < limit)
      then (w, Returns (result, wrap64 (size + offset), None))
      else
        let '(w, (count, err)) := DO_Count (Do_Limit (Do_Offset i (-1)) (-1)) w in
        (w, Returns (result, count, err))
  end.

(** [Scan] stores into its argument; [scan] is the call with that argument. *)
Definition Do_ScanByPage (i : DO) (scan : DO → W → W * option goerr) (offset limit : Z) (w : W)
  : W * (Z * option goerr) :=
  match DO_Count i w with
  | (w, (count, Some err)) => (w, (count, Some err))
  | (w, (count, None)) =>
      let '(w, err) := scan (Do_Limit (Do_Offset i offset) limit) w in (w, (count, err))
  end.

End Do.

(** ** The tables *)

(** [fieldMap[name] = field], in order. *)
Definition fill {Expr : Type} (fields : list (string * Expr)) : gmap string Expr :=
  foldl (λ m f, <[f.1 := f.2]> m) ∅ fields.

Section Tables.
Context `{Gen}.

(** The field of a name, when it can be ordered by. *)
Definition field_named (fieldMap : gmap string Expr) (fieldName : string) : option Expr :=
  match fieldMap !! fieldName with
  | None => None
  | Some f => if field_IsOrderExpr f then Some f else None
  end.

(** *** evaluations.gen.go *)
Record evaluation : Type := MkEvaluationTable {
  evaluationDo : DO;
  e_ALL : Expr;
  e_ID : Expr;
  e_PolicySnapshotHash : Expr;
  e_PolicyName : Expr;
  e_PolicyVersion : Expr;
  e_PolicyKind : Expr;
  e_Status : Expr;
  e_Outcome : Expr;
  e_MatchedRuleID : Expr;
  e_ExecutionPath : Expr;
  e_RequestedModel : Expr;
  e_ResolvedModel : Expr;
  e_AnswersJSON : Expr;
  e_InputTokens : Expr;
  e_OutputTokens : Expr;
  e_ProviderAttempts : Expr;
  e_ProviderDurationMS : Expr;
  e_TotalDurationMS : Expr;
  e_RequestID : Expr;
  e_MetadataJSON : Expr;
  e_EncryptedInput : Expr;
  e_FailureCode : Expr;
  e_CreatedAt : Expr;
  e_fieldMap : gmap string Expr
}.

Definition evaluation_with_do (do : DO) (e : evaluation) : evaluation :=
  let 'MkEvaluationTable _ a c1 c2 c3 c4 c5 c6 c7 c8 c9 c10 c11 c12 c13 c14 c15 c16 c17 c18 c19
         c20 c21 c22 m := e in
  MkEvaluationTable do a c1 c2 c3 c4 c5 c6 c7 c8 c9 c10 c11 c12 c13 c14 c15 c16 c17 c18 c19
    c20 c21 c22 m.

Definition evaluation_fillFieldMap (e : evaluation) : evaluation :=
  let 'MkEvaluationTable d a c1 c2 c3 c4 c5 c6 c7 c8 c9 c10 c11 c12 c13 c14 c15 c16 c17 c18 c19
         c20 c21 c22 _ := e in
  MkEvaluationTable d a c1 c2 c3 c4 c5 c6 c7 c8 c9 c10 c11 c12 c13 c14 c15 c16 c17 c18 c19
    c20 c21 c22 (fill [
      ("id", e_ID e);
      ("policy_snapshot_hash", e_PolicySnapshotHash e);
      ("policy_name", e_PolicyName e);
      ("policy_version", e_PolicyVersion e);
      ("policy_kind", e_PolicyKind e);
      ("status", e_Status e);
      ("outcome", e_Outcome e);
      ("matched_rule_id", e_MatchedRuleID e);
      ("execution_path", e_ExecutionPath e);
      ("requested_model", e_RequestedModel e);
      ("resolved_model", e_ResolvedModel e);
      ("answers_json", e_AnswersJSON e);
      ("input_tokens", e_InputTokens e);
      ("output_tokens", e_OutputTokens e);
      ("provider_attempts", e_ProviderAttempts e);
      ("provider_duration_ms", e_ProviderDurationMS e);
      ("total_duration_ms", e_TotalDurationMS e);
      ("request_id", e_RequestID e);
      ("metadata_json", e_MetadataJSON e);
      ("encrypted_input", e_EncryptedInput e);
      ("failure_code", e_FailureCode e);
      ("created_at", e_CreatedAt e)]).

(** The columns of a table, before the field map is filled. *)
Definition evaluation_columns (do : DO) (table : string) (m : gmap string Expr) : evaluation := {|
  evaluationDo := do;
  e_ALL := field_NewAsterisk table;
  e_ID := field_New NewField table "id";
  e_PolicySnapshotHash := field_New NewString table "policy_snapshot_hash";
  e_PolicyName := field_New NewString table "policy_name";
  e_PolicyVersion := field_New NewString table "policy_version";
  e_PolicyKind := field_New NewString table "policy_kind";
  e_Status := field_New NewString table "status";
  e_Outcome := field_New NewString table "outcome";
  e_MatchedRuleID := field_New NewString table "matched_rule_id";
  e_ExecutionPath := field_New NewString table "execution_path";
  e_RequestedModel := field_New NewString table "requested_model";
  e_ResolvedModel := field_New NewString table "resolved_model";
  e_AnswersJSON := field_New NewString table "answers_json";
  e_InputTokens := field_New NewInt table "input_tokens";
  e_OutputTokens := field_New NewInt table "output_tokens";
  e_ProviderAttempts := field_New NewInt table "provider_attempts";
  e_ProviderDurationMS := field_New NewInt64 table "provider_duration_ms";
  e_TotalDurationMS := field_New NewInt64 table "total_duration_ms";
  e_RequestID := field_New NewString table "request_id";
  e_MetadataJSON := field_New NewString table "metadata_json";
  e_EncryptedInput := field_New NewBytes table "encrypted_input";
  e_FailureCode := field_New NewString table "failure_code";
  e_CreatedAt := field_New NewTime table "created_at";
  e_fieldMap := m |}.

Definition newEvaluation (db : GormDB) (opts : list DOOption) : evaluation :=
  let do := DO_UseModel ModelEvaluation (DO_UseDB db opts zero_DO) in
  let tableName := DO_TableName do in
  evaluation_fillFieldMap (evaluation_columns do tableName ∅).

Definition evaluation_updateTableName (table : string) (e : evaluation) : evaluation :=
  evaluation_fillFieldMap (evaluation_columns (evaluationDo e) table (e_fieldMap e)).
Definition evaluation_Table (newTableName : string) (e : evaluation) : evaluation :=
  evaluation_updateTableName newTableName
    (evaluation_with_do (DO_UseTable newTableName (evaluationDo e)) e).
Definition evaluation_As (alias : string) (e : evaluation) : evaluation :=
  evaluation_updateTableName alias
    (evaluation_with_do (DO_chain (CallAs alias) (evaluationDo e)) e).
Definition evaluation_GetFieldByName (fieldName : string) (e : evaluation) : option Expr :=
  field_named (e_fieldMap e) fieldName.
Definition evaluation_clone (db : GormDB) (e : evaluation) : evaluation :=
  evaluation_with_do (DO_ReplaceConnPool (Statement_ConnPool db) (evaluationDo e)) e.
Definition evaluation_replaceDB (db : GormDB) (e : evaluation) : evaluation :=
  evaluation_with_do (DO_ReplaceDB db (evaluationDo e)) e.

(** *** evaluation_feedback.gen.go *)
Record evaluationFeedback : Type := MkEvaluationFeedbackTable {
  evaluationFeedbackDo : DO;
  f_ALL : Expr;
  f_ID : Expr;
  f_EvaluationID : Expr;
  f_ExpectedOutcome : Expr;
  f_Note : Expr;
  f_CreatedAt : Expr;
  f_fieldMap : gmap string Expr
}.

Definition evaluationFeedback_with_do (do : DO) (f : evaluationFeedback) : evaluationFeedback :=
  let 'MkEvaluationFeedbackTable _ a c1 c2 c3 c4 c5 m := f in MkEvaluationFeedbackTable do a c1 c2 c3 c4 c5 m.

Definition evaluationFeedback_fillFieldMap (f : evaluationFeedback) : evaluationFeedback :=
  let 'MkEvaluationFeedbackTable d a c1 c2 c3 c4 c5 _ := f in
  MkEvaluationFeedbackTable d a c1 c2 c3 c4 c5 (fill [
    ("id", f_ID f);
    ("evaluation_id", f_EvaluationID f);
    ("expected_outcome", f_ExpectedOutcome f);
    ("note", f_Note f);
    ("created_at", f_CreatedAt f)]).

Definition evaluationFeedback_columns (do : DO) (table : string) (m : gmap string Expr) : evaluationFeedback := {|
  evaluationFeedbackDo := do;
  f_ALL := field_NewAsterisk table;
  f_ID := field_New NewField table "id";
  f_EvaluationID := field_New NewField table "evaluation_id";
  f_ExpectedOutcome := field_New NewString table "expected_outcome";
  f_Note := field_New NewString table "note";
  f_CreatedAt := field_New NewTime table "created_at";
  f_fieldMap := m |}.

Definition newEvaluationFeedback (db : GormDB) (opts : list DOOption) : evaluationFeedback :=
  let do := DO_UseModel ModelEvaluationFeedback (DO_UseDB db opts zero_DO) in
  let tableName := DO_TableName do in
  evaluationFeedback_fillFieldMap (evaluationFeedback_columns do tableName ∅).

Definition evaluationFeedback_updateTableName (table : string) (f : evaluationFeedback) : evaluationFeedback :=
  evaluationFeedback_fillFieldMap (evaluationFeedback_columns (evaluationFeedbackDo f) table (f_fieldMap f)).
Definition evaluationFeedback_Table (newTableName : string) (f : evaluationFeedback) : evaluationFeedback :=
  evaluationFeedback_updateTableName newTableName
    (evaluationFeedback_with_do (DO_UseTable newTableName (evaluationFeedbackDo f)) f).
Definition evaluationFeedback_As (alias : string) (f : evaluationFeedback) : evaluationFeedback :=
  evaluationFeedback_updateTableName alias
    (evaluationFeedback_with_do (DO_chain (CallAs alias) (evaluationFeedbackDo f)) f).
Definition evaluationFeedback_GetFieldByName (fieldName : string) (f : evaluationFeedback) : option Expr :=
  field_named (f_fieldMap f) fieldName.
Definition evaluationFeedback_clone (db : GormDB) (f : evaluationFeedback) : evaluationFeedback :=
  evaluationFeedback_with_do (DO_ReplaceConnPool (Statement_ConnPool db) (evaluationFeedbackDo f)) f.
Definition evaluationFeedback_replaceDB (db : GormDB) (f : evaluationFeedback) : evaluationFeedback :=
  evaluationFeedback_with_do (DO_ReplaceDB db (evaluationFeedbackDo f)) f.

(** *** idempotency_records.gen.go *)
Record idempotencyRecord : Type := MkIdempotencyRecordTable {
  idempotencyRecordDo : DO;
  i_ALL : Expr;
  i_KeyHash : Expr;
  i_CanonicalRequestHash : Expr;
  i_EvaluationID : Expr;
  i_ExpiresAt : Expr;
  i_CreatedAt : Expr;
  i_fieldMap : gmap string Expr
}.

Definition idempotencyRecord_with_do (do : DO) (i : idempotencyRecord) : idempotencyRecord :=
  let 'MkIdempotencyRecordTable _ a c1 c2 c3 c4 c5 m := i in MkIdempotencyRecordTable do a c1 c2 c3 c4 c5 m.

Definition idempotencyRecord_fillFieldMap (i : idempotencyRecord) : idempotencyRecord :=
  let 'MkIdempotencyRecordTable d a c1 c2 c3 c4 c5 _ := i in
  MkIdempotencyRecordTable d a c1 c2 c3 c4 c5 (fill [
    ("key_hash", i_KeyHash i);
    ("canonical_request_hash", i_CanonicalRequestHash i);
    ("evaluation_id", i_EvaluationID i);
    ("expires_at", i_ExpiresAt i);
    ("created_at", i_CreatedAt i)]).

Definition idempotencyRecord_columns (do : DO) (table : string) (m : gmap string Expr) : idempotencyRecord := {|
  idempotencyRecordDo := do;
  i_ALL := field_NewAsterisk table;
  i_KeyHash := field_New NewString table "key_hash";
  i_CanonicalRequestHash := field_New NewString table "canonical_request_hash";
  i_EvaluationID := field_New NewField table "evaluation_id";
  i_ExpiresAt := field_New NewTime table "expires_at";
  i_CreatedAt := field_New NewTime table "created_at";
  i_fieldMap := m |}.

Definition newIdempotencyRecord (db : GormDB) (opts : list DOOption) : idempotencyRecord :=
  let do := DO_UseModel ModelIdempotencyRecord (DO_UseDB db opts zero_DO) in
  let tableName := DO_TableName do in
  idempotencyRecord_fillFieldMap (idempotencyRecord_columns do tableName ∅).

Definition idempotencyRecord_updateTableName (table : string) (i : idempotencyRecord) : idempotencyRecord :=
  idempotencyRecord_fillFieldMap (idempotencyRecord_columns (idempotencyRecordDo i) table (i_fieldMap i)).
Definition idempotencyRecord_Table (newTableName : string) (i : idempotencyRecord) : idempotencyRecord :=
  idempotencyRecord_updateTableName newTableName
    (idempotencyRecord_with_do (DO_UseTable newTableName (idempotencyRecordDo i)) i).
Definition idempotencyRecord_As (alias : string) (i : idempotencyRecord) : idempotencyRecord :=
  idempotencyRecord_updateTableName alias
    (idempotencyRecord_with_do (DO_chain (CallAs alias) (idempotencyRecordDo i)) i).
Definition idempotencyRecord_GetFieldByName (fieldName : string) (i : idempotencyRecord) : option Expr :=
  field_named (i_fieldMap i) fieldName.
Definition idempotencyRecord_clone (db : GormDB) (i : idempotencyRecord) : idempotencyRecord :=
  idempotencyRecord_with_do (DO_ReplaceConnPool (Statement_ConnPool db) (idempotencyRecordDo i)) i.
Definition idempotencyRecord_replaceDB (db : GormDB) (i : idempotencyRecord) : idempotencyRecord :=
  idempotencyRecord_with_do (DO_ReplaceDB db (idempotencyRecordDo i)) i.

(** *** policy_snapshots.gen.go *)
Record policySnapshot : Type := MkPolicySnapshotTable {
  policySnapshotDo : DO;
  p_ALL : Expr;
  p_Hash : Expr;
  p_Name : Expr;
  p_Version : Expr;
  p_CanonicalJSON : Expr;
  p_LoadedAt : Expr;
  p_fieldMap : gmap string Expr
}.

Definition policySnapshot_with_do (do : DO) (p : policySnapshot) : policySnapshot :=
  let 'MkPolicySnapshotTable _ a c1 c2 c3 c4 c5 m := p in MkPolicySnapshotTable do a c1 c2 c3 c4 c5 m.

Definition policySnapshot_fillFieldMap (p : policySnapshot) : policySnapshot :=
  let 'MkPolicySnapshotTable d a c1 c2 c3 c4 c5 _ := p in
  MkPolicySnapshotTable d a c1 c2 c3 c4 c5 (fill [
    ("hash", p_Hash p);
    ("name", p_Name p);
    ("version", p_Version p);
    ("canonical_json", p_CanonicalJSON p);
    ("loaded_at", p_LoadedAt p)]).

Definition policySnapshot_columns (do : DO) (table : string) (m : gmap string Expr) : policySnapshot := {|
  policySnapshotDo := do;
  p_ALL := field_NewAsterisk table;
  p_Hash := field_New NewString table "hash";
  p_Name := field_New NewString table "name";
  p_Version := field_New NewString table "version";
  p_CanonicalJSON := field_New NewString table "canonical_json";
  p_LoadedAt := field_New NewTime table "loaded_at";
  p_fieldMap := m |}.

Definition newPolicySnapshot (db : GormDB) (opts : list DOOption) : policySnapshot :=
  let do := DO_UseModel ModelPolicySnapshot (DO_UseDB db opts zero_DO) in
  let tableName := DO_TableName do in
  policySnapshot_fillFieldMap (policySnapshot_columns do tableName ∅).

Definition policySnapshot_updateTableName (table : string) (p : policySnapshot) : policySnapshot :=
  policySnapshot_fillFieldMap (policySnapshot_columns (policySnapshotDo p) table (p_fieldMap p)).
Definition policySnapshot_Table (newTableName : string) (p : policySnapshot) : policySnapshot :=
  policySnapshot_updateTableName newTableName
    (policySnapshot_with_do (DO_UseTable newTableName (policySnapshotDo p)) p).
Definition policySnapshot_As (alias : string) (p : policySnapshot) : policySnapshot :=
  policySnapshot_updateTableName alias
    (policySnapshot_with_do (DO_chain (CallAs alias) (policySnapshotDo p)) p).
Definition policySnapshot_GetFieldByName (fieldName : string) (p : policySnapshot) : option Expr :=
  field_named (p_fieldMap p) fieldName.
Definition policySnapshot_clone (db : GormDB) (p : policySnapshot) : policySnapshot :=
  policySnapshot_with_do (DO_ReplaceConnPool (Statement_ConnPool db) (policySnapshotDo p)) p.
Definition policySnapshot_replaceDB (db : GormDB) (p : policySnapshot) : policySnapshot :=
  policySnapshot_with_do (DO_ReplaceDB db (policySnapshotDo p)) p.

(** *** repositories.gen.go *)
Record Query : Type := MkRepositories {
  q_db : option GormDB;                 (** [None] is the nil handle of [new(Query)] *)
  q_Evaluation : evaluation;
  q_EvaluationFeedback : evaluationFeedback;
  q_IdempotencyRecord : idempotencyRecord;
  q_PolicySnapshot : policySnapshot
}.

Definition Use (db : GormDB) (opts : list DOOption) : Query := {|
  q_db := Some db;
  q_Evaluation := newEvaluation db opts;
  q_EvaluationFeedback := newEvaluationFeedback db opts;
  q_IdempotencyRecord := newIdempotencyRecord db opts;
  q_PolicySnapshot := newPolicySnapshot db opts |}.

Definition Available (q : Query) : bool := bool_decide (is_Some (q_db q)).
Definition UnderlyingDB (q : Query) : option GormDB := q_db q.

Definition clone (db : GormDB) (q : Query) : Query := {|
  q_db := Some db;
  q_Evaluation := evaluation_clone db (q_Evaluation q);
  q_EvaluationFeedback := evaluationFeedback_clone db (q_EvaluationFeedback q);
  q_IdempotencyRecord := idempotencyRecord_clone db (q_IdempotencyRecord q);
  q_PolicySnapshot := policySnapshot_clone db (q_PolicySnapshot q) |}.

(** The methods below dereference the handle; [None] is the panic of a nil one. *)
Definition ReadDB (q : Query) : option Query :=
  db ← q_db q; Some (clone (DB_Clauses dbresolver_Read db) q).
Definition WriteDB (q : Query) : option Query :=
  db ← q_db q; Some (clone (DB_Clauses dbresolver_Write db) q).

Definition ReplaceDB (db : GormDB) (q : Query) : Query := {|
  q_db := Some db;
  q_Evaluation := evaluation_replaceDB db (q_Evaluation q);
  q_EvaluationFeedback := evaluationFeedback_replaceDB db (q_EvaluationFeedback q);
  q_IdempotencyRecord := idempotencyRecord_replaceDB db (q_IdempotencyRecord q);
  q_PolicySnapshot := policySnapshot_replaceDB db (q_PolicySnapshot q) |}.

Record queryCtx : Type := MkQueryCtx {
  qc_Evaluation : DO;
  qc_EvaluationFeedback : DO;
  qc_IdempotencyRecord : DO;
  qc_PolicySnapshot : DO
}.

Definition WithContext (ctx : Ctx) (q : Query) : queryCtx := {|
  qc_Evaluation := Do_WithContext (evaluationDo (q_Evaluation q)) ctx;
  qc_EvaluationFeedback := Do_WithContext (evaluationFeedbackDo (q_EvaluationFeedback q)) ctx;
  qc_IdempotencyRecord := Do_WithContext (idempotencyRecordDo (q_IdempotencyRecord q)) ctx;
  qc_PolicySnapshot := Do_WithContext (policySnapshotDo (q_PolicySnapshot q)) ctx |}.

Context {W : Type} `{!GenExec W}.

Definition Query_Transaction (X : Type) (q : Query)
  (fc : Query → W * X → (W * X) * res unit) (wx : W * X) : option ((W * X) * res unit) :=
  db ← q_db q; Some (DB_Transaction X db (λ tx, fc (clone tx q)) wx).

(** [QueryTx]: the repositories of an open transaction, and why it did not open. *)
Record QueryTx : Type := MkQueryTx { qt_Query : Query; qt_Error : option goerr }.

Definition Begin (q : Query) (w : W) : option (W * QueryTx) :=
  db ← q_db q;
  let '(w, (tx, err)) := DB_Begin db w in
  Some (w, MkQueryTx (clone tx q) err).

Definition Commit (q : QueryTx) (w : W) : option (W * option goerr) :=
  db ← q_db (qt_Query q); Some (DB_Commit db w).
Definition Rollback (q : QueryTx) (w : W) : option (W * option goerr) :=
  db ← q_db (qt_Query q); Some (DB_Rollback db w).
Definition SavePoint (name : string) (q : QueryTx) (w : W) : option (W * option goerr) :=
  db ← q_db (qt_Query q); Some (DB_SavePoint name db w).
Definition RollbackTo (name : string) (q : QueryTx) (w : W) : option (W * option goerr) :=
  db ← q_db (qt_Query q); Some (DB_RollbackTo name db w).

End Tables.

(** [SetDefault]: the package's own query, whose tables the package variables point into. *)
Definition SetDefault `{Gen} (db : GormDB) (opts : list DOOption) : Query := Use db opts.

(** ** The statements of the services

    The chains that [core/evaluations] and the retention pass write over a query. *)
Section Calls.
Context `{Gen} {W : Type} `{!GenExec W} (ctx : Ctx) (q : Query).

Definition settle_error (p : W * option goerr) : W * res unit :=
  (p.1, match p.2 with None => Ok tt | Some err => Err err end).

(** [ensureSnapshot] *)
Definition createSnapshot (snapshot : PolicySnapshot) (w : W) : W * res unit :=
  let repo := q_PolicySnapshot q in
  settle_error (Do_Create (Do_Clauses (Do_WithContext (policySnapshotDo repo) ctx)
    [OnConflictDoNothing]) [snapshot] w).

(** The two rows of [persist]. *)
Definition createEvaluation (record : Evaluation) (w : W) : W * res unit :=
  settle_error (Do_Create (Do_WithContext (evaluationDo (q_Evaluation q)) ctx) [record] w).
Definition createIdempotency (idempotency : IdempotencyRecord) (w : W) : W * res unit :=
  settle_error (Do_Create (Do_WithContext (idempotencyRecordDo (q_IdempotencyRecord q)) ctx)
    [idempotency] w).

(** The row of [SubmitFeedback]. *)
Definition createFeedback (record : EvaluationFeedback) (w : W) : W * res unit :=
  settle_error (Do_Create (Do_WithContext (evaluationFeedbackDo (q_EvaluationFeedback q)) ctx)
    [record] w).

(** [replay] and [findEvaluation] *)
Definition firstIdempotency (keyHash : string) (w : W) : W * ran (res IdempotencyRecord) :=
  let repo := q_IdempotencyRecord q in
  Do_First (Do_Where (Do_WithContext (idempotencyRecordDo repo) ctx)
    [field_Eq (i_KeyHash repo) (CellText keyHash)]) w.
Definition firstEvaluation (id : uuid) (w : W) : W * ran (res Evaluation) :=
  let repo := q_Evaluation q in
  Do_First (Do_Where (Do_WithContext (evaluationDo repo) ctx) [field_Eq (e_ID repo) (CellText id)]) w.

(** The condition of a [Where] on the evaluations. *)
Definition evaluationCond (c : EvaluationCond) : Expr :=
  let repo := q_Evaluation q in
  match c with
  | EvPolicyNameEq s => field_Eq (e_PolicyName repo) (CellText s)
  | EvPolicyVersionEq s => field_Eq (e_PolicyVersion repo) (CellText s)
  | EvOutcomeEq s => field_Eq (e_Outcome repo) (CellText s)
  | EvStatusEq s => field_Eq (e_Status repo) (CellText s)
  | EvCreatedAtLt t => field_Lt (e_CreatedAt repo) (CellTime t)
  | EvIDIn ids => field_In (e_ID repo) (CellText <$> ids)
  end.
Definition feedbackCond (c : FeedbackCond) : Expr :=
  match c with
  | FbEvaluationIDIn ids => field_In (f_EvaluationID (q_EvaluationFeedback q)) (CellText <$> ids)
  end.
Definition idempotencyCond (c : IdempotencyCond) : Expr :=
  match c with IrExpiresAtLt t => field_Lt (i_ExpiresAt (q_IdempotencyRecord q)) (CellTime t) end.

(** One [Where] per condition. *)
Definition whereAll (do : DO) (conds : list Expr) : DO := foldl (λ do c, Do_Where do [c]) do conds.

(** The listings of [List], newest first, and the [Find] of [expireEvaluations]. *)
Definition findEvaluations (query : EvaluationQuery) (w : W) : W * ran (list Evaluation * option goerr) :=
  let repo := q_Evaluation q in
  let do := whereAll (Do_WithContext (evaluationDo repo) ctx) (evaluationCond <$> qry_where query) in
  let do := if qry_ordered query
            then Do_Order do [field_Desc (e_CreatedAt repo); field_Desc (e_ID repo)] else do in
  let do := Do_Limit do (qry_limit query) in
  Do_Find (match qry_offset query with Some offset => Do_Offset do offset | None => do end) w.

(** The deletions of a retention pass report [RowsAffected]. *)
Definition settle_count (p : W * (Z * option goerr)) : W * res Z :=
  (p.1, match p.2.2 with None => Ok p.2.1 | Some err => Err err end).

Definition deleteIdempotency (conds : list IdempotencyCond) (limit : Z) (w : W) : W * res Z :=
  settle_count (Do_Delete (R:=IdempotencyRecord) (Do_Limit
    (whereAll (Do_WithContext (idempotencyRecordDo (q_IdempotencyRecord q)) ctx)
      (idempotencyCond <$> conds)) limit) [] w).
Definition deleteFeedback (conds : list FeedbackCond) (w : W) : W * res Z :=
  settle_count (Do_Delete (R:=EvaluationFeedback)
    (whereAll (Do_WithContext (evaluationFeedbackDo (q_EvaluationFeedback q)) ctx)
      (feedbackCond <$> conds)) [] w).
Definition deleteEvaluations (conds : list EvaluationCond) (w : W) : W * res Z :=
  settle_count (Do_Delete (R:=Evaluation)
    (whereAll (Do_WithContext (evaluationDo (q_Evaluation q)) ctx)
      (evaluationCond <$> conds)) [] w).

End Calls.
End Repositories.
