(* ===== verification/RepositoriesSpec.v ===== *)
(** * The repositories implement the database interface

    [GenLaws] says what the statements of gorm.io/gen do, statement by statement: a data
    object carries a statement that its chaining methods extend, and running it reads or
    changes the tables its connection sees.  From these laws, the chains of calls the
    services write over the generated repositories meet [DatabaseLaws]: the interface every
    theorem about the services is stated against. *)

From S2P Require Import Prelude GoFloat GoAny Decision Document Store Effects Repositories.
From stdpp Require Import options.
#[local] Open Scope Z_scope.

Module RepositoriesSpec.
Import Repositories.

(** ** Statements *)

(** What a data object has collected: its connection, its model, and its clauses. *)
Record statement `{Gen} : Type := MkStatement {
  st_pool : ConnPool;
  st_model : option model;
  st_where : list Expr;
  st_order : list Expr;
  st_limit : option Z;
  st_offset : Z;
  st_ignore : bool          (** [ON CONFLICT DO NOTHING] *)
}.

Definition plain `{Gen} (pool : ConnPool) (m : model) : statement :=
  MkStatement _ pool (Some m) [] [] None 0 false.

(** The value of a column of a row. *)
Definition cell_of {R} `{!Model R} (r : R) (name : string) : option cell :=
  (λ c : column R, c.2 r) <$> List.find (λ c : column R, bool_decide (c.1.1 = name)) columns_of.

(** The order of texts and times in a column, descending. *)
Definition cell_desc (a b : cell) : comparison :=
  match a, b with
  | CellText s, CellText t => String.compare t s
  | CellInt x, CellInt y | CellTime x, CellTime y => (y ?= x)
  | _, _ => Eq
  end.

(** No [LIMIT] is written for a negative one. *)
Definition window {A} (limit : option Z) (offset : Z) (l : list A) : list A :=
  let l := drop (Z.to_nat offset) l in
  match limit with
  | Some n => if decide (n < 0) then l else take (Z.to_nat n) l
  | None => l
  end.

Arguments window : simpl never.

(** ** The four models *)
Inductive genuine : ∀ R : Type, Model R → Prop :=
  | genuine_snapshot : genuine PolicySnapshot PolicySnapshot_model
  | genuine_evaluation : genuine Evaluation Evaluation_model
  | genuine_idempotency : genuine IdempotencyRecord IdempotencyRecord_model
  | genuine_feedback : genuine EvaluationFeedback EvaluationFeedback_model.
Existing Class genuine.
#[export] Existing Instances genuine_snapshot genuine_evaluation genuine_idempotency genuine_feedback.

(** Their assertions invert their conversions, and each has its own table. *)
Lemma as_to_row {R} {m : Model R} `{!genuine R m} r : as_row (to_row r) = Some r.
Proof. by destruct genuine0. Qed.

Lemma as_to_slice {R} {m : Model R} `{!genuine R m} l : as_slice (to_slice l) = Some l.
Proof. by destruct genuine0. Qed.

(** ** What the library promises *)
Class GenLaws (W : Type) `{GenExec W} := {
  (** the tables as a connection sees them, and whether it is that of a transaction *)
  view : ConnPool → W → Tables;
  in_transaction : ConnPool → bool;
  (** a connection without clauses of its own *)
  unscoped : GormDB → Prop;
  statement_of : DO → statement;
  (** conditions and orders on a row *)
  holds : ∀ R, Model R → Expr → R → bool;
  precedes : ∀ R, Model R → Expr → R → R → comparison;

  law_holds_eq R (m : Model R) k c v r x : cell_of r c = Some (CellText x) →
    holds R m (field_Eq (field_New k (TableName model_of) c) (CellText v)) r = bool_decide (x = v);
  law_holds_lt R (m : Model R) k c v r x : cell_of r c = Some (CellTime x) →
    holds R m (field_Lt (field_New k (TableName model_of) c) (CellTime v)) r
      = bool_decide (x < gen_column_time v);
  law_holds_in R (m : Model R) k c vs r x : cell_of r c = Some (CellText x) →
    holds R m (field_In (field_New k (TableName model_of) c) (CellText <$> vs)) r = bool_decide (x ∈ vs);
  law_precedes_desc R (m : Model R) k c r1 r2 x y : cell_of r1 c = Some x → cell_of r2 c = Some y →
    precedes R m (field_Desc (field_New k (TableName model_of) c)) r1 r2 = cell_desc x y;
  (** every column of a table can be ordered by *)
  law_order_expr k t c : field_IsOrderExpr (field_New k t c) = true;

  (** a data object of a fresh connection, and its clauses *)
  law_new m db opts : unscoped db →
    statement_of (DO_UseModel m (DO_UseDB db opts zero_DO)) = plain (Statement_ConnPool db) m;
  law_table_name m db opts : DO_TableName (DO_UseModel m (DO_UseDB db opts zero_DO)) = TableName m;
  law_conn_pool pool d : let s := statement_of d in
    statement_of (DO_ReplaceConnPool pool d) =
    MkStatement _ pool (st_model s) (st_where s) (st_order s) (st_limit s) (st_offset s) (st_ignore s);
  law_context ctx d : statement_of (DO_chain (CallWithContext ctx) d) = statement_of d;
  law_ignore d : let s := statement_of d in
    statement_of (DO_chain (CallClauses [OnConflictDoNothing]) d) =
    MkStatement _ (st_pool s) (st_model s) (st_where s) (st_order s) (st_limit s) (st_offset s) true;
  law_where cs d : let s := statement_of d in
    statement_of (DO_chain (CallWhere cs) d) =
    MkStatement _ (st_pool s) (st_model s) (st_where s ++ cs) (st_order s) (st_limit s) (st_offset s)
      (st_ignore s);
  law_order os d : let s := statement_of d in
    statement_of (DO_chain (CallOrder os) d) =
    MkStatement _ (st_pool s) (st_model s) (st_where s) (st_order s ++ os) (st_limit s) (st_offset s)
      (st_ignore s);
  (** a zero does not replace a limit or an offset; a negative offset is none *)
  law_limit n d : let s := statement_of d in
    statement_of (DO_chain (CallLimit n) d) =
    MkStatement _ (st_pool s) (st_model s) (st_where s) (st_order s)
      (if decide (n = 0) then Some (default 0 (st_limit s)) else Some n) (st_offset s) (st_ignore s);
  law_offset n d : let s := statement_of d in
    statement_of (DO_chain (CallOffset n) d) =
    MkStatement _ (st_pool s) (st_model s) (st_where s) (st_order s) (st_limit s)
      (if decide (n = 0) then st_offset s else Z.max 0 n) (st_ignore s);

  (** a table is keyed by its primary key *)
  law_keyed R (m : Model R) `{!genuine R m} pool w k r :
    rows_of (view pool w) !! k = Some r → k = key_of r;
  (** one row is inserted, unless its key is taken *)
  law_create R (m : Model R) `{!genuine R m} r d w : let s := statement_of d in
    st_model s = Some model_of →
    let t := view (st_pool s) w in
    let out := DO_Create d (to_slice [r]) w in
    let t' := view (st_pool s) out.1 in
    let inserted := with_rows <[key_of r := stored_row gen_column_time r]> t in
    match out.2 with
    | Some _ => t' = t
    | None => if st_ignore s
              then t' = match rows_of t !! key_of r with Some _ => t | None => inserted end
              else rows_of t !! key_of r = None ∧ t' = inserted
    end;
  (** a row that meets the conditions, when there is one *)
  law_first R (m : Model R) `{!genuine R m} d w : let s := statement_of d in
    st_model s = Some model_of → st_limit s = None → st_offset s = 0 →
    let rows := rows_of (view (st_pool s) w) in
    match (DO_First d w).2 with
    | Ok v => ∃ r k, v = to_row r ∧ rows !! k = Some r ∧ forallb (λ c, holds R m c r) (st_where s) = true
    | Err e => errors_Is e GormRecordNotFound = true →
        ∀ k r, rows !! k = Some r → forallb (λ c, holds R m c r) (st_where s) = false
    end;
  law_find R (m : Model R) `{!genuine R m} d w : let s := statement_of d in
    st_model s = Some model_of →
    ∃ l, (DO_Find d w).2.1 = to_slice l ∧
    ((DO_Find d w).2.2 = None →
     ∃ all, all ≡ₚ filter (λ r, forallb (λ c, holds R m c r) (st_where s) = true)
                     (map_to_list (rows_of (view (st_pool s) w))).*2 ∧
       l = window (st_limit s) (st_offset s) all ∧
       Sorted (λ r1 r2, ∃ n, Forall (λ o, precedes R m o r1 r2 = Eq) (take n (st_order s)) ∧
         match drop n (st_order s) with [] => True | o :: _ => precedes R m o r1 r2 = Lt end) all);
  law_count R (m : Model R) `{!genuine R m} d w : let s := statement_of d in
    st_model s = Some model_of → (∀ n, st_limit s = Some n → n < 0) → st_offset s = 0 →
    (DO_Count d w).2.2 = None →
    (DO_Count d w).2.1 = len (filter (λ r, forallb (λ c, holds R m c r) (st_where s) = true)
                           (map_to_list (rows_of (view (st_pool s) w))).*2);
  (** a deletion of no particular rows is one of those that meet the conditions, and needs
      a condition; some dialects apply its limit *)
  law_delete R (m : Model R) `{!genuine R m} d w : let s := statement_of d in
    st_model s = Some model_of →
    let out := DO_Delete d (to_slice (R:=R) []) w in
    let t := view (st_pool s) w in
    let t' := view (st_pool s) out.1 in
    match out.2.2 with
    | Some _ => t' = t
    | None => st_where s ≠ [] ∧
        deletes rows_of with_rows (λ r, forallb (λ c, holds R m c r) (st_where s)) (st_limit s) t t'
          (Ok out.2.1)
    end;
  (** reading changes nothing; writing in a transaction is not seen outside *)
  law_first_frame d w pool : view pool (DO_First d w).1 = view pool w;
  law_find_frame d w pool : view pool (DO_Find d w).1 = view pool w;
  law_count_frame d w pool : view pool (DO_Count d w).1 = view pool w;
  law_create_frame d l w pool : in_transaction (st_pool (statement_of d)) = true →
    pool ≠ st_pool (statement_of d) → view pool (DO_Create d l w).1 = view pool w;
  (** the function gets a connection that starts from what [db] sees; if it leaves [db]'s own
      view alone, that view becomes the transaction's on success and is kept on failure *)
  law_transaction X db f w (x : X) :
    let out := DB_Transaction X db f (w, x) in
    let pool := Statement_ConnPool db in
    (out.1.2 = x ∧ view pool out.1.1 = view pool w ∧ ∃ e, out.2 = Err e) ∨
    ∃ tx w0, let txp := Statement_ConnPool tx in
      in_transaction txp = true ∧ view txp w0 = view pool w ∧ view pool w0 = view pool w ∧
      out.1.2 = (f tx (w0, x)).1.2 ∧
      (txp = pool ∨ view pool (f tx (w0, x)).1.1 = view pool w0 →
       match (f tx (w0, x)).2 with
       | Err e => out.2 = Err e ∧ view pool out.1.1 = view pool w
       | Ok _ => (out.2 = Ok tt ∧ view pool out.1.1 = view txp (f tx (w0, x)).1.1) ∨
                 (∃ e, out.2 = Err e) ∧ view pool out.1.1 = view pool w
       end)
}.

(** The world around the database does not touch it. *)
Class GenOutside (W : Type) `{GenLaws W} `{ProviderPort W} `{Runtime W} := {
  gen_provider_frame q w pool : view pool (Provider_Evaluate q w).1 = view pool w;
  gen_now_frame w pool : view pool (world_now w).1 = view pool w;
  gen_newID_frame w pool : view pool (world_newID w).1 = view pool w;
  gen_rand_frame n w pool : view pool (rand_Read n w).1 = view pool w;
  gen_rand_length n w bytes : 0 <= n → (rand_Read n w).2 = Ok bytes → strlen bytes = n
}.

(** ** Statements of the chains *)
Section chains.
#[local] Set Default Proof Using "Type*".
Context {W : Type} `{GenLaws W}.

Lemma statement_whereAll cs do :
  statement_of (whereAll do cs) =
  let s := statement_of do in
  MkStatement _ (st_pool s) (st_model s) (st_where s ++ cs) (st_order s) (st_limit s) (st_offset s)
    (st_ignore s).
Proof.
  revert do. induction cs as [|c cs IH]; intros do; simpl.
  - rewrite app_nil_r. by destruct (statement_of do).
  - rewrite IH. unfold Do_Where, withDO. rewrite law_where. simpl. by rewrite <- app_assoc.
Qed.

Lemma statement_context ctx do : statement_of (Do_WithContext do ctx) = statement_of do.
Proof. apply law_context. Qed.

Lemma forallb_holds {R} (m : Model R) {C} (expr : C → Expr) (P : C → R → bool) cs r :
  (∀ c, holds R m (expr c) r = P c r) →
  forallb (λ e, holds R m e r) (expr <$> cs) = forallb (λ c, P c r) cs.
Proof.
  intros Hc. induction cs as [|c cs IH]; [done|]. rewrite fmap_cons. simpl. by rewrite Hc, <- IH.
Qed.

End chains.

(** ** One statement at a time *)
Section statements.
#[local] Set Default Proof Using "Type*".
Context {W : Type} `{GenLaws W} {R : Type} {m : Model R} `{!genuine R m}.

Lemma create_inserts do r w :
  st_model (statement_of do) = Some model_of → st_ignore (statement_of do) = false →
  let out := settle_error (Do_Create do [r] w) in
  let pool := st_pool (statement_of do) in
  inserts rows_of with_rows (key_of r) (stored_row gen_column_time r)
    (view pool w) (view pool out.1) out.2.
Proof.
  intros Hm Hi. pose proof (law_create R m r do w Hm) as Hl. simpl in *. rewrite Hi in Hl.
  unfold Do_Create, settle_error. rewrite decide_False by done. simpl.
  destruct (DO_Create do _ w) as [w' [e|]]; simpl in *; done.
Qed.

Lemma create_scope do r w pool :
  in_transaction (st_pool (statement_of do)) = true → pool ≠ st_pool (statement_of do) →
  view pool (settle_error (Do_Create do [r] w)).1 = view pool w.
Proof.
  intros Ht Hp. unfold Do_Create, settle_error. rewrite decide_False by done. simpl.
  by apply law_create_frame.
Qed.

Lemma first_frame do w pool : view pool (Do_First (R:=R) do w).1 = view pool w.
Proof.
  unfold Do_First, asserted. pose proof (law_first_frame do w pool) as Hf.
  by destruct (DO_First do w) as [w' [v|e]].
Qed.

(** A single row never fails its type assertion. *)
Lemma first_run do w :
  st_model (statement_of do) = Some model_of → st_limit (statement_of do) = None →
  st_offset (statement_of do) = 0 →
  let rows := rows_of (view (st_pool (statement_of do)) w) in
  match (Do_First (R:=R) do w).2 with
  | Returns (Ok r) =>
      ∃ k, rows !! k = Some r ∧ forallb (λ c, holds R m c r) (st_where (statement_of do)) = true
  | Returns (Err e) => errors_Is e GormRecordNotFound = true →
      ∀ k r, rows !! k = Some r → forallb (λ c, holds R m c r) (st_where (statement_of do)) = false
  | Panics => False
  end.
Proof.
  intros Hm Hl Ho. pose proof (law_first R m do w Hm Hl Ho) as Hf. simpl in *.
  unfold Do_First, asserted. destruct (DO_First do w) as [w' [v|e]]; simpl in *; [|done].
  destruct Hf as (r & k & -> & Hk & Hw). rewrite as_to_row. eauto.
Qed.

Lemma find_frame do w pool : view pool (Do_Find (R:=R) do w).1 = view pool w.
Proof.
  unfold Do_Find. pose proof (law_find_frame do w pool) as Hf.
  by destruct (DO_Find do w) as [w' [l e]].
Qed.

Lemma page_find_run do w :
  st_model (statement_of do) = Some model_of →
  let s := statement_of do in
  ∃ l err, (Do_Find (R:=R) do w).2 = Returns (l, err) ∧
  (err = None → ∃ all,
     all ≡ₚ filter (λ r, forallb (λ c, holds R m c r) (st_where s) = true)
              (map_to_list (rows_of (view (st_pool s) w))).*2 ∧
     l = window (st_limit s) (st_offset s) all ∧
     Sorted (λ r1 r2, ∃ n, Forall (λ o, precedes R m o r1 r2 = Eq) (take n (st_order s)) ∧
       match drop n (st_order s) with [] => True | o :: _ => precedes R m o r1 r2 = Lt end) all).
Proof.
  intros Hm. destruct (law_find R m do w Hm) as (l & Hs & Hl). simpl in *.
  unfold Do_Find. destruct (DO_Find do w) as [w' [sl e]]. simpl in *. subst sl.
  rewrite as_to_slice. eauto.
Qed.

Lemma delete_run do w :
  st_model (statement_of do) = Some model_of →
  let s := statement_of do in
  let out := settle_count (Do_Delete (R:=R) do [] w) in
  deletes rows_of with_rows (λ r, forallb (λ c, holds R m c r) (st_where s)) (st_limit s)
    (view (st_pool s) w) (view (st_pool s) out.1) out.2.
Proof.
  intros Hm. pose proof (law_delete R m do w Hm) as Hl. simpl in *.
  unfold Do_Delete, settle_count. simpl.
  destruct (DO_Delete do _ w) as [w' [n [e|]]]; simpl in *; [done|]. apply Hl.
Qed.

End statements.

(** ** Sessions

    A service holds one query over the database; inside a transaction it holds the clone on
    the transaction's connection.  A session is the world with the connection in use. *)
Record Session (W GDB : Type) : Type := MkSession { s_world : W; s_tx : option GDB }.
Arguments MkSession {W GDB} _ _.
Arguments s_world {W GDB} _.
Arguments s_tx {W GDB} _.

Section session.
#[local] Set Default Proof Using "Type".
Context {W : Type} `{GL : GenLaws W} (db : GormDB) (ctx : Ctx).

Definition session_db (s : Session W GormDB) : GormDB := default db (s_tx s).
Definition pool_of (s : Session W GormDB) : ConnPool := Statement_ConnPool (session_db s).

(** The query in use. *)
Definition current (s : Session W GormDB) : Query :=
  match s_tx s with None => Use db [] | Some tx => clone tx (Use db []) end.

Definition session_tables (s : Session W GormDB) : Tables := view (pool_of s) (s_world s).

Definition on_query {A} (f : Query → W → W * A) (s : Session W GormDB) : Session W GormDB * A :=
  let p := f (current s) (s_world s) in (MkSession p.1 (s_tx s), p.2).

(** A type assertion that fails would be a panic; [repository_calls_never_panic] says none does. *)
Definition unpanicked {A} (p : W * ran (res A)) : W * res A :=
  (p.1, match p.2 with Returns r => r | Panics => Err (EForeign "interface conversion") end).
Definition unpanicked_list {A} (p : W * ran (list A * option goerr)) : W * res (list A) :=
  (p.1, match p.2 with
        | Returns (l, None) => Ok l
        | Returns (_, Some err) => Err err
        | Panics => Err (EForeign "interface conversion")
        end).

Definition session_transaction (X : Type)
  (f : Session W GormDB * X → (Session W GormDB * X) * res unit) (sx : Session W GormDB * X)
  : (Session W GormDB * X) * res unit :=
  match Query_Transaction X (current sx.1) (λ tx wx,
          let '((s', x'), r) := f (MkSession wx.1 (q_db tx), wx.2) in ((s_world s', x'), r))
        (s_world sx.1, sx.2) with
  | Some ((w', x'), r) => ((MkSession w' (s_tx sx.1), x'), r)
  | None => (sx, Err (EForeign "nil session_db"))
  end.

(** In a transaction, other connections see what they saw. *)
Definition session_scope (s s' : Session W GormDB) : Prop :=
  s_tx s' = s_tx s ∧
  (is_Some (s_tx s) → in_transaction (pool_of s) = true →
   ∀ pool, pool ≠ pool_of s → view pool (s_world s') = view pool (s_world s)).

#[export] Instance session_scope_preorder : PreOrder session_scope.
Proof.
  split; [by split|]. intros a b c [Htx1 Hv1] [Htx2 Hv2]. split; [congruence|].
  unfold pool_of, session_db in *. rewrite Htx1 in Hv2. intros Hs Ht pool Hp.
  rewrite Hv2, Hv1; done.
Qed.

(** The repositories, as the database of the services. *)
Definition RepositoryDatabase : Database (Session W GormDB) := {|
  tables := session_tables;
  column_time := gen_column_time;
  PolicySnapshot_CreateIgnore r := on_query (λ q, createSnapshot ctx q r);
  Evaluation_Create r := on_query (λ q, createEvaluation ctx q r);
  IdempotencyRecord_Create r := on_query (λ q, createIdempotency ctx q r);
  EvaluationFeedback_Create r := on_query (λ q, createFeedback ctx q r);
  IdempotencyRecord_First k := on_query (λ q w, unpanicked (firstIdempotency ctx q k w));
  Evaluation_First id := on_query (λ q w, unpanicked (firstEvaluation ctx q id w));
  Evaluation_Find query := on_query (λ q w, unpanicked_list (findEvaluations ctx q query w));
  IdempotencyRecord_DeleteLimit cs n := on_query (λ q, deleteIdempotency ctx q cs n);
  EvaluationFeedback_Delete cs := on_query (λ q, deleteFeedback ctx q cs);
  Evaluation_Delete cs := on_query (λ q, deleteEvaluations ctx q cs);
  Transaction := session_transaction;
  scope := session_scope
|}.

(** The service's provider, clock, identifiers and randomness run in the world. *)
Definition in_world {A} (f : W → W * A) (s : Session W GormDB) : Session W GormDB * A :=
  (MkSession (f (s_world s)).1 (s_tx s), (f (s_world s)).2).
Definition SessionProvider `{ProviderPort W} : ProviderPort (Session W GormDB) :=
  {| Provider_Evaluate q := in_world (Provider_Evaluate q) |}.
Definition SessionRuntime `{Runtime W} : Runtime (Session W GormDB) :=
  {| world_now := in_world world_now; world_newID := in_world world_newID;
     rand_Read n := in_world (rand_Read n) |}.

(** *** The data objects of the query in use *)
Context (Hdb : unscoped db).

Lemma evaluation_statement s :
  statement_of (evaluationDo (q_Evaluation (current s))) = plain (pool_of s) ModelEvaluation.
Proof using Hdb.
  unfold pool_of, session_db, current. destruct (s_tx s) as [tx|]; simpl.
  - rewrite law_conn_pool, law_new by done. done.
  - by rewrite law_new.
Qed.

Lemma idempotency_statement s :
  statement_of (idempotencyRecordDo (q_IdempotencyRecord (current s))) =
  plain (pool_of s) ModelIdempotencyRecord.
Proof using Hdb.
  unfold pool_of, session_db, current. destruct (s_tx s) as [tx|]; simpl.
  - rewrite law_conn_pool, law_new by done. done.
  - by rewrite law_new.
Qed.

Lemma feedback_statement s :
  statement_of (evaluationFeedbackDo (q_EvaluationFeedback (current s))) =
  plain (pool_of s) ModelEvaluationFeedback.
Proof using Hdb.
  unfold pool_of, session_db, current. destruct (s_tx s) as [tx|]; simpl.
  - rewrite law_conn_pool, law_new by done. done.
  - by rewrite law_new.
Qed.

Lemma snapshot_statement s :
  statement_of (policySnapshotDo (q_PolicySnapshot (current s))) =
  plain (pool_of s) ModelPolicySnapshot.
Proof using Hdb.
  unfold pool_of, session_db, current. destruct (s_tx s) as [tx|]; simpl.
  - rewrite law_conn_pool, law_new by done. done.
  - by rewrite law_new.
Qed.

(** A column of the query in use is one of its table. *)
Lemma evaluation_fields s : let q := q_Evaluation (current s) in
  e_ID q = field_New NewField (TableName ModelEvaluation) "id" ∧
  e_PolicyName q = field_New NewString (TableName ModelEvaluation) "policy_name" ∧
  e_PolicyVersion q = field_New NewString (TableName ModelEvaluation) "policy_version" ∧
  e_Outcome q = field_New NewString (TableName ModelEvaluation) "outcome" ∧
  e_Status q = field_New NewString (TableName ModelEvaluation) "status" ∧
  e_CreatedAt q = field_New NewTime (TableName ModelEvaluation) "created_at".
Proof using GL.
  unfold current. destruct (s_tx s); cbn; rewrite law_table_name; repeat split; reflexivity.
Qed.

Lemma evaluationCond_holds s c r :
  holds Evaluation _ (evaluationCond (current s) c) r = evaluation_holds gen_column_time c r.
Proof.
  destruct (evaluation_fields s) as (E1 & E2 & E3 & E4 & E5 & E6).
  destruct c; simpl; rewrite ?E1, ?E2, ?E3, ?E4, ?E5, ?E6.
  1-4: by eapply (law_holds_eq Evaluation Evaluation_model).
  - by eapply (law_holds_lt Evaluation Evaluation_model).
  - by eapply (law_holds_in Evaluation Evaluation_model).
Qed.

Lemma feedbackCond_holds s c r :
  holds EvaluationFeedback _ (feedbackCond (current s) c) r = feedback_holds c r.
Proof.
  destruct c; simpl. unfold current. destruct (s_tx s); cbn; rewrite law_table_name;
    by eapply (law_holds_in EvaluationFeedback EvaluationFeedback_model).
Qed.

Lemma idempotencyCond_holds s c r :
  holds IdempotencyRecord _ (idempotencyCond (current s) c) r = idempotency_holds gen_column_time c r.
Proof.
  destruct c; simpl. unfold current. destruct (s_tx s); cbn; rewrite law_table_name;
    by eapply (law_holds_lt IdempotencyRecord IdempotencyRecord_model).
Qed.

Lemma keyHash_holds s k r :
  holds IdempotencyRecord _ (field_Eq (i_KeyHash (q_IdempotencyRecord (current s))) (CellText k)) r
  = bool_decide (ir_KeyHash r = k).
Proof.
  unfold current. destruct (s_tx s); cbn; rewrite law_table_name;
    by eapply (law_holds_eq IdempotencyRecord IdempotencyRecord_model).
Qed.

End session.
End RepositoriesSpec.
