(* ===== verification/RepositoriesTheorems.v ===== *)
(** * What the generated repositories do

    The repositories are the database the services are proved against; their type
    assertions hold, their columns are those of the models, and their paging counts what it
    says.  The theorems run on an in-memory library that meets every law. *)

From S2P Require Import Prelude GoFloat GoAny Decision Document Store Effects MemStore.
From S2P Require Import Repositories RepositoriesSpec.
From stdpp Require Import options.
#[local] Open Scope Z_scope.

Module RepositoriesTheorems.
Import Repositories RepositoriesSpec.

Lemma Sorted_weaken {A} (P Q : A → A → Prop) l : (∀ a b, P a b → Q a b) → Sorted P l → Sorted Q l.
Proof.
  intros HPQ. induction 1 as [|a l _ IH Hd]; constructor; [done|].
  destruct Hd; constructor; auto.
Qed.

Lemma fill_lookup {E} (l : list (string * E)) c e :
  NoDup l.*1 → fill l !! c = Some e ↔ (c, e) ∈ l.
Proof.
  intros Hn. unfold fill. revert Hn. induction l as [|[c' e'] l IH] using rev_ind; intros Hn.
  { simpl. split; [done|]. by intros ?%elem_of_nil. }
  rewrite fmap_app in Hn. apply list.NoDup_app in Hn as (Hn & Hd & _).
  rewrite foldl_app, elem_of_app. simpl. rewrite list_elem_of_singleton.
  destruct (decide (c' = c)) as [->|Hne].
  - rewrite lookup_insert_eq. split; [intros [= ->]; by right|].
    intros [Hin|[= ->]]; [|done]. destruct (Hd c); [|simpl; set_solver].
    by apply (list_elem_of_fmap_2 fst) in Hin.
  - rewrite lookup_insert_ne, IH by done. split; [by left|]. intros [Hin|[= -> ->]]; done.
Qed.

(** ** An in-memory library *)
Module MemGen.

Inductive expr : Set :=
  | ECol (kind : fieldKind) (table column : string)
  | EAll (table : string)
  | EEq (e : expr) (v : cell)
  | ELt (e : expr) (v : cell)
  | EIn (e : expr) (vs : list cell)
  | EDesc (e : expr).

Inductive clause : Set := COnConflictDoNothing | CRead | CWrite.

(** A data object: its table and the statement it has collected.  Connections are numbers,
    zero that of the database. *)
Record object : Set := MkObject {
  o_table : string;
  o_pool : nat;
  o_model : option model;
  o_where : list expr;
  o_order : list expr;
  o_limit : option Z;
  o_offset : Z;
  o_ignore : bool
}.

Definition chain (c : chainCall expr clause unit unit unit unit unit object) (d : object) : object :=
  let 'MkObject t p m ws os l o g := d in
  match c with
  | CallClauses cs => MkObject t p m ws os l o
      (g || existsb (λ c, match c with COnConflictDoNothing => true | _ => false end) cs)
  | CallWhere cs => MkObject t p m (ws ++ cs) os l o g
  | CallOrder cs => MkObject t p m ws (os ++ cs) l o g
  | CallLimit n => MkObject t p m ws os (if decide (n = 0) then Some (default 0 l) else Some n) o g
  | CallOffset n => MkObject t p m ws os l (if decide (n = 0) then o else Z.max 0 n) g
  | CallScopes fs => foldl (λ d f, f d) d fs
  | _ => d
  end.

#[export] Instance MemLibrary : Gen := {
  Expr := expr;
  field_New := ECol;
  field_NewAsterisk := EAll;
  field_IsOrderExpr e := match e with ECol _ _ _ => true | _ => false end;
  field_Eq := EEq;
  field_Lt := ELt;
  field_In := EIn;
  field_Desc := EDesc;
  Clause := clause;
  OnConflictDoNothing := COnConflictDoNothing;
  dbresolver_Read := CRead;
  dbresolver_Write := CWrite;
  Ctx := unit; Config := unit; Tabler := unit; Relation := unit; Assign := unit; DOOption := unit;
  ConnPool := nat;
  GormDB := nat;
  Statement_ConnPool := id;
  DB_Clauses _ db := db;
  DO := object;
  zero_DO := MkObject "" 0 None [] [] None 0 false;
  DO_UseDB db _ d := MkObject (o_table d) db (o_model d) (o_where d) (o_order d) (o_limit d) (o_offset d) (o_ignore d);
  DO_UseModel m d := MkObject (TableName m) (o_pool d) (Some m) (o_where d) (o_order d) (o_limit d) (o_offset d) (o_ignore d);
  DO_UseTable t d := MkObject t (o_pool d) (o_model d) (o_where d) (o_order d) (o_limit d) (o_offset d) (o_ignore d);
  DO_TableName := o_table;
  DO_ReplaceDB db d := MkObject (o_table d) db None [] [] None 0 false;
  DO_ReplaceConnPool p d := MkObject (o_table d) p (o_model d) (o_where d) (o_order d) (o_limit d) (o_offset d) (o_ignore d);
  DO_chain := chain
}.

(** The tables every connection sees, and the connections given out. *)
Record world : Type := MkWorld { g_tables : nat → Tables; g_next : nat }.

(** A table keeps the rows that are under their own key. *)
Definition own {R} `{!Model R} (m : gmap string R) : gmap string R :=
  filter (λ kv : string * R, kv.1 = key_of kv.2) m.
Definition normal (t : Tables) : Tables :=
  MkTables (own (t_snapshots t)) (own (t_evaluations t)) (own (t_idempotency t)) (own (t_feedback t)).

Definition sees (pool : nat) (w : world) : Tables := normal (g_tables w pool).
Definition store (pool : nat) (t : Tables) (w : world) : world :=
  MkWorld (λ p, if decide (p = pool) then t else g_tables w p) (g_next w).

Definition meets {R} `{!Model R} (e : expr) (r : R) : bool :=
  match e with
  | EEq (ECol _ t c) v => bool_decide (cell_of r c = Some v)
  | ELt (ECol _ t c) (CellTime v) =>
      match cell_of r c with Some (CellTime x) => bool_decide (x < MemStore.microseconds v) | _ => false end
  | EIn (ECol _ t c) vs =>
      match cell_of r c with Some x => bool_decide (x ∈ vs) | None => false end
  | _ => false
  end.
Definition compares {R} `{!Model R} (o : expr) (r1 r2 : R) : comparison :=
  match o with
  | EDesc (ECol _ t c) =>
      match cell_of r1 c, cell_of r2 c with Some x, Some y => cell_desc x y | _, _ => Eq end
  | _ => Eq
  end.
Fixpoint in_order {R} `{!Model R} (os : list expr) (r1 r2 : R) : bool :=
  match os with
  | [] => true
  | o :: os => match compares o r1 r2 with Lt => true | Gt => false | Eq => in_order os r1 r2 end
  end.

Definition ordered {R} `{!Model R} (os : list expr) (r1 r2 : R) : Prop := in_order os r1 r2 = true.
#[export] Instance ordered_dec {R} `{!Model R} os (r1 r2 : R) : Decision (ordered os r1 r2).
Proof. unfold ordered. apply _. Defined.

Definition meeting {R} `{!Model R} (d : object) (t : Tables) : list R :=
  filter (λ r, forallb (λ c, meets c r) (o_where d) = true) (map_to_list (rows_of t)).*2.

Definition down : goerr := EForeign "the database is not available".

Definition insert_one {R} `{!Model R} (ignore : bool) (t : option Tables) (r : R) : option Tables :=
  t ← t;
  match rows_of t !! key_of r with
  | Some _ => if ignore then Some t else None
  | None => Some (with_rows <[key_of r := stored_row MemStore.microseconds r]> t)
  end.

Definition create (d : object) (l : slice) (w : world) : world * option goerr :=
  let t := Some (sees (o_pool d) w) in
  match (match l with
         | SlicePolicySnapshot l => foldl (insert_one (o_ignore d)) t l
         | SliceEvaluation l => foldl (insert_one (o_ignore d)) t l
         | SliceIdempotencyRecord l => foldl (insert_one (o_ignore d)) t l
         | SliceEvaluationFeedback l => foldl (insert_one (o_ignore d)) t l
         end) with
  | Some t => (store (o_pool d) t w, None)
  | None => (w, Some (EForeign "UNIQUE constraint failed"))
  end.

(** The model of a data object, as a case. *)
Definition on_model {A} (m : option model) (none : A) (some : ∀ R : Type, Model R → A) : A :=
  match m with
  | Some ModelPolicySnapshot => some _ PolicySnapshot_model
  | Some ModelEvaluation => some _ Evaluation_model
  | Some ModelIdempotencyRecord => some _ IdempotencyRecord_model
  | Some ModelEvaluationFeedback => some _ EvaluationFeedback_model
  | None => none
  end.

Definition first (d : object) (w : world) : world * res row :=
  (w, on_model (o_model d) (Err down) (λ R m,
        match head (meeting (R:=R) d (sees (o_pool d) w)) with
        | Some r => Ok (to_row r)
        | None => Err (EIs GormRecordNotFound)
        end)).
Definition find (d : object) (w : world) : world * (slice * option goerr) :=
  (w, on_model (o_model d) (SliceEvaluation [], Some down) (λ R m,
        (to_slice (window (o_limit d) (o_offset d)
           (merge_sort (ordered (R:=R) (o_order d)) (meeting d (sees (o_pool d) w)))), None))).
Definition count (d : object) (w : world) : world * (Z * option goerr) :=
  (w, on_model (o_model d) (0, Some down) (λ R m, (len (meeting (R:=R) d (sees (o_pool d) w)), None))).
Definition delete (d : object) (w : world) : world * (Z * option goerr) :=
  if decide (o_where d = []) then (w, (0, Some (EForeign "WHERE conditions required")))
  else on_model (o_model d) (w, (0, Some down)) (λ R m,
    let t := sees (o_pool d) w in
    let kept := filter (λ kv : string * R, forallb (λ c, meets c kv.2) (o_where d) = false) (rows_of t) in
    (store (o_pool d) (with_rows (λ _, kept) t) w,
     (Z.of_nat (size (rows_of t)) - Z.of_nat (size kept), None))).

Definition transact (X : Type) (db : nat) (f : nat → world * X → (world * X) * res unit) (wx : world * X)
  : (world * X) * res unit :=
  let w := wx.1 in
  let tx := S (Nat.max db (g_next w)) in
  let out := f tx (store tx (sees db w) (MkWorld (g_tables w) tx), wx.2) in
  match out.2 with
  | Ok _ => ((store db (sees tx out.1.1) out.1.1, out.1.2), Ok tt)
  | Err e => ((store db (sees db w) out.1.1, out.1.2), Err e)
  end.

#[export] Instance MemStatements : GenExec world := {
  gen_column_time := MemStore.microseconds;
  DO_Create := create;
  DO_CreateInBatches d l _ := create d l;
  DO_Save := create;
  DO_First := first;
  DO_Take := first;
  DO_Last := first;
  DO_FirstOrInit := first;
  DO_FirstOrCreate := first;
  DO_Find := find;
  DO_Count := count;
  DO_Delete d _ := delete d;
  DO_FindInBatches R m X d n f wx := (wx, Some down);
  DB_Transaction := transact;
  DB_Begin db w := (w, (db, Some down));
  DB_Commit _ w := (w, None);
  DB_Rollback _ w := (w, None);
  DB_SavePoint _ _ w := (w, None);
  DB_RollbackTo _ _ w := (w, None)
}.

(** *** The laws *)
Lemma own_id {R} `{!Model R} (m : gmap string R) :
  (∀ k v, m !! k = Some v → k = key_of v) → own m = m.
Proof. intros Hm. by apply map_filter_id. Qed.

Lemma own_keyed {R} `{!Model R} (m : gmap string R) k v : own m !! k = Some v → k = key_of v.
Proof. by intros [_ ?]%map_lookup_filter_Some. Qed.

Lemma normal_normal t : normal (normal t) = normal t.
Proof. unfold normal. simpl. f_equal; apply own_id; apply own_keyed. Qed.

Lemma sees_keyed {R} {m : Model R} `{!genuine R m} pool w k r :
  rows_of (sees pool w) !! k = Some r → k = key_of r.
Proof. destruct genuine0; apply own_keyed. Qed.

Lemma normal_rows {R} {m : Model R} `{!genuine R m} t (rows : gmap string R) :
  (∀ k v, rows !! k = Some v → k = key_of v) →
  normal (with_rows (λ _, rows) (normal t)) = with_rows (λ _, rows) (normal t).
Proof.
  intros Hk. destruct genuine0; simpl; unfold normal, with_snapshots, with_evaluations,
    with_idempotency, with_feedback; simpl; f_equal; apply own_id; first [exact Hk|apply own_keyed].
Qed.

Lemma sees_store pool t w : sees pool (store pool t w) = normal t.
Proof. unfold sees, store. simpl. by rewrite decide_True. Qed.

Lemma sees_store_ne pool pool' t w : pool' ≠ pool → sees pool' (store pool t w) = sees pool' w.
Proof. intros Hp. unfold sees, store. simpl. by rewrite decide_False. Qed.

Lemma cell_desc_antisym x y : cell_desc y x = CompOpp (cell_desc x y).
Proof. destruct x, y; simpl; try done;
    first [by rewrite <- Z.compare_antisym|by rewrite String.compare_antisym]. Qed.

Lemma compares_antisym {R} `{!Model R} o (r1 r2 : R) : compares o r2 r1 = CompOpp (compares o r1 r2).
Proof.
  destruct o as [| | | | |[]]; simpl; try done.
  destruct (cell_of r1 _), (cell_of r2 _); try done. apply cell_desc_antisym.
Qed.

#[export] Instance ordered_total {R} `{!Model R} os : Total (ordered (R:=R) os).
Proof.
  intros r1 r2. unfold ordered. induction os as [|o os IH]; simpl; [by left|].
  rewrite (compares_antisym o r1 r2). destruct (compares o r1 r2); simpl; auto.
Qed.

(** The first column that differs decides. *)
Lemma ordered_first {R} `{!Model R} os (r1 r2 : R) : ordered os r1 r2 →
  ∃ n, Forall (λ o, compares o r1 r2 = Eq) (take n os) ∧
    match drop n os with [] => True | o :: _ => compares o r1 r2 = Lt end.
Proof.
  unfold ordered. induction os as [|o os IH]; simpl; [by exists O|].
  destruct (compares o r1 r2) eqn:E; [|by exists O|done].
  intros (n & Hn & Hd)%IH. exists (S n). simpl. split; [by constructor|done].
Qed.

Lemma rows_of_with {R} {m : Model R} `{!genuine R m} f t :
  with_rows f t = with_rows (λ _, f (rows_of t)) t.
Proof. by destruct genuine0. Qed.

Lemma stored_key {R} {m : Model R} `{!genuine R m} ct (r : R) : key_of (stored_row ct r) = key_of r.
Proof. by destruct genuine0, r. Qed.

Definition statement_of_object (d : object) : statement :=
  MkStatement _ (o_pool d) (o_model d) (o_where d) (o_order d) (o_limit d) (o_offset d) (o_ignore d).

(** One row at a time. *)
Lemma create_one {R} {m : Model R} `{!genuine R m} d (r : R) w :
  create d (to_slice [r]) w =
  match insert_one (o_ignore d) (Some (sees (o_pool d) w)) r with
  | Some t => (store (o_pool d) t w, None)
  | None => (w, Some (EForeign "UNIQUE constraint failed"))
  end.
Proof. by destruct genuine0. Qed.

Lemma sees_inserted {R} {m : Model R} `{!genuine R m} pool (r : R) w :
  normal (with_rows <[key_of r := stored_row MemStore.microseconds r]> (sees pool w)) =
  with_rows <[key_of r := stored_row MemStore.microseconds r]> (sees pool w).
Proof.
  rewrite rows_of_with. apply normal_rows. intros k v [[<- <-]|[_ Hv]]%lookup_insert_Some.
  - by rewrite stored_key.
  - by eapply sees_keyed.
Qed.

Lemma create_law {R} {m : Model R} `{!genuine R m} d (r : R) w :
  let t := sees (o_pool d) w in
  let out := create d (to_slice [r]) w in
  let t' := sees (o_pool d) out.1 in
  let inserted := with_rows <[key_of r := stored_row MemStore.microseconds r]> t in
  match out.2 with
  | Some _ => t' = t
  | None => if o_ignore d
            then t' = match rows_of t !! key_of r with Some _ => t | None => inserted end
            else rows_of t !! key_of r = None ∧ t' = inserted
  end.
Proof.
  simpl. rewrite create_one. simpl. pose proof (sees_inserted (o_pool d) r w) as Hn.
  destruct (rows_of _ !! key_of r) eqn:E, (o_ignore d); simpl; rewrite ?sees_store; try done.
  apply normal_normal.
Qed.

Lemma create_frame d l w pool : pool ≠ o_pool d → sees pool (create d l w).1 = sees pool w.
Proof. intros Hp. unfold create. case_match; [by apply sees_store_ne|done]. Qed.

Lemma elem_of_meeting {R} {m : Model R} d t (r : R) :
  r ∈ meeting d t ↔ forallb (λ c, meets c r) (o_where d) = true ∧ ∃ k, rows_of t !! k = Some r.
Proof.
  unfold meeting. rewrite list_elem_of_filter, list_elem_of_fmap. split.
  - intros [Hw ([k v] & -> & Hv)]. split; [done|]. exists k. by apply elem_of_map_to_list.
  - intros [Hw (k & Hv)]. split; [done|]. exists (k, r). split; [done|]. by apply elem_of_map_to_list.
Qed.

Lemma on_genuine {A R} {m : Model R} `{!genuine R m} (none : A) (some : ∀ R : Type, Model R → A) :
  on_model (Some (model_of (R:=R))) none some = some R m.
Proof. by destruct genuine0. Qed.

Lemma first_law {R} {m : Model R} `{!genuine R m} d w :
  o_model d = Some (model_of (R:=R)) →
  let rows := rows_of (sees (o_pool d) w) in
  match (first d w).2 with
  | Ok v => ∃ r k, v = to_row r ∧ rows !! k = Some r ∧ forallb (λ c, meets c r) (o_where d) = true
  | Err e => errors_Is e GormRecordNotFound = true →
      ∀ k r, rows !! k = Some r → forallb (λ c, meets c r) (o_where d) = false
  end.
Proof.
  intros Hm. unfold first. rewrite Hm, on_genuine. simpl.
  destruct (meeting d _) as [|r l] eqn:E; simpl.
  - intros _ k r Hk. apply not_true_is_false. intros Hw.
    assert (r ∈ meeting d (sees (o_pool d) w)) as Hin by (apply elem_of_meeting; eauto).
    rewrite E in Hin. by apply elem_of_nil in Hin.
  - assert (r ∈ meeting d (sees (o_pool d) w)) as Hin by (rewrite E; by left).
    apply elem_of_meeting in Hin as [Hw (k & Hk)]. eauto.
Qed.

Lemma delete_law {R} {m : Model R} `{!genuine R m} d w :
  o_model d = Some (model_of (R:=R)) →
  let t := sees (o_pool d) w in
  let t' := sees (o_pool d) (delete d w).1 in
  match (delete d w).2.2 with
  | Some _ => t' = t
  | None => o_where d ≠ [] ∧
      deletes rows_of with_rows (λ r, forallb (λ c, meets c r) (o_where d)) (o_limit d) t t'
        (Ok (delete d w).2.1)
  end.
Proof.
  intros Hm. unfold delete. case_decide; [done|]. rewrite Hm, on_genuine. simpl.
  rewrite sees_store. set (kept := filter _ _). split; [done|]. exists kept.
  split; [|split; [apply map_filter_subseteq|split; [|split; [done|right]]]].
  - apply normal_rows. intros k v [Hv _]%map_lookup_filter_Some. by eapply sees_keyed.
  - intros k v Hv Hn. apply map_lookup_filter_None in Hn as [Hn|Hn]; [congruence|].
    specialize (Hn v Hv). by apply not_false_is_true.
  - intros k v [_ Hv]%map_lookup_filter_Some. done.
Qed.

Lemma transact_law (X : Type) db f w (x : X) :
  let out := transact X db f (w, x) in
  ∃ tx w0, Nat.ltb 0 tx = true ∧ sees tx w0 = sees db w ∧ sees db w0 = sees db w ∧
    out.1.2 = (f tx (w0, x)).1.2 ∧
    match (f tx (w0, x)).2 with
    | Err e => out.2 = Err e ∧ sees db out.1.1 = sees db w
    | Ok _ => out.2 = Ok tt ∧ sees db out.1.1 = sees tx (f tx (w0, x)).1.1
    end.
Proof.
  simpl. unfold transact. simpl. set (tx := S (Nat.max db (g_next w))).
  exists tx, (store tx (sees db w) (MkWorld (g_tables w) tx)).
  split; [done|]. split; [rewrite sees_store; apply normal_normal|].
  split; [rewrite sees_store_ne by (subst tx; lia); done|].
  destruct (f tx _) as [[w1 x1] [[]|e]]; simpl; (split; [done|]; split; [done|]);
    rewrite sees_store; apply normal_normal.
Qed.

#[export] Instance MemGenLaws : GenLaws world.
Proof.
  refine {|
    view := sees;
    in_transaction := Nat.ltb 0;
    unscoped _ := True;
    statement_of := statement_of_object;
    holds := @meets;
    precedes := @compares |}; simpl; intros.
  - rewrite H. apply bool_decide_ext. split; [by intros [= ->]|by intros ->].
  - by rewrite H.
  - rewrite H. apply bool_decide_ext. rewrite list_elem_of_fmap. naive_solver.
  - by rewrite H, H0.
  - done.
  - done.
  - done.
  - by destruct d.
  - by destruct d.
  - destruct d. unfold statement_of_object. simpl. by rewrite orb_true_r.
  - by destruct d.
  - by destruct d.
  - by destruct d.
  - by destruct d.
  - by eapply sees_keyed.
  - apply create_law.
  - by apply first_law.
  - unfold find. simpl in *. rewrite H, on_genuine. simpl. eexists. split; [done|]. intros _.
    exists (merge_sort (ordered (R:=R) (o_order d)) (meeting d (sees (o_pool d) w))).
    split; [by rewrite merge_sort_Permutation|]. split; [done|].
    eapply Sorted_weaken; [apply ordered_first|]. apply Sorted_merge_sort. apply _.
  - unfold count. simpl in *. by rewrite H, on_genuine.
  - by apply delete_law.
  - done.
  - done.
  - done.
  - by apply create_frame.
  - right. destruct (transact_law X db f w x) as (tx & w0 & ? & ? & ? & ? & Hr).
    exists tx, w0. repeat (split; [done|]). intros _. destruct (f tx (w0, x)).2; [by left|done].
Defined.

End MemGen.

Section theorems.
#[local] Set Default Proof Using "Type".
Context {W : Type} `{GL : GenLaws W} (db : GormDB) (ctx : Ctx) (Hdb : unscoped db).

#[local] Existing Instance RepositoryDatabase.
#[local] Instance repositories : Database (Session W GormDB) := RepositoryDatabase db ctx.

(** The statement of a chain, clause by clause. *)
Ltac statements :=
  unfold Do_Clauses, Do_Where, Do_Limit, Do_Offset, Do_Order, withDO in *;
  repeat first [rewrite law_ignore|rewrite law_limit|rewrite law_offset|rewrite law_order
    |rewrite statement_whereAll|rewrite law_where|rewrite statement_context].

Lemma order_newest (s : Session W GormDB) a b :
  (∃ n, Forall (λ o, precedes Evaluation _ o a b = Eq)
     (take n [field_Desc (e_CreatedAt (q_Evaluation (current db s)));
              field_Desc (e_ID (q_Evaluation (current db s)))]) ∧
   match drop n [field_Desc (e_CreatedAt (q_Evaluation (current db s)));
                 field_Desc (e_ID (q_Evaluation (current db s)))] with
   | [] => True | o :: _ => precedes Evaluation _ o a b = Lt end) →
  newest_first a b.
Proof.
  destruct (evaluation_fields db s) as (E1 & _ & _ & _ & _ & E6). rewrite E1, E6.
  pose proof (law_precedes_desc Evaluation Evaluation_model NewTime "created_at" a b
    (CellTime (ev_CreatedAt a)) (CellTime (ev_CreatedAt b)) eq_refl eq_refl) as Ht.
  pose proof (law_precedes_desc Evaluation Evaluation_model NewField "id" a b
    (CellText (ev_ID a)) (CellText (ev_ID b)) eq_refl eq_refl) as Hi.
  simpl in Ht, Hi.
  intros (n & Heq & Hlt). unfold newest_first, str_le, String.leb.
  destruct n as [|[|n]]; simpl in *.
  - left. rewrite Ht in Hlt. by apply Z.compare_lt_iff.
  - apply list.Forall_cons in Heq as [Heq _]. rewrite Ht in Heq. apply Z.compare_eq in Heq.
    right. split; [done|]. by rewrite <- Hi, Hlt.
  - apply list.Forall_cons in Heq as [Heq1 Heq2]. rewrite take_nil in Heq2.
    apply list.Forall_cons in Heq2 as [Heq2 _]. rewrite Ht in Heq1. rewrite Hi in Heq2.
    apply Z.compare_eq in Heq1. right. split; [done|]. by rewrite Heq2.
Qed.

(** *** Insertions *)
Lemma session_create {R} {m : Model R} `{!genuine R m} (do : Query → DO) (r : R) s
  (f : Query → W → W * res unit) :
  (∀ q w, f q w = settle_error (Do_Create (Do_WithContext (do q) ctx) [r] w)) →
  statement_of (do (current db s)) = plain (pool_of db s) model_of →
  inserts rows_of with_rows (key_of r) (stored_row gen_column_time r)
    (tables s) (tables (on_query db f s).1) (on_query db f s).2 ∧
  session_scope db s (on_query db f s).1.
Proof.
  intros Hf Hst. unfold tables, repositories, RepositoryDatabase, session_tables, on_query, pool_of, session_db.
  simpl. rewrite Hf. fold (session_db db s). fold (pool_of db s).
  assert (statement_of (Do_WithContext (do (current db s)) ctx) = plain (pool_of db s) model_of) as E
    by (by rewrite statement_context).
  split.
  - pose proof (create_inserts (Do_WithContext (do (current db s)) ctx) r (s_world s)) as Hc.
    rewrite E in Hc. by apply Hc.
  - split; [done|]. simpl. intros _ Ht pool Hp. apply create_scope; rewrite E; done.
Qed.

Lemma snapshot_created r s :
  match (PolicySnapshot_CreateIgnore r s).2 with
  | Ok _ => tables (PolicySnapshot_CreateIgnore r s).1 =
      match t_snapshots (tables s) !! ps_Hash r with
      | Some _ => tables s
      | None => with_snapshots (insert (ps_Hash r) (stored_snapshot column_time r)) (tables s)
      end
  | Err _ => tables (PolicySnapshot_CreateIgnore r s).1 = tables s
  end.
Proof using Hdb.
  simpl. unfold session_tables, on_query, createSnapshot, settle_error, Do_Create, pool_of, session_db.
  rewrite decide_False by done. simpl. fold (session_db db s). fold (pool_of db s).
  set (do := Do_Clauses _ _).
  assert (statement_of do = MkStatement _ (pool_of db s) (Some ModelPolicySnapshot) [] [] None 0 true) as E.
  { subst do. statements. by rewrite snapshot_statement. }
  pose proof (law_create PolicySnapshot _ r do (s_world s)) as Hl. rewrite E in Hl. specialize (Hl eq_refl).
  simpl in Hl. by destruct (DO_Create do _ _) as [w' [e|]].
Qed.

(** The three insertions. *)
Lemma evaluation_created (r : Evaluation) s :
  inserts rows_of with_rows (key_of r) (stored_row gen_column_time r) (tables s)
    (tables (Evaluation_Create r s).1) (Evaluation_Create r s).2 ∧
  session_scope db s (Evaluation_Create r s).1.
Proof using Hdb.
  apply (session_create (λ q, evaluationDo (q_Evaluation q)) r s (λ q, createEvaluation ctx q r)); [done|].
  by apply evaluation_statement.
Qed.

Lemma idempotency_created (r : IdempotencyRecord) s :
  inserts rows_of with_rows (key_of r) (stored_row gen_column_time r) (tables s)
    (tables (IdempotencyRecord_Create r s).1) (IdempotencyRecord_Create r s).2 ∧
  session_scope db s (IdempotencyRecord_Create r s).1.
Proof using Hdb.
  apply (session_create (λ q, idempotencyRecordDo (q_IdempotencyRecord q)) r s (λ q, createIdempotency ctx q r)); [done|].
  by apply idempotency_statement.
Qed.

Lemma feedback_created (r : EvaluationFeedback) s :
  inserts rows_of with_rows (key_of r) (stored_row gen_column_time r) (tables s)
    (tables (EvaluationFeedback_Create r s).1) (EvaluationFeedback_Create r s).2 ∧
  session_scope db s (EvaluationFeedback_Create r s).1.
Proof using Hdb.
  apply (session_create (λ q, evaluationFeedbackDo (q_EvaluationFeedback q)) r s (λ q, createFeedback ctx q r)); [done|].
  by apply feedback_statement.
Qed.

(** *** Single rows, by their key *)
Lemma first_by_key {R} {m : Model R} `{!genuine R m} do k w :
  statement_of do = MkStatement _ (st_pool (statement_of do)) (Some model_of) (st_where (statement_of do))
    [] None 0 false →
  (∀ r, forallb (λ c, holds R m c r) (st_where (statement_of do)) = bool_decide (key_of r = k)) →
  let rows := rows_of (view (st_pool (statement_of do)) w) in
  match (unpanicked (Do_First (R:=R) do w)).2 with
  | Ok r => rows !! k = Some r
  | Err e => errors_Is e GormRecordNotFound = true → rows !! k = None
  end.
Proof.
  intros Hst Hk. pose proof (first_run do w) as Hf. rewrite Hst in Hf. simpl in Hf.
  specialize (Hf eq_refl eq_refl eq_refl). unfold unpanicked. simpl.
  destruct (Do_First do w) as [w' [[r|e]|]]; simpl in *; [| |done].
  - destruct Hf as (k' & Hr & Hc). rewrite Hk in Hc. apply bool_decide_eq_true in Hc as <-.
    by rewrite <- (law_keyed R m _ _ _ _ Hr).
  - intros He. destruct (rows_of _ !! k) as [r|] eqn:E; [|done].
    specialize (Hf He k r E). rewrite Hk in Hf. apply bool_decide_eq_false in Hf.
    destruct Hf. symmetry. by apply (law_keyed R m) in E.
Qed.

Lemma idempotency_first k s :
  match (IdempotencyRecord_First k s).2 with
  | Ok r => t_idempotency (tables s) !! k = Some r
  | Err e => errors_Is e GormRecordNotFound = true → t_idempotency (tables s) !! k = None
  end.
Proof using Hdb.
  simpl. unfold firstIdempotency, session_tables.
  set (do := Do_Where _ _).
  assert (statement_of do = MkStatement _ (pool_of db s) (Some ModelIdempotencyRecord)
    [field_Eq (i_KeyHash (q_IdempotencyRecord (current db s))) (CellText k)] [] None 0 false) as E.
  { subst do. statements. by rewrite idempotency_statement. }
  pose proof (first_by_key (R:=IdempotencyRecord) do k (s_world s)) as Hf. rewrite E in Hf.
  apply Hf; [done|]. intros r. simpl. by rewrite keyHash_holds, andb_true_r.
Qed.

Lemma evaluation_first id s :
  match (Evaluation_First id s).2 with
  | Ok r => t_evaluations (tables s) !! id = Some r
  | Err e => errors_Is e GormRecordNotFound = true → t_evaluations (tables s) !! id = None
  end.
Proof using Hdb.
  simpl. unfold firstEvaluation, session_tables.
  set (do := Do_Where _ _).
  assert (statement_of do = MkStatement _ (pool_of db s) (Some ModelEvaluation)
    [field_Eq (e_ID (q_Evaluation (current db s))) (CellText id)] [] None 0 false) as E.
  { subst do. statements. by rewrite evaluation_statement. }
  pose proof (first_by_key (R:=Evaluation) do id (s_world s)) as Hf. rewrite E in Hf.
  apply Hf; [done|]. intros r. simpl. rewrite andb_true_r.
  destruct (evaluation_fields db s) as (-> & _).
  by eapply (law_holds_eq Evaluation Evaluation_model).
Qed.

(** *** Listings *)
Lemma window_page {A} limit offset (l : list A) :
  0 < limit → window (Some limit) (default 0 (Z.max 0 <$> offset)) l = page limit offset l.
Proof.
  intros Hl. unfold window, page. rewrite decide_False by lia. f_equal. f_equal.
  destruct offset; simpl; lia.
Qed.

Lemma find_statement query (s : Session W GormDB) : 0 < qry_limit query →
  let q := q_Evaluation (current db s) in
  let base := whereAll (Do_WithContext (evaluationDo q) ctx) (evaluationCond (current db s) <$> qry_where query) in
  let ordered := if qry_ordered query then Do_Order base [field_Desc (e_CreatedAt q); field_Desc (e_ID q)] else base in
  statement_of (match qry_offset query with
                | Some offset => Do_Offset (Do_Limit ordered (qry_limit query)) offset
                | None => Do_Limit ordered (qry_limit query) end) =
  MkStatement _ (pool_of db s) (Some ModelEvaluation) (evaluationCond (current db s) <$> qry_where query)
    (if qry_ordered query then [field_Desc (e_CreatedAt q); field_Desc (e_ID q)] else [])
    (Some (qry_limit query)) (default 0 (Z.max 0 <$> qry_offset query)) false.
Proof using Hdb.
  intros Hl q base ordered.
  assert (statement_of ordered = MkStatement _ (pool_of db s) (Some ModelEvaluation)
    (evaluationCond (current db s) <$> qry_where query)
    (if qry_ordered query then [field_Desc (e_CreatedAt q); field_Desc (e_ID q)] else []) None 0 false) as E.
  { subst ordered base. destruct (qry_ordered query); statements; subst q;
      rewrite evaluation_statement by done; reflexivity. }
  destruct (qry_offset query) as [offset|]; statements; rewrite E; simpl;
    rewrite decide_False by lia; [|done].
  f_equal. case_decide; [subst|]; lia.
Qed.

Lemma evaluation_find query s rows :
  0 < qry_limit query → (Evaluation_Find query s).2 = Ok rows →
  ∃ all, all ≡ₚ matching column_time query (tables s) ∧
    rows = page (qry_limit query) (qry_offset query) all ∧
    (qry_ordered query = true → Sorted newest_first all).
Proof using Hdb.
  intros Hl. simpl. unfold findEvaluations. pose proof (find_statement query s Hl) as E. simpl in E.
  match type of E with statement_of ?d = _ => set (do := d) in *; clearbody do end.
  destruct (page_find_run (R:=Evaluation) do (s_world s)) as (l & err & Hr & Hfind); [by rewrite E|].
  unfold unpanicked_list. simpl. rewrite Hr. destruct err as [e|]; [done|]. intros [= <-].
  destruct (Hfind eq_refl) as (all & Hall & -> & Hs). rewrite E in Hall, Hs. simpl in Hall, Hs.
  rewrite E. simpl. exists all. split; [|split; [by apply window_page|]].
  - rewrite Hall. unfold matching, session_tables. simpl.
    rewrite (list_filter_iff _ (λ r, forallb (λ c, evaluation_holds gen_column_time c r)
      (qry_where query) = true)); [done|].
    intros r. by rewrite (forallb_holds _ _ (evaluation_holds gen_column_time) _ _ (λ c, evaluationCond_holds db s c r)).
  - intros Ho. rewrite Ho in Hs. by eapply Sorted_weaken; [apply (order_newest s)|].
Qed.

(** *** Deletions *)
Lemma deletes_by {V C} get set (P : C → V → bool) (cs : list C) (Q : V → bool) n t t' r :
  (∀ v, Q v = forallb (λ c, P c v) cs) →
  deletes get set Q n t t' r → deletes get set (λ v, forallb (λ c, P c v) cs) n t t' r.
Proof.
  intros HQ. destruct r as [k|e]; simpl; [|done].
  intros (m & Ht & Hs & Hr & Hn & Hrest). exists m. repeat (split; [done|]).
  split; [intros k' v Hv Hno; rewrite <- HQ; by eapply Hr|]. split; [done|].
  destruct Hrest as [Hlim|Hrest]; [by left|right]. intros k' v Hv. rewrite <- HQ. by eapply Hrest.
Qed.

Lemma session_delete {R} {m : Model R} `{!genuine R m} {C} (do : DO) (expr : C → Expr) (P : C → R → bool)
  cs limit w :
  (∀ c r, holds R m (expr c) r = P c r) →
  st_model (statement_of do) = Some model_of → st_where (statement_of do) = expr <$> cs →
  st_limit (statement_of do) = limit →
  let out := settle_count (Do_Delete (R:=R) do [] w) in
  deletes rows_of with_rows (λ r, forallb (λ c, P c r) cs) limit
    (view (st_pool (statement_of do)) w) (view (st_pool (statement_of do)) out.1) out.2.
Proof.
  intros HP Hm Hw <-. pose proof (delete_run (R:=R) do w Hm) as Hd. simpl in *. rewrite Hw in Hd.
  eapply deletes_by; [|exact Hd]. intros r. simpl. by apply forallb_holds.
Qed.

Lemma idempotency_delete cs n s : 0 < n →
  deletes t_idempotency with_idempotency (λ r, forallb (λ c, idempotency_holds column_time c r) cs)
    (Some n) (tables s) (tables (IdempotencyRecord_DeleteLimit cs n s).1)
    (IdempotencyRecord_DeleteLimit cs n s).2.
Proof using Hdb.
  intros Hn. simpl. unfold deleteIdempotency, session_tables, on_query, pool_of, session_db. simpl.
  fold (session_db db s). fold (pool_of db s).
  set (do := Do_Limit _ _).
  assert (statement_of do = MkStatement _ (pool_of db s) (Some ModelIdempotencyRecord)
    (idempotencyCond (current db s) <$> cs) [] (Some n) 0 false) as E.
  { subst do. statements. rewrite idempotency_statement by done. simpl. by rewrite decide_False by lia. }
  pose proof (session_delete (R:=IdempotencyRecord) do (idempotencyCond (current db s))
    (idempotency_holds gen_column_time) cs (Some n) (s_world s)) as Hd. rewrite E in Hd.
  apply Hd; [|done..]. apply (idempotencyCond_holds db s).
Qed.

Lemma feedback_delete cs s :
  deletes t_feedback with_feedback (λ r, forallb (λ c, feedback_holds c r) cs)
    None (tables s) (tables (EvaluationFeedback_Delete cs s).1) (EvaluationFeedback_Delete cs s).2.
Proof using Hdb.
  simpl. unfold deleteFeedback, session_tables, on_query, pool_of, session_db. simpl.
  fold (session_db db s). fold (pool_of db s).
  set (do := whereAll _ _).
  assert (statement_of do = MkStatement _ (pool_of db s) (Some ModelEvaluationFeedback)
    (feedbackCond (current db s) <$> cs) [] None 0 false) as E.
  { subst do. statements. by rewrite feedback_statement by done. }
  pose proof (session_delete (R:=EvaluationFeedback) do (feedbackCond (current db s))
    feedback_holds cs None (s_world s)) as Hd. rewrite E in Hd.
  apply Hd; [|done..]. apply (feedbackCond_holds db s).
Qed.

Lemma evaluation_delete cs s :
  deletes t_evaluations with_evaluations (λ r, forallb (λ c, evaluation_holds column_time c r) cs)
    None (tables s) (tables (Evaluation_Delete cs s).1) (Evaluation_Delete cs s).2.
Proof using Hdb.
  simpl. unfold deleteEvaluations, session_tables, on_query, pool_of, session_db. simpl.
  fold (session_db db s). fold (pool_of db s).
  set (do := whereAll _ _).
  assert (statement_of do = MkStatement _ (pool_of db s) (Some ModelEvaluation)
    (evaluationCond (current db s) <$> cs) [] None 0 false) as E.
  { subst do. statements. by rewrite evaluation_statement by done. }
  pose proof (session_delete (R:=Evaluation) do (evaluationCond (current db s))
    (evaluation_holds gen_column_time) cs None (s_world s)) as Hd. rewrite E in Hd.
  apply Hd; [|done..]. apply (evaluationCond_holds db s).
Qed.

(** *** Transactions *)
Lemma current_db (s : Session W GormDB) : q_db (current db s) = Some (session_db db s).
Proof. unfold current, session_db. by destruct (s_tx s). Qed.

Lemma session_transaction_run (X : Type) (f : Session W GormDB * X → (Session W GormDB * X) * res unit) s x :
  let out := Transaction X f (s, x) in
  (out.1.2 = x ∧ tables out.1.1 = tables s ∧ ∃ e, out.2 = Err e) ∨
  ∃ s0, tables s0 = tables s ∧ out.1.2 = (f (s0, x)).1.2 ∧
    (session_scope db s0 (f (s0, x)).1.1 →
     match (f (s0, x)).2 with
     | Err e => out.2 = Err e ∧ tables out.1.1 = tables s
     | Ok _ => (out.2 = Ok tt ∧ tables out.1.1 = tables (f (s0, x)).1.1) ∨
               (∃ e, out.2 = Err e) ∧ tables out.1.1 = tables s
     end).
Proof.
  simpl. unfold session_transaction, Query_Transaction. simpl. rewrite current_db. simpl.
  match goal with |- context [DB_Transaction X _ ?g _] => set (body := g) end.
  pose proof (law_transaction X (session_db db s) body (s_world s) x) as Hl. simpl in Hl.
  destruct (DB_Transaction X (session_db db s) body (s_world s, x)) as [[w' x'] r]. simpl in *.
  destruct Hl as [(-> & Hv & e & ->)|(tx & w0 & Htx & Hv0 & Hvp & -> & Hrun)].
  { left. split; [done|]. split; [exact Hv|eauto]. }
  right. exists (MkSession w0 (Some tx)). split; [exact Hv0|].
  unfold body in *. simpl in *.
  destruct (f (MkSession w0 (Some tx), x)) as [[s1 x1] r1] eqn:Ef. simpl in *.
  split; [done|]. intros [Hs1 Hsc]. simpl in Hs1, Hsc.
  assert (pool_of db s1 = Statement_ConnPool tx) as Ep by (unfold pool_of, session_db; by rewrite Hs1).
  unfold session_tables. simpl. rewrite Ep. apply Hrun.
  destruct (decide (Statement_ConnPool tx = pool_of db s)) as [E|E]; [by left|right].
  apply Hsc; [by eexists|done|]. intros E'. by apply E.
Qed.

(** ** The repositories are the database of the services *)

(** C18: the generated repositories, with the conditions, orders, limits and clauses the
    services put on them, are a database in the sense every theorem about the services
    assumes: a row is inserted once, a key finds its row or nothing, a page is the slice of
    the rows that meet the filter in the order asked for, a cleanup deletes what its
    condition selects, and a transaction commits all of its writes or none, through the
    clone of the query on its own connection. *)
Theorem repositories_implement_database : DatabaseLaws (Session W GormDB).
Proof using Hdb.
  split.
  - apply snapshot_created.
  - intros r s. apply evaluation_created.
  - intros r s. apply idempotency_created.
  - intros r s. apply feedback_created.
  - intros k s. apply (first_frame (R:=IdempotencyRecord)).
  - apply idempotency_first.
  - intros k s. apply (first_frame (R:=Evaluation)).
  - apply evaluation_first.
  - intros q s. apply (find_frame (R:=Evaluation)).
  - apply evaluation_find.
  - intros cs n s _. apply idempotency_delete.
  - intros cs s _. apply feedback_delete.
  - intros cs s _. apply evaluation_delete.
  - apply session_scope_preorder.
  - intros r s. apply evaluation_created.
  - intros r s. apply idempotency_created.
  - intros X f s x. destruct (session_transaction_run X f s x) as [(E & _)|(s0 & _ & E & _)]; eauto.
  - intros X f s x Hf. destruct (session_transaction_run X f s x) as [Hl|(s0 & Ht & Hx & Hrun)];
      [by left|right]. exists s0. split; [done|]. split; [done|]. apply Hrun, Hf.
Qed.

(** The clock, the identifiers, the provider and the randomness of a session. *)
Lemma session_outside `{ProviderPort W} `{Runtime W} `{!GenOutside W} :
  @OutsideLaws (Session W GormDB) repositories SessionProvider SessionRuntime.
Proof.
  split; intros; simpl.
  - apply gen_provider_frame.
  - apply gen_now_frame.
  - apply gen_newID_frame.
  - apply gen_rand_frame.
  - split; [done|]. intros _ _ pool _. apply gen_now_frame.
  - match goal with H : _.2 = Ok _ |- _ => by apply (gen_rand_length n (s_world w) bytes) end.
Qed.

(** None of the type assertions the generated code makes on what the library returns
    fails: a row found through a repository is of the repository's model, and a listing is
    a slice of it, whatever conditions, order, limit and offset were put on the query. *)
Theorem repository_calls_never_panic s k id query :
  (firstIdempotency ctx (current db s) k (s_world s)).2 ≠ Panics ∧
  (firstEvaluation ctx (current db s) id (s_world s)).2 ≠ Panics ∧
  (findEvaluations ctx (current db s) query (s_world s)).2 ≠ Panics.
Proof using Hdb.
  split; [|split].
  - unfold firstIdempotency. set (do := Do_Where _ _). intros E.
    pose proof (first_run (R:=IdempotencyRecord) do (s_world s)) as Hf. rewrite E in Hf.
    apply Hf; subst do; statements; by rewrite idempotency_statement.
  - unfold firstEvaluation. set (do := Do_Where _ _). intros E.
    pose proof (first_run (R:=Evaluation) do (s_world s)) as Hf. rewrite E in Hf.
    apply Hf; subst do; statements; by rewrite evaluation_statement.
  - unfold findEvaluations. intros E.
    match type of E with (Do_Find ?d ?w).2 = _ =>
      destruct (page_find_run (R:=Evaluation) d w) as (l & err & Hr & _) end; [|congruence].
    destruct (qry_offset query), (qry_ordered query); statements; by rewrite evaluation_statement.
Qed.

(** ** Columns *)

(** The constructor the generator chooses for the Go type of a field. *)
Definition kind_of (ty : goType) : fieldKind :=
  match ty with
  | TypeString => NewString | TypeUUID => NewField | TypeInt => NewInt
  | TypeInt64 => NewInt64 | TypeBytes => NewBytes | TypeTime => NewTime
  end.

(** A lookup by name knows exactly the columns of the model, in one table. *)
Definition names_columns (R : Type) `{Model R} (table : string) (get : string → option Expr) : Prop :=
  ∀ c e, get c = Some e ↔ ∃ ty f, (c, ty, f) ∈ columns_of ∧ e = field_New (kind_of ty) table c.

Lemma field_named_Some m c e :
  field_named m c = Some e ↔ m !! c = Some e ∧ field_IsOrderExpr e = true.
Proof.
  unfold field_named. destruct (m !! c) as [e'|]; [|split; [done|by intros [? _]]].
  destruct (field_IsOrderExpr e') eqn:E; split; [by intros [= <-]|by intros [[= <-] _]|done|].
  intros [[= <-] ?]. congruence.
Qed.

(** The fields of a table, as the model lists them. *)
Definition column_fields (R : Type) `{Model R} (table : string) : list (string * Expr) :=
  (λ c : column R, (c.1.1, field_New (kind_of c.1.2) table c.1.1)) <$> columns_of.

Lemma named_columns {R} {m : Model R} table fields :
  NoDup (column_fields R table).*1 → fields = column_fields R table →
  names_columns R table (field_named (fill fields)).
Proof using GL.
  intros Hn -> c e. rewrite field_named_Some, fill_lookup by done. unfold column_fields.
  rewrite list_elem_of_fmap. split.
  - intros [([[c' ty] f] & [= -> ->] & Hin) _]. eauto.
  - intros (ty & f & Hin & ->). split; [|apply law_order_expr]. by exists (c, ty, f).
Qed.

Ltac columns := apply named_columns; [by apply (bool_decide_unpack _)|reflexivity].

(** The columns a repository names are those of its model, each once, with the
    constructor of the field's Go type and in the model's own table; under another table
    name or an alias, they are the same columns of that table. *)
Lemma repository_columns_are_the_models opts (e : evaluation) (f : evaluationFeedback)
  (i : idempotencyRecord) (p : policySnapshot) (table : string) :
  names_columns Evaluation TableEvaluations (λ c, evaluation_GetFieldByName c (newEvaluation db opts)) ∧
  names_columns EvaluationFeedback TableEvaluationFeedback
    (λ c, evaluationFeedback_GetFieldByName c (newEvaluationFeedback db opts)) ∧
  names_columns IdempotencyRecord TableIdempotencyRecords
    (λ c, idempotencyRecord_GetFieldByName c (newIdempotencyRecord db opts)) ∧
  names_columns PolicySnapshot TablePolicySnapshots
    (λ c, policySnapshot_GetFieldByName c (newPolicySnapshot db opts)) ∧
  names_columns Evaluation table (λ c, evaluation_GetFieldByName c (evaluation_As table e)) ∧
  names_columns EvaluationFeedback table
    (λ c, evaluationFeedback_GetFieldByName c (evaluationFeedback_As table f)) ∧
  names_columns IdempotencyRecord table
    (λ c, idempotencyRecord_GetFieldByName c (idempotencyRecord_As table i)) ∧
  names_columns PolicySnapshot table
    (λ c, policySnapshot_GetFieldByName c (policySnapshot_As table p)).
Proof using GL.
  unfold newEvaluation, newEvaluationFeedback, newIdempotencyRecord, newPolicySnapshot.
  rewrite !law_table_name.
  destruct e, f, i, p. repeat split_and; columns.
Qed.

(** ** Paging *)

(** The rows a statement selects. *)
Definition selected_rows (R : Type) `{Model R} (do : DO) (w : W) : list R :=
  filter (λ r, forallb (λ c, holds R _ c r) (st_where (statement_of do)) = true)
    (map_to_list (rows_of (view (st_pool (statement_of do)) w))).*2.

Lemma len_window {A} limit offset (l : list A) :
  0 < limit → len (window (Some limit) offset l) = Z.min limit (Z.max 0 (len l - Z.max 0 offset)).
Proof.
  intros Hl. unfold window, len. rewrite decide_False by lia. rewrite length_take, length_drop. lia.
Qed.

(** [FindByPage] on a query without limit and offset returns a page of the selected
    rows, and with it their number over all pages, whether it counts them from a page that
    is not full or asks; a negative offset starts at the first row, and a page that is not
    full is then counted short by it. *)
Theorem find_by_page_counts {R} {m : Model R} `{!genuine R m} do offset limit w w' result count :
  st_model (statement_of do) = Some model_of → st_limit (statement_of do) = None →
  st_offset (statement_of do) = 0 →
  - 2 ^ 63 <= offset → len (selected_rows R do w) < 2 ^ 63 →
  Do_FindByPage (R:=R) do offset limit w = (w', Returns (result, count, None)) →
  (∃ all, all ≡ₚ selected_rows R do w ∧ result = window (Some limit) (Z.max 0 offset) all) ∧
  (0 <= offset → count = len (selected_rows R do w)) ∧
  (offset < 0 → 0 < len (selected_rows R do w) < limit →
   count = len (selected_rows R do w) + offset).
Proof.
  intros Hm Hl Ho Hmin Hmax. unfold Do_FindByPage.
  set (page := Do_Limit (Do_Offset do offset) limit).
  assert (statement_of page = MkStatement _ (st_pool (statement_of do)) (Some model_of)
    (st_where (statement_of do)) (st_order (statement_of do)) (Some limit) (Z.max 0 offset)
    (st_ignore (statement_of do))) as E.
  { subst page. statements. simpl. rewrite Hm, Hl, Ho.
    f_equal; case_decide; subst; simpl; try done; lia. }
  pose proof (page_find_run (R:=R) page w) as Hf. pose proof (find_frame (R:=R) page w) as Hv.
  rewrite E in Hf. destruct (Hf eq_refl) as (l & err & Hr & Hall).
  destruct (Do_Find page w) as [w1 out]. simpl in Hr, Hv. rewrite Hr.
  destruct err as [e|]; [done|]. destruct (Hall eq_refl) as (all & Hp & -> & _). simpl in Hp.
  fold (selected_rows R do w) in Hp. simpl.
  assert (len all = len (selected_rows R do w)) as Hlen by (unfold len; by rewrite Hp).
  case_match eqn:Eb.
  - intros [= _ <- <-]. split; [eauto|].
    apply andb_true_iff in Eb as [[Hb1 Hb2]%andb_true_iff Hb3].
    apply bool_decide_eq_true in Hb1, Hb2, Hb3.
    rewrite len_window in Hb2, Hb3 by lia. rewrite len_window, Hlen in * by lia.
    split; intros; rewrite wrap64_small; lia.
  - set (all_rows := Do_Limit (Do_Offset do (-1)) (-1)).
    assert (statement_of all_rows = MkStatement _ (st_pool (statement_of do)) (Some model_of)
      (st_where (statement_of do)) (st_order (statement_of do)) (Some (-1)) 0
      (st_ignore (statement_of do))) as Ea by (subst all_rows; statements; by rewrite Hm).
    pose proof (law_count R m all_rows w1) as Hc. rewrite Ea in Hc. simpl in Hc.
    destruct (DO_Count all_rows w1) as [w2 [n err]]. simpl in Hc. intros [= _ <- -> ->].
    rewrite Hc, Hv by (by (intros; simplify_eq)). fold (selected_rows R do w).
    split; [eauto|]. split; [done|]. intros Hneg Hshort. exfalso.
    rewrite !andb_false_iff, !bool_decide_eq_false, len_window, Hlen in Eb by lia. lia.
Qed.

End theorems.

(** ** Runs of the in-memory library *)
Import MemGen.

Definition empty_world : world := MkWorld (λ _, MemStore.empty_tables) 0.
Definition snapshot_row (hash : string) : PolicySnapshot :=
  MkPolicySnapshot hash "p" "1.0.0" "{}" 1700000000000000000.
Definition feedback_row (id evaluation : string) : EvaluationFeedback :=
  MkEvaluationFeedback id evaluation "approve" "" 1700000000000000000.

Definition memDatabase : Database (Session world nat) := RepositoryDatabase (H:=MemLibrary) 0%nat tt.

(** A transaction that writes two rows of which the second is refused leaves neither; one
    that writes both keeps them, and the deletion of one leaves the other. *)
Definition two_rows (id1 id2 : string) (sx : Session world nat * unit) : (Session world nat * unit) * res unit :=
  let p := EvaluationFeedback_Create (Database:=memDatabase) (feedback_row id1 "e1") sx.1 in
  match p.2 with
  | Err e => ((p.1, sx.2), Err e)
  | Ok _ =>
      let p := EvaluationFeedback_Create (Database:=memDatabase) (feedback_row id2 "e2") p.1 in
      ((p.1, sx.2), p.2)
  end.

Example transactions_run :
  let s := MkSession empty_world None in
  let refused := Transaction (Database:=memDatabase) unit (two_rows "a" "a") (s, tt) in
  let kept := Transaction (Database:=memDatabase) unit (two_rows "a" "b") (s, tt) in
  let deleted := EvaluationFeedback_Delete (Database:=memDatabase) [FbEvaluationIDIn ["e1"; "e3"]] kept.1.1 in
  size (t_feedback (tables (Database:=memDatabase) refused.1.1)) = 0%nat ∧
  size (t_feedback (tables (Database:=memDatabase) kept.1.1)) = 2%nat ∧
  deleted.2 = Ok 1 ∧
  fb_ID <$> (map_to_list (t_feedback (tables (Database:=memDatabase) deleted.1))).*2 = ["b"].
Proof. vm_compute. by repeat split. Qed.

Lemma repositories_implement_database_witness :
  unscoped (W:=world) 0%nat ∧ @DatabaseLaws (Session world nat) memDatabase.
Proof. split; [done|exact (repositories_implement_database (W:=world) 0%nat tt I)]. Defined.

Lemma repository_calls_never_panic_witness :
  unscoped (W:=world) 0%nat ∧
  (firstEvaluation tt (current (W:=world) 0%nat (MkSession empty_world None)) "e1" empty_world).2 ≠ Panics.
Proof.
  split; [done|].
  exact (proj1 (proj2 (repository_calls_never_panic (W:=world) 0%nat tt I (MkSession empty_world None)
    "k" "e1" (MkQuery [] true 10 None)))).
Defined.

(** Three snapshots: the second page of two holds one, and counts three. *)
Definition three_snapshots : world :=
  (Do_Create (R:=PolicySnapshot) (policySnapshotDo (newPolicySnapshot 0%nat [])) [snapshot_row "a"; snapshot_row "b"; snapshot_row "c"]
     empty_world).1.

Lemma find_by_page_counts_witness :
  ∃ w result, Do_FindByPage (R:=PolicySnapshot) (policySnapshotDo (newPolicySnapshot 0%nat [])) 2 2 three_snapshots
    = (w, Returns (result, 3, None)) ∧ len result = 1 ∧
  (0 <= 2 → 3 = len (selected_rows PolicySnapshot (policySnapshotDo (newPolicySnapshot 0%nat [])) three_snapshots)).
Proof.
  eexists _, _. split; [vm_compute; reflexivity|]. split; [reflexivity|].
  refine (proj1 (proj2 (find_by_page_counts (W:=world) (R:=PolicySnapshot)
    (policySnapshotDo (newPolicySnapshot 0%nat [])) 2 2 three_snapshots _ _ 3 _ _ _ _ _ _)));
    [reflexivity|reflexivity|reflexivity|lia|vm_compute; reflexivity|vm_compute; reflexivity].
Defined.

End RepositoriesTheorems.
