(* ===== verification/EvalFrames.v ===== *)
(** * What the steps of the pipeline leave alone

    Frame reasoning for the effect monad: a computation [frame R k m] relates the
    tables before and after by [R], only adds to the trace, and calls the provider at
    most [k] times. *)

From S2P Require Import Prelude GoFloat GoAny Decision Document Condition Canonical Evaluate.
From S2P Require Import Store Effects Loader Policies Secrets EvalConvert Evaluations.
From stdpp Require Import options.

Module EvalFrames.
Import EvalConvert Evaluations.

(** The provider calls of a trace. *)
Definition is_provider_call (e : event) : bool :=
  match e with EvProviderEvaluate _ => true | _ => false end.
Definition provider_calls (l : list event) : nat :=
  length (filter (λ e, is_provider_call e = true) l).

Lemma provider_calls_app l k : provider_calls (l ++ k) = provider_calls l + provider_calls k.
Proof. unfold provider_calls. by rewrite list.filter_app, length_app. Qed.

Lemma provider_calls_one e : provider_calls [e] = if is_provider_call e then 1 else 0.
Proof. by destruct e. Qed.

(** Evaluations, idempotency keys and feedback are unchanged; the snapshot table only
    grows. *)
Record core_eq (t t' : Tables) : Prop := {
  core_evaluations : t_evaluations t' = t_evaluations t;
  core_idempotency : t_idempotency t' = t_idempotency t;
  core_feedback : t_feedback t' = t_feedback t;
  core_snapshots : t_snapshots t ⊆ t_snapshots t'
}.

#[export] Instance core_eq_preorder : PreOrder core_eq.
Proof.
  split; [by intros t; split|]. intros a b c [] []. split; try congruence. by etrans.
Qed.

Section frames.
#[local] Set Default Proof Using "Type*".
Context {W : Type} `{Database W, !DatabaseLaws W} `{ProviderPort W} `{Runtime W}
  `{!OutsideLaws W}.

Definition frame (R : Tables → Tables → Prop) (k : nat) {A} (m : M W A) : Prop := ∀ st,
  R (tables (st_world st)) (tables (st_world (m st).1)) ∧
  ∃ l, st_events (m st).1 = st_events st ++ l ∧ provider_calls l ≤ k.

Lemma frame_weaken R R' k k' {A} (m : M W A) :
  frame R k m → (∀ t t', R t t' → R' t t') → k ≤ k' → frame R' k' m.
Proof. intros Hm HR Hk st. destruct (Hm st) as (? & l & ? & ?). split; [auto|exists l; auto with lia]. Qed.

Section preorder.
Context (R : Tables → Tables → Prop) `{!PreOrder R}.

Lemma no_events k : provider_calls [] ≤ k.
Proof. unfold provider_calls. simpl. lia. Qed.

Lemma frame_ret {A} k (a : A) : frame R k (mret a).
Proof. intros st. split; [done|exists []; rewrite app_nil_r; split; [done|apply no_events]]. Qed.

Lemma frame_lift {A} k (r : res A) : frame R k (lift r).
Proof. intros st. split; [done|exists []; rewrite app_nil_r; split; [done|apply no_events]]. Qed.

Lemma frame_fail {A} k e : frame R k (fail (A:=A) e).
Proof. intros st. split; [done|exists []; rewrite app_nil_r; split; [done|apply no_events]]. Qed.

Lemma frame_call {A} k (f : W → W * res A) :
  (∀ w, R (tables w) (tables (f w).1)) → frame R k (call f).
Proof.
  intros Hf st. split; [apply Hf|exists []; rewrite app_nil_r; split; [done|apply no_events]].
Qed.

Lemma frame_read {A} k (f : W → W * res A) :
  (∀ w, tables (f w).1 = tables w) → frame R k (call f).
Proof. intros Hf. apply frame_call. intros w. by rewrite Hf. Qed.

Lemma frame_ask {A} k (f : W → W * A) :
  (∀ w, tables (f w).1 = tables w) → frame R k (ask f).
Proof.
  intros Hf st. split; [simpl; by rewrite Hf|].
  exists []; rewrite app_nil_r; split; [done|apply no_events].
Qed.

Lemma frame_emit e : frame R (if is_provider_call e then 1 else 0) (emit e).
Proof.
  intros st. split; [done|]. exists [e]. split; [done|].
  unfold provider_calls. simpl. by destruct e.
Qed.

Lemma frame_observe e : frame R (if is_provider_call e then 1 else 0) (observe e).
Proof.
  intros st. split; [done|]. exists [e]. split; [done|].
  unfold provider_calls. simpl. by destruct e.
Qed.

Lemma frame_attempt {A} k (m : M W A) : frame R k m → frame R k (attempt m).
Proof. intros Hm st. apply (Hm st). Qed.

Lemma frame_deferring {A} k e (m : M W A) :
  is_provider_call e = false → frame R k m → frame R k (deferring e m).
Proof.
  intros He Hm st. destruct (Hm st) as (HR & l & Hl & Hk). split; [done|].
  exists (l ++ [e]). simpl. rewrite Hl, <- app_assoc. split; [done|].
  rewrite provider_calls_app, provider_calls_one, He. lia.
Qed.

Lemma frame_bind {A B} k1 k2 (m : M W A) (f : A → M W B) :
  frame R k1 m → (∀ a, frame R k2 (f a)) → frame R (k1 + k2) (m ≫= f).
Proof.
  intros Hm Hf st. rewrite M_bind_run. destruct (Hm st) as (HR & l & Hl & Hk).
  destruct (m st) as [st1 [a|e]]; simpl in *.
  - destruct (Hf a st1) as (HR' & l' & Hl' & Hk'). split; [by etrans|].
    exists (l ++ l'). rewrite Hl', Hl, <- app_assoc. split; [done|].
    rewrite provider_calls_app. lia.
  - split; [done|]. exists l. split; [done|lia].
Qed.

Lemma frame_bind0 {A B} k (m : M W A) (f : A → M W B) :
  frame R 0 m → (∀ a, frame R k (f a)) → frame R k (m ≫= f).
Proof. intros Hm Hf. by apply (frame_bind 0 k). Qed.

(** A step that wraps its result, followed by the rest. *)
Lemma frame_bind_ret {A B C} k (m : M W A) (g : A → B) (f : B → M W C) :
  frame R k (m ≫= λ a, f (g a)) → frame R k ((m ≫= λ a, mret (g a)) ≫= f).
Proof.
  intros Hf st. specialize (Hf st). rewrite M_bind_run in Hf. rewrite !M_bind_run.
  destruct (m st) as [st1 [a|e]]; exact Hf.
Qed.

(** After a pure step, only its result matters. *)
Lemma frame_lift_bind {A B} k (r : res A) (f : A → M W B) :
  (∀ a, r = Ok a → frame R k (f a)) → frame R k (lift r ≫= f).
Proof.
  intros Hf st. rewrite M_bind_run. unfold lift. destruct r as [a|e].
  - by apply Hf.
  - apply (frame_fail k e).
Qed.

Lemma frame_when k b m : frame R k m → frame R k (when b m).
Proof.
  intros Hm. destruct b; [done|]. intros st. split; [done|].
  exists []. rewrite app_nil_r. split; [done|]. apply no_events.
Qed.

End preorder.
End frames.

(** Decide a frame goal step by step: reads and pure steps first, then the cases. *)
Ltac frame_step :=
  lazymatch goal with
  | |- frame ?R _ (mret _) => apply (frame_ret R)
  | |- frame ?R _ (lift _) => apply (frame_lift R)
  | |- frame ?R _ (fail _) => apply (frame_fail R)
  | |- frame ?R _ (attempt _) => apply (frame_attempt R)
  | |- frame ?R _ (when _ _) => apply (frame_when R)
  | |- frame _ _ (if ?b then _ else _) => destruct b
  | |- frame _ _ (match ?x with _ => _ end) => destruct x
  end.

(** The steps that come before the rest of a computation and make no call. *)
Ltac frame_then := lazymatch goal with |- frame ?R _ _ => apply (frame_bind0 R) end.

Section steps.
#[local] Set Default Proof Using "Type*".
Context {W : Type} `{Database W, !DatabaseLaws W} `{ProviderPort W} `{Runtime W}
  `{!OutsideLaws W} `{YamlDecoder}.
Context (s : Service) (R : Tables → Tables → Prop) `{!PreOrder R}.

Lemma frame_now k : frame R k (@now W _).
Proof. apply (frame_ask R), now_frame. Qed.

Lemma frame_newID k : frame R k (@newID W _).
Proof. apply (frame_ask R), newID_frame. Qed.

Lemma frame_elapsed k t : frame R k (elapsedMS (W:=W) t).
Proof. unfold elapsedMS. frame_then; [apply frame_now|]. intros. frame_step. Qed.

Lemma frame_findEvaluation k id : frame R k (findEvaluation (W:=W) id).
Proof.
  unfold findEvaluation. frame_then; [|intros; repeat frame_step].
  frame_step. apply (frame_read R). intros w. apply evaluation_first_frame.
Qed.

Lemma frame_Get k id : frame R k (Get (W:=W) id).
Proof. unfold Get. frame_then; [apply frame_findEvaluation|]. intros; frame_step. Qed.

Lemma frame_replay k input h : frame R k (replay (W:=W) input h).
Proof.
  unfold replay. frame_step; [frame_step|].
  frame_then; [|].
  - frame_step. apply (frame_read R). intros w. apply idempotency_first_frame.
  - intros [record|e]; [|repeat frame_step].
    frame_then; [apply frame_now|]. intros t.
    frame_step; [frame_step|]. frame_step; [|frame_step].
    frame_then; [frame_step; apply frame_Get|].
    intros; repeat frame_step.
Qed.

Lemma frame_sealInput k input : frame R k (sealInput (W:=W) s input).
Proof.
  unfold sealInput, Secrets.Seal. repeat frame_step.
  frame_then; [|intros; frame_step].
  apply (frame_read R). intros w. apply rand_frame.
Qed.

Lemma frame_askProvider record compiled input :
  frame R 1 (askProvider (W:=W) s record compiled input).
Proof.
  unfold askProvider.
  match goal with |- context [deferring _ ?b] => set (body := b) end.
  assert (frame R 1 body) as Hbody.
  { unfold body. apply (frame_bind R 1 0).
    - apply (frame_emit R (EvProviderEvaluate _)).
    - intros _. frame_then; [|].
      + frame_step. apply (frame_read R). intros w. apply provider_frame.
      + intros [e|response]; [|frame_step].
        frame_then; [frame_step; by apply (frame_emit R (EvObserveProviderCall _))|].
        intros _. frame_then; [frame_step; by apply (frame_observe R (EvObserveTokens _ _ _))|].
        intros _. frame_step. }
  frame_step; [|done]. frame_then; [by apply (frame_emit R EvProviderCallStarted)|].
  intros _. by apply (frame_deferring R).
Qed.

Lemma frame_decide compiled kind input : frame R 1 (decide_ (W:=W) s compiled kind input).
Proof.
  unfold decide_. frame_then; [apply frame_now|]. intros startedAt.
  frame_then; [apply frame_newID|]. intros id.
  frame_then; [frame_step|]. intros _.
  frame_then; [|].
  - unfold applyPreRules. frame_step; [|frame_step].
    frame_then; [apply frame_elapsed|]. intros; frame_step.
  - intros [record|]; [frame_step|].
    apply (frame_bind R 1 0); [apply frame_askProvider|]. intros [[record response]|e].
    + frame_step.
      * frame_then; [frame_step|]. intros ?.
        frame_then; [apply frame_elapsed|]. intros; frame_step.
      * unfold recordProtocolFailure.
        frame_then; [apply frame_elapsed|]. intros; frame_step.
    + unfold recordProviderFailure. frame_step; [frame_step|].
      frame_then; [apply frame_elapsed|]. intros; frame_step.
Qed.
End steps.

Lemma frame_ensureSnapshot {W} `{Database W, !DatabaseLaws W} `{ProviderPort W} `{Runtime W}
    `{!OutsideLaws W} compiled :
  frame core_eq 0 (ensureSnapshot (W:=W) compiled).
Proof.
  unfold ensureSnapshot. frame_then; [apply (frame_now core_eq)|]. intros t.
  apply (frame_call core_eq). intros w. match goal with |- context [PolicySnapshot_CreateIgnore ?r w] =>
    pose proof (snapshot_create_law r w) as Hl; destruct (PolicySnapshot_CreateIgnore r w)
      as [w' [u|e]] end; simpl in *; rewrite Hl; [|done].
  case_match; [done|]. split; try done. by apply insert_subseteq.
Qed.

End EvalFrames.
