(* ===== verification/EvalSpec.v ===== *)
(** * What the pipeline decides and writes

    Postconditions of the decision and persistence steps, from which the theorems on
    [Create] follow. *)

From S2P Require Import Prelude GoFloat GoAny Decision Document Condition Canonical Evaluate.
From S2P Require Import Store Effects Loader Policies Secrets EvalConvert Evaluations EvalFrames.
From stdpp Require Import options.
#[local] Open Scope Z_scope.

Module EvalSpec.
Import EvalConvert Evaluations EvalFrames.

(** ** Decisions *)

(** The part of a row that records the decision. *)
Record verdict : Set := MkVerdict {
  vd_Status : string;
  vd_Outcome : string;
  vd_MatchedRuleID : string;
  vd_ExecutionPath : string;
  vd_FailureCode : string;
  vd_AnswersJSON : string
}.

Definition verdict_of (r : Evaluation) : verdict :=
  MkVerdict (ev_Status r) (ev_Outcome r) (ev_MatchedRuleID r) (ev_ExecutionPath r)
    (ev_FailureCode r) (ev_AnswersJSON r).

Definition completed (result : Evaluate.Result) (answersJSON : string) : verdict :=
  MkVerdict EvaluationStatusCompleted (Evaluate.res_Outcome result)
    (Evaluate.res_MatchedRuleID result) (Evaluate.res_Path result) "" answersJSON.

Definition failed (code : FailureCode) : verdict :=
  MkVerdict EvaluationStatusProviderFailed "" "" "" code "".

Section decided.
Context {W : Type} `{ProviderPort W}.

(** The four ways an evaluation is decided. *)
Inductive decided (compiled : Compiled) (input : CreateInput) : verdict → Prop :=
  | decided_pre result :
      Evaluate.EvaluatePreRules compiled (facts_of input) = Some result →
      decided compiled input (completed result "")
  | decided_answers (w : W) response answersJSON :
      Evaluate.EvaluatePreRules compiled (facts_of input) = None →
      (Provider_Evaluate (buildProviderRequest compiled input) w).2 = Ok response →
      Evaluate.ValidateAnswers compiled (Provider.rs_Answers response) = Ok tt →
      encodeAnswers (Provider.rs_Answers response) = Ok answersJSON →
      decided compiled input
        (completed (Evaluate.EvaluateDecisionRules compiled (facts_of input)
                      (Provider.rs_Answers response)) answersJSON)
  | decided_provider_failed (w : W) e :
      Evaluate.EvaluatePreRules compiled (facts_of input) = None →
      (Provider_Evaluate (buildProviderRequest compiled input) w).2 = Err e →
      errors_Is e ContextCanceled = false →
      decided compiled input (failed (classifyProviderFailure e))
  | decided_protocol (w : W) response e :
      Evaluate.EvaluatePreRules compiled (facts_of input) = None →
      (Provider_Evaluate (buildProviderRequest compiled input) w).2 = Ok response →
      Evaluate.ValidateAnswers compiled (Provider.rs_Answers response) = Err e →
      decided compiled input (failed FailureCodeProviderProtocol).
End decided.

(** Break a run of a monadic program that returned. *)
Ltac inv_run :=
  repeat match goal with
  | H : (_ ≫= _) _ = (_, Ok _) |- _ =>
      let st := fresh "st" in let a := fresh "a" in let H1 := fresh "Hrun" in
      let H2 := fresh "Hrun" in
      apply M_bind_Ok in H; destruct H as (st & a & H1 & H2)
  | H : mret _ _ = (_, Ok _) |- _ =>
      let E1 := fresh in let E2 := fresh in
      apply M_ret_inv in H; destruct H as [E1 E2]; subst
  | H : fail _ _ = (_, Ok _) |- _ => discriminate H
  | H : lift ?r _ = (_, Ok _) |- _ =>
      let E := fresh "Hlift" in destruct r eqn:E; [injection H as H; try subst|discriminate H]
  end.

Section spec.
#[local] Set Default Proof Using "Type*".
Context {W : Type} `{Database W, !DatabaseLaws W} `{ProviderPort W} `{Runtime W}
  `{!OutsideLaws W} `{YamlDecoder}.
Context (s : Service).

(** The identity part of a row. *)
Record row_identity (compiled : Compiled) (kind : PolicyKind) (input : CreateInput)
  (r : Evaluation) : Prop := {
  ri_hash : ev_PolicySnapshotHash r = c_Hash compiled;
  ri_name : ev_PolicyName r = ref_Name (c_Ref compiled);
  ri_version : ev_PolicyVersion r = ref_Version (c_Ref compiled);
  ri_kind : ev_PolicyKind r = kind;
  ri_request : ev_RequestID r = ci_RequestID input;
  ri_metadata : ev_MetadataJSON r = encodeMetadata (metadata_of input)
}.

Lemma askProvider_Ok record compiled input st st' r :
  askProvider s record compiled input st = (st', Ok r) →
  ∃ w : W, match r with
    | Ok (record', response) =>
        (Provider_Evaluate (buildProviderRequest compiled input) w).2 = Ok response ∧
        record' = applyUsage record response
    | Err e => (Provider_Evaluate (buildProviderRequest compiled input) w).2 = Err e
    end.
Proof.
  unfold askProvider.
  match goal with |- context [deferring _ ?b] => set (body := b) end.
  assert (∀ st st' r, body st = (st', Ok r) → ∃ w : W, match r with
    | Ok (record', response) =>
        (Provider_Evaluate (buildProviderRequest compiled input) w).2 = Ok response ∧
        record' = applyUsage record response
    | Err e => (Provider_Evaluate (buildProviderRequest compiled input) w).2 = Err e
    end) as Hbody.
  { clear. intros st st' r Hb. unfold body in Hb. inv_run.
    match goal with H : attempt _ ?s1 = _ |- _ => exists (st_world s1); injection H as <- <- end.
    simpl in *. destruct (Provider_Evaluate _ _).2 as [response|e].
    - inv_run. done.
    - by inv_run. }
  destruct (svc_observer s); [|by apply Hbody].
  intros Hr. inv_run. unfold deferring in *.
  match goal with H : (MkSt _ _, _) = _ |- _ => injection H as _ Hb end.
  apply (Hbody st0 (body st0).1). rewrite <- Hb. apply surjective_pairing.
Qed.

Lemma finished_verdict record result status code total :
  verdict_of (finished (applyResult record result) status code total) =
  MkVerdict status (Evaluate.res_Outcome result) (Evaluate.res_MatchedRuleID result)
    (Evaluate.res_Path result) code (ev_AnswersJSON record).
Proof. by destruct record. Qed.

(** Updates keep the identity of the row. *)
Lemma identity_finished compiled kind input r status code total :
  row_identity compiled kind input r →
  row_identity compiled kind input (finished r status code total).
Proof. by destruct r; intros []. Qed.
Lemma identity_applyResult compiled kind input r result :
  row_identity compiled kind input r → row_identity compiled kind input (applyResult r result).
Proof. by destruct r; intros []. Qed.
Lemma identity_applyUsage compiled kind input r response :
  row_identity compiled kind input r → row_identity compiled kind input (applyUsage r response).
Proof. by destruct r; intros []. Qed.
Lemma identity_with_answers compiled kind input r j :
  row_identity compiled kind input r → row_identity compiled kind input (with_answers r j).
Proof. by destruct r; intros []. Qed.
Lemma identity_newRecord compiled kind input id t :
  row_identity compiled kind input (newRecord compiled kind input id t).
Proof. done. Qed.
#[local] Hint Resolve identity_finished identity_applyResult identity_applyUsage
  identity_with_answers identity_newRecord : go.

Lemma decide_Ok compiled kind input st st' record :
  decide_ s compiled kind input st = (st', Ok record) →
  Condition.ValidateFacts compiled (facts_of input) = Ok tt ∧
  decided (W:=W) compiled input (verdict_of record) ∧
  row_identity compiled kind input record ∧ ev_EncryptedInput record = None.
Proof.
  unfold decide_, applyPreRules. intros Hd. inv_run. destruct a1. split; [done|].
  destruct (Evaluate.EvaluatePreRules compiled (facts_of input)) as [result|] eqn:Epre; inv_run.
  { split; [|by auto with go]. rewrite finished_verdict. by apply decided_pre. }
  match goal with H : askProvider _ _ _ _ _ = _ |- _ =>
    apply askProvider_Ok in H as [w Hw] end.
  destruct a1 as [[r response]|e]; simpl in Hw.
  - destruct Hw as [Hw ->].
    destruct (Evaluate.ValidateAnswers compiled _) as [[]|e] eqn:Ev; inv_run.
    + split; [|by auto 10 with go]. rewrite finished_verdict. by eapply decided_answers.
    + unfold recordProtocolFailure in *. inv_run. split; [|by auto 10 with go].
      by apply (decided_protocol (W:=W) _ _ w response e).
  - unfold recordProviderFailure in *. destruct (errors_Is e ContextCanceled) eqn:Ec; inv_run.
    split; [|by auto 10 with go]. by apply (decided_provider_failed (W:=W) _ _ w e).
Qed.
(** ** Persistence *)

(** A computation that only uses the connection it is given. *)
Definition scoped {A} (m : M W A) : Prop := ∀ st, scope (st_world st) (st_world (m st).1).

Lemma scoped_ret {A} (a : A) : scoped (mret a).
Proof. by intros st. Qed.

Lemma scoped_call {A} (f : W → W * res A) : (∀ w, scope w (f w).1) → scoped (call f).
Proof. intros Hf st. apply Hf. Qed.

Lemma scoped_now : scoped (now : M W time).
Proof. intros st. apply now_scope. Qed.

Lemma scoped_bind {A B} (m : M W A) (f : A → M W B) :
  scoped m → (∀ a, scoped (f a)) → scoped (m ≫= f).
Proof.
  intros Hm Hf st. specialize (Hm st). unfold mbind, M_bind.
  destruct (m st) as [st1 [a|e]]; [|done]. simpl in Hm. etrans; [exact Hm|]. apply (Hf a st1).
Qed.

(** A transaction commits what its body did, or leaves the tables as they were. *)
Lemma transaction_run (m : M W unit) st : scoped m →
  match (transaction m st).2 with
  | Ok _ => ∃ w0, tables w0 = tables (st_world st) ∧ (m (MkSt w0 (st_events st))).2 = Ok tt ∧
      tables (st_world (transaction m st).1) =
        tables (st_world (m (MkSt w0 (st_events st))).1)
  | Err _ => tables (st_world (transaction m st).1) = tables (st_world st)
  end.
Proof.
  intros Hm. unfold transaction.
  match goal with |- context [Transaction _ ?f (_, _)] => set (g := f) end.
  pose proof (transaction_law (list event) g (st_world st) (st_events st)
    (λ w x, Hm (MkSt w x))) as Hlaw.
  destruct (Transaction (list event) g (st_world st, st_events st)) as [[w1 l1] r]. simpl in *.
  destruct Hlaw as [(_ & Ht & e & ->)|(w0 & Hw0 & _ & Hrun)]; [done|].
  unfold g in Hrun. simpl in Hrun.
  destruct (m (MkSt w0 (st_events st))) as [q [[]|e]] eqn:Em; simpl in *.
  - destruct Hrun as [[-> Ht]|[(e & ->) Ht]]; [|done]. exists w0. by rewrite Em.
  - by destruct Hrun as [-> Ht].
Qed.

Definition key_row (input : CreateInput) (requestHash : string) (record : Evaluation) (t : time)
  : IdempotencyRecord :=
  MkIdempotencyRecord (hashKey (ci_IdempotencyKey input)) requestHash (ev_ID record)
    (t + cfg_IdempotencyRetention (svc_config s)) t.

(** The tables after a row and its key are written. *)
Definition written (input : CreateInput) (requestHash : string) (record : Evaluation)
  (t t' : Tables) : Prop :=
  t_evaluations t !! ev_ID record = None ∧
  t_evaluations t' =
    <[ev_ID record := stored_evaluation column_time record]> (t_evaluations t) ∧
  t_feedback t' = t_feedback t ∧ t_snapshots t' = t_snapshots t ∧
  if decide (ci_IdempotencyKey input = "") then t_idempotency t' = t_idempotency t
  else t_idempotency t !! hashKey (ci_IdempotencyKey input) = None ∧
    ∃ now, t_idempotency t' = <[hashKey (ci_IdempotencyKey input) :=
      stored_idempotency column_time (key_row input requestHash record now)]> (t_idempotency t).

Lemma call_inserts {V} get set k (v : V) (f : W → W * res unit) st st' u :
  (∀ w, inserts get set k v (tables w) (tables (f w).1) (f w).2) →
  call f st = (st', Ok u) →
  get (tables (st_world st)) !! k = None ∧
  tables (st_world st') = set (insert k v) (tables (st_world st)).
Proof.
  intros Hf Hc. unfold call in Hc. injection Hc as <- Hr. simpl.
  specialize (Hf (st_world st)). by rewrite Hr in Hf.
Qed.

(** Nothing is retained unless inputs are stored and can be encrypted. *)
Lemma sealInput_off input st st' sealed :
  sealInput s input st = (st', Ok sealed) →
  cfg_StoreInputs (svc_config s) = false ∨ Secrets.Enabled (svc_sealer s) = false →
  sealed = None.
Proof.
  unfold sealInput. intros Hs [E|E]; rewrite E, ?orb_true_r in Hs; by apply M_ret_inv in Hs as [_ <-].
Qed.

(** What is retained opens to the request's state, facts and metadata. *)
Lemma sealInput_on `{AEADLaws} input st st' sealed :
  sealInput s input st = (st', Ok sealed) → Secrets.keyed_sealer (svc_sealer s) →
  cfg_StoreInputs (svc_config s) = true → Secrets.Enabled (svc_sealer s) = true →
  ∃ ciphertext fields, sealed = Some ciphertext ∧ input_fields input = Some fields ∧
    Secrets.Open (svc_sealer s) ciphertext = Ok (json_text (JObj fields)).
Proof.
  unfold sealInput. intros Hs Hk E1 E2. rewrite E1, E2 in Hs. simpl in Hs.
  destruct (input_fields input) as [fields|]; [|done].
  destruct sealed as [ciphertext|].
  - exists ciphertext, fields. split; [done|]. split; [done|]. by eapply Secrets.Open_Seal.
  - unfold Secrets.Seal, Secrets.Enabled in *.
    destruct (Secrets.cipher_of (svc_sealer s)); [|done]. by inv_run.
Qed.

(** What [persist] writes, it writes on the transaction. *)
Lemma scoped_rows record input requestHash :
  scoped (
    call (Evaluation_Create record) ;;
    if decide (ci_IdempotencyKey input = "") then mret tt
    else
      t ← now;
      call (IdempotencyRecord_Create
        (MkIdempotencyRecord (hashKey (ci_IdempotencyKey input)) requestHash (ev_ID record)
           (t + cfg_IdempotencyRetention (svc_config s)) t))).
Proof.
  apply scoped_bind; [apply scoped_call; intros; apply evaluation_create_scope|]. intros _.
  case_decide; [apply scoped_ret|]. apply scoped_bind; [apply scoped_now|]. intros t.
  apply scoped_call. intros. apply idempotency_create_scope.
Qed.

Lemma persist_Ok record input requestHash st st' record' :
  persist s record input requestHash st = (st', Ok record') →
  ∃ sealed, record' = with_input record sealed ∧
    (∃ st1, sealInput s input st = (st1, Ok sealed)) ∧
    written input requestHash record' (tables (st_world st)) (tables (st_world st')).
Proof.
  unfold persist. intros Hp. inv_run.
  match goal with H : sealInput _ _ st = (?st0, Ok ?x) |- _ =>
    exists x; rename H into Hseal; rename st0 into st1; rename x into sealed end.
  split; [done|]. split.
  { by eexists. }
  assert (tables (st_world st1) = tables (st_world st)) as <-.
  { pose proof (frame_sealInput s eq 0 input st) as [HR _]. by rewrite Hseal in HR. }
  clear Hseal. match goal with H : transaction ?m st1 = _ |- _ =>
    pose proof (transaction_run m st1 (scoped_rows _ _ _)) as Ht; rewrite H in Ht; clear H end.
  simpl in Ht. destruct Ht as (w0 & <- & Hin & ->).
  match type of Hin with (?m ?s0).2 = _ =>
    assert (m s0 = ((m s0).1, Ok tt)) as Hbody by (rewrite <- Hin; apply surjective_pairing);
    revert Hbody; generalize ((m s0).1); clear Hin; intros st2 Hbody end.
  inv_run.
  match goal with H : call (Evaluation_Create _) _ = _ |- _ =>
    eapply (call_inserts t_evaluations with_evaluations) in H;
      [|apply evaluation_create_law]; destruct H as [Hfresh Hev]; simpl in Hfresh, Hev end.
  unfold written. case_decide.
  - inv_run. by rewrite Hev.
  - inv_run.
    match goal with H : now ?x = (_, Ok ?t) |- _ =>
      pose proof (frame_now eq 0 x) as [Heq _]; rewrite H in Heq; simpl in Heq end.
    match goal with H : call (IdempotencyRecord_Create _) _ = _ |- _ =>
      eapply (call_inserts t_idempotency with_idempotency) in H;
        [|apply idempotency_create_law]; destruct H as [Hkey Hidem]; simpl in Hkey, Hidem end.
    rewrite <- Heq, Hev in Hkey, Hidem. rewrite Hidem. simpl in *.
    repeat (split; [done|]). eauto.
Qed.

(** A failed persist leaves the tables alone. *)
Lemma persist_Err record input requestHash st st' e :
  persist s record input requestHash st = (st', Err e) →
  tables (st_world st') = tables (st_world st).
Proof.
  unfold persist. rewrite M_bind_run. intros Hp.
  pose proof (frame_sealInput s eq 0 input st) as [HR _].
  destruct (sealInput s input st) as [st1 [sealed|e1]]; simpl in *; [|by injection Hp as <- _].
  rewrite HR, M_bind_run in *.
  match type of Hp with context [transaction ?m st1] =>
    pose proof (transaction_run m st1 (scoped_rows _ _ _)) as Ht;
    destruct (transaction m st1) as [st2 [u|e2]] end;
    simpl in *; [done|]. by injection Hp as <- _.
Qed.
End spec.

End EvalSpec.
