(* ===== verification/CreateSpec.v ===== *)
(** * Create as a step on the tables

    The contract of [Service.Create]: a replay of a stored evaluation, one decided
    and written evaluation, or a failure that leaves every evaluation, key and
    feedback row alone.  [Create_Ok] and [Create_Err] show the pipeline meets it. *)

From S2P Require Import Prelude GoFloat GoAny Decision Document Condition Canonical Evaluate.
From S2P Require Import Store Effects Loader Policies Secrets EvalConvert Evaluations EvalFrames EvalSpec.
From stdpp Require Import options.
#[local] Open Scope Z_scope.

Module CreateSpec.
Import EvalConvert Evaluations EvalFrames EvalSpec.

(** ** Counting provider calls *)
Section trace.
Context {W : Type}.

(** The trace grew by a piece with this many provider calls. *)
Definition made (n : nat) (st st' : St W) : Prop :=
  ∃ l, st_events st' = st_events st ++ l ∧ provider_calls l = n.

Lemma made_refl st : made 0 st st.
Proof. exists []. by rewrite app_nil_r. Qed.

Lemma made_trans n m st st1 st2 : made n st st1 → made m st1 st2 → made (n + m) st st2.
Proof.
  intros (l & E & <-) (k & E' & <-). exists (l ++ k).
  by rewrite E', E, app_assoc, provider_calls_app.
Qed.

Lemma made_0 n st st1 st2 : made 0 st st1 → made n st1 st2 → made n st st2.
Proof. apply (made_trans 0). Qed.

Lemma made_0_r n st st1 st2 : made n st st1 → made 0 st1 st2 → made n st st2.
Proof. intros H1 H2. rewrite <- (Nat.add_0_r n). by eapply made_trans. Qed.
End trace.

(** Any effect on the tables. *)
Definition anything (t t' : Tables) : Prop := True.
#[export] Instance anything_preorder : PreOrder anything.
Proof. by split. Qed.

Section create.
#[local] Set Default Proof Using "Type*".
Context {W : Type} `{Database W, !DatabaseLaws W} `{ProviderPort W} `{Runtime W}
  `{!OutsideLaws W} `{YamlDecoder}.

Lemma frame_made R {A} (m : M W A) st st' r :
  frame R 0 m → m st = (st', r) → made 0 st st'.
Proof. intros Hf Hm. destruct (Hf st) as (_ & l & El & Hl). rewrite Hm in El. exists l. simpl in *. split; [done|lia]. Qed.

Lemma frame_tables {A} k (m : M W A) st st' r :
  frame eq k m → m st = (st', r) → tables (st_world st') = tables (st_world st).
Proof. intros Hf Hm. destruct (Hf st) as [HR _]. by rewrite Hm in HR. Qed.

Lemma frame_transaction k (m : M W unit) :
  frame anything k m → frame anything k (transaction m).
Proof.
  intros Hm st. split; [done|]. unfold transaction.
  match goal with |- context [Transaction _ ?f _] => set (g := f) end.
  pose proof (transaction_trace (list event) g (st_world st) (st_events st)) as Hlaw.
  destruct (Transaction _ g _) as [[w1 l1] r]. simpl in *.
  destruct Hlaw as [->|(w0 & ->)].
  - exists []. rewrite app_nil_r. split; [done|apply no_events].
  - apply (Hm (MkSt w0 (st_events st))).
Qed.

Context (s : Service).

Lemma frame_persist k record input h : frame anything k (persist (W:=W) s record input h).
Proof.
  unfold persist. frame_then; [apply (frame_sealInput s anything)|]. intros sealed.
  frame_then; [|intros; frame_step]. apply frame_transaction.
  frame_then; [by apply (frame_call anything)|]. intros _. frame_step; [frame_step|].
  frame_then; [apply (frame_now anything)|]. intros t. by apply (frame_call anything).
Qed.

Lemma frame_observeCompleted R `{!PreOrder R} k record kind :
  frame R k (observeCompleted (W:=W) s record kind).
Proof.
  unfold observeCompleted. frame_step.
  eapply frame_weaken; [by apply (frame_emit R (EvObserveEvaluation _ _ _ _))|done|simpl; lia].
Qed.

(** The provider is asked exactly once per request that reaches it. *)
Lemma askProvider_made record compiled input st :
  made 1 st (askProvider (W:=W) s record compiled input st).1.
Proof.
  unfold made, askProvider.
  unfold mbind, M_bind, mret, M_ret, deferring, emit, observe, attempt, call, when, M_bind.
  destruct (svc_observer s); simpl;
    match goal with |- context [Provider_Evaluate ?q ?w] =>
      destruct (Provider_Evaluate q w) as [w1 [response|e]] end; simpl;
    repeat match goal with |- context [if ?b then Err _ else _] => destruct b; simpl end;
    rewrite <- ?app_assoc; eauto.
Qed.

Definition calls_of (compiled : Compiled) (input : CreateInput) : nat :=
  match Evaluate.EvaluatePreRules compiled (facts_of input) with Some _ => 0 | None => 1 end.

Lemma decide_made compiled kind input st st' record :
  decide_ s compiled kind input st = (st', Ok record) →
  made (W:=W) (calls_of compiled input) st st'.
Proof.
  unfold decide_, applyPreRules, calls_of. intros Hd. inv_run.
  eapply made_0; [eapply (frame_made eq); [|eassumption]; apply (frame_now eq)|].
  eapply made_0; [eapply (frame_made eq); [|eassumption]; apply (frame_newID eq)|].
  destruct (Evaluate.EvaluatePreRules compiled (facts_of input)) as [result|] eqn:Epre; inv_run.
  { eapply (frame_made eq); [|eassumption]. apply (frame_elapsed eq). }
  match goal with H : askProvider _ ?r ?c ?i ?st0 = _ |- _ =>
    pose proof (askProvider_made r c i st0) as Hm; rewrite H in Hm; clear H end.
  eapply made_0_r; [exact Hm|]. clear Hm.
  match goal with a : res (Evaluation * Provider.Response) |- _ =>
    destruct a as [[r response]|e] end; simpl in *.
  - destruct (Evaluate.ValidateAnswers compiled _) as [[]|e] eqn:Ev; inv_run.
    + eapply (frame_made eq); [|eassumption]. apply (frame_elapsed eq).
    + unfold recordProtocolFailure in *. inv_run.
      eapply (frame_made eq); [|eassumption]. apply (frame_elapsed eq).
  - unfold recordProviderFailure in *. destruct (errors_Is e ContextCanceled); inv_run.
    eapply (frame_made eq); [|eassumption]. apply (frame_elapsed eq).
Qed.

(** ** Replays *)

(** The key row of the request, if any. *)
Definition key_of (t : Tables) (input : CreateInput) : option IdempotencyRecord :=
  if decide (ci_IdempotencyKey input = "") then None
  else t_idempotency t !! hashKey (ci_IdempotencyKey input).

(** A stored evaluation answers the request. *)
Definition replays (t : Tables) (input : CreateInput) (requestHash : string)
  (evaluation : APIEvaluation) : Prop :=
  ∃ key row, key_of t input = Some key ∧ ir_CanonicalRequestHash key = requestHash ∧
    t_evaluations t !! ir_EvaluationID key = Some row ∧ evaluation = evaluationModelToAPI row.

Lemma findEvaluation_Ok id st st' row :
  findEvaluation id st = (st', Ok row) →
  tables (st_world st') = tables (st_world st) ∧
  t_evaluations (tables (st_world st)) !! id = Some row.
Proof.
  intros Hf. split.
  { eapply (frame_tables 0); [|exact Hf]. by apply (frame_findEvaluation eq). }
  unfold findEvaluation in Hf. apply M_bind_Ok in Hf as (st1 & r & Ha & Hr).
  unfold attempt, call in Ha. injection Ha as <- <-. simpl in Hr.
  pose proof (evaluation_first_law id (st_world st)) as Hl.
  destruct (Evaluation_First id (st_world st)).2 as [row'|e]; [|done].
  apply M_ret_inv in Hr as [_ <-]. done.
Qed.

Lemma replay_tables input h st st' r :
  replay input h st = (st', r) → tables (st_world st') = tables (st_world st) ∧ made 0 st st'.
Proof.
  intros Hr. split.
  - eapply (frame_tables 0); [|exact Hr]. apply (frame_replay eq).
  - eapply (frame_made eq); [|exact Hr]. apply (frame_replay eq).
Qed.

Lemma replay_Some input h st st' evaluation :
  replay input h st = (st', Ok (Some evaluation)) →
  replays (tables (st_world st)) input h evaluation.
Proof.
  unfold replay, replays, key_of. case_decide as Ek; [by intros []%M_ret_inv|].
  intros Hr. apply M_bind_Ok in Hr as (st1 & r & Ha & Hr).
  unfold attempt, call in Ha. injection Ha as <- <-.
  pose proof (idempotency_first_law (hashKey (ci_IdempotencyKey input)) (st_world st)) as Hl.
  pose proof (idempotency_first_frame (hashKey (ci_IdempotencyKey input)) (st_world st)) as Hf.
  destruct (IdempotencyRecord_First _ (st_world st)) as [w1 [key|e]]; simpl in *; [|by case_match].
  apply M_bind_Ok in Hr as (st2 & t & Hn & Hr).
  apply (frame_tables 0) in Hn; [|apply (frame_now eq); apply _]. simpl in Hn.
  case_decide; [by apply M_ret_inv in Hr as []|]. case_decide; [|done].
  apply M_bind_Ok in Hr as (st3 & e & Hg & Hr). unfold attempt in Hg. injection Hg as <- <-.
  destruct (Get (ir_EvaluationID key) st2) as [st4 [ev|err]] eqn:Eg; simpl in Hr; [|by case_match].
  apply M_ret_inv in Hr as [_ [= <-]].
  unfold Get in Eg. apply M_bind_Ok in Eg as (st5 & row & Hfind & Hret).
  apply M_ret_inv in Hret as [_ <-]. apply findEvaluation_Ok in Hfind as [_ Hrow].
  rewrite Hn, Hf in Hrow. eauto 10.
Qed.

(** ** The contract *)

(** The snapshot of a policy is there, written now or before. *)
Definition with_snapshot (compiled : Compiled) (t : time) (tb : Tables) : Tables :=
  match t_snapshots tb !! c_Hash compiled with
  | Some _ => tb
  | None => with_snapshots (insert (c_Hash compiled) (stored_snapshot column_time
      (MkPolicySnapshot (c_Hash compiled) (ref_Name (c_Ref compiled))
         (ref_Version (c_Ref compiled)) (c_Canonical compiled) t))) tb
  end.

(** What the request resolves to before anything is read or written. *)
Record accepted (input : CreateInput) (compiled : Compiled) (kind : PolicyKind)
  (requestHash : string) : Prop := {
  ac_policy : resolvePolicy s input = Ok (compiled, kind);
  ac_shape : validateRequestShape (svc_config s) input = Ok tt;
  ac_hash : canonicalRequestHash (c_Hash compiled) input = Ok requestHash
}.

(** A row decided for the request and written with its key. *)
Record decides (input : CreateInput) (compiled : Compiled) (kind : PolicyKind)
  (requestHash : string) (record : Evaluation) (t t' : Tables) : Prop := {
  dc_facts : Condition.ValidateFacts compiled (facts_of input) = Ok tt;
  dc_decided : decided (W:=W) compiled input (verdict_of record);
  dc_identity : row_identity compiled kind input record;
  dc_input : ∃ st st1 : St W, sealInput s input st = (st1, Ok (ev_EncryptedInput record));
  dc_written : ∃ loadedAt,
    written s input requestHash record (with_snapshot compiled loadedAt t) t'
}.

(** One call of [Create], with the provider calls it makes. *)
Inductive create_step (input : CreateInput) (t t' : Tables)
  : nat → res APIEvaluation → Prop :=
  | create_replayed compiled kind requestHash evaluation :
      accepted input compiled kind requestHash →
      replays t input requestHash evaluation → t' = t →
      create_step input t t' 0 (Ok evaluation)
  | create_decided compiled kind requestHash record :
      accepted input compiled kind requestHash →
      decides input compiled kind requestHash record t t' →
      create_step input t t' (calls_of compiled input) (Ok (evaluationModelToAPI record))
  | create_failed calls e :
      core_eq t t' → (calls <= 1)%nat → create_step input t t' calls (Err e).

Lemma ensureSnapshot_Ok compiled st st' u :
  ensureSnapshot compiled st = (st', Ok u) →
  made 0 st st' ∧
  ∃ t, tables (st_world st') = with_snapshot compiled t (tables (st_world st)).
Proof.
  intros He. split.
  { eapply (frame_made core_eq); [|exact He]. apply frame_ensureSnapshot. }
  unfold ensureSnapshot in He. apply M_bind_Ok in He as (st1 & t & Hn & Hc).
  apply (frame_tables 0) in Hn; [|apply (frame_now eq)]. exists t. rewrite <- Hn.
  unfold call in Hc. injection Hc as <- Hc. simpl.
  match type of Hc with (PolicySnapshot_CreateIgnore ?r ?w).2 = _ =>
    pose proof (snapshot_create_law r w) as Hl end.
  rewrite Hc in Hl. exact Hl.
Qed.

Lemma verdict_with_input r sealed : verdict_of (with_input r sealed) = verdict_of r.
Proof. by destruct r. Qed.

Lemma identity_with_input compiled kind input r sealed :
  row_identity compiled kind input r → row_identity compiled kind input (with_input r sealed).
Proof. by destruct r; intros []. Qed.

(** What follows a request that is not a replay. *)
Lemma Create_fresh input compiled kind requestHash st st' evaluation :
  (ensureSnapshot compiled ;;
   record ← decide_ s compiled kind input;
   record ← persist s record input requestHash;
   observeCompleted s record kind ;;
   mret (evaluationModelToAPI record)) st = (st', Ok evaluation) →
  made (calls_of compiled input) st st' ∧
  ∃ record, evaluation = evaluationModelToAPI record ∧
    decides input compiled kind requestHash record (tables (st_world st))
      (tables (st_world st')).
Proof.
  intros Hc. inv_run.
  match goal with H : ensureSnapshot _ _ = _ |- _ =>
    apply ensureSnapshot_Ok in H as [Hm1 (loadedAt & Es)] end.
  match goal with H : decide_ _ _ _ _ _ = _ |- _ => rename H into Hd end.
  match goal with H : persist _ _ _ _ _ = _ |- _ => rename H into Hp end.
  match goal with H : observeCompleted _ _ _ _ = _ |- _ => rename H into Ho end.
  pose proof (decide_made _ _ _ _ _ _ Hd) as Hm2.
  pose proof (frame_tables _ _ _ _ _ (frame_decide s eq compiled kind input) Hd) as Ed.
  apply decide_Ok in Hd as (Hf & Hdec & Hid & _).
  pose proof (frame_made _ _ _ _ _ (frame_persist 0 _ _ _) Hp) as Hm3.
  apply persist_Ok in Hp as (sealed & -> & Hseal & Hw).
  pose proof (frame_made _ _ _ _ _ (frame_observeCompleted eq 0 _ _) Ho) as Hm4.
  apply (frame_tables 0) in Ho; [|apply (frame_observeCompleted eq)]. split.
  - eapply made_0, made_0_r; [exact Hm1| |exact Hm4]. by eapply made_0_r.
  - rewrite Ho. rewrite Ed, Es in Hw. eexists. split; [done|]. split; try by eauto.
    + by rewrite verdict_with_input.
    + by apply identity_with_input.
    + destruct Hseal as [st3 Hseal]. do 2 eexists. rewrite Hseal. by destruct a0.
Qed.

(** A key row already there cannot be written. *)
Lemma decides_unused_key input compiled kind requestHash record t t' :
  decides input compiled kind requestHash record t t' → key_of t input = None.
Proof.
  intros [_ _ _ _ (loadedAt & Hw)]. unfold key_of. unfold written in Hw.
  case_decide; [done|]. destruct Hw as (_ & _ & _ & _ & Hn & _).
  unfold with_snapshot in Hn. by case_match.
Qed.

(** A run that returns an evaluation replays or decides one. *)
Lemma Create_Ok input st st' evaluation :
  Create s input st = (st', Ok evaluation) →
  ∃ n, made n st st' ∧
    create_step input (tables (st_world st)) (tables (st_world st')) n (Ok evaluation).
Proof.
  unfold Create. intros Hc. inv_run. destruct a as [compiled kind]. simpl in *.
  match goal with H : validateRequestShape _ _ = Ok ?u |- _ => destruct u end.
  match goal with H : canonicalRequestHash _ _ = Ok ?h |- _ => rename h into requestHash end.
  assert (accepted input compiled kind requestHash) as Hacc by done.
  match goal with H : replay _ _ ?x = (?y, Ok ?r) |- _ =>
    rename H into Hr; rename r into replayed; rename y into st1; rename x into st;
    destruct (replay_tables input requestHash st st1 (Ok replayed) Hr) as [Et Hm] end.
  destruct replayed as [ev|].
  - inv_run. exists 0%nat. split; [done|].
    eapply create_replayed; [done|by eapply replay_Some|done].
  - rewrite <- Et. match goal with H : _ st1 = (st', Ok evaluation) |- _ =>
      apply (Create_fresh _ _ _ requestHash) in H as (Hm1 & record & -> & Hd) end.
    eexists. split; [by eapply made_0|]. by eapply create_decided.
Qed.
(** ** Failures *)

(** A frame that survives the last step of a failing run. *)
Lemma frame_core {A} k (m : M W A) st st' r :
  frame core_eq k m → m st = (st', r) →
  core_eq (tables (st_world st)) (tables (st_world st')).
Proof. intros Hf Hm. destruct (Hf st) as [HR _]. by rewrite Hm in HR. Qed.

Lemma observeCompleted_Ok record kind st :
  ∃ st', observeCompleted (W:=W) s record kind st = (st', Ok tt).
Proof. unfold observeCompleted, when, emit. destruct (svc_observer s); simpl; eauto. Qed.

Lemma Create_core input st st' e :
  Create s input st = (st', Err e) →
  core_eq (tables (st_world st)) (tables (st_world st')).
Proof.
  unfold Create. intros [[-> _]|([compiled kind] & _ & Hc)]%M_lift_Err; [done|].
  apply M_lift_Err in Hc as [[-> _]|(u & _ & Hc)]; [done|].
  apply M_lift_Err in Hc as [[-> _]|(requestHash & _ & Hc)]; [done|]. simpl in Hc.
  apply M_bind_Err in Hc as [Hc|(st1 & replayed & Hr & Hc)].
  { eapply frame_core; [|exact Hc]. apply (frame_replay core_eq 0). }
  apply (frame_core 0) in Hr; [|apply (frame_replay core_eq 0)]. rewrite Hr. clear Hr.
  destruct replayed as [ev|]; [done|].
  apply M_bind_Err in Hc as [Hc|(st2 & u1 & Hr & Hc)].
  { eapply (frame_core 0); [|exact Hc]. apply frame_ensureSnapshot. }
  apply (frame_core 0) in Hr; [|apply frame_ensureSnapshot]. rewrite Hr. clear Hr.
  apply M_bind_Err in Hc as [Hc|(st3 & record & Hr & Hc)].
  { eapply (frame_core 1); [|exact Hc]. apply (frame_decide s core_eq). }
  apply (frame_core 1) in Hr; [|apply (frame_decide s core_eq)]. rewrite Hr. clear Hr.
  apply M_bind_Err in Hc as [Hc|(st4 & record' & _ & Hc)].
  { apply persist_Err in Hc. by rewrite Hc. }
  destruct (observeCompleted_Ok record' kind st4) as (st5 & E).
  rewrite M_bind_run, E in Hc. done.
Qed.

(** Only the decision calls the provider. *)
Lemma frame_Create_calls k input :
  (∀ compiled kind, resolvePolicy s input = Ok (compiled, kind) →
     frame anything k (decide_ (W:=W) s compiled kind input)) →
  frame anything k (Create (W:=W) s input).
Proof.
  intros Hd. unfold Create. apply (frame_lift_bind anything). intros [compiled kind] Hck.
  do 2 (frame_then; [frame_step|]; intros ?).
  frame_then; [apply (frame_replay anything)|]. intros [ev|]; [frame_step|].
  frame_then; [by eapply (frame_weaken core_eq); [apply frame_ensureSnapshot|..]|]. intros _.
  rewrite <- (Nat.add_0_r k). apply (frame_bind anything k 0); [by apply Hd|]. intros record.
  frame_then; [apply frame_persist|]. intros record'.
  frame_then; [apply (frame_observeCompleted anything)|]. intros _. frame_step.
Qed.

Lemma frame_Create input : frame anything 1 (Create (W:=W) s input).
Proof. apply frame_Create_calls. intros. apply (frame_decide s anything). Qed.

(** A pre-rule that matches decides without the provider. *)
Lemma frame_decide_pre compiled kind input result :
  Evaluate.EvaluatePreRules compiled (facts_of input) = Some result →
  frame anything 0 (decide_ (W:=W) s compiled kind input).
Proof.
  intros Hp. unfold decide_, applyPreRules. rewrite Hp.
  frame_then; [apply (frame_now anything)|]. intros startedAt.
  frame_then; [apply (frame_newID anything)|]. intros id.
  frame_then; [frame_step|]. intros _.
  apply (frame_bind_ret anything). frame_then; [apply (frame_elapsed anything)|].
  intros t. frame_step.
Qed.

(** Facts the policy refuses stop the decision before the provider. *)
Lemma frame_decide_facts compiled kind input e :
  Condition.ValidateFacts compiled (facts_of input) = Err e →
  frame anything 0 (decide_ (W:=W) s compiled kind input).
Proof.
  intros Hf. unfold decide_.
  frame_then; [apply (frame_now anything)|]. intros startedAt.
  frame_then; [apply (frame_newID anything)|]. intros id.
  apply (frame_lift_bind anything). congruence.
Qed.

Lemma Create_Err input st st' e :
  Create s input st = (st', Err e) →
  ∃ n, made n st st' ∧
    create_step input (tables (st_world st)) (tables (st_world st')) n (Err e).
Proof.
  intros Hc. destruct (frame_Create input st) as (_ & l & El & Hl).
  rewrite Hc in El. exists (provider_calls l). split; [by exists l|].
  apply create_failed; [by eapply Create_core|done].
Qed.

(** ** Used keys *)

(** Once a key row exists, only a replay of its evaluation succeeds. *)
Lemma used_key_replays input st st' evaluation key :
  Create s input st = (st', Ok evaluation) →
  key_of (tables (st_world st)) input = Some key →
  ∃ compiled kind requestHash, accepted input compiled kind requestHash ∧
    replays (tables (st_world st)) input requestHash evaluation ∧
    tables (st_world st') = tables (st_world st) ∧ made 0 st st'.
Proof.
  intros Hc Hk. apply Create_Ok in Hc as (n & Hm & Hs).
  inversion Hs as [compiled kind h ev Hacc Hrep Et|compiled kind h r Hacc Hd|]; subst.
  { eauto 10. }
  apply decides_unused_key in Hd. congruence.
Qed.
(** A key that has expired when it is looked up is not replayed. *)
Lemma replay_expired input h st key :
  key_of (tables (st_world st)) input = Some key →
  ir_ExpiresAt key < (world_now
    (IdempotencyRecord_First (hashKey (ci_IdempotencyKey input)) (st_world st)).1).2 →
  ∀ st' evaluation, replay input h st ≠ (st', Ok (Some evaluation)).
Proof.
  unfold replay, key_of. case_decide as Ek; [done|]. intros Hk Hexp st' evaluation Hr.
  apply M_bind_Ok in Hr as (st1 & r & Ha & Hr).
  unfold attempt, call in Ha. injection Ha as <- <-.
  pose proof (idempotency_first_law (hashKey (ci_IdempotencyKey input)) (st_world st)) as Hl.
  destruct (IdempotencyRecord_First _ (st_world st)) as [w1 [key'|e]]; simpl in *;
    [|by case_match].
  assert (key' = key) as -> by congruence.
  apply M_bind_Ok in Hr as (st2 & t & Hn & Hr). unfold now, ask in Hn. simpl in Hn.
  injection Hn as _ <-. by rewrite decide_True in Hr.
Qed.

(** So it can never be used again: its row makes the new one a duplicate. *)
Lemma expired_key_fails input st key :
  key_of (tables (st_world st)) input = Some key →
  ir_ExpiresAt key < (world_now
    (IdempotencyRecord_First (hashKey (ci_IdempotencyKey input)) (st_world st)).1).2 →
  ∀ st' evaluation, Create s input st ≠ (st', Ok evaluation).
Proof.
  intros Hk Hexp st' evaluation Hc. pose proof (replay_expired input) as Hx.
  unfold Create in Hc. inv_run. destruct a as [compiled kind]. simpl in *.
  match goal with H : validateRequestShape _ _ = Ok ?u |- _ => destruct u end.
  match goal with H : canonicalRequestHash _ _ = Ok ?h |- _ => rename h into requestHash end.
  assert (accepted input compiled kind requestHash) as Hacc by done.
  match goal with H : replay _ _ ?x = (?y, Ok ?r) |- _ =>
    rename H into Hr; rename r into replayed; rename y into st1; rename x into st;
    destruct (replay_tables input requestHash st st1 (Ok replayed) Hr) as [Et Hm] end.
  destruct replayed as [ev|]; [by eapply Hx|].
  match goal with H : _ st1 = (st', Ok evaluation) |- _ =>
    apply (Create_fresh _ _ _ requestHash) in H as (_ & record & _ & Hd) end.
  rewrite Et in Hd. apply decides_unused_key in Hd. congruence.
Qed.
End create.

End CreateSpec.
