(* ===== verification/Retention.v ===== *)
(** * Retention

    [internal/pkg/services/vibecheck-server/retention.go]: one cleanup pass over the
    expired idempotency keys and the aged-out evaluations with their feedback, and the
    loop that runs a pass per tick.  Query parameters take the precision of the column
    they are compared with. *)

From S2P Require Import Prelude Store Effects Evaluations.
From stdpp Require Import options.
#[local] Open Scope Z_scope.

Module Retention.

Definition retentionBatchSize : Z := 500.
Definition retentionOpEvaluations : string := "evaluations".
Definition retentionOpFeedback : string := "evaluation_feedback".
Definition retentionOpIdempotency : string := "idempotency_records".

Abbreviation retentionResult := (gmap string Z).

Record retentionSettings : Set := MkRetentionSettings {
  every : duration;
  evaluations : duration      (** zero keeps evaluations forever *)
}.

Definition evaluationIDs (records : list Evaluation) : list uuid := ev_ID <$> records.

Section retention.
Context {W : Type} `{Database W} `{Runtime W}.

Definition expireIdempotency (now : time) : M W Z :=
  call (IdempotencyRecord_DeleteLimit
    [IrExpiresAtLt now] retentionBatchSize).

(** The counts and the error; the counts are reported with an error too. *)
Definition expireEvaluations (cutoff : time) : M W (Z * Z * option goerr) :=
  expired ← attempt (call (Evaluation_Find (MkQuery
    [EvCreatedAtLt cutoff] false retentionBatchSize None)));
  match expired with
  | Err e => mret (0, 0, Some e)
  | Ok [] => mret (0, 0, None)
  | Ok expired =>
      let ids := evaluationIDs expired in
      feedbackResult ← attempt (call (EvaluationFeedback_Delete [FbEvaluationIDIn ids]));
      match feedbackResult with
      | Err e => mret (0, 0, Some e)
      | Ok feedbackRows =>
          evaluationResult ← attempt (call (Evaluation_Delete [EvIDIn ids]));
          match evaluationResult with
          | Err e => mret (0, feedbackRows, Some e)
          | Ok evaluationRows => mret (evaluationRows, feedbackRows, None)
          end
      end
  end.

Definition cleanup (settings : retentionSettings) : M W (retentionResult * option goerr) :=
  now ← Evaluations.now;
  idempotencyRemoved ← attempt (expireIdempotency now);
  match idempotencyRemoved with
  | Err e => mret ({[retentionOpIdempotency := 0]}, Some e)
  | Ok idempotencyRemoved =>
      let deleted : retentionResult := {[retentionOpIdempotency := idempotencyRemoved]} in
      if decide (evaluations settings <= 0) then mret (deleted, None)
      else
        let cutoff := now - evaluations settings in
        r ← expireEvaluations cutoff;
        let '(evaluationsRemoved, feedbackRemoved, err) := r in
        mret (<[retentionOpFeedback := feedbackRemoved]>
                (<[retentionOpEvaluations := evaluationsRemoved]> deleted), err)
  end.

(** One tick of [runRetention]; a failed pass does not end the loop. *)
Definition retentionPass (settings : retentionSettings) : M W unit :=
  r ← cleanup settings;
  emit (EvObserveRetentionRun (match r.2 with Some _ => true | None => false end) r.1).

(** [runRetention] until it is cancelled, after [ticks] ticks. *)
Fixpoint runRetention (settings : retentionSettings) (ticks : nat) : M W unit :=
  match ticks with
  | O => mret tt
  | S ticks => retentionPass settings ;; runRetention settings ticks
  end.

End retention.
End Retention.
