(* ===== verification/RetentionSpec.v ===== *)
(** * What a cleanup pass removes *)

From S2P Require Import Prelude Document Store Effects EvalConvert Evaluations EvalFrames EvalSpec CreateSpec Retention.
From stdpp Require Import options.
#[local] Open Scope Z_scope.

Module RetentionSpec.
Import EvalFrames EvalSpec CreateSpec Retention.

(** Rows only leave, and those that leave satisfy [P]. *)
Definition pruned {V} (P : V → Prop) (m m' : gmap string V) : Prop :=
  m' ⊆ m ∧ ∀ k v, m !! k = Some v → m' !! k = None → P v.

Lemma pruned_refl {V} (P : V → Prop) m : pruned P m m.
Proof. split; [done|]. intros. congruence. Qed.

Lemma pruned_impl {V} (P Q : V → Prop) m m' :
  pruned P m m' → (∀ v, P v → Q v) → pruned Q m m'.
Proof. intros [Hs Hp] HPQ. split; [done|]. eauto. Qed.

(** Rows that satisfy nothing stay. *)
Lemma pruned_none {V} (P : V → Prop) m m' :
  pruned P m m' → (∀ v, ¬ P v) → m' = m.
Proof.
  intros [Hs Hp] HP. apply map_eq. intros k. destruct (m !! k) as [v|] eqn:E.
  - destruct (m' !! k) as [v'|] eqn:E'; [|by destruct (HP v); eapply Hp].
    pose proof (lookup_weaken _ _ _ _ E' Hs). congruence.
  - by eapply lookup_weaken_None.
Qed.

(** Evaluations are stored under their identifier. *)
Definition keyed (t : Tables) : Prop :=
  ∀ k r, t_evaluations t !! k = Some r → ev_ID r = k.

Definition aged (cutoff : time) (r : Evaluation) : Prop := ev_CreatedAt r < cutoff.

(** The tables after a pass at [now]; [cutoff] is empty when evaluations are kept. *)
Record cleaned (now : time) (cutoff : option time) (t t' : Tables) : Prop := {
  cl_snapshots : t_snapshots t' = t_snapshots t;
  cl_idempotency : pruned (λ r, ir_ExpiresAt r < now) (t_idempotency t) (t_idempotency t');
  cl_evaluations : pruned (λ r, ∃ c, cutoff = Some c ∧ aged c r) (t_evaluations t)
    (t_evaluations t');
  cl_feedback : pruned (λ f, ∃ c r, cutoff = Some c ∧ aged c r ∧
    t_evaluations t !! fb_EvaluationID f = Some r) (t_feedback t) (t_feedback t');
  cl_attached : ∀ k f, t_feedback t' !! k = Some f →
    is_Some (t_evaluations t !! fb_EvaluationID f) →
    is_Some (t_evaluations t' !! fb_EvaluationID f)
}.

Section spec.
#[local] Set Default Proof Using "Type*".
Context {W : Type} `{Database W, !DatabaseLaws W} `{ProviderPort W} `{Runtime W}
  `{!OutsideLaws W}.

(** An attempted call, as one step. *)
Lemma attempt_call_run {A} (f : W → W * res A) st st' (r : res (res A)) :
  attempt (call f) st = (st', r) → ∃ a, r = Ok a ∧ f (st_world st) = (st_world st', a).
Proof. unfold attempt, call. simpl. intros [= <- <-]. eexists. split; [done|]. apply surjective_pairing. Qed.

Lemma deletes_pruned {V} (get : Tables → gmap string V) set P limit t t' r :
  deletes get set P limit t t' r →
  (∀ f t, get (set f t) = f (get t)) →
  pruned (λ v, P v = true) (get t) (get t').
Proof.
  intros Hd Hset. destruct r as [n|e]; simpl in Hd.
  - destruct Hd as (m & -> & Hs & Hr & _). by rewrite Hset.
  - subst. apply pruned_refl.
Qed.

(** A clause of one condition. *)
Lemma one_condition (P : Prop) `{Decision P} : bool_decide P && true = true ↔ P.
Proof. rewrite andb_true_r. apply bool_decide_eq_true. Qed.

Lemma one_condition_fails (P : Prop) `{Decision P} : bool_decide P && true = false ↔ ¬ P.
Proof. rewrite andb_true_r. apply bool_decide_eq_false. Qed.

Lemma expireIdempotency_run now st st' r :
  attempt (expireIdempotency (W:=W) now) st = (st', r) →
  ∃ a m, r = Ok a ∧
    tables (st_world st') = with_idempotency (λ _, m) (tables (st_world st)) ∧
    pruned (λ r, ir_ExpiresAt r < column_time now) (t_idempotency (tables (st_world st))) m.
Proof.
  unfold expireIdempotency. intros (a & -> & Hrun)%attempt_call_run.
  match type of Hrun with IdempotencyRecord_DeleteLimit ?cs ?n ?w = _ =>
    pose proof (idempotency_delete_law cs n w ltac:(done) eq_refl) as Hl end.
  rewrite Hrun in Hl. exists a. destruct a as [n|e]; simpl in Hl.
  - destruct Hl as (m & Ht & Hs & Hr & _). exists m. split; [done|]. split; [done|].
    split; [done|]. intros k v Hv Hn. specialize (Hr k v Hv Hn).
    by apply one_condition in Hr.
  - exists (t_idempotency (tables (st_world st))). split; [done|]. rewrite Hl.
    split; [|apply pruned_refl].
    by destruct (tables (st_world st)).
Qed.

(** Stored evaluations have distinct identifiers. *)
Lemma matching_ids ct q t : keyed t → NoDup (ev_ID <$> matching ct q t).
Proof.
  intros Hk. unfold matching.
  assert (NoDup (ev_ID <$> (map_to_list (t_evaluations t)).*2)) as Hn.
  { replace (ev_ID <$> _) with (map_to_list (t_evaluations t)).*1.
    - apply NoDup_fst_map_to_list.
    - rewrite <- list_fmap_compose. apply list_fmap_ext. intros i [k r] Hi. simpl.
      apply list_elem_of_lookup_2, elem_of_map_to_list in Hi. by rewrite (Hk k r). }
  eapply sublist_NoDup; [exact Hn|]. apply fmap_sublist, sublist_filter.
Qed.

(** The evaluations a pass has found: aged rows of the table. *)
Definition found (t : Tables) (cutoff : time) (expired : list Evaluation) : Prop :=
  NoDup (evaluationIDs expired) ∧
  (∀ r, r ∈ expired → aged cutoff r ∧ t_evaluations t !! ev_ID r = Some r) ∧
  (len expired < retentionBatchSize → ∀ k r, t_evaluations t !! k = Some r →
     aged cutoff r → k ∈ evaluationIDs expired).

Lemma elem_of_matching ct q t r :
  r ∈ matching ct q t ↔
  forallb (λ c, evaluation_holds ct c r) (qry_where q) = true ∧ ∃ k, t_evaluations t !! k = Some r.
Proof.
  unfold matching. rewrite list_elem_of_filter, list_elem_of_fmap. split.
  - intros [Hq ([k v] & -> & Hv)]. split; [done|]. exists k. by apply elem_of_map_to_list.
  - intros [Hq (k & Hk)]. split; [done|]. exists (k, r). split; [done|].
    by apply elem_of_map_to_list.
Qed.

Lemma page_short {A} limit (l : list A) :
  0 <= limit → len (page limit None l) < limit → page limit None l = l.
Proof.
  unfold page, len. simpl. rewrite drop_0, length_take. intros Hl Hlt.
  apply take_ge. lia.
Qed.

Lemma find_found ct t cutoff all expired :
  keyed t →
  all ≡ₚ matching ct (MkQuery [EvCreatedAtLt cutoff] false retentionBatchSize None) t →
  expired = page retentionBatchSize None all → found t (ct cutoff) expired.
Proof.
  intros Hk Hall ->. split; [|split].
  - eapply sublist_NoDup; [|apply fmap_sublist, sublist_take].
    simpl. rewrite drop_0, Hall. by apply matching_ids.
  - intros r Hr. assert (r ∈ all) as Hin.
    { unfold page in Hr. simpl in Hr. rewrite drop_0 in Hr. eapply elem_of_take in Hr as (i & Hi & _).
      by eapply list_elem_of_lookup_2. }
    rewrite Hall, elem_of_matching in Hin. destruct Hin as [Ha%one_condition (k & Hr')].
    split; [done|]. by rewrite (Hk k r).
  - intros Hshort k r Hr Ha. rewrite page_short by (done || lia).
    unfold evaluationIDs. rewrite <- (Hk k r Hr). apply list_elem_of_fmap_2.
    rewrite Hall, elem_of_matching. split; [|eauto].
    by apply one_condition.
Qed.
(** The tables after the deletions for [ids]. *)
Record erased (ids : list uuid) (t t' : Tables) : Prop := {
  er_snapshots : t_snapshots t' = t_snapshots t;
  er_idempotency : t_idempotency t' = t_idempotency t;
  er_evaluations : pruned (λ r, ev_ID r ∈ ids) (t_evaluations t) (t_evaluations t');
  er_feedback : pruned (λ f, fb_EvaluationID f ∈ ids) (t_feedback t) (t_feedback t');
  er_order : t_evaluations t' = t_evaluations t ∨
    ∀ k f, t_feedback t' !! k = Some f → fb_EvaluationID f ∉ ids
}.

Lemma erased_refl t : erased [] t t.
Proof. split; try done; [apply pruned_refl|apply pruned_refl|by left]. Qed.

Lemma pruned_member {V} (g : V → uuid) (ids : list uuid) (m m' : gmap string V) :
  pruned (λ v, bool_decide (g v ∈ ids) && true = true) m m' → pruned (λ v, g v ∈ ids) m m'.
Proof. intros Hp. eapply pruned_impl; [exact Hp|]. intros v. apply one_condition. Qed.

(** The feedback of some evaluations is deleted. *)
Lemma feedback_delete_run (ids : list uuid) w w' r :
  EvaluationFeedback_Delete [FbEvaluationIDIn ids] w = (w', r) →
  ∃ m, tables w' = with_feedback (λ _, m) (tables w) ∧
    pruned (λ f, fb_EvaluationID f ∈ ids) (t_feedback (tables w)) m ∧
    (∀ n, r = Ok n → ∀ k f, m !! k = Some f → fb_EvaluationID f ∉ ids).
Proof.
  intros Hrun. match type of Hrun with EvaluationFeedback_Delete ?cs ?w0 = _ =>
    pose proof (feedback_delete_law cs w0 ltac:(done)) as Hl end.
  rewrite Hrun in Hl. destruct r as [n|e]; simpl in Hl.
  - destruct Hl as (m & Ht & Hs & Hr & _ & Hall). exists m. split; [done|]. split.
    + apply pruned_member. by split.
    + intros _ _ k f Hf. destruct Hall as [(? & ? & _)|Hall]; [done|].
      by apply Hall in Hf as ?%one_condition_fails.
  - exists (t_feedback (tables w)). rewrite Hl. split; [by destruct (tables w)|].
    split; [apply pruned_refl|done].
Qed.

(** Some evaluations are deleted. *)
Lemma evaluation_delete_run (ids : list uuid) w w' r :
  Evaluation_Delete [EvIDIn ids] w = (w', r) →
  ∃ m, tables w' = with_evaluations (λ _, m) (tables w) ∧
    pruned (λ e, ev_ID e ∈ ids) (t_evaluations (tables w)) m ∧
    (∀ n, r = Ok n → (∀ k e, m !! k = Some e → ev_ID e ∉ ids) ∧
       n = Z.of_nat (size (t_evaluations (tables w))) - Z.of_nat (size m)).
Proof.
  intros Hrun. match type of Hrun with Evaluation_Delete ?cs ?w0 = _ =>
    pose proof (evaluation_delete_law cs w0 ltac:(done)) as Hl end.
  rewrite Hrun in Hl. destruct r as [n|e]; simpl in Hl.
  - destruct Hl as (m & Ht & Hs & Hr & Hn & Hall). exists m. split; [done|]. split.
    + apply pruned_member. by split.
    + intros ? [= <-]. split; [|done]. intros k f Hf.
      destruct Hall as [(? & ? & _)|Hall]; [done|]. by apply Hall in Hf as ?%one_condition_fails.
  - exists (t_evaluations (tables w)). rewrite Hl. split; [by destruct (tables w)|].
    split; [apply pruned_refl|done].
Qed.

Lemma expireEvaluations_run cutoff st st' ne nf err :
  keyed (tables (st_world st)) →
  expireEvaluations (W:=W) cutoff st = (st', Ok (ne, nf, err)) →
  ∃ expired,
    (∀ r, r ∈ expired → aged (column_time cutoff) r ∧
       t_evaluations (tables (st_world st)) !! ev_ID r = Some r) ∧
    erased (evaluationIDs expired) (tables (st_world st)) (tables (st_world st')) ∧
    (err = None → found (tables (st_world st)) (column_time cutoff) expired ∧
       ∀ k r, t_evaluations (tables (st_world st')) !! k = Some r →
         ev_ID r ∉ evaluationIDs expired).
Proof.
  intros Hkey. unfold expireEvaluations. intros He.
  apply M_bind_Ok in He as (st1 & r & Hfind & He).
  apply attempt_call_run in Hfind as (a & [= ->] & Hfind).
  match type of Hfind with Evaluation_Find ?q ?w = _ =>
    pose proof (evaluation_find_frame q w) as Hf; pose proof (evaluation_find_law q w) as Hl end.
  rewrite Hfind in Hf, Hl. simpl in Hf, Hl.
  assert (∀ (p : Z * Z * option goerr) (b : Z * Z * option goerr), p.2 ≠ None →
    (mret p : M W _) st1 = (st', Ok b) → st' = st1 ∧ b.2 ≠ None) as Hnone.
  { intros p b Hp [-> ->]%M_ret_inv. done. }
  destruct a as [expired|e].
  2: { apply Hnone in He as [-> Herr]; [|done]. rewrite Hf. exists []. split; [set_solver|].
       split; [apply erased_refl|done]. }
  destruct (Hl expired eq_refl eq_refl) as (all & Hall & Hpage & _). simpl in Hpage.
  pose proof (find_found _ _ cutoff all expired Hkey Hall Hpage) as Hfound.
  exists expired. split; [apply (proj2 Hfound)|]. clear Hl Hpage Hall Hfind.
  destruct expired as [|x l].
  { apply M_ret_inv in He as [<- [= <- <- <-]]. rewrite Hf. split; [apply erased_refl|].
    intros _. split; [done|]. intros; set_solver. }
  set (ids := evaluationIDs (x :: l)) in *.
  apply M_bind_Ok in He as (st2 & r & Hfb & He).
  apply attempt_call_run in Hfb as (a & [= ->] & Hfb).
  apply feedback_delete_run in Hfb as (m & Ht2 & Hp2 & Hr2). rewrite Hf in Ht2, Hp2.
  destruct a as [n2|e].
  2: { apply M_ret_inv in He as [<- [= <- <- <-]]. rewrite Ht2. split; [|done].
       split; simpl; auto using pruned_refl. }
  apply M_bind_Ok in He as (st3 & r & Hev & He).
  apply attempt_call_run in Hev as (a & [= ->] & Hev).
  apply evaluation_delete_run in Hev as (m3 & Ht3 & Hp3 & Hr3).
  rewrite Ht2 in Ht3, Hp3. simpl in Hp3.
  assert (erased ids (tables (st_world st)) (tables (st_world st3))) as Her.
  { rewrite Ht3. split; simpl; try done. right. by apply (Hr2 n2). }
  destruct a as [n3|e]; apply M_ret_inv in He as [<- [= <- <- <-]]; split; try done.
  intros _. split; [done|]. rewrite Ht3. by apply (Hr3 n3).
Qed.
(** Deleting distinct stored identifiers shrinks the table by their number. *)
Lemma size_without (m m' : gmap uuid Evaluation) (ids : list uuid) :
  m' ⊆ m → NoDup ids → (∀ k, k ∈ ids → is_Some (m !! k) ∧ m' !! k = None) →
  Z.of_nat (size m') + len ids <= Z.of_nat (size m).
Proof.
  intros Hs Hn Hids. unfold len. rewrite <- !size_dom, <- (size_list_to_set (C:=gset uuid)) by done.
  rewrite <- Nat2Z.inj_add, <- size_union.
  - apply Nat2Z.inj_le, subseteq_size. intros k [Hk|Hk]%elem_of_union.
    + by apply (subseteq_dom _ _ Hs).
    + apply elem_of_dom, Hids. by apply elem_of_list_to_set in Hk.
  - intros k Hk [_ Hno]%elem_of_list_to_set%Hids. by apply elem_of_dom in Hk as [v ?]; simplify_eq.
Qed.

(** The cutoff of a pass at [now]. *)
Definition cutoff_at (settings : retentionSettings) (now : time) : option time :=
  if decide (evaluations settings <= 0) then None
  else Some (column_time (now - evaluations settings)).

(** A pass that worked got rid of the aged evaluations, up to a batch of them. *)
Definition caught_up (cutoff : option time) (t t' : Tables) : Prop :=
  ∀ c, cutoff = Some c →
    (∀ k r, t_evaluations t' !! k = Some r → ¬ aged c r) ∨
    Z.of_nat (size (t_evaluations t')) + retentionBatchSize <=
      Z.of_nat (size (t_evaluations t)).

Lemma erased_caught_up c expired t t' :
  keyed t → found t c expired → erased (evaluationIDs expired) t t' →
  (∀ k r, t_evaluations t' !! k = Some r → ev_ID r ∉ evaluationIDs expired) →
  caught_up (Some c) t t'.
Proof.
  intros Hk (Hn & Hrows & Hall) [_ _ [Hs _] _ _] Hno c' [= <-].
  destruct (decide (len expired < retentionBatchSize)) as [Hlt|Hge].
  - left. intros k r Hr Ha. pose proof (lookup_weaken _ _ _ _ Hr Hs) as Hr0.
    apply (Hno k r Hr). rewrite (Hk k r) by done. by eapply Hall.
  - right. pose proof (size_without (t_evaluations t) (t_evaluations t') (evaluationIDs expired)
      Hs Hn) as Hsz. unfold len, evaluationIDs in *. rewrite length_fmap in Hsz.
    enough (∀ k, k ∈ ev_ID <$> expired → is_Some (t_evaluations t !! k) ∧
      t_evaluations t' !! k = None) as Hids by (specialize (Hsz Hids); lia).
    intros k (r & -> & Hr)%list_elem_of_fmap. destruct (Hrows r Hr) as [_ Hr0].
    split; [by eexists|]. destruct (t_evaluations t' !! ev_ID r) as [r'|] eqn:E; [|done].
    destruct (Hno _ _ E). pose proof (lookup_weaken _ _ _ _ E Hs) as E'.
    assert (r' = r) as -> by congruence. by apply list_elem_of_fmap_2.
Qed.

Lemma erased_cleaned now c expired t t' :
  keyed t →
  (∀ r, r ∈ expired → aged c r ∧ t_evaluations t !! ev_ID r = Some r) →
  erased (evaluationIDs expired) t t' → cleaned now (Some c) t t'.
Proof.
  intros Hk Hrows [Hs Hi He Hf Ho].
  assert (∀ id, id ∈ evaluationIDs expired →
    ∃ r, aged c r ∧ t_evaluations t !! id = Some r) as Hin.
  { intros id (r & -> & Hr)%list_elem_of_fmap. exists r. by apply Hrows. }
  split; [done|rewrite Hi; apply pruned_refl| | |].
  - destruct He as [He1 He2]. split; [done|]. intros k r Hr Hn.
    pose proof (He2 k r Hr Hn) as Hid. apply Hin in Hid as (r' & Ha & Hr').
    rewrite (Hk k r Hr), Hr in Hr'. simplify_eq. eauto.
  - eapply pruned_impl; [exact Hf|]. intros f (r & Ha & Hr)%Hin. eauto.
  - intros k f Hfb [r Hr]. destruct Ho as [->|Ho]; [by eexists|].
    destruct (t_evaluations t' !! fb_EvaluationID f) eqn:E; [by eexists|].
    destruct (Ho k f Hfb). pose proof (proj2 He _ _ Hr E) as Hid.
    simpl in Hid. by rewrite (Hk _ _ Hr) in Hid.
Qed.

(** The first half of a pass only touches the keys. *)
Lemma cleaned_after_idempotency now cutoff t m t' :
  pruned (λ r, ir_ExpiresAt r < now) (t_idempotency t) m →
  cleaned now cutoff (with_idempotency (λ _, m) t) t' →
  t_idempotency t' = m → cleaned now cutoff t t'.
Proof. intros Hp [Hs _ He Hf Ha] <-. by split. Qed.

Lemma cleanup_run settings st st' deleted err :
  keyed (tables (st_world st)) →
  cleanup (W:=W) settings st = (st', Ok (deleted, err)) →
  let now := (world_now (st_world st)).2 in
    cleaned (column_time now) (cutoff_at settings now)
      (tables (st_world st)) (tables (st_world st')) ∧
    (err = None → caught_up (cutoff_at settings now)
       (tables (st_world st)) (tables (st_world st'))).
Proof.
  intros Hk. unfold cleanup, cutoff_at. intros Hc.
  apply M_bind_Ok in Hc as (st1 & now & Hnow & Hc). cbv zeta.
  assert ((world_now (st_world st)).2 = now) as -> by by (injection Hnow).
  apply (frame_tables 0) in Hnow; [|apply (frame_now eq)]. rewrite <- Hnow in *.
  apply M_bind_Ok in Hc as (st2 & r & Hi & Hc).
  apply expireIdempotency_run in Hi as (a & m & [= ->] & Ht & Hp).
  assert (∀ cutoff, cleaned (column_time now) cutoff (tables (st_world st1))
    (tables (st_world st2))) as Hcl.
  { rewrite Ht. intros cutoff. split; simpl; auto using pruned_refl. }
  destruct a as [n|e].
  2: { apply M_ret_inv in Hc as [<- [= <- <-]]. split; [apply Hcl|done]. }
  case_decide.
  { apply M_ret_inv in Hc as [<- [= <- <-]]. split; [apply Hcl|]. by intros _ c. }
  apply M_bind_Ok in Hc as (st3 & [[ne nf] err'] & He & Hc).
  apply M_ret_inv in Hc as [<- [= _ <-]].
  apply expireEvaluations_run in He as (expired & Hrows & Her & Hdone); [|by rewrite Ht].
  split.
  - eapply cleaned_after_idempotency; [exact Hp| |].
    + rewrite <- Ht. eapply erased_cleaned; [by rewrite Ht|done..].
    + rewrite (er_idempotency _ _ _ Her), Ht. done.
  - intros E. destruct (Hdone E) as [Hfound Hgone].
    assert (t_evaluations (tables (st_world st2)) = t_evaluations (tables (st_world st1)))
      as Eev by by rewrite Ht.
    unfold caught_up. rewrite <- Eev.
    apply (erased_caught_up (column_time (now - evaluations settings)) expired); try done.
    by rewrite Ht.
Qed.

(** A pass always comes back with its counts. *)
Lemma cleanup_total settings st : ∃ r, (cleanup (W:=W) settings st).2 = Ok r.
Proof.
  unfold cleanup, expireEvaluations, Evaluations.now.
  unfold mbind, M_bind, mret, M_ret, attempt, ask, call; simpl.
  repeat (case_match; simpl in *; simplify_eq; eauto).
Qed.
End spec.

End RetentionSpec.

(** ** The order of a listing

    Stored identifiers are distinct, so newest first is a total order on the stored
    rows and every page is a slice of one list. *)
Module ListSpec.
Import EvalConvert Evaluations EvalFrames EvalSpec CreateSpec RetentionSpec.

(** A row is selected when it agrees with every filter that is given. *)
Definition agrees (want got : string) : Prop := want = "" ∨ got = want.
Definition selected (filter : ListFilter) (r : Evaluation) : Prop :=
  agrees (lf_PolicyName filter) (ev_PolicyName r) ∧
  agrees (lf_PolicyVersion filter) (ev_PolicyVersion r) ∧
  agrees (lf_Outcome filter) (ev_Outcome r) ∧
  agrees (lf_Status filter) (ev_Status r).

#[export] Instance selected_dec filter r : Decision (selected filter r).
Proof. unfold selected, agrees. apply _. Defined.

Lemma filtered_selected ct filter r :
  forallb (λ c, evaluation_holds ct c r) (filtered filter) = true ↔ selected filter r.
Proof.
  unfold filtered, selected, agrees.
  repeat case_decide; rewrite ?forallb_app; simpl;
    rewrite ?andb_true_iff, ?bool_decide_eq_true; tauto.
Qed.

(** The evaluations a filter selects, newest first. *)
Definition listing (filter : ListFilter) (t : Tables) : list Evaluation :=
  merge_sort newest_first (base.filter (selected filter) (map_to_list (t_evaluations t)).*2).

Lemma matching_listing ct filter limit offset t :
  matching ct (MkQuery (filtered filter) true limit offset) t ≡ₚ listing filter t.
Proof.
  unfold listing, matching. rewrite merge_sort_Permutation. simpl.
  rewrite (list_filter_iff _ (selected filter)); [done|]. intros r. apply filtered_selected.
Qed.

Lemma elem_of_listing filter t r :
  r ∈ listing filter t ↔ selected filter r ∧ ∃ k, t_evaluations t !! k = Some r.
Proof. rewrite <- (matching_listing id filter 1 None), elem_of_matching. simpl. by rewrite filtered_selected. Qed.

Lemma listing_ids filter t : keyed t → NoDup (ev_ID <$> listing filter t).
Proof. intros Hk. rewrite <- (matching_listing id filter 1 None). by apply matching_ids. Qed.

Lemma listing_sorted filter t : Sorted newest_first (listing filter t).
Proof. unfold listing. apply Sorted_merge_sort. apply _. Qed.

(** The database may not order the rows any other way. *)
Lemma listing_unique filter t all :
  keyed t → all ≡ₚ listing filter t →
  Sorted newest_first all → all = listing filter t.
Proof.
  intros Hk Hp Hs. apply (StronglySorted_unique_strong newest_first).
  - intros x y Hx Hy. rewrite Hp, elem_of_listing in Hx. rewrite elem_of_listing in Hy.
    destruct Hx as [_ (k & Hx)], Hy as [_ (k' & Hy)].
    intros [?|[? H1]] [?|[? H2]]; try lia. assert (ev_ID x = ev_ID y) as E.
    { by apply (anti_symm str_le). }
    rewrite (Hk _ _ Hx), (Hk _ _ Hy) in E. congruence.
  - apply Sorted_StronglySorted; [apply _|done].
  - apply Sorted_StronglySorted; [apply _|apply listing_sorted].
  - done.
Qed.

Section list.
#[local] Set Default Proof Using "Type*".
Context {W : Type} `{Database W, !DatabaseLaws W}.

Lemma find_run filter limit offset st st' rows :
  keyed (tables (st_world st)) → 0 < limit →
  call (Evaluation_Find (MkQuery (filtered filter) true limit offset)) st = (st', Ok rows) →
  tables (st_world st') = tables (st_world st) ∧
  rows = page limit offset (listing filter (tables (st_world st))).
Proof.
  intros Hk Hlim Hc. unfold call in Hc. injection Hc as <- Hc. simpl.
  match type of Hc with (Evaluation_Find ?q ?w).2 = _ =>
    pose proof (evaluation_find_frame q w) as Hf;
    pose proof (evaluation_find_law q w rows Hlim Hc) as (all & Hp & Hpage & Hs) end.
  split; [done|]. rewrite Hpage. simpl. f_equal. apply listing_unique; [done| |by apply Hs].
  by rewrite Hp, matching_listing.
Qed.

Lemma probe_page {A} offset (l : list A) :
  0 <= offset → bool_decide (0 < len (page 1 (Some offset) l)) = bool_decide (offset < len l).
Proof.
  intros Ho. apply bool_decide_ext. unfold page, len. simpl. rewrite length_take, length_drop. lia.
Qed.

Lemma List_run filter st st' r :
  keyed (tables (st_world st)) → List (W:=W) filter st = (st', Ok r) →
  let l := listing filter (tables (st_world st)) in
  0 < lf_Limit filter ∧ 0 <= lf_Offset filter ∧
  tables (st_world st') = tables (st_world st) ∧
  r = MkEvaluationList (evaluationModelToAPI <$> page (lf_Limit filter) (Some (lf_Offset filter)) l)
        (lf_Limit filter) (lf_Offset filter)
        (bool_decide (0 < len (page 1 (Some (wrap64 (lf_Offset filter + lf_Limit filter))) l))).
Proof.
  intros Hk Hr. unfold List in Hr. inv_run.
  match goal with H : guard_err _ _ = Ok _ |- _ =>
    apply guard_err_Ok, orb_false_iff in H; destruct H as [Hl%bool_decide_eq_false
      Ho%bool_decide_eq_false] end.
  match goal with H : call _ ?x = (?y, _), H' : call _ ?y = _ |- _ =>
    apply (find_run filter) in H as [Ht ->]; [|done|lia];
    apply (find_run filter) in H' as [Ht' ->]; [|by rewrite Ht|done] end.
  rewrite Ht in *. repeat split; try done; lia.
Qed.
End list.

End ListSpec.
