(* ===== verification/ServiceSpec.v ===== *)
(** * Invariants of the stored decisions

    What every stored row looks like, the listing order, and how each operation of the
    service moves the tables. *)

From S2P Require Import Prelude GoFloat GoAny Decision Document Condition Canonical Compile.
From S2P Require Import WellFormed CompileSound Evaluate Store Effects Loader Policies Secrets.
From S2P Require Import EvalConvert Evaluations EvalFrames EvalSpec CreateSpec Retention RetentionSpec.
From stdpp Require Import options.
#[local] Open Scope Z_scope.

Module ServiceSpec.
Import Compile WellFormed CompileSound EvalConvert Evaluations EvalFrames EvalSpec.
Import CreateSpec Retention RetentionSpec.

(** ** The decision of a well-formed policy *)
Definition failure_codes : list FailureCode :=
  [FailureCodeProviderAuth; FailureCodeProviderRateLimited; FailureCodeProviderUnavailable;
   FailureCodeProviderTimeout; FailureCodeProviderProtocol; FailureCodeProviderRejected].

Lemma classify_code e : classifyProviderFailure e ∈ failure_codes.
Proof. unfold classifyProviderFailure, failure_codes. repeat case_match; in_list. Qed.

Lemma no_empty_code : "" ∉ failure_codes.
Proof. apply (bool_decide_unpack _). vm_compute. exact I. Qed.

(** A recorded decision is complete, or a recorded failure decides nothing. *)
Definition verdict_ok (v : verdict) : Prop :=
  (vd_Status v = EvaluationStatusCompleted ∧ Outcome_IsValid (vd_Outcome v) = true ∧
   ExecutionPath_IsValid (vd_ExecutionPath v) = true ∧ vd_FailureCode v = "" ∧
   (vd_MatchedRuleID v = "" ↔ vd_ExecutionPath v = ExecutionPathDefault) ∧
   (vd_AnswersJSON v = "" ↔ vd_ExecutionPath v = ExecutionPathPreRule)) ∨
  (vd_Status v = EvaluationStatusProviderFailed ∧ vd_Outcome v = "" ∧
   vd_MatchedRuleID v = "" ∧ vd_ExecutionPath v = "" ∧ vd_AnswersJSON v = "" ∧
   vd_FailureCode v ∈ failure_codes).

Lemma declared_valid c o : wf_compiled c → o ∈ c_Outcomes c → Outcome_IsValid o = true.
Proof.
  intros Hwf Ho. pose proof (wfc_outcomes_valid _ Hwf) as Hv.
  rewrite list.Forall_forall in Hv. by apply Hv.
Qed.

Lemma rule_ids rules outcomes facts questions phase r :
  Forall (wf_rule facts questions outcomes phase) rules → r ∈ rules →
  cr_ID r ≠ "" ∧ cr_Outcome r ∈ outcomes.
Proof.
  rewrite list.Forall_forall. intros Hall Hr. destruct (Hall r Hr) as (Hi & _ & Ho & _).
  split; [|done]. intros E. by rewrite E in Hi.
Qed.

Lemma pre_result c facts result :
  wf_compiled c → Evaluate.EvaluatePreRules c facts = Some result →
  Evaluate.res_Outcome result ∈ c_Outcomes c ∧ Evaluate.res_MatchedRuleID result ≠ "" ∧
  Evaluate.res_Path result = ExecutionPathPreRule.
Proof.
  intros Hwf (rule & Hf & ->)%fmap_Some.
  apply find_Some_first in Hf as (l1 & l2 & Hl & _). simpl.
  pose proof (rule_ids _ _ _ _ _ rule (wfc_preRules _ Hwf)) as [Hid Ho];
    [rewrite Hl; set_solver|done].
Qed.

Lemma decision_result c facts answers :
  wf_compiled c →
  let result := Evaluate.EvaluateDecisionRules c facts answers in
  Evaluate.res_Outcome result ∈ c_Outcomes c ∧
  ((Evaluate.res_MatchedRuleID result ≠ "" ∧
    Evaluate.res_Path result = ExecutionPathDecisionRule) ∨
   (Evaluate.res_MatchedRuleID result = "" ∧
    Evaluate.res_Path result = ExecutionPathDefault)).
Proof.
  intros Hwf. unfold Evaluate.EvaluateDecisionRules. case_match eqn:E; simpl.
  - apply find_Some_first in E as (l1 & l2 & Hl & _).
    pose proof (rule_ids _ _ _ _ _ c0 (wfc_decisionRules _ Hwf)) as [Hid Ho];
      [rewrite Hl; set_solver|auto].
  - split; [apply Hwf|auto].
Qed.

Lemma encodeAnswers_nonempty answers text : encodeAnswers answers = Ok text → text ≠ "".
Proof.
  unfold encodeAnswers, map_json. destruct (mapM _ _); simpl; [|done]. by intros [= <-].
Qed.

Lemma decided_ok {W} `{ProviderPort W} compiled input v :
  wf_compiled compiled → decided (W:=W) compiled input v →
  verdict_ok v ∧ (vd_Status v = EvaluationStatusCompleted → vd_Outcome v ∈ c_Outcomes compiled).
Proof.
  intros Hwf Hd. destruct Hd as [result Hp|w response text Hp _ _ He|w e _ _ _|w response e _ _ _].
  - destruct (pre_result _ _ _ Hwf Hp) as (Ho & Hid & Hpath). split; [|done]. left.
    simpl. rewrite Hpath. repeat split; try done. by eapply declared_valid.
  - destruct (decision_result compiled (facts_of input) (Provider.rs_Answers response) Hwf)
      as [Ho Hpath]. split; [|done]. left. simpl.
    apply encodeAnswers_nonempty in He.
    split; [done|]. split; [by eapply declared_valid|].
    destruct Hpath as [[Hid ->]|[Hid ->]]; repeat split; try done; intros; congruence.
  - split; [right|done]. repeat split. apply classify_code.
  - split; [right|done]. repeat split. unfold failure_codes. simpl. in_list.
Qed.

(** ** Policies of a running service *)
Definition service_ok (s : Service) : Prop := ∀ ref c,
  Loader.Get (Policies.psv_set (svc_policies s)) ref = Some c → wf_compiled c ∧ c_Ref c = ref.

Lemma CompileBytes_wf `{YamlDecoder} data n m c :
  Loader.CompileBytesWithMaxQuestions data n m = Ok c → wf_compiled c.
Proof. intros (doc & _ & Hc)%bind_Ok. by apply (compile_inv doc m). Qed.

Lemma resolvePolicy_wf `{YamlDecoder} s input compiled kind :
  service_ok s → resolvePolicy s input = Ok (compiled, kind) →
  wf_compiled compiled ∧
  match ci_PolicyRef input with
  | Some ref => kind = PolicyKindNamed ∧ c_Ref compiled = ref
  | None => kind = PolicyKindInline ∧ cfg_AllowInlinePolicies (svc_config s) = true
  end.
Proof.
  intros Hs. unfold resolvePolicy. intros [_ Hr]%seq_Ok.
  destruct (ci_PolicyRef input) as [ref|].
  - apply bind_Ok in Hr as (c & Hc & [= <- <-]). unfold Policies.Service_Compiled in Hc.
    destruct (Loader.Get _ ref) eqn:E; simplify_eq. destruct (Hs _ _ E). done.
  - apply seq_Ok in Hr as [Ha%guard_err_Ok%negb_false_iff Hr].
    apply bind_Ok in Hr as (c & Hc & [= <- <-]).
    apply bind_Ok in Hc as (text & _ & Hc%CompileBytes_wf). done.
Qed.

(** ** Well-formed tables *)

(** The policy a row names is one that compiles, loaded or inline. *)
Definition policy_named (r : Evaluation) : Prop :=
  IsDashedIdentifier (ev_PolicyName r) = true ∧ strlen (ev_PolicyVersion r) <= MaxVersionLength ∧
  (ev_PolicyKind r = PolicyKindNamed ∨ ev_PolicyKind r = PolicyKindInline).

Record tables_ok (t : Tables) : Prop := {
  tb_keyed : keyed t;
  tb_verdicts : ∀ k r, t_evaluations t !! k = Some r → verdict_ok (verdict_of r);
  tb_policies : ∀ k r, t_evaluations t !! k = Some r → policy_named r;
  tb_snapshots : ∀ k r, t_evaluations t !! k = Some r →
    is_Some (t_snapshots t !! ev_PolicySnapshotHash r);
  tb_keys : ∀ k r, t_idempotency t !! k = Some r → ir_KeyHash r = k;
  tb_feedback : ∀ k r, t_feedback t !! k = Some r → fb_ID r = k ∧
    Outcome_IsValid (fb_ExpectedOutcome r) = true ∧
    is_Some (t_evaluations t !! fb_EvaluationID r)
}.

Lemma empty_tables_ok : tables_ok (MkTables ∅ ∅ ∅ ∅).
Proof. by split. Qed.

Lemma stored_verdict ct r : verdict_of (stored_evaluation ct r) = verdict_of r.
Proof. done. Qed.

(** Replacing the other tables. *)
Lemma tables_ok_core t t' : core_eq t t' → tables_ok t → tables_ok t'.
Proof.
  intros [He Hi Hf Hs] [Hk Hv Hpn Hsn Hik Hfb]. split.
  - unfold keyed. by rewrite He.
  - by rewrite He.
  - by rewrite He.
  - intros k r. rewrite He. intros Hr. destruct (Hsn k r Hr) as [sn Hsn'].
    exists sn. by eapply lookup_weaken.
  - by rewrite Hi.
  - by rewrite Hf, He.
Qed.

Section steps.
#[local] Set Default Proof Using "Type*".
Context {W : Type} `{Database W, !DatabaseLaws W} `{ProviderPort W} `{Runtime W}
  `{!OutsideLaws W} `{YamlDecoder}.
Context (s : Service).

Lemma with_snapshot_core compiled t tb : core_eq tb (with_snapshot compiled t tb).
Proof.
  unfold with_snapshot. case_match; [done|]. split; try done. by apply insert_subseteq.
Qed.

Lemma with_snapshot_there compiled t tb :
  is_Some (t_snapshots (with_snapshot compiled t tb) !! c_Hash compiled).
Proof.
  unfold with_snapshot. case_match; [by eexists|]. simpl. by rewrite lookup_insert_eq.
Qed.

Lemma key_row_hash input h record t : ir_KeyHash (key_row s input h record t) =
  hashKey (ci_IdempotencyKey input).
Proof. done. Qed.

Lemma identity_policy_named compiled kind input record :
  wf_compiled compiled → kind = PolicyKindNamed ∨ kind = PolicyKindInline →
  row_identity compiled kind input record → policy_named record.
Proof using.
  intros Hwf Hkind [_ Hn Hv Hk _ _]. unfold policy_named. rewrite Hn, Hv, Hk.
  split; [apply Hwf|]. split; [apply Hwf|done].
Qed.

Lemma resolvePolicy_kind input compiled kind :
  service_ok s → resolvePolicy s input = Ok (compiled, kind) →
  kind = PolicyKindNamed ∨ kind = PolicyKindInline.
Proof using.
  intros Hs Hr. apply resolvePolicy_wf in Hr as [_ Hk]; [|done].
  destruct (ci_PolicyRef input); destruct Hk; auto.
Qed.

Lemma written_ok input h record compiled t t' :
  tables_ok t → wf_compiled compiled → decided (W:=W) compiled input (verdict_of record) →
  policy_named record → ev_PolicySnapshotHash record = c_Hash compiled →
  is_Some (t_snapshots t !! c_Hash compiled) →
  written s input h record t t' → tables_ok t'.
Proof.
  intros [Hk Hv Hpn Hsn Hik Hfb] Hwf Hd Hp Hh Hsome (Hfresh & He & Hf & Hs & Hi).
  apply decided_ok in Hd as [Hd _]; [|done]. split.
  - intros k r. rewrite He. intros [[<- <-]|[_ Hr]]%lookup_insert_Some; [done|by apply Hk].
  - intros k r. rewrite He. intros [[<- <-]|[_ Hr]]%lookup_insert_Some; [done|by eapply Hv].
  - intros k r. rewrite He. intros [[<- <-]|[_ Hr]]%lookup_insert_Some; [done|by eapply Hpn].
  - intros k r. rewrite He, Hs. intros [[<- <-]|[_ Hr]]%lookup_insert_Some.
    + simpl. by rewrite Hh.
    + by eapply Hsn.
  - case_decide; [by rewrite Hi|]. destruct Hi as (_ & now & ->).
    intros k r [[<- <-]|[_ Hr]]%lookup_insert_Some; [done|by apply Hik].
  - rewrite Hf, He. intros k r Hr. destruct (Hfb k r Hr) as (? & ? & [row Hrow]).
    repeat split; try done. destruct (decide (ev_ID record = fb_EvaluationID r)) as [E|E].
    + rewrite E. by rewrite lookup_insert_eq.
    + rewrite lookup_insert_ne by done. by eexists.
Qed.

Lemma create_step_ok input t t' n r :
  service_ok s → tables_ok t → create_step (W:=W) s input t t' n r → tables_ok t'.
Proof.
  intros Hs Ht Hc. inversion Hc as [| compiled kind h record Hacc [Hf Hd Hid _ (loadedAt & Hw)] |]; subst.
  - done.
  - destruct (resolvePolicy_wf _ _ _ _ Hs (ac_policy _ _ _ _ _ Hacc)) as [Hwf _].
    eapply (written_ok _ _ _ _ (with_snapshot compiled loadedAt t)); try done;
      [|eapply identity_policy_named;
         [done|by eapply resolvePolicy_kind, (ac_policy _ _ _ _ _ Hacc)|exact Hid]|apply Hid|
       apply with_snapshot_there].
    eapply tables_ok_core; [apply with_snapshot_core|done].
  - by eapply tables_ok_core.
Qed.

(** ** Feedback *)

(** One call of [SubmitFeedback]: a new row about a stored evaluation, or nothing. *)
Inductive feedback_step (input : FeedbackInput) (t t' : Tables) : res APIFeedback → Prop :=
  | feedback_written row id at_ :
      t_evaluations t !! fi_EvaluationID input = Some row →
      validateFeedback input = Ok tt → validateExpectedOutcome s row input = Ok tt →
      t_feedback t !! id = None →
      let record := MkEvaluationFeedback id (ev_ID row) (fi_ExpectedOutcome input)
                      (fi_Note input) at_ in
      t' = with_feedback (insert id (stored_feedback column_time record)) t →
      feedback_step input t t' (Ok (feedbackModelToAPI record))
  | feedback_failed e : t' = t → feedback_step input t t' (Err e).

Lemma SubmitFeedback_step input st st' r :
  SubmitFeedback s input st = (st', r) →
  feedback_step input (tables (st_world st)) (tables (st_world st')) r.
Proof.
  destruct r as [fb|e]; unfold SubmitFeedback.
  - intros Hc. inv_run.
    match goal with H : findEvaluation _ _ = _ |- _ =>
      apply findEvaluation_Ok in H as [Ht Hrow] end.
    match goal with H : newID _ = _ |- _ => apply (frame_tables 0) in H; [|apply (frame_newID eq)];
      rewrite Ht in H; rename H into Ht1 end.
    match goal with H : now _ = _ |- _ => apply (frame_tables 0) in H; [|apply (frame_now eq)];
      rewrite Ht1 in H; rename H into Ht2 end.
    match goal with H : call (EvaluationFeedback_Create _) _ = _ |- _ =>
      eapply (call_inserts t_feedback with_feedback) in H;
        [|apply feedback_create_law]; destruct H as [Hn Hw] end.
    rewrite Ht2 in Hn, Hw. destruct a, a1. by econstructor.
  - intros Hc. apply feedback_failed.
    apply M_lift_Err in Hc as [[-> _]|(u & _ & Hc)]; [done|].
    apply M_bind_Err in Hc as [Hc|(st1 & row & Hr & Hc)].
    { eapply (frame_tables 0); [|exact Hc]. apply (frame_findEvaluation eq). }
    apply (frame_tables 0) in Hr; [|apply (frame_findEvaluation eq)]. rewrite <- Hr.
    apply M_lift_Err in Hc as [[-> _]|(u' & _ & Hc)]; [done|].
    apply M_bind_Err in Hc as [Hc|(st2 & id & Hi & Hc)]; [done|].
    apply (frame_tables 0) in Hi; [|apply (frame_newID eq)]. rewrite <- Hi.
    apply M_bind_Err in Hc as [Hc|(st3 & t & Hn & Hc)]; [done|].
    apply (frame_tables 0) in Hn; [|apply (frame_now eq)]. rewrite <- Hn.
    apply M_bind_Err in Hc as [Hc|(st4 & u2 & _ & Hc)]; [|done].
    unfold call in Hc. injection Hc as <- Hc. simpl.
    match type of Hc with (EvaluationFeedback_Create ?r ?w).2 = _ =>
      pose proof (feedback_create_law r w) as Hl end.
    by rewrite Hc in Hl.
Qed.

Lemma feedback_step_ok input t t' r : tables_ok t → feedback_step input t t' r → tables_ok t'.
Proof.
  intros Ht Hf. inversion Hf as [row id at_ Hrow Hv _ Hn record Et|]; subst; [|done].
  destruct Ht as [Hk Hvd Hpn Hsn Hik Hfb]. split; try done. simpl.
  intros k r' [[<- <-]|[_ Hr]]%lookup_insert_Some; [|by apply Hfb]. simpl.
  unfold validateFeedback in Hv. apply seq_Ok in Hv as [Hv%guard_err_Ok%negb_false_iff _].
  rewrite (Hk _ _ Hrow). eauto.
Qed.
End steps.

End ServiceSpec.
