(* ===== verification/HttpServer.v ===== *)
(** * The REST handlers and their errors

    [internal/pkg/http/server/errors.go]: the status and the envelope of every error of
    the core, and of an evaluation that was recorded without an outcome.

    [internal/pkg/http/server/handlers.go]: each handler reads the request, calls one
    core service method and answers with one of the generated response objects, whose
    status and body are what goes out. *)

From S2P Require Import Prelude GoFloat GoAny Decision Document Store Effects Loader Policies.
From S2P Require Import EvalConvert Evaluations.
From stdpp Require Import options.
#[local] Open Scope Z_scope.

Module HttpErrors.
Import EvalConvert.

(** [api.Error]; the details are the evaluation and its failure code. *)
Record Error : Set := MkError {
  err_Code : string;
  err_Message : string;
  err_Details : option (uuid * FailureCode)
}.

Record failure : Set := MkFailure { f_status : Z; f_body : Error }.

Definition newFailure (status : Z) (code message : string) : failure :=
  MkFailure status (MkError code message None).

(** The codes of [aichteeteapee]. *)
Definition ErrorCodeBadRequest : string := "BAD_REQUEST".
Definition ErrorCodeUnauthorized : string := "UNAUTHORIZED".
Definition ErrorCodeNotFound : string := "NOT_FOUND".
Definition ErrorCodeConflict : string := "CONFLICT".
Definition ErrorCodeUnprocessableEntity : string := "UNPROCESSABLE_ENTITY".
Definition ErrorCodeTooManyRequests : string := "TOO_MANY_REQUESTS".
Definition ErrorCodeInternalServerError : string := "INTERNAL_SERVER_ERROR".
Definition ErrorCodeBadGateway : string := "BAD_GATEWAY".
Definition ErrorCodeServiceUnavailable : string := "SERVICE_UNAVAILABLE".
Definition ErrorCodeGatewayTimeout : string := "GATEWAY_TIMEOUT".
Definition ErrorCodeValidationFailed : string := "VALIDATION_FAILED".
(** [ErrorCodeFromHTTPStatus(413)]: the status is in no table. *)
Definition ErrorCodePayloadTooLarge : string := ErrorCodeInternalServerError.

Definition statusClientClosedRequest : Z := 499.

Definition classifyProvider (err : goerr) : failure :=
  if errors_Is err ContextCanceled then
    newFailure statusClientClosedRequest ErrorCodeBadRequest "the client closed the request"
  else if errors_Is err ErrTimeout || errors_Is err ContextDeadlineExceeded then
    newFailure 504 ErrorCodeGatewayTimeout "the decision provider did not answer in time"
  else if errors_Is err ErrRateLimited then
    newFailure 429 ErrorCodeTooManyRequests "the decision provider rate limit was reached"
  else if errors_Is err ErrNotAuthenticated || errors_Is err ErrRequiredConfigValueNotSet then
    newFailure 503 ErrorCodeServiceUnavailable "the decision provider is not configured"
  else if errors_Is err ErrUnavailable || errors_Is err ErrConnectFailed || errors_Is err ErrOverloaded then
    newFailure 503 ErrorCodeServiceUnavailable "the decision provider is unavailable"
  else if errors_Is err ErrParseFailed || errors_Is err ErrResponseTooLarge ||
          errors_Is err ErrProviderProtocol then
    newFailure 502 ErrorCodeBadGateway "the decision provider returned an unusable response"
  else newFailure 500 ErrorCodeInternalServerError "the request could not be completed".

(** [classify] of a non-nil error. *)
Definition classify (err : goerr) : failure :=
  if errors_Is err ErrIdempotencyConflict then
    newFailure 409 ErrorCodeConflict "the idempotency key was reused with a different request"
  else if errors_Is err ErrPolicySelection then
    newFailure 400 ErrorCodeBadRequest "supply exactly one of policyRef or inlinePolicy"
  else if errors_Is err ErrInlinePoliciesDisabled then
    newFailure 400 ErrorCodeBadRequest "inline policies are disabled on this deployment"
  else if errors_Is err ErrNotFound then
    newFailure 404 ErrorCodeNotFound "no such resource"
  else if errors_Is err ErrValidationFailed || errors_Is err ErrInvalidArgument then
    newFailure 422 ErrorCodeValidationFailed "the request failed validation"
  else if errors_Is err ErrPolicyTooLarge then
    newFailure 413 ErrorCodePayloadTooLarge "the supplied policy document is too large"
  else classifyProvider err.

Definition badRequest (message : string) : Error := MkError ErrorCodeBadRequest message None.

Definition recordedFailureStatus (code : FailureCode) : failure :=
  if decide (code = FailureCodeProviderTimeout) then
    newFailure 504 ErrorCodeGatewayTimeout "the provider did not answer in time"
  else if decide (code = FailureCodeProviderRateLimited ∨ code = FailureCodeProviderUnavailable) then
    newFailure 503 ErrorCodeServiceUnavailable "the provider is unavailable"
  else if decide (code = FailureCodeInputInvalid) then
    newFailure 422 ErrorCodeUnprocessableEntity "the request did not satisfy the policy contract"
  else newFailure 502 ErrorCodeBadGateway "the provider did not return a usable answer".

Definition classifyRecordedFailure (result : APIEvaluation) : option failure :=
  if decide (ae_Status result = EvaluationStatusCompleted) then None
  else
    let code := default "" (ae_FailureCode result) in
    let mapped := recordedFailureStatus code in
    Some (MkFailure (f_status mapped)
            (MkError (err_Code (f_body mapped)) (err_Message (f_body mapped))
               (Some (ae_Id result, code)))).

End HttpErrors.

Module HttpServer.
Import EvalConvert HttpErrors.

Definition DefaultListLimit : Z := 50.
Definition MaxListLimit : Z := 200.

Inductive ReplyBody : Set :=
  | BodyError (e : Error)
  | BodyEvaluation (e : APIEvaluation)
  | BodyEvaluationList (l : Evaluations.EvaluationList)
  | BodyFeedback (f : APIFeedback)
  | BodyPolicyList (l : list Policies.Policy)
  | BodyPolicy (p : Policies.Policy)
  | BodyPolicyValidation (v : Policies.PolicyValidation)
  | BodyStatus (status : string).

Record Reply : Set := MkReply { rp_status : Z; rp_body : ReplyBody }.

(** A response object that carries an error envelope. *)
Definition error_reply (status : Z) (body : Error) : Reply := MkReply status (BodyError body).

Definition bodyRequired : Reply := error_reply 400 (badRequest "a request body is required").

(** ** Requests *)
Record CreateEvaluationBody : Set := MkCreateEvaluationBody {
  cb_State : goany;
  cb_PolicyRef : option Ref;
  cb_InlinePolicy : option (list (string * goany));
  cb_Facts : option Facts;
  cb_Metadata : option (gmap string string)
}.

Record CreateEvaluationRequest : Set := MkCreateEvaluationRequest {
  cr_Body : option CreateEvaluationBody;
  cr_IdempotencyKey : option string
}.

Record ListEvaluationsParams : Set := MkListEvaluationsParams {
  lp_Limit : option Z;
  lp_Offset : option Z;
  lp_PolicyName : option string;
  lp_PolicyVersion : option string;
  lp_Outcome : option string;
  lp_Status : option string
}.

Record SubmitFeedbackRequest : Set := MkSubmitFeedbackRequest {
  sf_EvaluationId : uuid;
  sf_Body : option (string * option string)   (** the outcome and the note *)
}.

(** The request identifier comes from the scope the middleware seeded. *)
Definition createInputFromRequest (requestID : string) (body : CreateEvaluationBody)
  (idempotencyKey : option string) : CreateInput :=
  MkCreateInput (cb_PolicyRef body) (default [] (cb_InlinePolicy body)) (cb_State body)
    (cb_Facts body) (cb_Metadata body) (default "" idempotencyKey) requestID.

(** ** Mapped failures *)
Definition createEvaluationClientFailure (mapped : failure) : option Reply :=
  if decide (f_status mapped = 400 ∨ f_status mapped = statusClientClosedRequest) then
    Some (error_reply 400 (f_body mapped))
  else if decide (f_status mapped = 404) then Some (error_reply 404 (f_body mapped))
  else if decide (f_status mapped = 409) then Some (error_reply 409 (f_body mapped))
  else if decide (f_status mapped = 413) then Some (error_reply 413 (f_body mapped))
  else if decide (f_status mapped = 422) then Some (error_reply 422 (f_body mapped))
  else if decide (f_status mapped = 429) then Some (error_reply 429 (f_body mapped))
  else None.

Definition createEvaluationUpstreamFailure (mapped : failure) : option Reply :=
  if decide (f_status mapped = 502) then Some (error_reply 502 (f_body mapped))
  else if decide (f_status mapped = 503) then Some (error_reply 503 (f_body mapped))
  else if decide (f_status mapped = 504) then Some (error_reply 504 (f_body mapped))
  else None.

(** [createEvaluationStatus], and [createEvaluationFailure] without its log line. *)
Definition createEvaluationStatus (mapped : failure) : Reply :=
  match createEvaluationClientFailure mapped with
  | Some response => response
  | None =>
      match createEvaluationUpstreamFailure mapped with
      | Some response => response
      | None => error_reply 500 (f_body mapped)
      end
  end.

Definition createEvaluationFailure (err : goerr) : Reply := createEvaluationStatus (classify err).

Definition applyListFilters (filter : Evaluations.ListFilter) (params : ListEvaluationsParams)
  : Evaluations.ListFilter :=
  Evaluations.MkListFilter (Evaluations.lf_Limit filter) (Evaluations.lf_Offset filter)
    (default (Evaluations.lf_PolicyName filter) (lp_PolicyName params))
    (default (Evaluations.lf_PolicyVersion filter) (lp_PolicyVersion params))
    (default (Evaluations.lf_Outcome filter) (lp_Outcome params))
    (default (Evaluations.lf_Status filter) (lp_Status params)).

(** ** Handlers *)
Section handlers.
Context {W : Type} `{Database W} `{ProviderPort W} `{Runtime W} `{YamlDecoder}.
Context `{Secrets.AEADConstruction}.
Context (evaluations : Evaluations.Service) (policies : Policies.Service).

Definition CreateEvaluation (requestID : string) (request : CreateEvaluationRequest) : M W Reply :=
  match cr_Body request with
  | None => mret bodyRequired
  | Some body =>
      result ← settle (Evaluations.Create evaluations
        (createInputFromRequest requestID body (cr_IdempotencyKey request)));
      match result with
      | Err err => mret (createEvaluationFailure err)
      | Ok result =>
          match classifyRecordedFailure result with
          | Some recorded => mret (createEvaluationStatus recorded)
          | None => mret (MkReply 201 (BodyEvaluation result))
          end
      end
  end.

Definition ListEvaluations (params : ListEvaluationsParams) : M W Reply :=
  let limit := default DefaultListLimit (lp_Limit params) in
  let offset := default 0 (lp_Offset params) in
  if decide (limit < 1 ∨ MaxListLimit < limit ∨ offset < 0) then
    mret (error_reply 400 (badRequest "limit and offset are outside the documented range"))
  else
    result ← attempt (Evaluations.List
      (applyListFilters (Evaluations.MkListFilter limit offset "" "" "" "") params));
    match result with
    | Err err => mret (error_reply 500 (f_body (classify err)))
    | Ok page => mret (MkReply 200 (BodyEvaluationList page))
    end.

Definition GetEvaluation (evaluationId : uuid) : M W Reply :=
  result ← attempt (Evaluations.Get evaluationId);
  match result with
  | Ok result => mret (MkReply 200 (BodyEvaluation result))
  | Err err =>
      let mapped := classify err in
      mret (error_reply (if decide (f_status mapped = 404) then 404 else 500) (f_body mapped))
  end.

Definition SubmitFeedback (request : SubmitFeedbackRequest) : M W Reply :=
  match sf_Body request with
  | None => mret bodyRequired
  | Some (expectedOutcome, note) =>
      result ← attempt (Evaluations.SubmitFeedback evaluations
        (Evaluations.MkFeedbackInput (sf_EvaluationId request) expectedOutcome (default "" note)));
      match result with
      | Ok result => mret (MkReply 201 (BodyFeedback result))
      | Err err =>
          let mapped := classify err in
          mret (error_reply (if decide (f_status mapped = 404) then 404
                             else if decide (f_status mapped = 422) then 422 else 500)
                  (f_body mapped))
      end
  end.

Definition ListPolicies : M W Reply :=
  mret (MkReply 200 (BodyPolicyList (Policies.List policies))).

Definition GetPolicy (name version : string) : M W Reply :=
  match Policies.Get policies name version with
  | Ok result => mret (MkReply 200 (BodyPolicy result))
  | Err err =>
      let mapped := classify err in
      mret (error_reply (if decide (f_status mapped = 404) then 404 else 500) (f_body mapped))
  end.

Definition ValidatePolicy (body : option (list (string * goany))) : M W Reply :=
  match body with
  | None => mret bodyRequired
  | Some document =>
      match Policies.Validate policies document with
      | Ok result => mret (MkReply 200 (BodyPolicyValidation result))
      | Err err =>
          let mapped := classify err in
          mret (error_reply
                  (if decide (f_status mapped = 413) then 413
                   else if decide (f_status mapped = 400 ∨ f_status mapped = 422) then 400 else 500)
                  (f_body mapped))
      end
  end.

End handlers.
End HttpServer.
