(* ===== verification/ApiJson.v ===== *)
(** * The JSON of the API types

    The codecs of the generated types of [internal/pkg/http/api/api.gen.go] (the client has
    types of its own, in [ApiClient]), and the bodies that requests and replies carry. *)

From S2P Require Import Prelude GoFloat GoAny GoTime Decision Document Canonical Store Loader Policies.
From S2P Require Import EvalConvert Evaluations HttpServer JsonStruct.
From Stdlib Require Import Ascii String.
From stdpp Require Import options.
#[local] Open Scope Z_scope.

(** The text of an error, which the development does not model. *)
Class ErrorText := error_text : goerr → string.

(** ** The enumerations *)
Module ApiEnums.

Definition Completed : string := "completed".
Definition ProviderFailed : string := "provider_failed".
Definition Rejected : string := "rejected".

Definition EvaluationStatus_Valid (e : string) : bool :=
  if decide (e = Completed) then true
  else if decide (e = ProviderFailed) then true
  else if decide (e = Rejected) then true else false.

Definition DecisionRule : string := "decision_rule".
Definition Default : string := "default".
Definition PreRule : string := "pre_rule".

Definition ExecutionPath_Valid (e : string) : bool :=
  if decide (e = DecisionRule) then true
  else if decide (e = Default) then true
  else if decide (e = PreRule) then true else false.

Definition Inline : string := "inline".
Definition Named : string := "named".

Definition PolicyKind_Valid (e : string) : bool :=
  if decide (e = Inline) then true else if decide (e = Named) then true else false.

Definition Choice : string := "choice".
Definition Noul : string := "noul".
Definition Score : string := "score".

Definition QuestionType_Valid (e : string) : bool :=
  if decide (e = Choice) then true
  else if decide (e = Noul) then true
  else if decide (e = Score) then true else false.

End ApiEnums.

Module ApiJson.
Import EvalConvert HttpErrors HttpServer JsonStruct.

(** ** The types *)
Section types.
Context `{UuidText}.

Definition PolicyRef_codec : codec Ref :=
  cstruct (req "name" cstring :: req "version" cstring :: [])%tags
    (λ r, (ref_Name r, (ref_Version r, tt))) (λ '(n, (v, tt)), MkRef n v).

Definition CreateEvaluationRequest_codec : codec CreateEvaluationBody :=
  cstruct (opt "facts" (cmap cany) :: opt "inlinePolicy" cdocument :: opt "metadata" (cmap cstring) ::
           opt "policyRef" PolicyRef_codec :: req "state" cany :: [])%tags
    (λ b, (cb_Facts b, (cb_InlinePolicy b, (cb_Metadata b, (cb_PolicyRef b, (cb_State b, tt))))))
    (λ '(facts, (inline, (metadata, (ref, (state, tt))))),
       MkCreateEvaluationBody state ref inline facts metadata).

(** The expected outcome and the note. *)
Definition SubmitFeedbackRequest_codec : codec (string * option string) :=
  cstruct (req "expectedOutcome" cstring :: opt "note" cstring :: [])%tags
    (λ b, (b.1, (b.2, tt))) (λ '(o, (n, tt)), (o, n)).

Definition ValidatePolicyRequest_codec : codec (list (string * goany)) :=
  cstruct (req "policy" cdocument :: [])%tags (λ b, (b, tt)) (λ '(b, tt), b).

Definition Answer_codec : codec APIAnswer :=
  cstruct (opt "choice" cstring :: opt "confidence" cfloat :: opt "legend" (cmap cany) ::
           opt "noul" cfloat :: opt "probabilities" (cmap cfloat) :: opt "score" cfloat ::
           req "type" cstring :: [])%tags
    (λ a, (aa_Choice a, (aa_Confidence a, (aa_Legend a, (aa_Noul a, (aa_Probabilities a,
           (aa_Score a, (aa_Type a, tt))))))))
    (λ '(choice, (confidence, (legend, (noul, (probabilities, (score, (type, tt))))))),
       MkAPIAnswer type noul choice score confidence probabilities legend).

Definition Usage_codec : codec (Z * Z) :=
  cstruct (req "inputTokens" cint :: req "outputTokens" cint :: [])%tags
    (λ u, (u.1, (u.2, tt))) (λ '(i, (o, tt)), (i, o)).

Definition Evaluation_codec : codec APIEvaluation :=
  cstruct (req "answers" (cmap Answer_codec) :: req "createdAt" ctime ::
           req "executionPath" cstring :: opt "failureCode" cstring :: req "id" cuuid ::
           opt "matchedRuleId" cstring :: opt "metadata" (cmap cstring) :: req "outcome" cstring ::
           req "policy" PolicyRef_codec :: req "policyHash" cstring :: req "policyKind" cstring ::
           opt "providerAttempts" cint :: opt "providerDurationMs" cint :: opt "requestId" cstring ::
           opt "requestedModel" cstring :: opt "resolvedModel" cstring :: req "status" cstring ::
           opt "totalDurationMs" cint :: req "usage" Usage_codec :: [])%tags
    (λ e, (ae_Answers e, (ae_CreatedAt e, (ae_ExecutionPath e, (ae_FailureCode e, (ae_Id e,
          (ae_MatchedRuleId e, (ae_Metadata e, (ae_Outcome e, (ae_Policy e, (ae_PolicyHash e,
          (ae_PolicyKind e, (ae_ProviderAttempts e, (ae_ProviderDurationMs e, (ae_RequestId e,
          (ae_RequestedModel e, (ae_ResolvedModel e, (ae_Status e, (ae_TotalDurationMs e,
          (ae_Usage e, tt))))))))))))))))))))
    (λ '(answers, (createdAt, (path, (failureCode, (id, (matched, (metadata, (outcome, (policy, (hash,
        (kind, (attempts, (providerMs, (requestId, (requested, (resolved, (status, (totalMs,
        (usage, tt))))))))))))))))))),
       MkAPIEvaluation id policy hash kind status outcome path answers usage createdAt matched
         failureCode requested resolved requestId attempts providerMs totalMs metadata).

Definition EvaluationList_codec : codec Evaluations.EvaluationList :=
  cstruct (req "hasMore" cbool :: req "items" (cslice Evaluation_codec) :: req "limit" cint ::
           req "offset" cint :: [])%tags
    (λ l, (Evaluations.el_HasMore l, (Evaluations.el_Items l, (Evaluations.el_Limit l,
          (Evaluations.el_Offset l, tt)))))
    (λ '(hasMore, (items, (limit, (offset, tt)))), Evaluations.MkEvaluationList items limit offset hasMore).

Definition Feedback_codec : codec APIFeedback :=
  cstruct (req "createdAt" ctime :: req "evaluationId" cuuid :: req "expectedOutcome" cstring ::
           req "id" cuuid :: opt "note" cstring :: [])%tags
    (λ f, (af_CreatedAt f, (af_EvaluationId f, (af_ExpectedOutcome f, (af_Id f, (af_Note f, tt))))))
    (λ '(createdAt, (evaluationId, (outcome, (id, (note, tt))))),
       MkAPIFeedback id evaluationId outcome note createdAt).

Definition PolicyQuestion_codec : codec Policies.PolicyQuestion :=
  cstruct (opt "choiceCriteria" (cmap cany) :: req "id" cstring :: req "instructions" cany ::
           opt "noulCriteria" (cmap cany) :: opt "scoreCriteria" (cslice cany) :: req "type" cstring :: [])%tags
    (λ q, (Policies.apq_ChoiceCriteria q, (Policies.apq_Id q, (Policies.apq_Instructions q,
          (Policies.apq_NoulCriteria q, (Policies.apq_ScoreCriteria q, (Policies.apq_Type q, tt)))))))
    (λ '(choice, (id, (instructions, (noul, (score, (type, tt)))))),
       Policies.MkPolicyQuestion id type instructions choice noul score).

Definition Policy_codec : codec Policies.Policy :=
  cstruct (opt "decisionRuleIds" (cslice cstring) :: req "defaultOutcome" cstring ::
           opt "description" cstring :: req "hash" cstring :: opt "model" cstring :: req "name" cstring ::
           opt "optionalFacts" (cmap cstring) :: req "outcomes" (cslice cstring) ::
           opt "preRuleIds" (cslice cstring) :: req "questions" (cslice PolicyQuestion_codec) ::
           opt "requiredFacts" (cmap cstring) :: opt "strictInput" cbool :: req "version" cstring :: [])%tags
    (λ p, (Policies.ap_DecisionRuleIds p, (Policies.ap_DefaultOutcome p, (Policies.ap_Description p,
          (Policies.ap_Hash p, (Policies.ap_Model p, (Policies.ap_Name p, (Policies.ap_OptionalFacts p,
          (Policies.ap_Outcomes p, (Policies.ap_PreRuleIds p, (Policies.ap_Questions p,
          (Policies.ap_RequiredFacts p, (Policies.ap_StrictInput p, (Policies.ap_Version p, tt))))))))))))))
    (λ '(decision, (outcome, (description, (hash, (model, (name, (optionalFacts, (outcomes, (pre,
        (questions, (requiredFacts, (strictInput, (version, tt))))))))))))),
       Policies.MkPolicy name version description hash model outcomes outcome requiredFacts optionalFacts
         strictInput questions pre decision).

Definition PolicyList_codec : codec (list Policies.Policy) :=
  cstruct (req "items" (cslice Policy_codec) :: [])%tags (λ l, (l, tt)) (λ '(l, tt), l).

(** What a reader sees of a validation: the text of its error. *)
Record Validation : Set := MkValidation {
  vl_Error : option string;
  vl_Policy : option Policies.Policy;
  vl_Valid : bool
}.

Definition PolicyValidation_codec : codec Validation :=
  cstruct (opt "error" cstring :: opt "policy" Policy_codec :: req "valid" cbool :: [])%tags
    (λ v, (vl_Error v, (vl_Policy v, (vl_Valid v, tt)))) (λ '(e, (p, (v, tt))), MkValidation e p v).

(** The envelope, with details of any type. *)
Record Envelope : Set := MkEnvelope { en_Code : string; en_Details : goany; en_Message : string }.

Definition Error_codec : codec Envelope :=
  cstruct (req "code" cstring :: opt_any "details" :: req "message" cstring :: [])%tags
    (λ e, (en_Code e, (en_Details e, (en_Message e, tt)))) (λ '(c, (d, (m, tt))), MkEnvelope c d m).

(** ** Bodies *)
Definition decode_CreateEvaluationRequest (strict : bool) (j : json) : option CreateEvaluationBody :=
  read CreateEvaluationRequest_codec strict j (zero CreateEvaluationRequest_codec).
Definition decode_SubmitFeedbackRequest (strict : bool) (j : json) : option (string * option string) :=
  read SubmitFeedbackRequest_codec strict j (zero SubmitFeedbackRequest_codec).
Definition decode_ValidatePolicyRequest (strict : bool) (j : json) : option (list (string * goany)) :=
  read ValidatePolicyRequest_codec strict j (zero ValidatePolicyRequest_codec).

(** The details are a [map[string]any] of two strings. *)
Definition error_details (d : uuid * FailureCode) : goany :=
  AMap [("evaluationId", AString d.1); ("failureCode", AString d.2)].

(** A body as its reader sees it. *)
Inductive payload : Set :=
  | PayloadError (e : Envelope)
  | PayloadEvaluation (e : APIEvaluation)
  | PayloadEvaluationList (l : Evaluations.EvaluationList)
  | PayloadFeedback (f : APIFeedback)
  | PayloadPolicyList (l : list Policies.Policy)
  | PayloadPolicy (p : Policies.Policy)
  | PayloadPolicyValidation (v : Validation).

Definition error_payload (e : Error) : Envelope :=
  MkEnvelope (err_Code e) (match err_Details e with Some d => error_details d | None => ANil end) (err_Message e).

Definition validation_payload `{ErrorText} (v : Policies.PolicyValidation) : Validation :=
  MkValidation (error_text <$> Policies.apv_Error v) (Policies.apv_Policy v) (Policies.apv_Valid v).

Definition payload_of `{ErrorText} (b : ReplyBody) : option payload :=
  match b with
  | BodyError e => Some (PayloadError (error_payload e))
  | BodyEvaluation e => Some (PayloadEvaluation e)
  | BodyEvaluationList l => Some (PayloadEvaluationList l)
  | BodyFeedback f => Some (PayloadFeedback f)
  | BodyPolicyList l => Some (PayloadPolicyList l)
  | BodyPolicy p => Some (PayloadPolicy p)
  | BodyPolicyValidation v => Some (PayloadPolicyValidation (validation_payload v))
  | BodyStatus _ => None
  end.

Definition write_payload (p : payload) : option json :=
  match p with
  | PayloadError e => write Error_codec e
  | PayloadEvaluation e => write Evaluation_codec e
  | PayloadEvaluationList l => write EvaluationList_codec l
  | PayloadFeedback f => write Feedback_codec f
  | PayloadPolicyList l => write PolicyList_codec l
  | PayloadPolicy p => write Policy_codec p
  | PayloadPolicyValidation v => write PolicyValidation_codec v
  end.

(** What [json.NewEncoder] writes for a response object. *)
Definition encode_body `{ErrorText} (b : ReplyBody) : option json :=
  match b with
  | BodyStatus status => Some (JObj [("status", JStr status)])
  | _ => p ← payload_of b; write_payload p
  end.

End types.

(** ** The type of a body *)
Inductive bodyKind : Set :=
  | KindError
  | KindEvaluation
  | KindEvaluationList
  | KindFeedback
  | KindPolicyList
  | KindPolicy
  | KindPolicyValidation.

#[export] Instance bodyKind_eq_dec : EqDecision bodyKind.
Proof. solve_decision. Defined.

Definition kind_of (b : ReplyBody) : option bodyKind :=
  match b with
  | BodyError _ => Some KindError
  | BodyEvaluation _ => Some KindEvaluation
  | BodyEvaluationList _ => Some KindEvaluationList
  | BodyFeedback _ => Some KindFeedback
  | BodyPolicyList _ => Some KindPolicyList
  | BodyPolicy _ => Some KindPolicy
  | BodyPolicyValidation _ => Some KindPolicyValidation
  | BodyStatus _ => None
  end.

End ApiJson.
