(* ===== verification/ApiJsonSpec.v ===== *)
(** * The API codecs are sound

    [JsonStructSpec] for the types of [ApiJson]: the strict decoder of a request agrees with
    the lenient one, and every body is read back from what is written. *)

From S2P Require Import Prelude GoFloat GoAny GoTime Decision Document Canonical Store Loader Policies.
From S2P Require Import EvalConvert Evaluations HttpServer JsonStruct JsonStructSpec ApiJson.
From stdpp Require Import options.
#[local] Open Scope Z_scope.

(** ** The API types *)
Module PayloadSound.
Import EvalConvert HttpErrors HttpServer JsonStruct ApiJson CodecSound.

(** ** Strictness *)
Lemma decode_CreateEvaluationRequest_lax j body :
  ApiJson.decode_CreateEvaluationRequest true j = Some body → ApiJson.decode_CreateEvaluationRequest false j = Some body.
Proof. apply cstruct_lax. cbn. repeat split; auto 8 with codec. apply cptr_lax, cstruct_lax. cbn. auto with codec. Qed.

Lemma decode_SubmitFeedbackRequest_lax j body :
  ApiJson.decode_SubmitFeedbackRequest true j = Some body → ApiJson.decode_SubmitFeedbackRequest false j = Some body.
Proof. apply cstruct_lax. cbn. repeat split; auto 8 with codec. Qed.

Lemma decode_ValidatePolicyRequest_lax j body :
  ApiJson.decode_ValidatePolicyRequest true j = Some body → ApiJson.decode_ValidatePolicyRequest false j = Some body.
Proof. apply cstruct_lax. cbn. repeat split; auto 8 with codec. Qed.

Definition opt_all {A} (P : A → Prop) (v : option A) : Prop :=
  match v with Some a => P a | None => True end.

Lemma opt_all_spec {A} (P : A → Prop) v : opt_all P v ↔ ∀ a, v = Some a → P a.
Proof. destruct v; cbn; naive_solver. Qed.

Definition int_ok (n : Z) : Prop := wrap64 n = n.
Definition map_ok {A} (P : A → Prop) (m : gmap string A) : Prop := ∀ k a, m !! k = Some a → P a.

Section types.
Context `{UuidText}.

Definition uuid_ok (id : uuid) : Prop := uuid_UnmarshalText id = Some id.

(** Values the wire represents: what a reader of the text gets is the value. *)
Definition request_ok (b : CreateEvaluationBody) : Prop :=
  any_ok (cb_State b) ∧ opt_all (map_ok any_ok) (cb_Facts b) ∧ opt_all (λ l, any_ok (AMap l)) (cb_InlinePolicy b).

Definition answer_ok (a : APIAnswer) : Prop :=
  opt_all float_ok (aa_Noul a) ∧ opt_all float_ok (aa_Score a) ∧ opt_all float_ok (aa_Confidence a) ∧
  opt_all (map_ok float_ok) (aa_Probabilities a) ∧ opt_all (map_ok any_ok) (aa_Legend a).

Definition evaluation_ok (e : APIEvaluation) : Prop :=
  uuid_ok (ae_Id e) ∧ map_ok answer_ok (ae_Answers e) ∧ int_ok (ae_Usage e).1 ∧ int_ok (ae_Usage e).2 ∧
  opt_all int_ok (ae_ProviderAttempts e) ∧ opt_all int_ok (ae_ProviderDurationMs e) ∧
  opt_all int_ok (ae_TotalDurationMs e).

Definition feedback_ok (f : APIFeedback) : Prop := uuid_ok (af_Id f) ∧ uuid_ok (af_EvaluationId f).

Definition question_ok (q : Policies.PolicyQuestion) : Prop :=
  any_ok (Policies.apq_Instructions q) ∧ opt_all (map_ok any_ok) (Policies.apq_ChoiceCriteria q) ∧
  opt_all (map_ok any_ok) (Policies.apq_NoulCriteria q) ∧
  opt_all (λ l, ∀ a, a ∈ l → any_ok a) (Policies.apq_ScoreCriteria q).

Definition policy_ok (p : Policies.Policy) : Prop := ∀ q, q ∈ Policies.ap_Questions p → question_ok q.

Definition payload_ok (p : payload) : Prop :=
  match p with
  | PayloadError e => any_ok (en_Details e)
  | PayloadEvaluation e => evaluation_ok e
  | PayloadEvaluationList l => (∀ e, e ∈ Evaluations.el_Items l → evaluation_ok e) ∧
      int_ok (Evaluations.el_Limit l) ∧ int_ok (Evaluations.el_Offset l)
  | PayloadFeedback f => feedback_ok f
  | PayloadPolicyList l => ∀ p, p ∈ l → policy_ok p
  | PayloadPolicy p => policy_ok p
  | PayloadPolicyValidation v => opt_all policy_ok (vl_Policy v)
  end.

(** The steps through pointers, maps and slices. *)
Lemma cmap_ok {A} (P : A → Prop) (c : codec A) m :
  map_ok P m → (∀ a, P a → reads_back c a) → reads_back (cmap c) m.
Proof using. intros Hm Hc. apply cmap_reads_back. intros k a Ha. by eapply Hc, Hm. Qed.

Lemma opt_ok {A} name (P : A → Prop) (c : codec A) v :
  opt_all P v → (∀ a, P a → reads_back c a) → never_null c → tag_reads_back (opt name c) v.
Proof using. intros Hv Hc Hn. apply opt_reads_back; [done|]. intros a ->. by apply Hc. Qed.

Lemma opt_free {A} name (c : codec A) v :
  (∀ a, reads_back c a) → never_null c → tag_reads_back (opt name c) v.
Proof using. intros Hc Hn. apply opt_reads_back; auto. Qed.

Lemma cslice_ok {A} (P : A → Prop) (c : codec A) l :
  (∀ a, a ∈ l → P a) → (∀ a, P a → reads_back c a) → reads_back (cslice c) l.
Proof using. intros Hl Hc. apply cslice_reads_back. auto. Qed.

Lemma cmap_free {A} (c : codec A) m : (∀ a, reads_back c a) → reads_back (cmap c) m.
Proof using. intros Hc. apply cmap_reads_back. auto. Qed.

#[local] Hint Resolve cmap_ok opt_ok opt_free cslice_ok cmap_free : codec.

(** One struct type: its tuple is a bijection on the zero and on the value, its names are
    distinct, and each field reads back. *)
Ltac struct_reads_back :=
  cbn in *; apply cstruct_reads_back;
  [reflexivity | reflexivity | apply (bool_decide_unpack _); reflexivity
  | cbn [fields_read_back fst snd]; repeat match goal with |- _ ∧ _ => split end; try exact I;
    eauto 6 with codec].

Lemma PolicyRef_reads_back r : reads_back PolicyRef_codec r.
Proof using. destruct r. struct_reads_back. Qed.
#[local] Hint Resolve PolicyRef_reads_back : codec.

Lemma CreateEvaluationRequest_reads_back b : request_ok b → reads_back CreateEvaluationRequest_codec b.
Proof using. destruct b. intros (Hs & Hf & Hi). struct_reads_back. Qed.

Lemma SubmitFeedbackRequest_reads_back b : reads_back SubmitFeedbackRequest_codec b.
Proof using. destruct b. struct_reads_back. Qed.

Lemma ValidatePolicyRequest_reads_back b : any_ok (AMap b) → reads_back ValidatePolicyRequest_codec b.
Proof using. intros Hb. struct_reads_back. Qed.

Lemma Answer_reads_back a : answer_ok a → reads_back Answer_codec a.
Proof using. destruct a. intros (Hn & Hs & Hc & Hp & Hl). struct_reads_back. Qed.

Lemma Usage_reads_back u : int_ok u.1 → int_ok u.2 → reads_back Usage_codec u.
Proof using. destruct u. intros Hi Ho. struct_reads_back. Qed.
#[local] Hint Resolve Answer_reads_back Usage_reads_back : codec.

Lemma Evaluation_reads_back e : evaluation_ok e → reads_back Evaluation_codec e.
Proof using. destruct e. intros (Hid & Ha & Hi & Ho & Hp & Hd & Ht). struct_reads_back. Qed.
#[local] Hint Resolve Evaluation_reads_back : codec.

Lemma Feedback_reads_back f : feedback_ok f → reads_back Feedback_codec f.
Proof using. destruct f. intros (Hi & He). struct_reads_back. Qed.

Lemma PolicyQuestion_reads_back q : question_ok q → reads_back PolicyQuestion_codec q.
Proof using. destruct q. intros (Hi & Hc & Hn & Hs). struct_reads_back. Qed.
#[local] Hint Resolve PolicyQuestion_reads_back : codec.

Lemma Policy_reads_back p : policy_ok p → reads_back Policy_codec p.
Proof using. destruct p. unfold policy_ok. intros Hq. struct_reads_back. Qed.
#[local] Hint Resolve Policy_reads_back : codec.

Lemma EvaluationList_reads_back l :
  (∀ e, e ∈ Evaluations.el_Items l → evaluation_ok e) → int_ok (Evaluations.el_Limit l) →
  int_ok (Evaluations.el_Offset l) → reads_back EvaluationList_codec l.
Proof using. destruct l. intros Hi Hl Ho. struct_reads_back. Qed.

Lemma PolicyList_reads_back l : (∀ p, p ∈ l → policy_ok p) → reads_back PolicyList_codec l.
Proof using. intros Hl. struct_reads_back. Qed.

Lemma PolicyValidation_reads_back v : opt_all policy_ok (vl_Policy v) → reads_back PolicyValidation_codec v.
Proof using. destruct v. intros Hp. struct_reads_back. Qed.

Lemma Error_reads_back e : any_ok (en_Details e) → reads_back Error_codec e.
Proof using. destruct e. intros Hd. struct_reads_back. Qed.

(** Every body is read back by its type. *)
Lemma payload_reads_back p j strict :
  payload_ok p → write_payload p = Some j →
  match p with
  | PayloadError e => read Error_codec strict j (zero Error_codec) = Some e
  | PayloadEvaluation e => read Evaluation_codec strict j (zero Evaluation_codec) = Some e
  | PayloadEvaluationList l => read EvaluationList_codec strict j (zero EvaluationList_codec) = Some l
  | PayloadFeedback f => read Feedback_codec strict j (zero Feedback_codec) = Some f
  | PayloadPolicyList l => read PolicyList_codec strict j (zero PolicyList_codec) = Some l
  | PayloadPolicy p => read Policy_codec strict j (zero Policy_codec) = Some p
  | PayloadPolicyValidation v => read PolicyValidation_codec strict j (zero PolicyValidation_codec) = Some v
  end.
Proof using.
  destruct p; cbn [payload_ok write_payload]; intros Hp Hj.
  - by apply Error_reads_back.
  - by apply Evaluation_reads_back.
  - destruct Hp as (? & ? & ?). by apply EvaluationList_reads_back.
  - by apply Feedback_reads_back.
  - by apply PolicyList_reads_back.
  - by apply Policy_reads_back.
  - by apply PolicyValidation_reads_back.
Qed.

End types.
End PayloadSound.
