(* ===== verification/HttpRouter.v ===== *)
(** * The public listener

    [internal/pkg/http/server/middleware.go], [strict_json.go] and [router.go]: what
    wraps every handler, and the error hooks.  A handler either writes a reply or panics
    before writing; the mux and the rate limiter are outside. *)

From S2P Require Import Prelude GoFloat GoAny GoJson Decision Document Store HttpServer ApiJson.
From stdpp Require Import options.
#[local] Open Scope Z_scope.

Module HttpRouter.
Import HttpErrors HttpServer.

(** ** Requests and replies *)

(** A body is the bytes it delivers and the error it ends with. *)
Inductive bodyError : Set := MaxBytesError | BodyReadError.

Record HttpRequest : Set := MkHttpRequest {
  Method : string;
  Pattern : string;                         (** the pattern the mux matched *)
  PathValues : gmap string string;          (** what its wildcards matched *)
  Query : gmap string (list string);        (** [URL.Query()] *)
  Headers : gmap string (list string);      (** by canonical name *)
  Body : string * option bodyError
}.

(** [Header.Get] *)
Definition header_get (name : string) (req : HttpRequest) : string :=
  default "" (head (default [] (Headers req !! name))).

Definition Authorization (req : HttpRequest) : string := header_get "Authorization" req.
Definition RequestIDHeader (req : HttpRequest) : string := header_get "X-Request-Id" req.

Definition with_body (req : HttpRequest) (body : string * option bodyError) : HttpRequest :=
  MkHttpRequest (Method req) (Pattern req) (PathValues req) (Query req) (Headers req) body.

(** What is logged and counted. *)
Inductive httpEvent : Set :=
  | RequestCompleted (method route : string) (status : Z)
  | ObserveHTTP (method route : string) (status : Z)
  | RequestRejected (status : Z) (reason : string)
  | HandlerPanicked.

(** The header set so far and the reply, [None] for a panic. *)
Record outcome (W : Type) : Type := MkOutcome {
  out_world : W;
  out_events : list httpEvent;
  out_headers : gmap string string;
  out_reply : option Reply
}.
Arguments MkOutcome {W} _ _ _ _.
Arguments out_world {W} _.
Arguments out_events {W} _.
Arguments out_headers {W} _.
Arguments out_reply {W} _.

(** A handler gets the headers set on the writer before it runs, and the request
    identifier of its scope. *)
Record scope : Set := MkScope { sc_requestID : string; sc_headers : gmap string string }.

Record RateLimiter : Set := MkRateLimiter { rl_name : string; rl_perSecond : float64; rl_burst : Z }.

(** [uuid] and the token buckets. *)
Class HttpOutside (W : Type) := {
  uuid_NewString : W → W * string;
  uuid_Parse : string → bool;
  limiter_Allow : RateLimiter → W → W * bool
}.

Section router.
Context {W : Type} `{HttpOutside W}.

Definition Handler : Type := scope → HttpRequest → W → outcome W.
Definition Middleware : Type := Handler → Handler.

(** [chain]: the first middleware is the outermost. *)
Definition chain (handler : Handler) (middlewares : list Middleware) : Handler :=
  foldr (λ m h, m h) handler middlewares.

(** ** Constants *)
Definition maxRequestIDLength : Z := 128.
Definition HeaderRequestID : string := "X-Request-Id".
Definition reasonHandlerPanic : string := "handler_panic".
Definition reasonAuthSchemeMissing : string := "auth_scheme_missing".
Definition reasonAuthTokenMismatch : string := "auth_token_mismatch".
Definition reasonRateLimited : string := "rate_limited".

Definition set_header (sc : scope) (key value : string) : scope :=
  MkScope (sc_requestID sc) (<[key := value]> (sc_headers sc)).

Definition add_events (events : list httpEvent) (o : outcome W) : outcome W :=
  MkOutcome (out_world o) (out_events o ++ events) (out_headers o) (out_reply o).

(** [aichteeteapee.WriteJSON] over the headers set so far. *)
Definition ContentTypeJSON : string := "application/json".
Definition json_headers (headers : gmap string string) : gmap string string :=
  <["Content-Type" := ContentTypeJSON]> headers.

(** [writeError] *)
Definition writeError (sc : scope) (w : W) (status : Z) (code message reason : string) : outcome W :=
  MkOutcome w [RequestRejected status reason] (json_headers (sc_headers sc))
    (Some (error_reply status (MkError code message None))).

(** ** Middlewares *)
Definition sanitiseRequestID (candidate : string) (w : W) : W * string :=
  if decide (candidate = "") then uuid_NewString w
  else if maxRequestIDLength <? strlen candidate then uuid_NewString w
  else if uuid_Parse candidate then (w, candidate)
  else uuid_NewString w.

Definition RequestID : Middleware := λ next sc req w,
  let '(w, requestID) := sanitiseRequestID (RequestIDHeader req) w in
  next (MkScope requestID (<[HeaderRequestID := requestID]> (sc_headers sc))) req w.

Definition statusOrOK (reply : option Reply) : Z :=
  match reply with Some r => rp_status r | None => 200 end.

(** A panic goes through without a record. *)
Definition AccessLog (route : string) : Middleware := λ next sc req w,
  let o := next sc req w in
  match out_reply o with
  | Some _ => add_events [RequestCompleted (Method req) route (statusOrOK (out_reply o))] o
  | None => o
  end.

Definition Metrics (route : string) : Middleware := λ next sc req w,
  let o := next sc req w in
  match out_reply o with
  | Some _ => add_events [ObserveHTTP (Method req) route (statusOrOK (out_reply o))] o
  | None => o
  end.

Definition Recovery : Middleware := λ next sc req w,
  let o := next sc req w in
  match out_reply o with
  | Some _ => o
  | None =>
      MkOutcome (out_world o)
        (out_events o ++ [HandlerPanicked; RequestRejected 500 reasonHandlerPanic])
        (json_headers (out_headers o))
        (Some (error_reply 500 (MkError ErrorCodeInternalServerError "Internal server error" None)))
  end.

Definition securityHeaders : list (string * string) :=
  [("X-Content-Type-Options", "nosniff"); ("X-Frame-Options", "DENY");
   ("Referrer-Policy", "no-referrer"); ("Content-Security-Policy", "default-src 'none'");
   ("Cache-Control", "no-store")].

Definition SecurityHeaders : Middleware := λ next sc req w,
  next (foldl (λ sc kv, set_header sc kv.1 kv.2) sc securityHeaders) req w.

Definition scheme : string := "Bearer ".

Definition BearerAuth (token : string) : Middleware := λ next sc req w,
  if decide (token = "") then next sc req w
  else match drop_prefix scheme (Authorization req) with
  | None => writeError sc w 401 ErrorCodeUnauthorized "Unauthorized" reasonAuthSchemeMissing
  | Some supplied =>
      if decide (supplied = token) then next sc req w
      else writeError sc w 401 ErrorCodeUnauthorized "Unauthorized" reasonAuthTokenMismatch
  end.

(** [http.MaxBytesReader]: the bytes up to the limit, then its error. *)
Definition max_bytes (maxBytes : Z) (body : string * option bodyError) : string * option bodyError :=
  if maxBytes <? strlen body.1
  then (String.substring 0 (Z.to_nat maxBytes) body.1, Some MaxBytesError) else body.

Definition BodyLimit (maxBytes : Z) : Middleware := λ next sc req w,
  next sc (with_body req (max_bytes maxBytes (Body req))) w.

Definition secondsPerMinute : Z := 60.

Definition NewRateLimiter (name : string) (perMinute burst : Z) : RateLimiter :=
  MkRateLimiter name (SpecFloat.SFdiv 53 1024 (f64_of_Z perMinute) (f64_of_Z secondsPerMinute)) burst.

Definition RateLimit (limiter : RateLimiter) : Middleware := λ next sc req w,
  let '(w, allowed) := limiter_Allow limiter w in
  if allowed then next sc req w
  else writeError sc w 429 ErrorCodeTooManyRequests "Too many requests" reasonRateLimited.

(** ** Strict JSON *)
Definition APIBasePath : string := "/v1".
Definition HealthPath : string := "/healthz".
Definition ReadyPath : string := "/ready".
Definition MCPPath : string := "/mcp".
Definition MCPSlashPath : string := "/mcp/{$}".
Definition routeEvaluations : string := "/v1/evaluations".
Definition routeEvaluationFeedbck : string := "/v1/evaluations/{evaluationId}/feedback".
Definition routePolicyValidate : string := "/v1/policies/validate".

Definition patternCreateEvaluation : string := "POST " +:+ routeEvaluations.
Definition patternSubmitFeedback : string := "POST " +:+ routeEvaluationFeedbck.
Definition patternValidatePolicy : string := "POST " +:+ routePolicyValidate.

(** Whether the pattern has a request type to decode into. *)
Definition strictJSONTarget (pattern : string) : bool :=
  bool_decide (pattern ∈ [patternCreateEvaluation; patternSubmitFeedback; patternValidatePolicy]).

(** Decoding into the request type of a pattern, unknown fields refused. *)
Definition decode_strict (pattern : string) (v : json) : bool :=
  if decide (pattern = patternCreateEvaluation) then
    bool_decide (is_Some (ApiJson.decode_CreateEvaluationRequest true v))
  else if decide (pattern = patternSubmitFeedback) then
    bool_decide (is_Some (ApiJson.decode_SubmitFeedbackRequest true v))
  else bool_decide (is_Some (ApiJson.decode_ValidatePolicyRequest true v)).

(** [decodeSingleStrictJSON] for the type of a pattern: one value, then only space. *)
Definition decodeSingleStrictJSON (pattern body : string) : bool :=
  match json_prefix body with
  | None => false
  | Some (v, rest) =>
      decode_strict pattern v && bool_decide (skip_space rest = EmptyString)
  end.

(** [writeRequestError], by whether a [MaxBytesError] is in the chain. *)
Definition writeRequestError (sc : scope) (w : W) (tooLarge : bool) : outcome W :=
  MkOutcome w [] (json_headers (sc_headers sc)) (Some (
    if tooLarge then error_reply 413 (MkError ErrorCodePayloadTooLarge "the request body is too large" None)
    else error_reply 400 (MkError ErrorCodeBadRequest "the request could not be decoded" None))).

(** [writeResponseError] *)
Definition writeResponseError (sc : scope) (w : W) : outcome W :=
  MkOutcome w [] (json_headers (sc_headers sc)) (Some (
    error_reply 500 (MkError ErrorCodeInternalServerError "Internal server error" None))).

Definition strictJSONBodies : Middleware := λ next sc req w,
  if negb (strictJSONTarget (Pattern req)) then next sc req w
  else match (Body req).2 with
  | Some MaxBytesError => writeRequestError sc w true
  | Some BodyReadError => writeRequestError sc w false
  | None =>
      if decodeSingleStrictJSON (Pattern req) (Body req).1
      then next sc (with_body req ((Body req).1, None)) w
      else writeRequestError sc w false
  end.

(** ** The router *)
Record RouterConfig : Type := MkRouterConfig {
  APIToken : string;
  MaxRequestBytes : Z;
  RequestsPerMinute : Z;
  RateLimitBurst : Z;
  MCPHandler : option Handler;
  Ready : W → bool
}.

Definition routeTemplate (req : HttpRequest) : string :=
  if decide (Pattern req = "") then "unmatched" else Pattern req.

(** [apiMiddleware] *)
Definition apiMiddleware (config : RouterConfig) : Middleware := λ next,
  let limiter := NewRateLimiter "api" (RequestsPerMinute config) (RateLimitBurst config) in
  let guarded := chain next [RateLimit limiter; BearerAuth (APIToken config);
                             BodyLimit (MaxRequestBytes config); strictJSONBodies] in
  λ sc req w,
  let route := routeTemplate req in
  chain guarded [RequestID; Recovery; SecurityHeaders; AccessLog route; Metrics route] sc req w.

(** [observability] *)
Definition observability (route : string) (next : Handler) : Handler :=
  chain next [RequestID; Recovery; SecurityHeaders; AccessLog route; Metrics route].

Definition healthHandler : Handler := λ sc _ w,
  MkOutcome w [] (json_headers (sc_headers sc)) (Some (MkReply 200 (BodyStatus "ok"))).

Definition readyHandler (config : RouterConfig) (shuttingDown : bool) : Handler := λ sc _ w,
  MkOutcome w [] (json_headers (sc_headers sc)) (Some (
    if shuttingDown || negb (Ready config w) then MkReply 503 (BodyStatus "not_ready")
    else MkReply 200 (BodyStatus "ready"))).

(** [mountMCP]: the same wrapped handler at both paths. *)
Definition mountMCP (config : RouterConfig) : list (string * Handler) :=
  match MCPHandler config with
  | None => []
  | Some handler =>
      let handler := chain handler
        [RequestID; Recovery; SecurityHeaders; AccessLog MCPPath; Metrics MCPPath;
         RateLimit (NewRateLimiter "mcp" (RequestsPerMinute config) (RateLimitBurst config));
         BearerAuth (APIToken config); BodyLimit (MaxRequestBytes config)] in
      [(MCPPath, handler); (MCPSlashPath, handler)]
  end.

End router.
End HttpRouter.
