(* ===== verification/ApiClient.v ===== *)
(** * The generated client

    [pkg/http/api/client/client.gen.go]: how a call becomes a request (the path resolved
    against the server URL, the styled parameters, the JSON body), what is sent after the
    request editors, and how a response is read by its status and content type.  The
    parameter styling of the oapi-codegen runtime and the HTTP transport are parameters. *)

From S2P Require Import Prelude GoFloat GoAny GoJson NetUrl Decision Document Store EvalConvert.
From S2P Require Import Evaluations Policies HttpServer JsonStruct OapiClient ApiJson.
From Stdlib Require Import Ascii String.
From stdpp Require Import options.
#[local] Open Scope Z_scope.

(** [runtime.StyleParamWithOptions], by style, location and type; [None] is its error. *)
Class StyleRuntime := {
  StyleQueryInteger : string → Z → option string;
  StyleQueryString : string → string → option string;
  StylePathString : string → string → option string;
  StylePathUUID : string → uuid → option string;
  StyleHeaderUUID : string → uuid → option string
}.

(** What the runtime documents: a form parameter is [name=value] with both escaped, a
    simple path parameter is the escaped value, and a header is not escaped. *)
Class StyleLaws `{StyleRuntime} := {
  style_query_integer name n :
    StyleQueryInteger name n = Some (NetUrl.QueryEscape name +:+ "=" +:+ NetUrl.QueryEscape (Itoa n));
  style_query_string name v :
    StyleQueryString name v = Some (NetUrl.QueryEscape name +:+ "=" +:+ NetUrl.QueryEscape v);
  style_path_string name v : StylePathString name v = Some (NetUrl.PathEscape v);
  style_path_uuid name id : StylePathUUID name id = Some (NetUrl.PathEscape id);
  style_header_uuid name id : StyleHeaderUUID name id = Some id
}.

(** ** The client's own types

    The structs of [client.gen.go], which are not those of [api.gen.go]: each is given by its
    fields and tags, as values of the record with the fields of that name. *)
Module ClientTypes.
Import EvalConvert HttpErrors HttpServer JsonStruct ApiJson.

Section types.
Context `{UuidText}.

Definition client_PolicyRef : codec Ref :=
  cstruct (req "name" cstring :: req "version" cstring :: [])%tags
    (λ r, (ref_Name r, (ref_Version r, tt))) (λ '(n, (v, tt)), MkRef n v).

Definition client_CreateEvaluationRequest : codec CreateEvaluationBody :=
  cstruct (opt "facts" (cmap cany) :: opt "inlinePolicy" cdocument :: opt "metadata" (cmap cstring) ::
           opt "policyRef" client_PolicyRef :: req "state" cany :: [])%tags
    (λ b, (cb_Facts b, (cb_InlinePolicy b, (cb_Metadata b, (cb_PolicyRef b, (cb_State b, tt))))))
    (λ '(facts, (inline, (metadata, (ref, (state, tt))))),
       MkCreateEvaluationBody state ref inline facts metadata).

(** The expected outcome and the note. *)
Definition client_SubmitFeedbackRequest : codec (string * option string) :=
  cstruct (req "expectedOutcome" cstring :: opt "note" cstring :: [])%tags
    (λ b, (b.1, (b.2, tt))) (λ '(o, (n, tt)), (o, n)).

Definition client_ValidatePolicyRequest : codec (list (string * goany)) :=
  cstruct (req "policy" cdocument :: [])%tags (λ b, (b, tt)) (λ '(b, tt), b).

Definition client_Answer : codec APIAnswer :=
  cstruct (opt "choice" cstring :: opt "confidence" cfloat :: opt "legend" (cmap cany) ::
           opt "noul" cfloat :: opt "probabilities" (cmap cfloat) :: opt "score" cfloat ::
           req "type" cstring :: [])%tags
    (λ a, (aa_Choice a, (aa_Confidence a, (aa_Legend a, (aa_Noul a, (aa_Probabilities a,
           (aa_Score a, (aa_Type a, tt))))))))
    (λ '(choice, (confidence, (legend, (noul, (probabilities, (score, (type, tt))))))),
       MkAPIAnswer type noul choice score confidence probabilities legend).

Definition client_Usage : codec (Z * Z) :=
  cstruct (req "inputTokens" cint :: req "outputTokens" cint :: [])%tags
    (λ u, (u.1, (u.2, tt))) (λ '(i, (o, tt)), (i, o)).

Definition client_Evaluation : codec APIEvaluation :=
  cstruct (req "answers" (cmap client_Answer) :: req "createdAt" ctime ::
           req "executionPath" cstring :: opt "failureCode" cstring :: req "id" cuuid ::
           opt "matchedRuleId" cstring :: opt "metadata" (cmap cstring) :: req "outcome" cstring ::
           req "policy" client_PolicyRef :: req "policyHash" cstring :: req "policyKind" cstring ::
           opt "providerAttempts" cint :: opt "providerDurationMs" cint :: opt "requestId" cstring ::
           opt "requestedModel" cstring :: opt "resolvedModel" cstring :: req "status" cstring ::
           opt "totalDurationMs" cint :: req "usage" client_Usage :: [])%tags
    (λ e, (ae_Answers e, (ae_CreatedAt e, (ae_ExecutionPath e, (ae_FailureCode e, (ae_Id e,
          (ae_MatchedRuleId e, (ae_Metadata e, (ae_Outcome e, (ae_Policy e, (ae_PolicyHash e,
          (ae_PolicyKind e, (ae_ProviderAttempts e, (ae_ProviderDurationMs e, (ae_RequestId e,
          (ae_RequestedModel e, (ae_ResolvedModel e, (ae_Status e, (ae_TotalDurationMs e,
          (ae_Usage e, tt))))))))))))))))))))
    (λ '(answers, (createdAt, (path, (failureCode, (id, (matched, (metadata, (outcome, (policy, (hash,
        (kind, (attempts, (providerMs, (requestId, (requested, (resolved, (status, (totalMs,
        (usage, tt))))))))))))))))))),
       MkAPIEvaluation id policy hash kind status outcome path answers usage createdAt matched
         failureCode requested resolved requestId attempts providerMs totalMs metadata).

Definition client_EvaluationList : codec Evaluations.EvaluationList :=
  cstruct (req "hasMore" cbool :: req "items" (cslice client_Evaluation) :: req "limit" cint ::
           req "offset" cint :: [])%tags
    (λ l, (Evaluations.el_HasMore l, (Evaluations.el_Items l, (Evaluations.el_Limit l,
          (Evaluations.el_Offset l, tt)))))
    (λ '(hasMore, (items, (limit, (offset, tt)))), Evaluations.MkEvaluationList items limit offset hasMore).

Definition client_Feedback : codec APIFeedback :=
  cstruct (req "createdAt" ctime :: req "evaluationId" cuuid :: req "expectedOutcome" cstring ::
           req "id" cuuid :: opt "note" cstring :: [])%tags
    (λ f, (af_CreatedAt f, (af_EvaluationId f, (af_ExpectedOutcome f, (af_Id f, (af_Note f, tt))))))
    (λ '(createdAt, (evaluationId, (outcome, (id, (note, tt))))),
       MkAPIFeedback id evaluationId outcome note createdAt).

Definition client_PolicyQuestion : codec Policies.PolicyQuestion :=
  cstruct (opt "choiceCriteria" (cmap cany) :: req "id" cstring :: req "instructions" cany ::
           opt "noulCriteria" (cmap cany) :: opt "scoreCriteria" (cslice cany) :: req "type" cstring :: [])%tags
    (λ q, (Policies.apq_ChoiceCriteria q, (Policies.apq_Id q, (Policies.apq_Instructions q,
          (Policies.apq_NoulCriteria q, (Policies.apq_ScoreCriteria q, (Policies.apq_Type q, tt)))))))
    (λ '(choice, (id, (instructions, (noul, (score, (type, tt)))))),
       Policies.MkPolicyQuestion id type instructions choice noul score).

Definition client_Policy : codec Policies.Policy :=
  cstruct (opt "decisionRuleIds" (cslice cstring) :: req "defaultOutcome" cstring ::
           opt "description" cstring :: req "hash" cstring :: opt "model" cstring :: req "name" cstring ::
           opt "optionalFacts" (cmap cstring) :: req "outcomes" (cslice cstring) ::
           opt "preRuleIds" (cslice cstring) :: req "questions" (cslice client_PolicyQuestion) ::
           opt "requiredFacts" (cmap cstring) :: opt "strictInput" cbool :: req "version" cstring :: [])%tags
    (λ p, (Policies.ap_DecisionRuleIds p, (Policies.ap_DefaultOutcome p, (Policies.ap_Description p,
          (Policies.ap_Hash p, (Policies.ap_Model p, (Policies.ap_Name p, (Policies.ap_OptionalFacts p,
          (Policies.ap_Outcomes p, (Policies.ap_PreRuleIds p, (Policies.ap_Questions p,
          (Policies.ap_RequiredFacts p, (Policies.ap_StrictInput p, (Policies.ap_Version p, tt))))))))))))))
    (λ '(decision, (outcome, (description, (hash, (model, (name, (optionalFacts, (outcomes, (pre,
        (questions, (requiredFacts, (strictInput, (version, tt))))))))))))),
       Policies.MkPolicy name version description hash model outcomes outcome requiredFacts optionalFacts
         strictInput questions pre decision).

Definition client_PolicyList : codec (list Policies.Policy) :=
  cstruct (req "items" (cslice client_Policy) :: [])%tags (λ l, (l, tt)) (λ '(l, tt), l).

Definition client_PolicyValidation : codec Validation :=
  cstruct (opt "error" cstring :: opt "policy" client_Policy :: req "valid" cbool :: [])%tags
    (λ v, (vl_Error v, (vl_Policy v, (vl_Valid v, tt)))) (λ '(e, (p, (v, tt))), MkValidation e p v).

Definition client_Error : codec Envelope :=
  cstruct (req "code" cstring :: opt_any "details" :: req "message" cstring :: [])%tags
    (λ e, (en_Code e, (en_Details e, (en_Message e, tt)))) (λ '(c, (d, (m, tt))), MkEnvelope c d m).

End types.
End ClientTypes.

Module ApiClient.
Import HttpServer JsonStruct ApiJson ClientTypes.
Export OapiClient.

(** ** Requests *)
Section builders.
Context `{StyleRuntime}.

Definition NewListEvaluationsRequest (server : string) (params : option ListEvaluationsParams) : res request :=
  let url := operation_url server "/evaluations" in
  match params with
  | None => Ok (new_request "GET" url)
  | Some params =>
      (* the operation's URL has no query of its own to keep *)
      limit ← query_fragments (StyleQueryInteger "limit") (lp_Limit params);
      offset ← query_fragments (StyleQueryInteger "offset") (lp_Offset params);
      policyName ← query_fragments (StyleQueryString "policyName") (lp_PolicyName params);
      policyVersion ← query_fragments (StyleQueryString "policyVersion") (lp_PolicyVersion params);
      outcome ← query_fragments (StyleQueryString "outcome") (lp_Outcome params);
      status ← query_fragments (StyleQueryString "status") (lp_Status params);
      Ok (new_request "GET" (url.1, NetUrl.join_with "&"
        (limit ++ offset ++ policyName ++ policyVersion ++ outcome ++ status)))
  end.

Definition NewCreateEvaluationRequestWithBody (server : string) (key : option uuid)
  (contentType body : string) : res request :=
  let req := new_body_request "POST" (operation_url server "/evaluations") contentType body in
  match key with
  | None => Ok req
  | Some key =>
      headerParam0 ← or_error (StyleHeaderUUID "Idempotency-Key" key);
      Ok (MkRequest (rq_method req) (rq_path req) (rq_query req)
            (header_set "Idempotency-Key" headerParam0 (rq_header req)) (rq_body req))
  end.

Definition NewCreateEvaluationRequest (server : string) (key : option uuid) (body : CreateEvaluationBody)
  : res request :=
  buf ← json_Marshal client_CreateEvaluationRequest body;
  NewCreateEvaluationRequestWithBody server key "application/json" buf.

Definition NewGetEvaluationRequest (server : string) (evaluationId : uuid) : res request :=
  pathParam0 ← or_error (StylePathUUID "evaluationId" evaluationId);
  Ok (new_request "GET" (operation_url server ("/evaluations/" +:+ pathParam0))).

Definition NewSubmitFeedbackRequestWithBody (server : string) (evaluationId : uuid)
  (contentType body : string) : res request :=
  pathParam0 ← or_error (StylePathUUID "evaluationId" evaluationId);
  Ok (new_body_request "POST" (operation_url server ("/evaluations/" +:+ pathParam0 +:+ "/feedback"))
        contentType body).

Definition NewSubmitFeedbackRequest (server : string) (evaluationId : uuid)
  (body : string * option string) : res request :=
  buf ← json_Marshal client_SubmitFeedbackRequest body;
  NewSubmitFeedbackRequestWithBody server evaluationId "application/json" buf.

Definition NewListPoliciesRequest (server : string) : res request :=
  Ok (new_request "GET" (operation_url server "/policies")).

Definition NewValidatePolicyRequestWithBody (server contentType body : string) : res request :=
  Ok (new_body_request "POST" (operation_url server "/policies/validate") contentType body).

Definition NewValidatePolicyRequest (server : string) (body : list (string * goany)) : res request :=
  buf ← json_Marshal client_ValidatePolicyRequest body;
  NewValidatePolicyRequestWithBody server "application/json" buf.

Definition NewGetPolicyRequest (server policyName policyVersion : string) : res request :=
  pathParam0 ← or_error (StylePathString "policyName" policyName);
  pathParam1 ← or_error (StylePathString "policyVersion" policyVersion);
  Ok (new_request "GET" (operation_url server ("/policies/" +:+ pathParam0 +:+ "/versions/" +:+ pathParam1))).

End builders.

(** ** Calls *)
Section client.
Context {W : Type} `{StyleRuntime} `{UuidText}.

Definition ListEvaluations (c : Client W) (params : option ListEvaluationsParams) :=
  send c (NewListEvaluationsRequest (Server c) params).
Definition CreateEvaluationWithBody (c : Client W) (key : option uuid) (contentType body : string) :=
  send c (NewCreateEvaluationRequestWithBody (Server c) key contentType body).
Definition CreateEvaluation (c : Client W) (key : option uuid) (body : CreateEvaluationBody) :=
  send c (NewCreateEvaluationRequest (Server c) key body).
Definition GetEvaluation (c : Client W) (evaluationId : uuid) :=
  send c (NewGetEvaluationRequest (Server c) evaluationId).
Definition SubmitFeedbackWithBody (c : Client W) (evaluationId : uuid) (contentType body : string) :=
  send c (NewSubmitFeedbackRequestWithBody (Server c) evaluationId contentType body).
Definition SubmitFeedback (c : Client W) (evaluationId : uuid) (body : string * option string) :=
  send c (NewSubmitFeedbackRequest (Server c) evaluationId body).
Definition ListPolicies (c : Client W) := send c (NewListPoliciesRequest (Server c)).
Definition ValidatePolicyWithBody (c : Client W) (contentType body : string) :=
  send c (NewValidatePolicyRequestWithBody (Server c) contentType body).
Definition ValidatePolicy (c : Client W) (body : list (string * goany)) :=
  send c (NewValidatePolicyRequest (Server c) body).
Definition GetPolicy (c : Client W) (policyName policyVersion : string) :=
  send c (NewGetPolicyRequest (Server c) policyName policyVersion).

(** ** Reading responses *)

(** [json.Unmarshal] into a fresh value of the type. *)
Definition unmarshal_payload (kind : bodyKind) (j : json) : option payload :=
  match kind with
  | KindError => PayloadError <$> read client_Error false j (zero client_Error)
  | KindEvaluation => PayloadEvaluation <$> read client_Evaluation false j (zero client_Evaluation)
  | KindEvaluationList => PayloadEvaluationList <$> read client_EvaluationList false j (zero client_EvaluationList)
  | KindFeedback => PayloadFeedback <$> read client_Feedback false j (zero client_Feedback)
  | KindPolicyList => PayloadPolicyList <$> read client_PolicyList false j (zero client_PolicyList)
  | KindPolicy => PayloadPolicy <$> read client_Policy false j (zero client_Policy)
  | KindPolicyValidation =>
      PayloadPolicyValidation <$> read client_PolicyValidation false j (zero client_PolicyValidation)
  end.

(** The [JSONnnn] fields of the response type of each operation, which have a getter each;
    an error of any status is an [Error]. *)
Definition ListEvaluationsResponse : list (Z * bodyKind) :=
  [(200, KindEvaluationList); (400, KindError); (401, KindError); (500, KindError)].
Definition CreateEvaluationResponse : list (Z * bodyKind) :=
  [(201, KindEvaluation); (400, KindError); (401, KindError); (404, KindError); (409, KindError);
   (413, KindError); (422, KindError); (429, KindError); (500, KindError); (502, KindError);
   (503, KindError); (504, KindError)].
Definition GetEvaluationResponse : list (Z * bodyKind) :=
  [(200, KindEvaluation); (400, KindError); (401, KindError); (404, KindError); (500, KindError)].
Definition SubmitFeedbackResponse : list (Z * bodyKind) :=
  [(201, KindFeedback); (400, KindError); (401, KindError); (404, KindError); (422, KindError);
   (500, KindError)].
Definition ListPoliciesResponse : list (Z * bodyKind) :=
  [(200, KindPolicyList); (401, KindError); (500, KindError)].
Definition ValidatePolicyResponse : list (Z * bodyKind) :=
  [(200, KindPolicyValidation); (400, KindError); (401, KindError); (413, KindError); (500, KindError)].
Definition GetPolicyResponse : list (Z * bodyKind) :=
  [(200, KindPolicy); (400, KindError); (401, KindError); (404, KindError); (500, KindError)].

(** The parsed response of an operation: of its [JSONnnn] fields at most one is set. *)
Record parsedResponse : Set := MkParsed {
  pr_Body : string;
  pr_HTTPResponse : httpResponse;
  pr_JSON : option (Z * payload)
}.

Definition GetJSON (status : Z) (r : parsedResponse) : option payload :=
  match pr_JSON r with
  | Some (s, p) => if decide (s = status) then Some p else None
  | None => None
  end.
Definition GetBody (r : parsedResponse) : string := pr_Body r.
Definition StatusCode (r : parsedResponse) : Z := hr_StatusCode (pr_HTTPResponse r).
Definition ContentType (r : parsedResponse) : string :=
  header_get "Content-Type" (pr_HTTPResponse r).

(** The switch of a [Parse] function: the first case whose status and content type match. *)
Definition parse_response (cases : list (Z * bodyKind)) (rsp : httpResponse) : res parsedResponse :=
  bodyBytes ← read_all (hr_Body rsp);
  let isJSON := NetUrl.contains_string "json" (header_get "Content-Type" rsp) in
  match List.find (λ c : Z * bodyKind, isJSON && (hr_StatusCode rsp =? c.1)) cases with
  | None => Ok (MkParsed bodyBytes rsp None)
  | Some (status, kind) =>
      match json_parse bodyBytes ≫= unmarshal_payload kind with
      | None => Err (EForeign "unmarshal response")
      | Some dest => Ok (MkParsed bodyBytes rsp (Some (status, dest)))
      end
  end.

Definition ParseListEvaluationsResponse : httpResponse → res parsedResponse := parse_response
  [(200, KindEvaluationList); (400, KindError); (401, KindError); (500, KindError)].
Definition ParseCreateEvaluationResponse : httpResponse → res parsedResponse := parse_response
  [(201, KindEvaluation); (400, KindError); (401, KindError); (404, KindError); (409, KindError);
   (413, KindError); (422, KindError); (429, KindError); (500, KindError); (502, KindError);
   (503, KindError); (504, KindError)].
Definition ParseGetEvaluationResponse : httpResponse → res parsedResponse := parse_response
  [(200, KindEvaluation); (400, KindError); (401, KindError); (404, KindError); (500, KindError)].
Definition ParseSubmitFeedbackResponse : httpResponse → res parsedResponse := parse_response
  [(201, KindFeedback); (400, KindError); (401, KindError); (404, KindError); (422, KindError);
   (500, KindError)].
Definition ParseListPoliciesResponse : httpResponse → res parsedResponse := parse_response
  [(200, KindPolicyList); (401, KindError); (500, KindError)].
Definition ParseValidatePolicyResponse : httpResponse → res parsedResponse := parse_response
  [(200, KindPolicyValidation); (400, KindError); (401, KindError); (413, KindError); (500, KindError)].
Definition ParseGetPolicyResponse : httpResponse → res parsedResponse := parse_response
  [(200, KindPolicy); (400, KindError); (401, KindError); (404, KindError); (500, KindError)].

(** ** Calls that read their response *)
Definition and_parse (call : W → W * res httpResponse) (parse : httpResponse → res parsedResponse) (w : W)
  : W * res parsedResponse :=
  let '(w, rsp) := call w in (w, rsp ≫= parse).

Definition ListEvaluationsWithResponse (c : Client W) params reqEditors :=
  and_parse (ListEvaluations c params reqEditors) ParseListEvaluationsResponse.
Definition CreateEvaluationWithBodyWithResponse (c : Client W) key contentType body reqEditors :=
  and_parse (CreateEvaluationWithBody c key contentType body reqEditors) ParseCreateEvaluationResponse.
Definition CreateEvaluationWithResponse (c : Client W) key body reqEditors :=
  and_parse (CreateEvaluation c key body reqEditors) ParseCreateEvaluationResponse.
Definition GetEvaluationWithResponse (c : Client W) evaluationId reqEditors :=
  and_parse (GetEvaluation c evaluationId reqEditors) ParseGetEvaluationResponse.
Definition SubmitFeedbackWithBodyWithResponse (c : Client W) evaluationId contentType body reqEditors :=
  and_parse (SubmitFeedbackWithBody c evaluationId contentType body reqEditors) ParseSubmitFeedbackResponse.
Definition SubmitFeedbackWithResponse (c : Client W) evaluationId body reqEditors :=
  and_parse (SubmitFeedback c evaluationId body reqEditors) ParseSubmitFeedbackResponse.
Definition ListPoliciesWithResponse (c : Client W) reqEditors :=
  and_parse (ListPolicies c reqEditors) ParseListPoliciesResponse.
Definition ValidatePolicyWithBodyWithResponse (c : Client W) contentType body reqEditors :=
  and_parse (ValidatePolicyWithBody c contentType body reqEditors) ParseValidatePolicyResponse.
Definition ValidatePolicyWithResponse (c : Client W) body reqEditors :=
  and_parse (ValidatePolicy c body reqEditors) ParseValidatePolicyResponse.
Definition GetPolicyWithResponse (c : Client W) policyName policyVersion reqEditors :=
  and_parse (GetPolicy c policyName policyVersion reqEditors) ParseGetPolicyResponse.

End client.

(** The kind of the field a payload is in. *)
Definition payload_kind (p : payload) : bodyKind :=
  match p with
  | PayloadError _ => KindError
  | PayloadEvaluation _ => KindEvaluation
  | PayloadEvaluationList _ => KindEvaluationList
  | PayloadFeedback _ => KindFeedback
  | PayloadPolicyList _ => KindPolicyList
  | PayloadPolicy _ => KindPolicy
  | PayloadPolicyValidation _ => KindPolicyValidation
  end.

End ApiClient.
