(* ===== verification/ApiServer.v ===== *)
(** * The generated server

    [internal/pkg/http/api/api.gen.go]: the wrapper that binds the parameters of an
    operation before it runs the middlewares, the strict handlers that decode the body,
    call the operation and write its response object, and the registration of the seven
    patterns.  The binding functions of the oapi-codegen runtime are a parameter.

    Its Module [Listener] is [Router.Handler] of [http/server/router.go]: the generated
    server over the REST handlers, the probes and the MCP mount, all on one
    [http.ServeMux], and what that mux does with a request.  The world of a handler is the
    state the services run in. *)

From S2P Require Import Prelude GoFloat GoAny GoJson NetUrl Decision Document Store Effects Loader Policies.
From S2P Require Import EvalConvert Evaluations HttpServer JsonStruct ApiJson HttpRouter.
From stdpp Require Import options.
#[local] Open Scope Z_scope.

(** [runtime.BindQueryParameterWithOptions] on a primitive behind a pointer (form,
    exploded, optional), and [runtime.BindStyledParameterWithOptions] (simple). *)
Inductive bindError : Set := RequiredParameterError | BindFailure.

Class ParamRuntime := {
  BindQueryInteger : string → gmap string (list string) → option Z + bindError;
  BindQueryString : string → gmap string (list string) → option string + bindError;
  BindPathString : string → string → string + bindError;
  BindPathUUID : string → string → uuid + bindError;
  BindHeaderUUID : string → string → uuid + bindError
}.

(** What the runtime documents: an optional parameter that is absent is left alone, a
    single value is converted, an empty path value is refused; a UUID is read by its
    [UnmarshalText], and read from its canonical text it is unchanged. *)
Class ParamRuntimeLaws `{ParamRuntime} (canonical : uuid → Prop) := {
  bind_integer_absent name query : query !! name = None → BindQueryInteger name query = inl None;
  bind_integer name query n : query !! name = Some [Itoa n] → wrap64 n = n →
    BindQueryInteger name query = inl (Some n);
  bind_string_absent name query : query !! name = None → BindQueryString name query = inl None;
  bind_string name query s : query !! name = Some [s] → BindQueryString name query = inl (Some s);
  bind_path name s : s ≠ "" → BindPathString name s = inl s;
  bind_path_uuid name id : canonical id → BindPathUUID name id = inl id;
  bind_header_uuid name id : canonical id → BindHeaderUUID name id = inl id;
  canonical_length id : canonical id → strlen id = 36
}.

(** A query parameter is looked up by its name; the other parameters are not read. *)
Class ParamRuntimeLocal `{ParamRuntime} := {
  bind_integer_local name query query' : query !! name = query' !! name →
    BindQueryInteger name query = BindQueryInteger name query';
  bind_string_local name query query' : query !! name = query' !! name →
    BindQueryString name query = BindQueryString name query'
}.

Module ApiServer.
Import EvalConvert HttpErrors HttpServer ApiJson HttpRouter.

(** ** Errors of the wrapper *)
Inductive paramError : Set :=
  | RequiredParamError (ParamName : string)
  | InvalidParamFormatError (ParamName : string) (Err : bindError)
  | TooManyValuesForParamError (ParamName : string) (Count : nat).

(** What reaches the request error hooks: a parameter, or a body that did not decode,
    with the read error in its chain. *)
Inductive requestError : Set :=
  | ParamError (e : paramError)
  | DecodeError (cause : option bodyError).

(** [errors.As] for [*http.MaxBytesError]. *)
Definition as_MaxBytesError (err : requestError) : bool :=
  match err with DecodeError (Some MaxBytesError) => true | _ => false end.

(** ** Response objects

    The members of the response interface of each operation: the status its [Visit] method
    writes and the type it encodes. *)
Definition ListEvaluationsResponseObject : list (Z * bodyKind) :=
  [(200, KindEvaluationList); (400, KindError); (401, KindError); (500, KindError)].
Definition CreateEvaluationResponseObject : list (Z * bodyKind) :=
  [(201, KindEvaluation); (400, KindError); (401, KindError); (404, KindError); (409, KindError);
   (413, KindError); (422, KindError); (429, KindError); (500, KindError); (502, KindError);
   (503, KindError); (504, KindError)].
Definition GetEvaluationResponseObject : list (Z * bodyKind) :=
  [(200, KindEvaluation); (400, KindError); (401, KindError); (404, KindError); (500, KindError)].
Definition SubmitFeedbackResponseObject : list (Z * bodyKind) :=
  [(201, KindFeedback); (400, KindError); (401, KindError); (404, KindError); (422, KindError);
   (500, KindError)].
Definition ListPoliciesResponseObject : list (Z * bodyKind) :=
  [(200, KindPolicyList); (401, KindError); (500, KindError)].
Definition ValidatePolicyResponseObject : list (Z * bodyKind) :=
  [(200, KindPolicyValidation); (400, KindError); (401, KindError); (413, KindError); (500, KindError)].
Definition GetPolicyResponseObject : list (Z * bodyKind) :=
  [(200, KindPolicy); (400, KindError); (401, KindError); (404, KindError); (500, KindError)].

(** A reply implements the interface. *)
Definition implements (objects : list (Z * bodyKind)) (reply : Reply) : bool :=
  match kind_of (rp_body reply) with
  | Some kind => bool_decide ((rp_status reply, kind) ∈ objects)
  | None => false
  end.

Section server.
Context {W : Type} `{ErrorText} `{UuidText} `{ParamRuntime}.

(** ** The operations *)

(** [ServerInterface] *)
Record ServerInterface : Type := MkServerInterface {
  si_ListEvaluations : ListEvaluationsParams → Handler (W:=W);
  si_CreateEvaluation : option uuid → Handler (W:=W);
  si_GetEvaluation : uuid → Handler (W:=W);
  si_SubmitFeedback : uuid → Handler (W:=W);
  si_ListPolicies : Handler (W:=W);
  si_ValidatePolicy : Handler (W:=W);
  si_GetPolicy : string → string → Handler (W:=W)
}.

Definition RequestErrorHandler : Type := scope → HttpRequest → W → requestError → outcome W.

Record ServerInterfaceWrapper : Type := MkWrapper {
  siw_Handler : ServerInterface;
  siw_HandlerMiddlewares : list (Middleware (W:=W));
  siw_ErrorHandlerFunc : RequestErrorHandler
}.

(** ** Binding *)

(** One query parameter of [ListEvaluations]: the runtime's error is a missing parameter
    or a malformed one. *)
Definition bind_query {A} (name : string) (bound : option A + bindError) : option A + paramError :=
  match bound with
  | inl v => inl v
  | inr RequiredParameterError => inr (RequiredParamError name)
  | inr err => inr (InvalidParamFormatError name err)
  end.

Definition bind_path_value {A} (name : string) (bound : A + bindError) : A + paramError :=
  match bound with
  | inl v => inl v
  | inr err => inr (InvalidParamFormatError name err)
  end.

(** [r.PathValue] *)
Definition PathValue (req : HttpRequest) (name : string) : string := default "" (PathValues req !! name).

Definition params_ListEvaluations (req : HttpRequest) : ListEvaluationsParams + paramError :=
  let query := Query req in
  match bind_query "limit" (BindQueryInteger "limit" query) with inr e => inr e | inl limit =>
  match bind_query "offset" (BindQueryInteger "offset" query) with inr e => inr e | inl offset =>
  match bind_query "policyName" (BindQueryString "policyName" query) with inr e => inr e | inl policyName =>
  match bind_query "policyVersion" (BindQueryString "policyVersion" query) with inr e => inr e | inl policyVersion =>
  match bind_query "outcome" (BindQueryString "outcome" query) with inr e => inr e | inl outcome =>
  match bind_query "status" (BindQueryString "status" query) with inr e => inr e | inl status =>
  inl (MkListEvaluationsParams limit offset policyName policyVersion outcome status)
  end end end end end end.

Definition params_CreateEvaluation (req : HttpRequest) : option uuid + paramError :=
  match Headers req !! "Idempotency-Key" with
  | None => inl None
  | Some [value] =>
      match BindHeaderUUID "Idempotency-Key" value with
      | inl key => inl (Some key)
      | inr err => inr (InvalidParamFormatError "Idempotency-Key" err)
      end
  | Some values => inr (TooManyValuesForParamError "Idempotency-Key" (length values))
  end.

Definition params_evaluationId (req : HttpRequest) : uuid + paramError :=
  bind_path_value "evaluationId" (BindPathUUID "evaluationId" (PathValue req "evaluationId")).

Definition params_GetPolicy (req : HttpRequest) : string * string + paramError :=
  match bind_path_value "policyName" (BindPathString "policyName" (PathValue req "policyName")) with
  | inr e => inr e
  | inl policyName =>
      match bind_path_value "policyVersion" (BindPathString "policyVersion" (PathValue req "policyVersion")) with
      | inr e => inr e
      | inl policyVersion => inl (policyName, policyVersion)
      end
  end.

(** ** The wrapper: bind, then the middlewares around the handler *)
Definition wrapped (siw : ServerInterfaceWrapper) (handler : Handler) : Handler :=
  foldl (λ h middleware, middleware h) handler (siw_HandlerMiddlewares siw).

Definition bound {P} (siw : ServerInterfaceWrapper) (params : HttpRequest → P + paramError)
  (handler : P → Handler) : Handler := λ sc req w,
  match params req with
  | inr err => siw_ErrorHandlerFunc siw sc req w (ParamError err)
  | inl p => wrapped siw (handler p) sc req w
  end.

Definition siw_ListEvaluations (siw : ServerInterfaceWrapper) : Handler :=
  bound siw params_ListEvaluations (si_ListEvaluations (siw_Handler siw)).
Definition siw_CreateEvaluation (siw : ServerInterfaceWrapper) : Handler :=
  bound siw params_CreateEvaluation (si_CreateEvaluation (siw_Handler siw)).
Definition siw_GetEvaluation (siw : ServerInterfaceWrapper) : Handler :=
  bound siw params_evaluationId (si_GetEvaluation (siw_Handler siw)).
Definition siw_SubmitFeedback (siw : ServerInterfaceWrapper) : Handler :=
  bound siw params_evaluationId (si_SubmitFeedback (siw_Handler siw)).
Definition siw_ListPolicies (siw : ServerInterfaceWrapper) : Handler :=
  wrapped siw (si_ListPolicies (siw_Handler siw)).
Definition siw_ValidatePolicy (siw : ServerInterfaceWrapper) : Handler :=
  wrapped siw (si_ValidatePolicy (siw_Handler siw)).
Definition siw_GetPolicy (siw : ServerInterfaceWrapper) : Handler :=
  bound siw params_GetPolicy (λ p, si_GetPolicy (siw_Handler siw) p.1 p.2).

(** ** The strict handlers *)

(** [StrictServerInterface]: the context of a call is the scope.  The response objects
    are [Reply]s, an [Err] is the second result, and [None] a panic. *)
Definition Operation (A : Type) : Type := scope → A → W → W * option (res Reply).

Record StrictServerInterface : Type := MkStrictServerInterface {
  ssi_ListEvaluations : Operation ListEvaluationsParams;
  ssi_CreateEvaluation : Operation CreateEvaluationRequest;
  ssi_GetEvaluation : Operation uuid;
  ssi_SubmitFeedback : Operation SubmitFeedbackRequest;
  ssi_ListPolicies : Operation unit;
  ssi_ValidatePolicy : Operation (option (list (string * goany)));
  ssi_GetPolicy : Operation (string * string)
}.

(** [StrictHTTPServerOptions] *)
Record StrictHTTPServerOptions : Type := MkStrictOptions {
  RequestErrorHandlerFunc : RequestErrorHandler;
  ResponseErrorHandlerFunc : scope → HttpRequest → W → outcome W
}.

(** Calling an operation and writing what it answers: another type than its response
    interface is an error, and the [Visit] method of a response object encodes it before it
    touches the writer. *)
Definition respond (options : StrictHTTPServerOptions) (objects : list (Z * bodyKind)) {A}
  (operation : Operation A) (request : A) : Handler := λ sc req w,
  match operation sc request w with
  | (w, None) => MkOutcome w [] (sc_headers sc) None
  | (w, Some (Err err)) => ResponseErrorHandlerFunc options sc req w
  | (w, Some (Ok reply)) =>
      if implements objects reply then
        match ApiJson.encode_body (rp_body reply) with
        | None => ResponseErrorHandlerFunc options sc req w
        | Some _ => MkOutcome w [] (json_headers (sc_headers sc)) (Some reply)
        end
      else ResponseErrorHandlerFunc options sc req w
  end.

(** [json.NewDecoder(r.Body).Decode(&body)]: the first value of the body. *)
Definition decode_body {B} (decode : json → option B) (body : string * option bodyError)
  : B + option bodyError :=
  match json_prefix body.1 with
  | None => inr body.2
  | Some (v, _) => match decode v with Some b => inl b | None => inr None end
  end.

Definition with_json_body (options : StrictHTTPServerOptions) {B} (decode : json → option B)
  (handler : B → Handler) : Handler := λ sc req w,
  match decode_body decode (Body req) with
  | inr cause => RequestErrorHandlerFunc options sc req w (DecodeError cause)
  | inl body => handler body sc req w
  end.

(** The strict handlers, without strict middlewares, as the router builds them. *)
Definition sh_ListEvaluations (ssi : StrictServerInterface) (options : StrictHTTPServerOptions)
  (params : ListEvaluationsParams) : Handler :=
  respond options ListEvaluationsResponseObject (ssi_ListEvaluations ssi) params.
Definition sh_CreateEvaluation (ssi : StrictServerInterface) (options : StrictHTTPServerOptions)
  (key : option uuid) : Handler :=
  with_json_body options (decode_CreateEvaluationRequest false) (λ body,
    respond options CreateEvaluationResponseObject (ssi_CreateEvaluation ssi)
      (MkCreateEvaluationRequest (Some body) key)).
Definition sh_GetEvaluation (ssi : StrictServerInterface) (options : StrictHTTPServerOptions)
  (evaluationId : uuid) : Handler :=
  respond options GetEvaluationResponseObject (ssi_GetEvaluation ssi) evaluationId.
Definition sh_SubmitFeedback (ssi : StrictServerInterface) (options : StrictHTTPServerOptions)
  (evaluationId : uuid) : Handler :=
  with_json_body options (decode_SubmitFeedbackRequest false) (λ body,
    respond options SubmitFeedbackResponseObject (ssi_SubmitFeedback ssi)
      (MkSubmitFeedbackRequest evaluationId (Some body))).
Definition sh_ListPolicies (ssi : StrictServerInterface) (options : StrictHTTPServerOptions) : Handler :=
  respond options ListPoliciesResponseObject (ssi_ListPolicies ssi) tt.
Definition sh_ValidatePolicy (ssi : StrictServerInterface) (options : StrictHTTPServerOptions) : Handler :=
  with_json_body options (decode_ValidatePolicyRequest false) (λ body,
    respond options ValidatePolicyResponseObject (ssi_ValidatePolicy ssi) (Some body)).
Definition sh_GetPolicy (ssi : StrictServerInterface) (options : StrictHTTPServerOptions)
  (policyName policyVersion : string) : Handler :=
  respond options GetPolicyResponseObject (ssi_GetPolicy ssi) (policyName, policyVersion).

(** [NewStrictHandlerWithOptions] *)
Definition NewStrictHandlerWithOptions (ssi : StrictServerInterface) (options : StrictHTTPServerOptions)
  : ServerInterface :=
  MkServerInterface (sh_ListEvaluations ssi options) (sh_CreateEvaluation ssi options)
    (sh_GetEvaluation ssi options) (sh_SubmitFeedback ssi options) (sh_ListPolicies ssi options)
    (sh_ValidatePolicy ssi options) (sh_GetPolicy ssi options).

(** ** Registration *)

(** [StdHTTPServerOptions] without its router. *)
Record StdHTTPServerOptions : Type := MkStdOptions {
  BaseURL : string;
  Middlewares : list (Middleware (W:=W));
  ErrorHandlerFunc : RequestErrorHandler
}.

(** [HandlerWithOptions]: what it registers on the mux, in order. *)
Definition HandlerWithOptions (si : ServerInterface) (options : StdHTTPServerOptions)
  : list (string * Handler (W:=W)) :=
  let wrapper := MkWrapper si (Middlewares options) (ErrorHandlerFunc options) in
  [("GET " +:+ BaseURL options +:+ "/evaluations", siw_ListEvaluations wrapper);
   ("POST " +:+ BaseURL options +:+ "/evaluations", siw_CreateEvaluation wrapper);
   ("GET " +:+ BaseURL options +:+ "/evaluations/{evaluationId}", siw_GetEvaluation wrapper);
   ("POST " +:+ BaseURL options +:+ "/evaluations/{evaluationId}/feedback", siw_SubmitFeedback wrapper);
   ("GET " +:+ BaseURL options +:+ "/policies", siw_ListPolicies wrapper);
   ("GET " +:+ BaseURL options +:+ "/policies/{policyName}/versions/{policyVersion}", siw_GetPolicy wrapper);
   ("POST " +:+ BaseURL options +:+ "/policies/validate", siw_ValidatePolicy wrapper)].

End server.
End ApiServer.

(** ** The assembled listener *)
Module Listener.
Import EvalConvert HttpErrors HttpServer HttpRouter ApiServer.

Section listener.
Context {W : Type} `{Database W} `{ProviderPort W} `{Runtime W} `{YamlDecoder}.
Context `{Secrets.AEADConstruction} `{HttpOutside (St W)} `{ErrorText} `{UuidText} `{ParamRuntime}.

Record Server : Type := MkServer {
  s_evaluations : Evaluations.Service;
  s_policies : Policies.Service
}.

Definition New (evaluationService : Evaluations.Service) (policyService : Policies.Service) : Server :=
  MkServer evaluationService policyService.

(** A handler of [handlers.go] as an operation.  Its run ends in a result, or in a panic of
    the recorder it measures with. *)
Definition operation {A} (handler : scope → A → M W Reply) : Operation (W:=St W) A := λ sc request w,
  let p := handler sc request w in
  (p.1, if negb (is_ok p.2) && panicked w p.1 then None else Some p.2).

(** [Server] as the [StrictServerInterface] it implements; the request identifier of the
    scope is what [requestIDFromContext] finds. *)
Definition strict_server (s : Server) : StrictServerInterface (W:=St W) :=
  MkStrictServerInterface
    (operation (λ _ params, ListEvaluations params))
    (operation (λ sc request, CreateEvaluation (s_evaluations s) (sc_requestID sc) request))
    (operation (λ _ evaluationId, GetEvaluation evaluationId))
    (operation (λ _ request, SubmitFeedback (s_evaluations s) request))
    (operation (λ _ _, ListPolicies (s_policies s)))
    (operation (λ _ body, ValidatePolicy (s_policies s) body))
    (operation (λ _ ref, GetPolicy (s_policies s) ref.1 ref.2)).

Record Router : Type := MkRouter {
  config : RouterConfig (W:=St W);
  server : Server;
  shuttingDown : bool
}.

Definition NewRouter (server : Server) (config : RouterConfig) : Router := MkRouter config server false.

(** [BeginShutdown] *)
Definition BeginShutdown (r : Router) : Router := MkRouter (config r) (server r) true.

(** [writeRequestError] as the error hook of the binder and of the strict handlers. *)
Definition request_error : RequestErrorHandler (W:=St W) := λ sc _ w err,
  writeRequestError sc w (as_MaxBytesError err).

Definition response_error (sc : scope) (_ : HttpRequest) (w : St W) : outcome (St W) :=
  writeResponseError sc w.

(** [NewStrictHandlerWithOptions] with both hooks replaced, and the middlewares of the
    generated server. *)
Definition strict_handler (r : Router) : ServerInterface (W:=St W) :=
  NewStrictHandlerWithOptions (strict_server (server r)) (MkStrictOptions request_error response_error).

Definition std_options (r : Router) : StdHTTPServerOptions (W:=St W) :=
  MkStdOptions APIBasePath [apiMiddleware (config r)] request_error.

(** [Router.Handler]: what the mux holds. *)
Definition Router_Handler (r : Router) : list (string * Handler (W:=St W)) :=
  HandlerWithOptions (strict_handler r) (std_options r) ++
  [(HealthPath, observability HealthPath healthHandler);
   (ReadyPath, observability ReadyPath (readyHandler (config r) (shuttingDown r)))] ++
  mountMCP (config r).

(** ** A request from outside *)

(** What a client sends: the escaped path and the raw query of its URL, the headers by
    canonical name and the body. *)
Record rawRequest : Set := MkRaw {
  raw_method : string;
  raw_path : string;
  raw_query : string;
  raw_headers : gmap string (list string);
  raw_body : string * option bodyError
}.

(** Answered by a registered handler, or by the mux itself. *)
Inductive served : Type :=
  | Answered (o : outcome (St W))
  | Redirected (path : string)
  | Refused (status : Z).

(** [ServeMux.ServeHTTP] on the routes. *)
Definition ServeHTTP (routes : list (string * Handler (W:=St W))) (raw : rawRequest) (w : St W) : served :=
  match NetUrl.find_handler routes (raw_method raw) (raw_path raw) with
  | NetUrl.Matched pattern values handler =>
      Answered (handler (MkScope "" ∅)
        (MkHttpRequest (raw_method raw) pattern values (NetUrl.parse_query (raw_query raw))
           (raw_headers raw) (raw_body raw)) w)
  | NetUrl.RedirectTo path => Redirected path
  | NetUrl.MethodNotAllowed => Refused 405
  | NetUrl.NotFound => Refused 404
  end.

End listener.
End Listener.
