(* ===== verification/ServiceFixtures.v ===== *)
(** * A running service and its listener on the in-memory world

    The router policy behind a service, one request with an idempotency key, and the
    runs the witnesses evaluate; then (Module [HttpFixtures]) a parameter runtime that meets
    its laws, an HTTP environment over the same world, and a listener. *)

From S2P Require Import Prelude GoFloat GoAny GoJson NetUrl Decision Document Canonical Compile.
From S2P Require Import WellFormed CompileSound Fixtures Store Effects Loader Policies Secrets.
From S2P Require Import EvalConvert Evaluations MemStore EvalFrames EvalSpec CreateSpec Retention RetentionSpec ServiceSpec.
From S2P Require Import HttpServer JsonStruct ApiJson HttpRouter ApiClient ApiServer.
From stdpp Require Import options.
#[local] Open Scope Z_scope.

Module ServiceFixtures.
Import Fixtures MemStore EvalConvert Evaluations.

(** A decoder that knows one document. *)
#[export] Instance fixture_yaml : YamlDecoder := {
  yaml_Decode data := if decide (data = "router.yaml") then Ok router
                      else Err (EForeign "yaml: cannot decode");
  yaml_trailing_EOF _ := true
}.

Definition router_set : Loader.Set_ :=
  match Loader.NewSet [router_policy] with Ok set => set | Err _ => Loader.MkSet ∅ [] end.

Definition config : Config :=
  MkConfig false 262144 1048576 24 64 16 256 false 86400000000000.

Definition service : Service :=
  MkService (Policies.New router_set 262144) None config true.

Lemma router_set_ok : Loader.NewSet [router_policy] = Ok router_set.
Proof.
  unfold router_set. destruct (Loader.NewSet_distinct [router_policy]) as [s Hs].
  - apply NoDup_singleton.
  - by rewrite Hs.
Qed.

Lemma service_is_ok : ServiceSpec.service_ok service.
Proof.
  intros ref c. destruct (Loader.NewSet_Ok _ _ router_set_ok) as [[_ _ Hg] _].
  intros [->%list_elem_of_singleton ?]%Hg. split; [|done].
  by apply (CompileSound.compile_inv router MaxQuestions), router_policy_ok.
Qed.

Definition request : CreateInput :=
  MkCreateInput (Some (MkRef "router" "1.0.0")) [] (AString "where is my invoice?")
    (Some router_facts) None "key-1" "req-1".

(** The same key with other facts: the pre-rule matches them. *)
Definition other_request : CreateInput :=
  MkCreateInput (Some (MkRef "router" "1.0.0")) [] (AString "where is my invoice?")
    (Some {["owner.known" := ABool false]}) None "key-1" "req-2".

Definition keyless (input : CreateInput) : CreateInput :=
  MkCreateInput (ci_PolicyRef input) (ci_InlinePolicy input) (ci_State input) (ci_Facts input)
    (ci_Metadata input) "" (ci_RequestID input).

Definition response : Provider.Response :=
  Provider.MkResponse "jev-1" router_answers (Provider.MkUsage 120 8)
    [Provider.MkAttempt 1 200 250000000 None] 250000000.

Definition start (script : list (res Provider.Response)) : St World :=
  MkSt (world_of empty_tables script) [].

Lemma run_ok {A} (p : St World * res A) (a : A) : p.2 = Ok a → p = (p.1, Ok a).
Proof. destruct p as [st r]. simpl. by intros ->. Qed.

Definition script : list (res Provider.Response) := [Ok response; Ok response].

(** The request on a fresh database, then again. *)
Definition run1 : St World * res APIEvaluation := Create service request (start script).
Definition run2 : St World * res APIEvaluation := Create service request run1.1.

Definition no_evaluation : APIEvaluation :=
  evaluationModelToAPI (newRecord emptyCompiled "" request "" 0).
Definition ok_or {A} (d : A) (r : res A) : A := match r with Ok a => a | Err _ => d end.
Definition evaluation1 : APIEvaluation := ok_or no_evaluation run1.2.
Definition evaluation2 : APIEvaluation := ok_or no_evaluation run2.2.

Lemma run1_ok : Create service request (start script) = (run1.1, Ok evaluation1).
Proof. apply run_ok. vm_compute. reflexivity. Qed.
Lemma run2_ok : Create service request run1.1 = (run2.1, Ok evaluation2).
Proof. apply run_ok. vm_compute. reflexivity. Qed.

(** The same tables two days later, with an empty trace. *)
Definition later : St World :=
  MkSt (MkWorld (mw_tables (st_world run1.1)) [] 1700172800000000000 7 script) [].

(** *** A cipher that hides nothing, to run the sealing code on *)
#[export] Instance clear_aead : AEADConstruction := {
  base64_DecodeString s := Some s;
  base64_EncodeToString s := s;
  new_gcm _ := Ok (MkAEAD 12 (λ _ plain, plain) (λ _ cipher, Some cipher))
}.
#[export] Instance clear_laws : AEADLaws.
Proof. split; simpl; [done|by eauto|by intros ? ? [= <-]|by intros ? ? ? ? [= <-]]. Qed.

Definition sealer : option Secrets.Sealer :=
  Some (Secrets.MkSealer (Some (MkAEAD 12 (λ _ plain, plain) (λ _ cipher, Some cipher)))).
Lemma sealer_keyed : Secrets.keyed_sealer sealer.
Proof. intros a [= <-]. by exists "". Qed.

Definition retaining : Service :=
  MkService (Policies.New router_set 262144) sealer
    (MkConfig false 262144 1048576 24 64 16 256 true 86400000000000) false.
End ServiceFixtures.

(** ** A running listener *)
Module HttpFixtures.
Import MemStore ServiceFixtures HttpServer HttpRouter Listener.

Definition one_value {A} (parse : string → option A) (values : option (list string)) : option A + bindError :=
  match values with
  | None | Some [] => inl None
  | Some [v] => match parse v with Some a => inl (Some a) | None => inr BindFailure end
  | Some _ => inr BindFailure
  end.

Definition required {A} (parse : string → option A) (v : string) : A + bindError :=
  if decide (v = "") then inr BindFailure
  else match parse v with Some a => inl a | None => inr BindFailure end.

Definition canonical_uuid (id : string) : Prop := strlen id = 36.

Definition parse_uuid (v : string) : option string := if decide (strlen v = 36) then Some v else None.

#[export] Instance plain_uuid : UuidText := parse_uuid.

#[export] Instance plain_params : ParamRuntime := {
  BindQueryInteger name query := one_value Atoi (query !! name);
  BindQueryString name query := one_value Some (query !! name);
  BindPathString _ v := required Some v;
  BindPathUUID _ v := required parse_uuid v;
  BindHeaderUUID _ v := required parse_uuid v
}.

#[export] Instance plain_params_laws : ParamRuntimeLaws canonical_uuid.
Proof.
  assert (∀ id, canonical_uuid id → required parse_uuid id = inl id) as Hu.
  { intros id Hid. unfold required, parse_uuid. rewrite decide_False, decide_True; [done|done|].
    intros ->. done. }
  split; cbn.
  - by intros name query ->.
  - intros name query n -> Hn. cbn. by rewrite Atoi_Itoa.
  - by intros name query ->.
  - by intros name query s ->.
  - intros _ s Hs. unfold required. by rewrite decide_False.
  - intros _. apply Hu.
  - intros _. apply Hu.
  - done.
Qed.

#[export] Instance plain_params_local : ParamRuntimeLocal.
Proof. by split; cbn; intros name query query' ->. Qed.

#[export] Instance plain_style : StyleRuntime := {
  StyleQueryInteger name n := Some (NetUrl.QueryEscape name +:+ "=" +:+ NetUrl.QueryEscape (Itoa n));
  StyleQueryString name v := Some (NetUrl.QueryEscape name +:+ "=" +:+ NetUrl.QueryEscape v);
  StylePathString _ v := Some (NetUrl.PathEscape v);
  StylePathUUID _ id := Some (NetUrl.PathEscape id);
  StyleHeaderUUID _ id := Some id
}.
#[export] Instance plain_style_laws : StyleLaws.
Proof. by split. Qed.

#[export] Instance plain_error_text : ErrorText := λ _, "validation failed".

Definition fixed_id : string := "6ba7b810-9dad-11d1-80b4-00c04fd430c8".

#[export] Instance service_outside : HttpOutside (St World) := {
  uuid_NewString w := (w, fixed_id);
  uuid_Parse s := bool_decide (strlen s = 36);
  limiter_Allow _ w := (w, true)
}.

Definition router : Router (W:=World) :=
  NewRouter (Listener.New service (Policies.New router_set 262144))
    (MkRouterConfig "secret" 4096 600 10 None (λ _, true)).

Definition get (path query token : string) : rawRequest :=
  MkRaw "GET" path query {[ "Authorization" := [token] ]} ("", None).

Definition answer (raw : rawRequest) : option (Z * bool) :=
  match ServeHTTP (Router_Handler router) raw (start script) with
  | Answered o => (λ reply, (rp_status reply, bool_decide (is_Some (out_headers o !! HeaderRequestID)))) <$> out_reply o
  | Redirected _ => Some (301, false)
  | Refused status => Some (status, false)
  end.

(** A malformed identifier is refused without a token, and without a request identifier. *)
Example answers :
  answer (get "/v1/policies" "" "Bearer secret") = Some (200, true) ∧
  answer (get "/v1/policies" "" "Bearer wrong") = Some (401, true) ∧
  answer (get "/v1/evaluations/nope" "" "") = Some (400, false) ∧
  answer (get ("/v1/evaluations/" +:+ fixed_id) "" "Bearer secret") = Some (404, true) ∧
  answer (get "/v1/evaluations" "limit=0" "Bearer secret") = Some (400, true) ∧
  answer (get "/v1/evaluations" "limit=x" "") = Some (400, false) ∧
  answer (get "/v1/evaluations/" "" "Bearer secret") = Some (404, false) ∧
  answer (get "/healthz" "" "") = Some (200, true) ∧
  answer (get "/v1//policies" "" "") = Some (301, false).
Proof. vm_compute. done. Qed.

End HttpFixtures.
