(* ===== verification/EvaluationTheorems.v ===== *)
(** * The evaluation service: its theorems

    What [internal/pkg/core/evaluations] and the retention loop guarantee of the stored
    decisions, over any database, provider and clock that meet the interfaces. *)

From S2P Require Import Prelude GoFloat GoAny Decision Document Condition Canonical Compile.
From S2P Require Import WellFormed Fixtures CompileSound Evaluate Store Effects Loader Policies Secrets.
From S2P Require Import EvalConvert Evaluations MemStore EvalFrames EvalSpec CreateSpec.
From S2P Require Import Retention RetentionSpec ServiceSpec ServiceFixtures.
From stdpp Require Import options.
#[local] Open Scope Z_scope.

Module EvaluationTheorems.
Import Compile WellFormed CompileSound EvalConvert Evaluations MemStore EvalFrames EvalSpec.
Import CreateSpec Retention RetentionSpec ServiceSpec ListSpec ServiceFixtures.

(** ** Histories *)

(** The operations that reach the tables. *)
Inductive op : Type :=
  | OpCreate (input : CreateInput)
  | OpGet (id : uuid)
  | OpList (filter : ListFilter)
  | OpFeedback (input : FeedbackInput)
  | OpCleanup (settings : retentionSettings).

Section theorems.
#[local] Set Default Proof Using "Type*".
Context {W : Type} `{Database W, !DatabaseLaws W} `{ProviderPort W} `{Runtime W}
  `{!OutsideLaws W} `{YamlDecoder}.

(** An operation, its answer dropped. *)
Definition run_op (s : Service) (o : op) (st : St W) : St W :=
  match o with
  | OpCreate input => (Create s input st).1
  | OpGet id => (Get id st).1
  | OpList filter => (List filter st).1
  | OpFeedback input => (SubmitFeedback s input st).1
  | OpCleanup settings => (cleanup settings st).1
  end.

(** Tables some history of operations leads to. Between operations the world may
    change in any way that leaves the tables alone, and the service may be restarted
    with another policy set. *)
Inductive reachable : Tables → Prop :=
  | reachable_empty : reachable (MkTables ∅ ∅ ∅ ∅)
  | reachable_op s o st : service_ok s → reachable (tables (st_world st)) →
      reachable (tables (st_world (run_op s o st))).

Lemma frame_List k filter : frame eq k (List (W:=W) filter).
Proof.
  unfold List. frame_then; [frame_step|]. intros _.
  do 2 (frame_then; [apply (frame_read eq); intros; apply evaluation_find_frame|]; intros ?).
  frame_step.
Qed.

Lemma cleaned_ok now cutoff t t' : tables_ok t → cleaned now cutoff t t' → tables_ok t'.
Proof.
  intros [Hk Hv Hpn Hsn Hik Hfb] [Hs [Hi _] [He _] [Hf _] Ha]. split.
  - intros k r Hr. by eapply Hk, lookup_weaken.
  - intros k r Hr. by eapply Hv, lookup_weaken.
  - intros k r Hr. by eapply Hpn, lookup_weaken.
  - rewrite Hs. intros k r Hr. by eapply Hsn, lookup_weaken.
  - intros k r Hr. by eapply Hik, lookup_weaken.
  - intros k r Hr. destruct (Hfb k r) as (? & ? & ?); [by eapply lookup_weaken|]. eauto.
Qed.

(** How one operation moves well-formed tables. *)
Lemma run_op_cases s o st :
  tables_ok (tables (st_world st)) →
  let t := tables (st_world st) in let t' := tables (st_world (run_op s o st)) in
  match o with
  | OpCreate input => ∃ n r, create_step (W:=W) s input t t' n r
  | OpFeedback input => ∃ r, feedback_step s input t t' r
  | OpCleanup settings => ∃ now, cleaned (column_time now) (cutoff_at settings now) t t'
  | _ => t' = t
  end.
Proof.
  intros Ht. destruct o as [input|id|filter|input|settings]; simpl.
  - destruct (Create s input st) as [st' [ev|e]] eqn:E; simpl.
    + apply Create_Ok in E as (n & _ & Hs). eauto.
    + apply Create_Err in E as (n & _ & Hs). eauto.
  - symmetry. apply (frame_Get eq 0 id st).
  - symmetry. apply (frame_List 0 filter st).
  - destruct (SubmitFeedback s input st) as [st' r] eqn:E. exists r.
    by apply SubmitFeedback_step in E.
  - destruct (cleanup_total settings st) as [[deleted err] Hr].
    destruct (cleanup settings st) as [st' r] eqn:E. simpl in *. subst r.
    apply cleanup_run in E as (Hc & _); [eauto|apply Ht].
Qed.

Lemma run_op_ok s o st :
  service_ok s → tables_ok (tables (st_world st)) →
  tables_ok (tables (st_world (run_op s o st))).
Proof.
  intros Hs Ht. pose proof (run_op_cases s o st Ht) as Hc.
  destruct o as [input|id|filter|input|settings]; simpl in *.
  - destruct Hc as (n & r & Hc). by eapply create_step_ok.
  - by rewrite Hc.
  - by rewrite Hc.
  - destruct Hc as (r & Hc). by eapply feedback_step_ok.
  - destruct Hc as (now & Hc). by eapply cleaned_ok.
Qed.

Lemma reachable_ok t : reachable t → tables_ok t.
Proof. induction 1; [apply empty_tables_ok|by apply run_op_ok]. Qed.

(** C7: the contract of [Create]: a call replays the stored evaluation of its key and
    changes nothing, or decides once and writes exactly one evaluation (with its key
    and snapshot), or fails and leaves evaluations, keys and feedback as they were; it
    asks the provider once when no pre-rule matches, and never for a replay. *)
Theorem create_refines s input st :
  ∃ n, made n st (Create s input st).1 ∧
    create_step (W:=W) s input (tables (st_world st))
      (tables (st_world (Create s input st).1)) n (Create s input st).2.
Proof.
  destruct (Create s input st) as [st' [ev|e]] eqn:E; simpl.
  - by apply Create_Ok.
  - by apply Create_Err.
Qed.

(** C8: whatever the history of operations run one after the other, from empty tables, with
    failing statements, restarts and other policy sets in between, the stored rows are
    consistent: a completed evaluation
    has a valid outcome, a path and no failure code, a failed one decides nothing and
    names its failure, its policy is named as one that compiles and its snapshot is stored,
    and feedback always refers to a stored evaluation.  The last part needs the operations
    not to overlap: a cleanup pass between the read and the insert of a feedback request
    leaves feedback without its evaluation ([feedback_races_cleanup]). *)
Theorem stored_decisions_consistent t : reachable t → tables_ok t.
Proof. apply reachable_ok. Qed.

(** C9: stored decisions are immutable: no operation rewrites an evaluation or a
    feedback row, and only a cleanup pass may remove one. *)
Theorem rows_never_rewritten s o st k :
  tables_ok (tables (st_world st)) →
  let t := tables (st_world st) in let t' := tables (st_world (run_op s o st)) in
  (∀ r, t_evaluations t !! k = Some r → t_evaluations t' !! k = Some r ∨
     ∃ settings, o = OpCleanup settings ∧ t_evaluations t' !! k = None) ∧
  (∀ f, t_feedback t !! k = Some f → t_feedback t' !! k = Some f ∨
     ∃ settings, o = OpCleanup settings ∧ t_feedback t' !! k = None).
Proof.
  intros Ht. pose proof (run_op_cases s o st Ht) as Hc. simpl in *.
  destruct o as [input|id|filter|input|settings]; simpl in *.
  - destruct Hc as (n & r & Hc).
    inversion Hc as [? ? ? ? _ _ Et|compiled ? ? record _ [_ _ _ _ (loadedAt & Hw)]|? ? Hcore];
      subst; [rewrite Et; auto| |].
    + destruct (with_snapshot_core compiled loadedAt (tables (st_world st))) as [He _ Hf _].
      destruct Hw as (Hn & -> & -> & _). rewrite He, Hf in *. split; [|auto].
      intros r' Hr. left. rewrite lookup_insert_ne; [done|congruence].
    + destruct Hcore as [-> _ -> _]. auto.
  - rewrite Hc. auto.
  - rewrite Hc. auto.
  - destruct Hc as (r & Hc). inversion Hc as [row id at_ _ _ _ Hn record Et|? Et]; subst; rewrite Et;
      [|auto]. simpl. split; [auto|]. intros f Hf. left. rewrite lookup_insert_ne; congruence.
  - destruct Hc as (now & [_ _ [He _] [Hf _] _]). split; intros r Hr.
    + destruct (t_evaluations (tables (st_world (cleanup settings st).1)) !! k) eqn:E;
        [|eauto]. left. pose proof (lookup_weaken _ _ _ _ E He). congruence.
    + destruct (t_feedback (tables (st_world (cleanup settings st).1)) !! k) eqn:E;
        [|eauto]. left. pose proof (lookup_weaken _ _ _ _ E Hf). congruence.
Qed.
(** ** Provider calls *)

(** One evaluation costs at most one provider call, and none when a pre-rule
    matches the facts, whatever fails afterwards. *)
Lemma provider_called_at_most_once s input st :
  ∃ l, st_events (Create (W:=W) s input st).1 = st_events st ++ l ∧
    (provider_calls l <= 1)%nat ∧
    ∀ compiled kind result, resolvePolicy s input = Ok (compiled, kind) →
      Evaluate.EvaluatePreRules compiled (facts_of input) = Some result →
      provider_calls l = 0%nat.
Proof.
  destruct (frame_Create s input st) as (_ & l & El & Hl). exists l.
  split; [done|]. split; [done|]. intros compiled kind result Hr Hp.
  destruct (frame_Create_calls s 0 input) with (st := st) as (_ & k & Ek & Hk).
  - intros c' kind' Hr'. rewrite Hr in Hr'. injection Hr' as <- <-.
    by eapply frame_decide_pre.
  - rewrite El in Ek. apply app_inv_head in Ek as <-. lia.
Qed.

(** What is refused costs nothing: a request whose policy does not resolve or
    whose shape is over a ceiling changes nothing at all, and one whose facts the
    policy refuses reaches neither the provider nor the evaluations. *)
Lemma refused_requests_cost_nothing s input st :
  (∀ e, resolvePolicy s input = Err e → Create (W:=W) s input st = (st, Err e)) ∧
  (∀ ck e, resolvePolicy s input = Ok ck → validateRequestShape (svc_config s) input = Err e →
     Create (W:=W) s input st = (st, Err e)) ∧
  (∀ compiled kind e, resolvePolicy s input = Ok (compiled, kind) →
     Condition.ValidateFacts compiled (facts_of input) = Err e →
     made 0 st (Create (W:=W) s input st).1 ∧
     t_evaluations (tables (st_world (Create (W:=W) s input st).1)) =
       t_evaluations (tables (st_world st))).
Proof.
  split; [|split].
  - intros e E. unfold Create. by rewrite M_bind_run, E.
  - intros ck e E Es. unfold Create. rewrite M_bind_run, E. simpl. rewrite M_bind_run, Es. done.
  - intros compiled kind e Hr Hf.
    destruct (frame_Create_calls s 0 input) with (st := st) as (_ & l & El & Hl).
    { intros c' kind' Hr'. rewrite Hr in Hr'. injection Hr' as <- <-.
      by eapply frame_decide_facts. }
    split; [exists l; split; [done|lia]|].
    destruct (Create s input st) as [st' [ev|err]] eqn:E; simpl.
    + apply Create_Ok in E as (n & _ & Hs).
      inversion Hs as [? ? ? ? _ _ Et|? ? ? record Hacc [Hf' _ _ _ _]|]; subst; [by rewrite Et|].
      pose proof (ac_policy _ _ _ _ _ Hacc) as Hr'. rewrite Hr in Hr'.
      simplify_eq. congruence.
    + apply Create_core in E. by apply E.
Qed.

(** C10: what an evaluation may cost: at most one provider call, and none when a pre-rule
    matches the facts, whatever fails afterwards; and what is refused costs nothing: a request
    whose policy does not resolve or whose shape is over a ceiling changes nothing at all, and
    one whose facts the policy refuses reaches neither the provider nor the evaluations. *)
Theorem evaluation_cost_bounded s input st :
  (∃ l, st_events (Create (W:=W) s input st).1 = st_events st ++ l ∧
    (provider_calls l <= 1)%nat ∧
    ∀ compiled kind result, resolvePolicy s input = Ok (compiled, kind) →
      Evaluate.EvaluatePreRules compiled (facts_of input) = Some result →
      provider_calls l = 0%nat) ∧
  (∀ e, resolvePolicy s input = Err e → Create (W:=W) s input st = (st, Err e)) ∧
  (∀ ck e, resolvePolicy s input = Ok ck → validateRequestShape (svc_config s) input = Err e →
     Create (W:=W) s input st = (st, Err e)) ∧
  (∀ compiled kind e, resolvePolicy s input = Ok (compiled, kind) →
     Condition.ValidateFacts compiled (facts_of input) = Err e →
     made 0 st (Create (W:=W) s input st).1 ∧
     t_evaluations (tables (st_world (Create (W:=W) s input st).1)) =
       t_evaluations (tables (st_world st))).
Proof. split; [apply provider_called_at_most_once|apply refused_requests_cost_nothing]. Qed.

(** ** Idempotency *)

(** C11: while a key is live, [Create] answers from the store: the same request gets
    the stored evaluation, another request gets a conflict, and neither calls the
    provider or measures anything. *)
Theorem live_key_answers s input compiled kind requestHash w w1 w2 t key l :
  accepted s input compiled kind requestHash → ci_IdempotencyKey input ≠ "" →
  IdempotencyRecord_First (hashKey (ci_IdempotencyKey input)) w = (w1, Ok key) →
  world_now w1 = (w2, t) → t <= ir_ExpiresAt key →
  if decide (ir_CanonicalRequestHash key = requestHash) then
    ∀ w3 row, Evaluation_First (ir_EvaluationID key) w2 = (w3, Ok row) →
      Create (W:=W) s input (MkSt w l) = (MkSt w3 l, Ok (evaluationModelToAPI row))
  else Create (W:=W) s input (MkSt w l) = (MkSt w2 l, Err (EIs ErrIdempotencyConflict)).
Proof.
  intros [Hp Hs Hh] Hk Hread Hnow Hexp.
  assert (∀ st' r, replay input requestHash (MkSt w l) = (st', r) →
    match r with
    | Ok (Some ev) => Create (W:=W) s input (MkSt w l) = (st', Ok ev)
    | Err e => Create (W:=W) s input (MkSt w l) = (st', Err e)
    | Ok None => True
    end) as Hreplay.
  { intros st' r Hr. unfold Create. rewrite M_bind_run, Hp. simpl. rewrite M_bind_run, Hs.
    simpl. rewrite M_bind_run, Hh. simpl. rewrite M_bind_run, Hr. by destruct r as [[]|]. }
  unfold replay in Hreplay. rewrite decide_False in Hreplay by done.
  assert (attempt (call (IdempotencyRecord_First (hashKey (ci_IdempotencyKey input))))
    (MkSt w l) = (MkSt w1 l, Ok (Ok key))) as E1.
  { unfold attempt, call. simpl. by rewrite Hread. }
  assert (now (MkSt w1 l) = (MkSt w2 l, Ok t)) as E2.
  { unfold now, ask. simpl. by rewrite Hnow. }
  setoid_rewrite M_bind_run in Hreplay. rewrite E1 in Hreplay.
  setoid_rewrite M_bind_run in Hreplay. rewrite E2, decide_False in Hreplay by lia.
  case_decide; [|by apply (Hreplay _ (Err _))].
  intros w3 row Hrow. apply (Hreplay _ (Ok (Some _))).
  rewrite M_bind_run. unfold attempt, Get, findEvaluation.
  unfold mbind, M_bind, attempt, call. simpl. by rewrite Hrow.
Qed.
(** The evaluation as it reads once its timestamp has been stored. *)
Definition at_time (t : time) (e : APIEvaluation) : APIEvaluation :=
  let 'MkAPIEvaluation id p h k st oc ep a u _ mr fc rm sm rq pa pd td md := e in
  MkAPIEvaluation id p h k st oc ep a u t mr fc rm sm rq pa pd td md.

Lemma stored_api r :
  evaluationModelToAPI (stored_evaluation column_time r) =
  at_time (column_time (ev_CreatedAt r)) (evaluationModelToAPI r).
Proof. done. Qed.

(** What a successful call leaves behind: the row, and the key when there is one. *)
Lemma Create_stored s input st st' ev :
  keyed (tables (st_world st)) → Create s input st = (st', Ok ev) →
  ∃ row, t_evaluations (tables (st_world st')) !! ae_Id ev = Some row ∧
    (evaluationModelToAPI row = ev ∨
     evaluationModelToAPI row = at_time (column_time (ae_CreatedAt ev)) ev) ∧
    (ci_IdempotencyKey input ≠ "" → ∃ key compiled kind requestHash,
       accepted s input compiled kind requestHash ∧
       key_of (tables (st_world st')) input = Some key ∧
       ir_CanonicalRequestHash key = requestHash ∧ ir_EvaluationID key = ae_Id ev).
Proof.
  intros Hk Hc. apply Create_Ok in Hc as (n & _ & Hs).
  inversion Hs as [compiled kind h ev' Hacc (key & row & Hkey & Hh & Hrow & Eev) Et|
    compiled kind h record Hacc [_ _ _ _ (loadedAt & Hw)]|]; subst.
  - rewrite Et. exists row. simpl. rewrite (Hk _ _ Hrow). split; [done|]. split; [by left|].
    intros _. by exists key, compiled, kind, (ir_CanonicalRequestHash key).
  - destruct Hw as (_ & He & _ & _ & Hi). exists (stored_evaluation column_time record).
    split; [by rewrite He, lookup_insert_eq|]. split; [by right|].
    intros Hne. rewrite decide_False in Hi by done. destruct Hi as (_ & now & Hi).
    exists (stored_idempotency column_time (key_row s input h record now)), compiled, kind, h.
    split; [done|]. split; [|done]. unfold key_of. by rewrite decide_False, Hi, lookup_insert_eq.
Qed.

(** A repeated request is served the same evaluation: once [Create] has answered a
    request with a key, the next answer to it is that evaluation, at no provider call
    and no write. *)
Theorem same_key_same_evaluation s input st st1 ev1 st2 st3 ev2 :
  keyed (tables (st_world st)) → ci_IdempotencyKey input ≠ "" →
  Create s input st = (st1, Ok ev1) → tables (st_world st2) = tables (st_world st1) →
  Create s input st2 = (st3, Ok ev2) →
  made 0 st2 st3 ∧ tables (st_world st3) = tables (st_world st2) ∧
  (ev2 = ev1 ∨ ev2 = at_time (column_time (ae_CreatedAt ev1)) ev1).
Proof.
  intros Hk Hne Hc1 Et Hc2. apply Create_stored in Hc1 as (row & Hrow & Hev & Hkey); [|done].
  destruct (Hkey Hne) as (key & c & k & h & _ & Hk1 & _ & Hid). rewrite <- Et in Hk1, Hrow.
  destruct (used_key_replays _ _ _ _ _ _ Hc2 Hk1)
    as (c2 & k2 & h2 & _ & (key' & row' & Hk2 & _ & Hrow' & ->) & Ht & Hm).
  split; [done|]. split; [done|]. assert (key' = key) as -> by congruence.
  rewrite Hid in Hrow'. assert (row' = row) as -> by congruence. exact Hev.
Qed.

(** C12: a stored key that has expired, or whose evaluation is gone, serves no request: as long
    as its row is there, no request that carries the key returns an evaluation, although
    the service means to treat such a key as unused, and may pay for the provider call
    first. *)
Theorem stale_key_never_served s input st key :
  key_of (tables (st_world st)) input = Some key →
  ir_ExpiresAt key < (world_now
    (IdempotencyRecord_First (hashKey (ci_IdempotencyKey input)) (st_world st)).1).2 ∨
  t_evaluations (tables (st_world st)) !! ir_EvaluationID key = None →
  ∃ e, (Create (W:=W) s input st).2 = Err e.
Proof.
  intros Hk Hstale. destruct (Create s input st) as [st' [ev|e]] eqn:E; simpl; [|eauto].
  exfalso. destruct Hstale as [Hexp|Hgone]; [by eapply expired_key_fails|].
  destruct (used_key_replays _ _ _ _ _ _ E Hk) as (? & ? & ? & _ & (key' & row & Hk' & _ & Hrow & _) & _).
  congruence.
Qed.

(** ** What is returned *)

(** C13: what [Create] returns is stored: the row is consistent, its snapshot is
    there, and reading the identifier back gives the evaluation that was returned, its
    time at the precision of the column. *)
Theorem created_is_retrievable s input st st' ev :
  service_ok s → tables_ok (tables (st_world st)) → Create s input st = (st', Ok ev) →
  ∃ row, t_evaluations (tables (st_world st')) !! ae_Id ev = Some row ∧
    verdict_ok (verdict_of row) ∧
    is_Some (t_snapshots (tables (st_world st')) !! ev_PolicySnapshotHash row) ∧
    ∀ st2 st3 got, tables (st_world st2) = tables (st_world st') →
      Get (ae_Id ev) st2 = (st3, Ok got) →
      got = ev ∨ got = at_time (column_time (ae_CreatedAt ev)) ev.
Proof.
  intros Hs Ht Hc. pose proof (run_op_ok s (OpCreate input) st Hs Ht) as Ht'.
  simpl in Ht'. rewrite Hc in Ht'. destruct Ht' as [Hk Hv _ Hsn _ _].
  apply Create_stored in Hc as (row & Hrow & Hev & _); [|apply Ht].
  exists row. split; [done|]. split; [by eapply Hv|]. split; [by eapply Hsn|].
  intros st2 st3 got Et Hg. apply M_bind_Ok in Hg as (st4 & row' & Hf & [_ <-]%M_ret_inv).
  apply findEvaluation_Ok in Hf as [_ Hrow']. rewrite Et in Hrow'. simplify_eq.
  destruct Hev as [<-|<-]; auto.
Qed.

(** A fresh evaluation is decided by the policy that was asked for: it names that
    policy and its hash, its outcome is one the policy declares when it completed, and
    there is none when the provider failed. *)
Theorem fresh_evaluation_decided_by_policy s input st st' ev :
  service_ok s → Create s input st = (st', Ok ev) →
  key_of (tables (st_world st)) input = None →
  ∃ compiled kind, resolvePolicy s input = Ok (compiled, kind) ∧
    ae_Policy ev = c_Ref compiled ∧ ae_PolicyHash ev = c_Hash compiled ∧
    ae_PolicyKind ev = kind ∧
    (∀ ref, ci_PolicyRef input = Some ref → ae_Policy ev = ref) ∧
    ((ae_Status ev = EvaluationStatusCompleted ∧ ae_Outcome ev ∈ c_Outcomes compiled ∧
      ae_FailureCode ev = None) ∨
     (ae_Status ev = EvaluationStatusProviderFailed ∧ ae_Outcome ev = "" ∧
      ∃ code, ae_FailureCode ev = Some code ∧ code ∈ failure_codes)).
Proof.
  intros Hs Hc Hk. apply Create_Ok in Hc as (n & _ & Hstep).
  inversion Hstep as [? ? ? ? _ (key & row & Hkey & _)|
    compiled kind h record Hacc [_ Hd Hid _ _]|]; subst; [congruence|].
  destruct (resolvePolicy_wf _ _ _ _ Hs (ac_policy _ _ _ _ _ Hacc)) as [Hwf Href].
  exists compiled, kind. split; [apply Hacc|]. simpl.
  rewrite (ri_name _ _ _ _ Hid), (ri_version _ _ _ _ Hid), (ri_hash _ _ _ _ Hid),
    (ri_kind _ _ _ _ Hid).
  split; [by destruct (c_Ref compiled)|]. do 2 (split; [done|]). split.
  - intros ref E. rewrite E in Href. destruct Href as [_ <-]. by destruct (c_Ref compiled).
  - destruct (decided_ok _ _ _ Hwf Hd) as [[(Hst & _ & _ & Hfc & _)|(Hst & Ho & _ & _ & _ & Hfc)] Hout];
      simpl in *.
    + left. rewrite Hfc. auto.
    + right. split; [done|]. split; [done|]. exists (ev_FailureCode record). split; [|done].
      unfold Policies.optionalString. rewrite decide_False; [done|].
      intros E. rewrite E in Hfc. by apply no_empty_code in Hfc.
Qed.
(** ** Retained input *)

(** A row that [Create] adds. *)
Lemma Create_added s input st k row :
  let t := tables (st_world st) in
  let t' := tables (st_world (Create s input st).1) in
  t_evaluations t !! k = None → t_evaluations t' !! k = Some row →
  ∃ compiled kind requestHash record, decides s input compiled kind requestHash record t t' ∧
    row = stored_evaluation column_time record.
Proof.
  intros t t' Hn Hr. destruct (Create s input st) as [st' [ev|e]] eqn:E.
  - apply Create_Ok in E as (n & _ & Hs).
    inversion Hs as [? ? ? ? _ _ Et|compiled kind h record _ Hd|]; subst.
    + unfold t' in Hr. simpl in Hr. rewrite Et in Hr. unfold t in Hn. congruence.
    + exists compiled, kind, h, record. split; [exact Hd|].
      destruct Hd as [_ _ _ _ (loadedAt & _ & He & _)]. unfold t' in Hr. simpl in Hr.
      rewrite He in Hr. apply lookup_insert_Some in Hr as [[_ <-]|[_ Hr]]; [done|].
      destruct (with_snapshot_core compiled loadedAt (tables (st_world st))) as [Hw _ _ _].
      rewrite Hw in Hr. unfold t in Hn. congruence.
  - apply Create_core in E as [He _ _ _]. unfold t' in Hr. simpl in Hr. rewrite He in Hr.
    unfold t in Hn. congruence.
Qed.

(** C14: retaining input is opt-in and encrypted: without the setting or without a
    working sealer no row keeps any input, and with both the row keeps a ciphertext
    that opens to exactly the request's state, facts and metadata. *)
Theorem retained_input_sealed `{AEADLaws} s input st k row :
  Secrets.keyed_sealer (svc_sealer s) →
  t_evaluations (tables (st_world st)) !! k = None →
  t_evaluations (tables (st_world (Create s input st).1)) !! k = Some row →
  if cfg_StoreInputs (svc_config s) && Secrets.Enabled (svc_sealer s) then
    ∃ ciphertext fields, ev_EncryptedInput row = Some ciphertext ∧
      input_fields input = Some fields ∧
      Secrets.Open (svc_sealer s) ciphertext = Ok (json_text (JObj fields))
  else ev_EncryptedInput row = None.
Proof.
  intros Hkey Hn Hr.
  destruct (Create_added s input st k row Hn Hr) as (c & kind & h & record & [_ _ _ Hi _] & ->).
  destruct Hi as (st1 & st2 & Hseal). simpl.
  destruct (cfg_StoreInputs (svc_config s)) eqn:E1; simpl; [|by eapply sealInput_off; eauto].
  destruct (Secrets.Enabled (svc_sealer s)) eqn:E2; simpl; [|by eapply sealInput_off; eauto].
  by eapply sealInput_on.
Qed.

(** ** Reading and labelling *)


(** C16: feedback only adds: a label goes to a stored evaluation, is a valid outcome
    that its policy declares when that policy is loaded, and is one new row with its
    own identifier; a refused or failed label changes nothing. *)
Theorem feedback_appends s input st :
  let t := tables (st_world st) in
  let t' := tables (st_world (SubmitFeedback s input st).1) in
  match (SubmitFeedback s input st).2 with
  | Ok fb => ∃ row record,
      t_evaluations t !! fi_EvaluationID input = Some row ∧
      Outcome_IsValid (fi_ExpectedOutcome input) = true ∧
      (∀ compiled, Policies.Service_Compiled (svc_policies s)
         (MkRef (ev_PolicyName row) (ev_PolicyVersion row)) = Ok compiled →
         fi_ExpectedOutcome input ∈ c_Outcomes compiled) ∧
      fb = feedbackModelToAPI record ∧ fb_EvaluationID record = ev_ID row ∧
      fb_ExpectedOutcome record = fi_ExpectedOutcome input ∧
      t_feedback t !! fb_ID record = None ∧
      t' = with_feedback (insert (fb_ID record) (stored_feedback column_time record)) t
  | Err _ => t' = t
  end.
Proof.
  destruct (SubmitFeedback s input st) as [st' r] eqn:E. simpl.
  apply SubmitFeedback_step in E.
  inversion E as [row id at_ Hrow Hv Hx Hn record Et|]; subst; [|done].
  exists row, record. split; [done|].
  apply seq_Ok in Hv as [Hv%guard_err_Ok%negb_false_iff _]. split; [done|]. split; [|done].
  intros compiled Hc. unfold validateExpectedOutcome in Hx. rewrite Hc in Hx.
  by apply guard_err_Ok, negb_false_iff, bool_decide_eq_true in Hx.
Qed.

(** ** Retention *)

(** C17: a cleanup pass removes only what has expired by the clock it reads when it starts:
    keys past their own expiry, evaluations older than the window, and feedback on such evaluations; with a zero
    window no evaluation goes; no feedback is left without its evaluation; and a pass
    that reports no error has removed every aged evaluation, or a whole batch. *)
Theorem cleanup_removes_expired settings st st' deleted err :
  keyed (tables (st_world st)) →
  cleanup (W:=W) settings st = (st', Ok (deleted, err)) →
  let t := tables (st_world st) in let t' := tables (st_world st') in
  let now := (world_now (st_world st)).2 in
  cleaned (column_time now) (cutoff_at settings now) t t' ∧
    (evaluations settings <= 0 → t_evaluations t' = t_evaluations t ∧
       t_feedback t' = t_feedback t) ∧
    (err = None → caught_up (cutoff_at settings now) t t').
Proof.
  intros Hk Hc. apply cleanup_run in Hc as (Hc & Hu); [|done].
  split; [done|]. split; [|done]. intros Hz. unfold cutoff_at in Hc.
  rewrite decide_True in Hc by done. destruct Hc as [_ _ He Hf _].
  split; (eapply pruned_none; [eassumption|]).
  - by intros r (c & ? & _).
  - by intros f (c & r & ? & _).
Qed.
End theorems.

(** ** Witnesses *)

(** The tables after the first request. *)
Lemma run1_tables_ok : tables_ok (tables (st_world run1.1)).
Proof.
  exact (reachable_ok _
    (reachable_op service (OpCreate request) (start script) service_is_ok reachable_empty)).
Qed.

Lemma start_tables_ok : tables_ok (tables (st_world (start script))).
Proof. exact empty_tables_ok. Qed.

Lemma create_refines_witness :
  ∃ n, made n (start script) run1.1 ∧
    create_step (W:=World) service request empty_tables (tables (st_world run1.1)) n run1.2.
Proof. exact (create_refines service request (start script)). Defined.

Lemma stored_decisions_consistent_witness : tables_ok (tables (st_world run1.1)).
Proof.
  exact (stored_decisions_consistent _
    (reachable_op service (OpCreate request) (start script) service_is_ok reachable_empty)).
Defined.

Definition stored1 : Evaluation :=
  default (newRecord Fixtures.emptyCompiled "" request "" 0)
    (t_evaluations (tables (st_world run1.1)) !! "id-0").

Lemma rows_never_rewritten_witness :
  t_evaluations (tables (st_world run1.1)) !! "id-0" = Some stored1 ∧
  (t_evaluations (tables (st_world
     (run_op service (OpCreate (keyless other_request)) run1.1))) !! "id-0" = Some stored1 ∨
   ∃ settings, OpCreate (keyless other_request) = OpCleanup settings ∧
     t_evaluations (tables (st_world
       (run_op service (OpCreate (keyless other_request)) run1.1))) !! "id-0" = None).
Proof.
  assert (t_evaluations (tables (st_world run1.1)) !! "id-0" = Some stored1) as E
    by (vm_compute; reflexivity).
  split; [exact E|].
  exact (proj1 (rows_never_rewritten service (OpCreate (keyless other_request)) run1.1 "id-0"
    run1_tables_ok) stored1 E).
Defined.

Definition unselected : CreateInput := MkCreateInput None [] ANil None None "" "".

Lemma evaluation_cost_bounded_witness :
  (∃ l, st_events (Create service (keyless other_request) (start script)).1 = [] ++ l ∧
    (provider_calls l <= 1)%nat) ∧
  Create service unselected (start script) = (start script, Err (EIs ErrPolicySelection)).
Proof.
  split.
  - destruct (evaluation_cost_bounded service (keyless other_request) (start script))
      as [(l & E & Hl & _) _].
    exists l. split; [exact E|exact Hl].
  - apply (proj1 (proj2 (evaluation_cost_bounded service unselected (start script)))).
    vm_compute. reflexivity.
Defined.

Definition hash1 : string :=
  ok_or "" (canonicalRequestHash (c_Hash Fixtures.router_policy) request).
Definition key1 : IdempotencyRecord :=
  default (MkIdempotencyRecord "" "" "" 0 0)
    (t_idempotency (tables (st_world run1.1)) !! hashKey "key-1").

Lemma request_accepted :
  accepted service request Fixtures.router_policy PolicyKindNamed hash1.
Proof. split; vm_compute; reflexivity. Qed.

(** A replay is answered from the store, whatever the script says. *)
Lemma live_key_answers_witness :
  Create service request (MkSt (st_world run1.1) []) =
    (MkSt (world_now (st_world run1.1)).1 [], Ok (evaluationModelToAPI stored1)).
Proof.
  pose proof (live_key_answers service request Fixtures.router_policy PolicyKindNamed hash1
    (st_world run1.1) (st_world run1.1) (world_now (st_world run1.1)).1
    (world_now (st_world run1.1)).2 key1 [] request_accepted) as Hw.
  assert (ci_IdempotencyKey request ≠ "") as H1 by (intros E; discriminate E).
  assert (IdempotencyRecord_First (hashKey (ci_IdempotencyKey request)) (st_world run1.1) =
    (st_world run1.1, Ok key1)) as H2 by (vm_compute; reflexivity).
  assert (world_now (st_world run1.1) =
    ((world_now (st_world run1.1)).1, (world_now (st_world run1.1)).2)) as H3 by reflexivity.
  assert ((world_now (st_world run1.1)).2 <= ir_ExpiresAt key1) as H4
    by (vm_compute; intros E; discriminate E).
  specialize (Hw H1 H2 H3 H4). rewrite decide_True in Hw by (vm_compute; reflexivity).
  apply Hw. vm_compute. reflexivity.
Defined.

Lemma same_key_same_evaluation_witness :
  ci_IdempotencyKey request ≠ "" ∧ made 0 run1.1 run2.1 ∧
  tables (st_world run2.1) = tables (st_world run1.1) ∧
  (evaluation2 = evaluation1 ∨
   evaluation2 = at_time (column_time (ae_CreatedAt evaluation1)) evaluation1).
Proof.
  assert (ci_IdempotencyKey request ≠ "") as H1 by (intros E; discriminate E).
  split; [exact H1|].
  exact (same_key_same_evaluation service request (start script) run1.1 evaluation1 run1.1
    run2.1 evaluation2 (tb_keyed _ start_tables_ok) H1 run1_ok eq_refl run2_ok).
Defined.

(** Two days later the key has expired: the provider is asked and the call fails. *)
Lemma stale_key_never_served_witness :
  provider_calls (st_events (Create service request later).1) = 1%nat ∧
  ∃ e, (Create service request later).2 = Err e.
Proof.
  split; [vm_compute; reflexivity|].
  apply (stale_key_never_served service request later key1).
  - vm_compute. reflexivity.
  - left. vm_compute. reflexivity.
Defined.

Lemma created_is_retrievable_witness :
  ∃ row, t_evaluations (tables (st_world run1.1)) !! ae_Id evaluation1 = Some row ∧
    verdict_ok (verdict_of row).
Proof.
  destruct (created_is_retrievable service request (start script) run1.1 evaluation1
    service_is_ok start_tables_ok run1_ok) as (row & Hr & Hv & _).
  exists row. split; [exact Hr|exact Hv].
Defined.

Lemma fresh_evaluation_decided_by_policy_witness :
  ∃ compiled kind, resolvePolicy service request = Ok (compiled, kind) ∧
    ae_Policy evaluation1 = c_Ref compiled.
Proof.
  destruct (fresh_evaluation_decided_by_policy service request (start script) run1.1
    evaluation1 service_is_ok run1_ok) as (compiled & kind & Hr & Hp & _).
  - vm_compute. reflexivity.
  - exists compiled, kind. split; [exact Hr|exact Hp].
Defined.

Definition retained1 : Evaluation :=
  default stored1 (t_evaluations (tables (st_world
    (Create retaining request (start script)).1)) !! "id-0").

Lemma retained_input_sealed_witness :
  ∃ ciphertext fields, ev_EncryptedInput retained1 = Some ciphertext ∧
    input_fields request = Some fields ∧
    Secrets.Open sealer ciphertext = Ok (json_text (JObj fields)).
Proof.
  apply (retained_input_sealed retaining request (start script) "id-0" retained1
    sealer_keyed); vm_compute; reflexivity.
Defined.



Definition label : FeedbackInput := MkFeedbackInput "id-0" "block" "a duplicate invoice".

Lemma feedback_appends_witness :
  ∃ fb row, (SubmitFeedback service label run1.1).2 = Ok fb ∧
    t_evaluations (tables (st_world run1.1)) !! "id-0" = Some row.
Proof.
  pose proof (feedback_appends service label run1.1) as Hf.
  assert (∃ fb, (SubmitFeedback service label run1.1).2 = Ok fb) as [fb E]
    by (eexists; vm_compute; reflexivity).
  cbv zeta in Hf. rewrite E in Hf. destruct Hf as (row & record & Hr & _).
  exists fb, row. split; [exact E|exact Hr].
Defined.

Definition window : retentionSettings := MkRetentionSettings 3600000000000 86400000000000.

(** Both sides evaluate to the same tables. *)
Lemma later_tables : tables (st_world later) = tables (st_world run1.1).
Proof. vm_compute. reflexivity. Qed.

Lemma later_keyed : keyed (tables (st_world later)).
Proof. rewrite later_tables. exact (tb_keyed _ run1_tables_ok). Qed.

Definition cleaned_up : St World * res (retentionResult * option goerr) :=
  cleanup window later.
Definition cleanup_report : retentionResult * option goerr := ok_or (∅, None) cleaned_up.2.

Lemma cleaned_up_ok :
  cleanup window later = (cleaned_up.1, Ok (cleanup_report.1, cleanup_report.2)).
Proof. apply run_ok. vm_compute. reflexivity. Qed.

Lemma cleanup_removes_expired_witness :
  t_evaluations (tables (st_world cleaned_up.1)) = ∅ ∧
  cleaned (column_time (world_now (st_world later)).2) (cutoff_at window (world_now (st_world later)).2)
    (tables (st_world later)) (tables (st_world cleaned_up.1)).
Proof.
  split; [vm_compute; reflexivity|].
  destruct (cleanup_removes_expired window later cleaned_up.1 cleanup_report.1
    cleanup_report.2 later_keyed cleaned_up_ok) as (Hc & _).
  exact Hc.
Defined.

(** ** A race

    The memory database with a cleanup pass of another goroutine run just before every
    insertion of feedback: no foreign key and no transaction stops it. *)
Definition racing : Database World := {|
  tables := tables;
  column_time := column_time;
  PolicySnapshot_CreateIgnore := PolicySnapshot_CreateIgnore;
  Evaluation_Create := Evaluation_Create;
  IdempotencyRecord_Create := IdempotencyRecord_Create;
  EvaluationFeedback_Create r w :=
    EvaluationFeedback_Create r (st_world (cleanup window (MkSt w [])).1);
  IdempotencyRecord_First := IdempotencyRecord_First;
  Evaluation_First := Evaluation_First;
  Evaluation_Find := Evaluation_Find;
  IdempotencyRecord_DeleteLimit := IdempotencyRecord_DeleteLimit;
  EvaluationFeedback_Delete := EvaluationFeedback_Delete;
  Evaluation_Delete := Evaluation_Delete;
  Transaction := Transaction;
  scope := scope
|}.

Definition raced : St World * res APIFeedback := @SubmitFeedback World racing _ service label later.

Lemma feedback_races_cleanup :
  tables_ok (tables (st_world later)) ∧ is_ok raced.2 = true ∧
  t_evaluations (tables (st_world raced.1)) = ∅ ∧ ¬ tables_ok (tables (st_world raced.1)).
Proof.
  assert (t_evaluations (tables (st_world raced.1)) = ∅) as E by (vm_compute; reflexivity).
  split; [rewrite later_tables; exact run1_tables_ok|]. split; [vm_compute; reflexivity|].
  split; [done|]. intros Ht.
  assert (is_Some (head (map_to_list (t_feedback (tables (st_world raced.1)))))) as [[k f] Hf]
    by (vm_compute; by eexists).
  assert (t_feedback (tables (st_world raced.1)) !! k = Some f) as Hk.
  { apply elem_of_map_to_list. by apply head_Some_elem_of. }
  destruct (tb_feedback _ Ht k f Hk) as (_ & _ & [r Hr]). by rewrite E, lookup_empty in Hr.
Qed.
End EvaluationTheorems.
