(* ===== verification/LoaderTheorems.v ===== *)
(** * Loading policies: its theorems

    What a loaded directory contains, and when loading or validating succeeds. *)

From S2P Require Import Prelude GoFloat GoAny Decision Document Canonical Compile WellFormed.
From S2P Require Import Fixtures CompileSound Evaluate Store Effects Loader Policies EvalConvert.
From S2P Require Import Evaluations ServiceSpec ServiceFixtures.
From stdpp Require Import options.
#[local] Open Scope Z_scope.

Module LoaderTheorems.
Import Loader Compile WellFormed CompileSound Fixtures ServiceFixtures.

Section loader.
#[local] Set Default Proof Using "Type*".
Context `{YamlDecoder} `{FileSystem}.

Lemma loaded_wf dir n m name c : loaded_from dir n m name c → wf_compiled c.
Proof. intros [_ _ (data & _ & Hc)]. by eapply ServiceSpec.CompileBytes_wf. Qed.

(** Every named file loaded, in name order. *)
Definition loads (dir : string) (n m : Z) (policies : list Compiled) : Prop :=
  ∃ entries, os_ReadDir dir = Ok entries ∧
    Forall2 (loaded_from dir n m) (policyNames entries) policies.

Lemma load_files dir n m entries policies :
  os_ReadDir dir = Ok entries → Forall2 (loaded_from dir n m) (policyNames entries) policies →
  dir ≠ "" → LoadDirWithMaxQuestions dir n m = NewSet policies.
Proof.
  intros He Hp Hd. unfold LoadDirWithMaxQuestions. rewrite decide_False, He by done. simpl.
  enough (res_mapM (λ name, loadPolicyFile dir name n m) (policyNames entries) = Ok policies)
    as -> by done.
  apply res_mapM_Ok. eapply list.Forall2_impl; [exact Hp|]. intros name c. apply loadPolicyFile_Ok.
Qed.

(** Loading a directory is all or nothing: it succeeds exactly when the directory
    can be read, every file with a policy extension is a regular file within the size
    bound that compiles, and no two of them share an identity. *)
Lemma load_dir_succeeds_iff dir n m :
  dir ≠ "" →
  (∃ s, LoadDirWithMaxQuestions dir n m = Ok s) ↔
  ∃ policies, loads dir n m policies ∧ NoDup (c_Ref <$> policies).
Proof.
  intros Hd. split.
  - intros [s Hs]. apply LoadDir_Ok in Hs as (entries & policies & He & Hp & Hs); [|done].
    exists policies. split; [by exists entries|].
    destruct (NewSet_Ok _ _ Hs) as [[Hr Hn _] _]. by rewrite <- Hr.
  - intros (policies & (entries & He & Hp) & Hn).
    destruct (NewSet_distinct policies Hn) as [s Hs]. exists s.
    by rewrite (load_files dir n m entries policies).
Qed.

(** C19: loading a directory is all or nothing, and exact.  It succeeds exactly when the
    directory can be read, every file with a policy extension is a regular file within the
    size bound that compiles, and no two of them share an identity; the set it then gives
    holds the well-formed compilations of those files and nothing else: a lookup returns the
    policy with exactly that identity, and both listings have each once and in the same
    order, by name and then by version: [Refs] the identities, [All] the policies. *)
Theorem loaded_set_exact dir n m :
  dir ≠ "" →
  ((∃ s, LoadDirWithMaxQuestions dir n m = Ok s) ↔
   ∃ policies, loads dir n m policies ∧ NoDup (c_Ref <$> policies)) ∧
  ∀ s, LoadDirWithMaxQuestions dir n m = Ok s →
  ∃ policies, loads dir n m policies ∧ Forall wf_compiled policies ∧
    (∀ ref c, Get s ref = Some c ↔ c ∈ policies ∧ c_Ref c = ref) ∧
    All s ≡ₚ policies ∧ c_Ref <$> All s = Refs s ∧ Sorted ref_le (Refs s) ∧ NoDup (Refs s) ∧
    Len s = len policies.
Proof.
  intros Hd. split; [by apply load_dir_succeeds_iff|]. intros s Hs.
  apply LoadDir_Ok in Hs as (entries & policies & He & Hp & Hs); [|done].
  destruct (NewSet_Ok _ _ Hs) as [Hinv Hsort]. pose proof Hinv as [Hr Hn Hg].
  exists policies. split; [by exists entries|]. split; [|split; [exact Hg|split; [|split; [by eapply All_refs|split; [done|]]]]].
  - apply list.Forall_forall. intros c Hc. apply list_elem_of_lookup in Hc as [i Hi].
    destruct (Forall2_lookup_r _ _ _ _ _ Hp Hi) as (name & _ & Hl). by eapply loaded_wf.
  - eapply All_Permutation; [done|]. by rewrite <- Hr.
  - split; [done|]. unfold Len, len. by rewrite Hr, length_fmap.
Qed.

(** a file is only read as a policy when it is safe to: whatever the directory
    listing says, a name that is not a plain file name, a symbolic link, a file that is
    not regular or one over the size bound makes the load fail. *)
Theorem unsafe_files_refused dir n m name entries info :
  dir ≠ "" → os_ReadDir dir = Ok entries → name ∈ entries →
  isPolicyExtension (strings_ToLower (filepath_Ext name)) = true →
  os_Lstat (filepath_Join dir name) = Ok info →
  filepath_Base name ≠ name ∨ fi_Symlink info = true ∨ fi_Regular info = false ∨
    resolveMaxBytes n < fi_Size info →
  ∃ e, LoadDirWithMaxQuestions dir n m = Err e.
Proof.
  intros Hd He Hin Hext Hinfo Hbad.
  destruct (LoadDirWithMaxQuestions dir n m) as [s|e] eqn:E; [|eauto]. exfalso.
  apply LoadDir_Ok in E as (entries' & policies & He' & Hp & _); [|done].
  assert (entries' = entries) as -> by congruence.
  assert (name ∈ policyNames entries) as Hname by by apply elem_of_policyNames.
  apply list_elem_of_lookup in Hname as [i Hi].
  destruct (Forall2_lookup_l _ _ _ _ _ Hp Hi) as (c & _ & [Hb (info' & Hi' & Hs & Hr & Hsz) _]).
  assert (info' = info) as -> by congruence.
  destruct Hbad as [?|[?|[?|?]]]; [done|congruence|congruence|lia].
Qed.
End loader.

(** validation agrees with evaluation: a document that the policies service reports
    as valid is exactly one that an inline evaluation under the same ceilings compiles,
    and the reported projection is that of the policy it would run. *)
Theorem validate_agrees_with_inline `{YamlDecoder} s document v :
  Policies.Validate s document = Ok v →
  (Policies.apv_Valid v = true ↔ ∃ c, Evaluations.compileInline document (Policies.psv_maxPolicyBytes s)
     (Policies.psv_maxQuestions s) = Ok c) ∧
  (∀ c, Evaluations.compileInline document (Policies.psv_maxPolicyBytes s) (Policies.psv_maxQuestions s)
     = Ok c → Policies.apv_Policy v = Some (Policies.CompiledToAPI c) ∧ wf_compiled c).
Proof.
  unfold Policies.Validate, Evaluations.compileInline. intros [_ Hv]%seq_Ok.
  apply bind_Ok in Hv as (text & -> & Hv). simpl.
  destruct (CompileBytesWithMaxQuestions text _ _) as [c|e] eqn:E; simplify_eq; simpl.
  - split; [by split; [eauto|]|]. intros c' [= <-]. split; [done|]. by eapply ServiceSpec.CompileBytes_wf.
  - split; [|done]. split; [done|]. by intros (? & ?).
Qed.

(** ** Witnesses *)

(** A directory with one policy and a file that is not one. *)
Instance fixture_files : FileSystem := {
  os_ReadDir dir := if decide (dir = "/policies") then Ok ["notes.txt"; "router.YAML"]
                    else Err (EForeign "no such directory");
  os_Lstat path := if decide (path = "/policies/router.YAML") then Ok (MkFileInfo false true 11)
                   else if decide (path = "/linked/router.yaml") then Ok (MkFileInfo true false 11)
                   else Err (EForeign "no such file");
  os_ReadFile path := Ok "router.yaml"
}.

Definition loaded : res Set_ := LoadDirWithMaxQuestions "/policies" 0 0.
Definition loaded_set : Set_ := ok_or (MkSet ∅ []) loaded.

Lemma loaded_ok : LoadDirWithMaxQuestions "/policies" 0 0 = Ok loaded_set.
Proof. vm_compute. reflexivity. Qed.

Lemma loaded_set_exact_witness :
  Refs loaded_set = [MkRef "router" "1.0.0"] ∧
  ∃ policies, loads "/policies" 0 0 policies ∧ Forall wf_compiled policies.
Proof.
  split; [vm_compute; reflexivity|].
  destruct (loaded_set_exact "/policies" 0 0) as [_ Hs].
  - intros E. discriminate E.
  - destruct (Hs loaded_set loaded_ok) as (policies & Hl & Hw & _). exists policies. split; [exact Hl|exact Hw].
Defined.

(** The same directory with a symbolic link in it. *)
Definition linked_files : FileSystem := {|
  os_ReadDir _ := Ok ["router.yaml"];
  os_Lstat _ := Ok (MkFileInfo true false 11);
  os_ReadFile _ := Ok "router.yaml"
|}.

Lemma unsafe_files_refused_witness :
  ∃ e, @LoadDirWithMaxQuestions fixture_yaml linked_files "/linked" 0 0 = Err e.
Proof.
  apply (@unsafe_files_refused fixture_yaml linked_files "/linked" 0 0 "router.yaml"
    ["router.yaml"] (MkFileInfo true false 11)).
  - intros E. discriminate E.
  - reflexivity.
  - apply list_elem_of_here.
  - vm_compute. reflexivity.
  - reflexivity.
  - right. left. reflexivity.
Defined.

(** A decoder for which every document is the router. *)
Definition any_yaml : YamlDecoder := {|
  yaml_Decode _ := Ok router; yaml_trailing_EOF _ := true |}.

Definition submitted : list (string * goany) := [("kind", AString "DecisionPolicy")].
Definition reported : Policies.PolicyValidation :=
  ok_or (Policies.MkPolicyValidation false None None)
    (@Policies.Validate any_yaml (Policies.New router_set 262144) submitted).

Lemma validate_agrees_with_inline_witness :
  Policies.apv_Valid reported = true ∧
  ∃ c, @Evaluations.compileInline any_yaml submitted 262144 MaxQuestions = Ok c.
Proof.
  assert (Policies.apv_Valid reported = true) as E by (vm_compute; reflexivity).
  split; [exact E|].
  apply (proj1 (@validate_agrees_with_inline any_yaml (Policies.New router_set 262144)
    submitted reported ltac:(vm_compute; reflexivity))).
  exact E.
Defined.
End LoaderTheorems.
