(* ===== verification/ServiceGraph.v ===== *)
(** * The start order of services

    [internal/pkg/service-manager/service_manager.go], first half: services, the
    dependency graph and its layered topological sort.  Go ranges over a map in any
    order, so each loop over the services takes the order as an argument. *)

From S2P Require Import Prelude Document Store.
From stdpp Require Import options.
#[local] Open Scope Z_scope.

Module ServiceGraph.

Definition ErrCyclicDependency : string := "cyclic dependency detected".

(** A service with what its optional interfaces return; [None] when it does not
    implement the interface. *)
Record Service : Set := MkService {
  Name : string;
  MaxRetries : option Z;            (** [Retryable] *)
  RetryDelay : duration;
  IsAllowedFailure : option bool;   (** [AllowedFailure] *)
  Dependencies : option (list string);   (** [Dependent] *)
  ReadyNotifier : bool
}.

Abbreviation serviceGroup := (list Service).
Abbreviation degrees := (gmap string Z).
Abbreviation dependentsMap := (gmap string (list string)).

Definition degree (m : degrees) (name : string) : Z := default 0 (m !! name).
Definition dependents_of (m : dependentsMap) (name : string) : list string :=
  default [] (m !! name).

(** One dependency of one service; a dependency that is not in the process is skipped. *)
Definition addDependency (services : gmap string Service) (name : string)
  (graph : degrees * dependentsMap) (depName : string) : degrees * dependentsMap :=
  match services !! depName with
  | None => graph
  | Some _ => (<[name := degree graph.1 name + 1]> graph.1,
               <[depName := dependents_of graph.2 depName ++ [name]]> graph.2)
  end.

Definition addService (services : gmap string Service)
  (graph : degrees * dependentsMap) (name : string) : degrees * dependentsMap :=
  match services !! name ≫= Dependencies with
  | None => graph
  | Some deps => foldl (addDependency services name) graph deps
  end.

Definition buildDepGraph (order : list string) (services : gmap string Service)
  : degrees * dependentsMap :=
  foldl (addService services) ((λ _, 0) <$> services, ∅) order.

(** One decrement; a service whose last dependency was placed joins the next layer. *)
Definition release (st : degrees * list string) (dep : string) : degrees * list string :=
  let inDegree := <[dep := degree st.1 dep - 1]> st.1 in
  (inDegree, if decide (degree inDegree dep = 0) then st.2 ++ [dep] else st.2).

(** One layer. *)
Definition nextQueue (dependents : dependentsMap) (inDegree : degrees) (queue : list string)
  : degrees * list string :=
  foldl release (inDegree, []) (queue ≫= dependents_of dependents).

(** The loop; it returns the layers, the number of services placed and the queue it
    stopped with. *)
Fixpoint topoLoop (fuel : nat) (dependents : dependentsMap) (inDegree : degrees)
  (queue : list string) (groups : list (list string)) (processed : Z)
  : list (list string) * Z * list string :=
  match fuel, queue with
  | _, [] | O, _ => (groups, processed, queue)
  | S fuel, _ =>
      let next := nextQueue dependents inDegree queue in
      topoLoop fuel dependents next.1 next.2 (groups ++ [queue]) (processed + len queue)
  end.

(** Layers of names, for any fuel that lets the loop finish. *)
Definition topoNames (fuel : nat) (order : list string) (graph : degrees * dependentsMap)
  : list (list string) * Z * list string :=
  topoLoop fuel graph.2 graph.1 (filter (λ name, degree graph.1 name = 0) order) [] 0.

(** The services of a layer. *)
Definition members (services : gmap string Service) (group : list string) : serviceGroup :=
  omap (λ name, services !! name) group.

Definition topoSort (order : list string) (services : gmap string Service)
  (graph : degrees * dependentsMap) : res (list serviceGroup) :=
  let '(groups, processed, _) := topoNames (S (size services)) order graph in
  if decide (processed = Z.of_nat (size services))
  then Ok (members services <$> groups)
  else Err (EForeign ErrCyclicDependency).

(** [resolveOrder], with the two iteration orders. *)
Definition resolveOrder (order1 order2 : list string) (services : gmap string Service)
  : res (list serviceGroup) :=
  topoSort order2 services (buildDepGraph order1 services).

(** ** The registry *)

Definition ErrServiceNotFound : string := "service not found".
Definition ErrNoEnabledServices : string := "no enabled services".

(** A factory is the service it creates, or its error. *)
Definition ServiceFactory : Set := res Service.

Record ServiceManager : Set := MkServiceManager {
  factories : gmap string ServiceFactory;
  services : gmap string Service
}.

Definition Register (s : ServiceManager) (name : string) (factory : ServiceFactory) : ServiceManager :=
  MkServiceManager (<[name := factory]> (factories s)) (services s).

Definition Instantiate (s : ServiceManager) (name : string) : res Service :=
  match factories s !! name with
  | None => Err (EForeign ErrServiceNotFound)
  | Some factory => factory
  end.

Definition ClearServices (s : ServiceManager) : ServiceManager :=
  MkServiceManager (factories s) ∅.

Definition Add (s : ServiceManager) (added : list Service) : ServiceManager :=
  MkServiceManager (factories s)
    (foldl (λ services service, <[Name service := service]> services) (services s) added).

(** [parseEnabledServicesContext] on the parsed filter: the list, and whether every
    service is enabled. *)
Definition parseEnabledServices (enabled : list string) : list string * bool :=
  match enabled with [] => ([], true) | _ => (enabled, false) end.

(** [instantiateAllContext], for an iteration order over the factories; a failing factory
    leaves the services added before it. *)
Fixpoint instantiateAll (enabled : list string * bool) (order : list string)
  (s : ServiceManager) : ServiceManager * option goerr :=
  match order with
  | [] => (s, None)
  | name :: order =>
      if decide (enabled.2 = false ∧ name ∉ enabled.1)
      then instantiateAll enabled order s
      else match factories s !! name with
           | None => instantiateAll enabled order s
           | Some (Err err) => (s, Some err)
           | Some (Ok svc) => instantiateAll enabled order (Add s [svc])
           end
  end.

(** [Run] up to the start of the first group; the orders are those of the three maps it
    ranges over. *)
Definition Run_groups (enabled : list string) (order order1 order2 : list string)
  (s : ServiceManager) : ServiceManager * res (list serviceGroup) :=
  let '(s, err) := instantiateAll (parseEnabledServices enabled) order s in
  match err with
  | Some err => (s, Err err)
  | None =>
      if decide (size (services s) = 0%nat)
      then (s, Err (EForeign ErrNoEnabledServices))
      else (s, resolveOrder order1 order2 (services s))
  end.

(** ** The relation the graph represents *)

(** The dependencies of a service that are in the process, with repetitions. *)
Definition deps (services : gmap string Service) (name : string) : list string :=
  filter (λ d, is_Some (services !! d)) (default [] (services !! name ≫= Dependencies)).

Definition depends (services : gmap string Service) (name dep : string) : Prop :=
  is_Some (services !! name) ∧ dep ∈ deps services name.

(** Occurrences. *)
Definition count (x : string) (l : list string) : Z := len (filter (λ y, y = x) l).

Lemma count_nil x : count x [] = 0.
Proof. done. Qed.

Lemma count_cons x y l : count x (y :: l) = (if decide (y = x) then 1 else 0) + count x l.
Proof. unfold count, len. rewrite filter_cons. case_decide; simpl; lia. Qed.

Lemma count_app x l k : count x (l ++ k) = count x l + count x k.
Proof. unfold count, len. rewrite list.filter_app, length_app. lia. Qed.

Lemma count_nonneg x l : 0 <= count x l.
Proof. unfold count, len. lia. Qed.

Lemma count_pos x l : 0 < count x l ↔ x ∈ l.
Proof.
  induction l as [|y l IH]; [rewrite count_nil; split; [lia|by intros ?%elem_of_nil]|].
  rewrite count_cons, elem_of_cons, <- IH. pose proof (count_nonneg x l).
  case_decide; subst; [split; [auto|lia]|]. split; [right; lia|intros [?|?]; [done|lia]].
Qed.

(** ** The graph *)
Section graph.
Context (services : gmap string Service).

Lemma degree_insert m name k v : degree (<[k := v]> m) name = if decide (k = name) then v else degree m name.
Proof. unfold degree. case_decide; [subst; by rewrite lookup_insert_eq|by rewrite lookup_insert_ne]. Qed.

Lemma dependents_insert m name k v :
  dependents_of (<[k := v]> m) name = if decide (k = name) then v else dependents_of m name.
Proof. unfold dependents_of. case_decide; [subst; by rewrite lookup_insert_eq|by rewrite lookup_insert_ne]. Qed.

Lemma add_dependencies name l g n d :
  let g' := foldl (addDependency services name) g l in
  let l' := filter (λ d, is_Some (services !! d)) l in
  degree g'.1 n = degree g.1 n + (if decide (name = n) then len l' else 0) ∧
  count n (dependents_of g'.2 d) =
    count n (dependents_of g.2 d) + (if decide (name = n) then count d l' else 0).
Proof.
  revert g. induction l as [|x l IH]; intros g; simpl.
  - rewrite count_nil. unfold len. case_decide; simpl; lia.
  - destruct (IH (addDependency services name g x)) as [-> ->]. rewrite filter_cons.
    unfold addDependency. destruct (services !! x) as [sv|] eqn:E.
    + rewrite !(decide_True (P:=is_Some (Some sv))) by eauto. simpl. split.
      * rewrite degree_insert. unfold len. simpl. repeat case_decide; subst; lia.
      * rewrite dependents_insert, (count_cons d x).
        destruct (decide (name = n)) as [->|Hn], (decide (x = d)) as [->|Hne];
          rewrite ?count_app, ?count_cons, ?count_nil; repeat case_decide; congruence || lia.
    + by rewrite !(decide_False (P:=is_Some (@None Service))) by by intros [].
Qed.

Lemma add_service_deps g name n d :
  let g' := addService services g name in
  degree g'.1 n = degree g.1 n + (if decide (name = n) then len (deps services n) else 0) ∧
  count n (dependents_of g'.2 d) =
    count n (dependents_of g.2 d) + (if decide (name = n) then count d (deps services n) else 0).
Proof.
  unfold addService, deps. destruct (services !! name ≫= Dependencies) as [l|] eqn:E; simpl.
  - destruct (add_dependencies name l g n d) as [-> ->].
    case_decide; [|done]. subst. by rewrite E.
  - case_decide; [|lia]. subst. rewrite E. simpl. rewrite count_nil. unfold len. simpl. lia.
Qed.

Lemma build_graph order n d : NoDup order →
  let g := buildDepGraph order services in
  degree g.1 n = (if decide (n ∈ order) then len (deps services n) else 0) ∧
  count n (dependents_of g.2 d) = (if decide (n ∈ order) then count d (deps services n) else 0).
Proof.
  unfold buildDepGraph. intros Hn.
  assert (∀ g, let g' := foldl (addService services) g order in
    degree g'.1 n = degree g.1 n + (if decide (n ∈ order) then len (deps services n) else 0) ∧
    count n (dependents_of g'.2 d) = count n (dependents_of g.2 d) +
      (if decide (n ∈ order) then count d (deps services n) else 0)) as Hfold.
  { induction Hn as [|x l Hx Hn IH]; intros g; cbn [foldl].
    - destruct (decide (n ∈ [])) as [[]%elem_of_nil|_]; lia.
    - destruct (IH (addService services g x)) as [-> ->].
      destruct (add_service_deps g x n d) as [-> ->].
      pose proof (elem_of_cons l n x) as Hc.
      destruct (decide (x = n)), (decide (n ∈ l)), (decide (n ∈ x :: l)); subst;
        try done; try lia; exfalso; naive_solver. }
  destruct (Hfold ((λ _, 0) <$> services, ∅)) as [-> ->]. simpl. split; [|done].
  unfold degree. rewrite lookup_fmap. by destruct (services !! n).
Qed.
End graph.
End ServiceGraph.
