(* ===== verification/ServiceGraphSpec.v ===== *)
(** * The topological sort is one

    The layers place every service once, after its dependencies; the sort fails exactly
    on a cycle.  The loop invariant counts, for each service, the dependencies that are
    not placed yet. *)

From S2P Require Import Prelude Document Store ServiceGraph.
From stdpp Require Import options.
#[local] Open Scope Z_scope.

Module ServiceGraphSpec.
Import ServiceGraph.

(** ** One layer *)

(** A run of decrements: what is left, and what reached zero. *)
Lemma release_run ds deg acc :
  (∀ n, count n ds <= degree deg n) →
  let r := foldl release (deg, acc) ds in
  (∀ n, degree r.1 n = degree deg n - count n ds) ∧
  ∃ next, r.2 = acc ++ next ∧ NoDup next ∧
    ∀ n, n ∈ next ↔ 0 < count n ds ∧ degree deg n = count n ds.
Proof.
  revert deg acc. induction ds as [|x ds IH]; intros deg acc Hle; simpl.
  - split; [intros n; rewrite count_nil; lia|]. exists []. rewrite app_nil_r.
    split; [done|]. split; [constructor|]. intros n. rewrite count_nil.
    split; [by intros ?%elem_of_nil|lia].
  - set (deg' := <[x := degree deg x - 1]> deg).
    assert (∀ n, degree deg' n = degree deg n - (if decide (x = n) then 1 else 0)) as Hdeg.
    { intros n. unfold deg'. rewrite degree_insert. case_decide; subst; lia. }
    assert (∀ n, count n ds <= degree deg' n) as Hle'.
    { intros n. specialize (Hle n). rewrite count_cons in Hle. rewrite Hdeg. lia. }
    set (acc' := if decide (degree deg' x = 0) then acc ++ [x] else acc).
    destruct (IH deg' acc' Hle') as (Hd & next & Hr & Hn & Hin).
    change (release (deg, acc) x) with (deg', acc').
    split; [intros n; rewrite Hd, Hdeg, count_cons; lia|].
    pose proof (count_nonneg x ds) as Hpos. pose proof (Hle' x) as Hx.
    rewrite Hr. unfold acc'. destruct (decide (degree deg' x = 0)) as [E|E].
    + exists (x :: next). rewrite <- app_assoc. split; [done|].
      assert (x ∉ next) as Hout by (rewrite Hin; lia). split; [by constructor|].
      intros n. rewrite elem_of_cons, Hin, Hdeg, count_cons.
      destruct (decide (x = n)) as [->|Hne]; [|naive_solver lia].
      rewrite Hdeg, decide_True in E, Hx by done. split; [lia|by left].
    + exists next. split; [done|]. split; [done|]. intros n. rewrite Hin, Hdeg, count_cons.
      destruct (decide (x = n)) as [->|Hne]; [|naive_solver lia].
      rewrite Hdeg, decide_True in E, Hx by done. lia.
Qed.

Section sort.
Context (services : gmap string Service).

Definition placed_in (P : list string) (n : string) : Z :=
  len (filter (λ d, d ∈ P) (deps services n)).
Definition waiting (P : list string) (n : string) : Z :=
  len (filter (λ d, d ∉ P) (deps services n)).

(** Counting the edges out of a queue from either end. *)
Lemma count_released dependents Q n :
  NoDup Q → (∀ d, count n (dependents_of dependents d) = count d (deps services n)) →
  count n (Q ≫= dependents_of dependents) = placed_in Q n.
Proof.
  intros HQ Hd. unfold placed_in. induction HQ as [|d Q Hq _ IH].
  - simpl. rewrite count_nil. clear Hd. induction (deps services n) as [|y l IHl]; [done|].
    rewrite filter_cons_False; [done|]. by intros ?%elem_of_nil.
  - rewrite bind_cons, count_app, Hd, IH. clear IH Hd. unfold len.
    induction (deps services n) as [|y l IHl]; [done|]. rewrite count_cons, !filter_cons.
    assert (y ∈ d :: Q ↔ y = d ∨ y ∈ Q) as Hy by apply elem_of_cons.
    destruct (decide (y = d)), (decide (y ∈ Q)), (decide (y ∈ d :: Q)); subst;
      try (exfalso; naive_solver); simpl; lia.
Qed.

Lemma waiting_app P Q n : (∀ x, x ∈ Q → x ∉ P) →
  waiting (P ++ Q) n = waiting P n - placed_in Q n.
Proof.
  intros Hdisj. unfold waiting, placed_in, len.
  induction (deps services n) as [|y l IHl]; [done|]. rewrite !filter_cons.
  pose proof (elem_of_app P Q y) as Hy. specialize (Hdisj y).
  destruct (decide (y ∉ P)), (decide (y ∈ Q)), (decide (y ∉ P ++ Q));
    try (exfalso; naive_solver); simpl; lia.
Qed.

Lemma waiting_pos P n : 0 < waiting P n ↔ ∃ d, d ∈ deps services n ∧ d ∉ P.
Proof.
  unfold waiting, len. split.
  - destruct (filter _ _) as [|d l] eqn:E; simpl; [lia|]. intros _. exists d.
    assert (d ∈ filter (λ d, d ∉ P) (deps services n)) as Hin by (rewrite E; by left).
    by apply list_elem_of_filter in Hin as [? ?].
  - intros (d & Hd & Hp). destruct (filter _ _) as [|y l] eqn:E; simpl; [|lia].
    assert (d ∈ filter (λ d, d ∉ P) (deps services n)) as Hin by by apply list_elem_of_filter.
    rewrite E in Hin. by apply elem_of_nil in Hin.
Qed.

Lemma waiting_nonneg P n : 0 <= waiting P n.
Proof. unfold waiting, len. lia. Qed.

(** ** The loop invariant *)
Record sort_inv (P Q : list string) (inDegree : degrees) : Prop := {
  so_nodup : NoDup (P ++ Q);
  so_known : ∀ n, n ∈ P ++ Q → is_Some (services !! n);
  so_degree : ∀ n, degree inDegree n =
    if decide (is_Some (services !! n)) then waiting P n else 0;
  so_ready : ∀ n, n ∈ P ++ Q ↔ is_Some (services !! n) ∧ waiting P n = 0
}.

Lemma deps_known n d : d ∈ deps services n → is_Some (services !! d).
Proof. unfold deps. by intros [? _]%list_elem_of_filter. Qed.

Lemma layer_step dependents P Q inDegree :
  (∀ n d, count n (dependents_of dependents d) =
     if decide (is_Some (services !! n)) then count d (deps services n) else 0) →
  sort_inv P Q inDegree →
  let next := nextQueue dependents inDegree Q in
  sort_inv (P ++ Q) next.2 next.1.
Proof.
  intros Hdep [Hn Hk Hd Hr]. apply list.NoDup_app in Hn as (HP & Hdisj & HQ).
  assert (∀ x, x ∈ Q → x ∉ P) as Hdisj' by (intros x Hx Hp; by apply (Hdisj x)).
  assert (∀ n, count n (Q ≫= dependents_of dependents) =
    if decide (is_Some (services !! n)) then placed_in Q n else 0) as Hc.
  { intros n. destruct (decide (is_Some (services !! n))) as [Hs|Hs].
    - apply count_released; [done|]. intros d. by rewrite Hdep, decide_True.
    - clear HQ Hdisj Hdisj' Hk Hr. induction Q as [|q Q IH]; [done|].
      rewrite bind_cons, count_app, Hdep, decide_False, IH by done. done. }
  assert (∀ n, degree inDegree n - count n (Q ≫= dependents_of dependents) =
    if decide (is_Some (services !! n)) then waiting (P ++ Q) n else 0) as Hleft.
  { intros n. rewrite Hd, Hc. case_decide; [|done]. rewrite waiting_app; [lia|done]. }
  assert (∀ n, count n (Q ≫= dependents_of dependents) <= degree inDegree n) as Hle.
  { intros n. specialize (Hleft n). case_decide; [|lia].
    pose proof (waiting_nonneg (P ++ Q) n). lia. }
  destruct (release_run (Q ≫= dependents_of dependents) inDegree [] Hle)
    as (Hd' & next & Hnext & Hnn & Hin). unfold nextQueue. cbv zeta. rewrite Hnext. simpl.
  assert (∀ n, n ∈ next ↔ is_Some (services !! n) ∧ n ∉ P ++ Q ∧ waiting (P ++ Q) n = 0) as Hnew.
  { intros n. rewrite Hin, Hr. specialize (Hleft n). specialize (Hd n). specialize (Hc n).
    pose proof (waiting_nonneg P n). repeat case_decide; [|intuition lia].
    split; [intuition lia|]. intros (_ & Hno & E). split; [|lia].
    assert (waiting P n ≠ 0) by (intros E0; by apply Hno). lia. }
  split.
  - apply list.NoDup_app. split; [by apply list.NoDup_app|]. split; [|done].
    intros x Hx Hx'. apply Hnew in Hx' as (_ & ? & _). done.
  - intros n [Hx|Hx]%elem_of_app; [by apply Hk|]. by apply Hnew in Hx as [? _].
  - intros n. by rewrite Hd'.
  - intros n. rewrite elem_of_app, Hnew. split.
    + intros [Hx|(? & _ & ?)]; [|done]. split; [by apply Hk|].
      apply Hr in Hx as [_ E]. rewrite waiting_app by done.
      pose proof (waiting_nonneg (P ++ Q) n). rewrite waiting_app in * by done.
      unfold placed_in, len in *. lia.
    + intros [Hs E]. destruct (decide (n ∈ P ++ Q)); auto.
Qed.
(** ** The loop *)

(** Every layer is non-empty and waits for nothing outside the layers before it. *)
Fixpoint layered (P : list string) (groups : list (list string)) : Prop :=
  match groups with
  | [] => True
  | g :: groups => g ≠ [] ∧ (∀ n, n ∈ g → waiting P n = 0) ∧ layered (P ++ g) groups
  end.

Lemma known_length l :
  NoDup l → (∀ n, n ∈ l → is_Some (services !! n)) → (length l <= size services)%nat.
Proof.
  intros Hn Hk. rewrite <- size_dom, <- (size_list_to_set (C:=gset string)) by done.
  apply subseteq_size. intros n Hin%elem_of_list_to_set. by apply elem_of_dom, Hk.
Qed.

Section loop.
Context (dependents : dependentsMap).
Hypothesis (Hdep : ∀ n d, count n (dependents_of dependents d) =
     if decide (is_Some (services !! n)) then count d (deps services n) else 0).

Lemma topoLoop_run fuel : ∀ inDegree P Q groups processed,
  sort_inv P Q inDegree → (size services < length P + fuel)%nat →
  ∃ layers inDegree',
    topoLoop fuel dependents inDegree Q groups processed =
      (groups ++ layers, processed + len (concat layers), []) ∧
    layered P layers ∧ sort_inv (P ++ concat layers) [] inDegree'.
Proof using Hdep.
  induction fuel as [|fuel IH]; intros inDegree P Q groups processed Hinv Hfuel.
  all: destruct Q as [|q Q].
  1, 3: exists [], inDegree; simpl; rewrite !app_nil_r, Z.add_0_r; done.
  - exfalso. pose proof (known_length _ (so_nodup _ _ _ Hinv) (so_known _ _ _ Hinv)) as Hl.
    rewrite length_app in Hl. simpl in Hl. lia.
  - pose proof (layer_step dependents P (q :: Q) inDegree Hdep Hinv) as Hnext.
    cbv zeta in Hnext. simpl.
    destruct (IH _ _ _ (groups ++ [q :: Q]) (processed + len (q :: Q)) Hnext)
      as (layers & inDegree' & Hrun & Hl & Hinv').
    { rewrite length_app. simpl. lia. }
    exists ((q :: Q) :: layers), inDegree'. rewrite Hrun, <- app_assoc. simpl.
    rewrite <- app_assoc in Hinv'. split; [|split; [|done]].
    + assert (len (q :: Q ++ concat layers) = len (q :: Q) + len (concat layers)) as ->.
      { unfold len. simpl. rewrite length_app. lia. }
      by rewrite Z.add_assoc.
    + split; [done|]. split; [|done]. intros n Hn.
      apply (so_ready _ _ _ Hinv). apply elem_of_app. by right.
Qed.
End loop.

(** An iteration order: every service once. *)
Definition iteration (order : list string) : Prop :=
  NoDup order ∧ ∀ n, n ∈ order ↔ is_Some (services !! n).

Lemma decide_iteration order n {A} (a b : A) : iteration order →
  (if decide (n ∈ order) then a else b) = if decide (is_Some (services !! n)) then a else b.
Proof. intros [_ Ho]. specialize (Ho n). repeat case_decide; try done; exfalso; naive_solver. Qed.

Lemma waiting_none n : waiting [] n = len (deps services n).
Proof.
  unfold waiting. f_equal. induction (deps services n) as [|y l IH]; [done|].
  rewrite filter_cons_True, IH; [done|]. by intros ?%elem_of_nil.
Qed.

Lemma initial_inv order1 order2 :
  iteration order1 → iteration order2 →
  let g := buildDepGraph order1 services in
  sort_inv [] (filter (λ name, degree g.1 name = 0) order2) g.1.
Proof.
  intros H1 H2. cbv zeta.
  assert (∀ n, degree (buildDepGraph order1 services).1 n =
    if decide (is_Some (services !! n)) then waiting [] n else 0) as Hd.
  { intros n. destruct (build_graph services order1 n n (proj1 H1)) as [-> _].
    rewrite (decide_iteration order1) by done. by rewrite waiting_none. }
  split; simpl.
  - apply list.NoDup_filter, H2.
  - intros n [_ Hn]%list_elem_of_filter. by apply H2.
  - done.
  - intros n. rewrite list_elem_of_filter, Hd. destruct H2 as [_ H2]. rewrite H2.
    case_decide; naive_solver.
Qed.

(** What the sort finds. *)
Lemma topoNames_run order1 order2 :
  iteration order1 → iteration order2 →
  ∃ layers,
    topoNames (S (size services)) order2 (buildDepGraph order1 services) =
      (layers, len (concat layers), []) ∧
    layered [] layers ∧ NoDup (concat layers) ∧
    ∀ n, n ∈ concat layers ↔ is_Some (services !! n) ∧ waiting (concat layers) n = 0.
Proof.
  intros H1 H2. unfold topoNames.
  destruct (topoLoop_run (buildDepGraph order1 services).2) with
    (fuel := S (size services)) (P := @nil string) (groups := @nil (list string)) (processed := 0)
    (inDegree := (buildDepGraph order1 services).1)
    (Q := filter (λ name, degree (buildDepGraph order1 services).1 name = 0) order2)
    as (layers & inDegree' & Hrun & Hl & Hinv).
  - intros n d. destruct (build_graph services order1 n d (proj1 H1)) as [_ ->].
    by apply decide_iteration.
  - by apply initial_inv.
  - simpl. lia.
  - exists layers. rewrite Hrun. simpl. rewrite Z.add_0_l. split; [done|]. split; [done|].
    simpl in Hinv. destruct Hinv as [Hn _ _ Hr]. rewrite app_nil_r in Hn, Hr. done.
Qed.

(** ** Cycles *)

(** Following a relation inside a finite set comes back. *)
Lemma chain_repeats {A} `{EqDecision A} (R : relation A) (l : list A) :
  StronglySorted (λ a b, tc R b a) l → ¬ NoDup l → ∃ x, x ∈ l ∧ tc R x x.
Proof.
  induction 1 as [|x l Hs IH Hx]; intros Hn; [by destruct Hn; constructor|].
  destruct (decide (x ∈ l)) as [Hin|Hin].
  - exists x. split; [by left|]. rewrite list.Forall_forall in Hx. by apply Hx.
  - destruct IH as (y & Hy & Hc); [intros ?; apply Hn; by constructor|].
    exists y. split; [by right|done].
Qed.

Lemma closed_set_cycle {A} `{EqDecision A} (R : relation A) (C : list A) x :
  x ∈ C → (∀ n, n ∈ C → ∃ d, d ∈ C ∧ R n d) → ∃ n, n ∈ C ∧ tc R n n.
Proof.
  intros Hx Hc.
  assert (∀ k, ∃ y l, length l = k ∧ (∀ z, z ∈ y :: l → z ∈ C) ∧
    StronglySorted (λ a b, tc R b a) (y :: l)) as Hchain.
  { induction k as [|k (y & l & Hl & HC & Hs)].
    - exists x, []. split; [done|]. split; [|by repeat constructor].
      by intros z ->%list_elem_of_singleton.
    - destruct (Hc y) as (d & Hd & HR); [apply HC; by left|].
      exists d, (y :: l). split; [simpl; by rewrite Hl|]. split.
      + intros z [->|Hz]%elem_of_cons; [done|by apply HC].
      + constructor; [done|]. inversion Hs as [|? ? _ Hy]; subst.
        constructor; [change (tc R y d); by apply tc_once|].
        eapply list.Forall_impl; [exact Hy|]. intros z Hz. change (tc R z d). eapply tc_r; [exact Hz|exact HR]. }
  destruct (Hchain (length C)) as (y & l & Hl & HC & Hs).
  destruct (chain_repeats R (y :: l) Hs) as (n & Hn & Ht); [|eauto].
  intros Hnd. pose proof (NoDup_submseteq (y :: l) C Hnd HC) as Hsub.
  apply submseteq_length in Hsub. simpl in Hsub. lia.
Qed.

End sort.
End ServiceGraphSpec.
