(* ===== verification/ServiceRun.v ===== *)
(** * Running services

    [internal/pkg/service-manager/service_manager.go], second half: [Run], the start of
    the groups, one goroutine per service with its retries, and [Stop].  The goroutines
    interleave, so they are step relations over the channels and flags they share; what
    a service does ([Run] returning, panicking, signalling ready) and the caller's
    cancellation are steps the environment takes. *)

From S2P Require Import Prelude Document Store ServiceGraph.
From stdpp Require Import options.
#[local] Open Scope Z_scope.

Module ServiceRun.
Import ServiceGraph.

Definition ErrServicePanic : string := "service panicked".

(** How one call of [Service.Run] ends; [None] is the nil error. *)
Inductive runResult : Set := RunReturned (err : option goerr) | RunPanicked.

Definition safeRun (r : runResult) : option goerr :=
  match r with
  | RunReturned err => err
  | RunPanicked => Some (EForeign ErrServicePanic)
  end.

(** The number of retries, zero without [Retryable]. *)
Definition maxRetries (svc : Service) : Z := default 0 (MaxRetries svc).
Definition allowedFailure (svc : Service) : bool := default false (IsAllowedFailure svc).

(** What [runService] ranges over: [maxRetries + 1], an [int]. *)
Definition attempts (svc : Service) : Z := wrap64 (maxRetries svc + 1).

(** Where the goroutine of a service is. *)
Inductive phase : Set :=
  | NotLaunched
  | Launched                                     (** before it reports being launched *)
  | Running (attempt : Z)
  | Failed (attempt : Z) (err : goerr)           (** [safeRun] returned [err] *)
  | Delaying (attempt : Z) (err : goerr)         (** in [waitRetryDelay] *)
  | Reporting (err : option goerr)               (** in [handleServiceError] *)
  | Triggering                                   (** after the send, before [trigger] *)
  | Exited.

(** What the goroutines share.  [reports] is the history of the failures that reached
    the send, oldest first. *)
Record shared : Set := MkShared {
  errCh : option (option goerr);          (** the buffered value *)
  failed : bool;                          (** [failure.ch] is closed *)
  cancelled : bool;                       (** the run context *)
  ready : gset string;
  startGroups : list serviceGroup;
  stopOnce : option (option (list serviceGroup));
    (** not begun, or the groups left to stop, or done *)
  stopped : list serviceGroup;            (** the groups stopped so far *)
  reports : list (option goerr)
}.

Definition with_errCh v sh := MkShared v (failed sh) (cancelled sh) (ready sh) (startGroups sh)
  (stopOnce sh) (stopped sh) (reports sh).
Definition with_cancelled sh := MkShared (errCh sh) (failed sh) true (ready sh) (startGroups sh)
  (stopOnce sh) (stopped sh) (reports sh).
Definition with_ready name sh := MkShared (errCh sh) (failed sh) (cancelled sh)
  ({[name]} ∪ ready sh) (startGroups sh) (stopOnce sh) (stopped sh) (reports sh).
Definition with_started g sh := MkShared (errCh sh) (failed sh) (cancelled sh) (ready sh)
  (startGroups sh ++ [g]) (stopOnce sh) (stopped sh) (reports sh).
Definition with_stop once done sh := MkShared (errCh sh) (failed sh) (cancelled sh) (ready sh)
  (startGroups sh) once done (reports sh).

(** The non-blocking send of [handleServiceError]. *)
Definition report (err : option goerr) (sh : shared) : shared :=
  MkShared (match errCh sh with None => Some err | Some _ => errCh sh end) (failed sh)
    (cancelled sh) (ready sh) (startGroups sh) (stopOnce sh) (stopped sh)
    (reports sh ++ [err]).

(** [failure.trigger] *)
Definition trigger (sh : shared) : shared :=
  MkShared (errCh sh) true (cancelled sh) (ready sh) (startGroups sh) (stopOnce sh)
    (stopped sh) (reports sh).

(** ** The goroutine of one service ([runService]) *)
Inductive service_step (svc : Service) : phase → shared → phase → shared → Prop :=
  | launched sh :
      0 < attempts svc → service_step svc Launched sh (Running 0) sh
  | launched_no_attempt sh :
      (** the range is empty *)
      attempts svc <= 0 → service_step svc Launched sh (Reporting None) sh
  | run_clean sh a r :
      safeRun r = None → service_step svc (Running a) sh Exited sh
  | run_failed sh a r err :
      safeRun r = Some err → service_step svc (Running a) sh (Failed a err) sh
  | failed_cancelled sh a err :
      cancelled sh = true → service_step svc (Failed a err) sh Exited sh
  | failed_retry sh a err :
      cancelled sh = false → a < maxRetries svc →
      service_step svc (Failed a err) sh (Delaying a err) sh
  | failed_exhausted sh a err :
      cancelled sh = false → maxRetries svc <= a →
      service_step svc (Failed a err) sh (Reporting (Some err)) sh
  | delay_over sh a err :
      service_step svc (Delaying a err) sh (Running (a + 1)) sh
  | delay_cancelled sh a err :
      0 < RetryDelay svc → cancelled sh = true →
      service_step svc (Delaying a err) sh Exited sh
  | report_allowed sh err :
      allowedFailure svc = true → service_step svc (Reporting err) sh Exited sh
  | report_failure sh err :
      allowedFailure svc = false →
      service_step svc (Reporting err) sh Triggering (report err sh)
  | triggered sh : service_step svc Triggering sh Exited (trigger sh).

(** ** The goroutine of [Run] *)
Inductive mainPhase : Set :=
  | Entered                                  (** before [runServiceGroups] locks *)
  | AtGroup (i : nat)                        (** the head of the loop *)
  | AwaitLaunch (i : nat)
  | AwaitReady (i idx : nat)                 (** in [waitGroupReady] *)
  | Selecting
  | StopCalled (result : option (option goerr))   (** the deferred [Stop] *)
  | Stopping (result : option (option goerr))
  | Draining (result : option (option goerr))     (** the deferred [wg.Wait] *)
  | Returned (result : option (option goerr)).    (** [errCh] is closed *)

Abbreviation phases := (gmap string phase).
Definition phase_of (ph : phases) (svc : Service) : phase := default NotLaunched (ph !! Name svc).

Definition launch (g : serviceGroup) (ph : phases) : phases :=
  foldr (λ svc ph, <[Name svc := Launched]> ph) ph g.

(** A goroutine that exists no more, or never did. *)
Definition settled (p : phase) : Prop := p = NotLaunched ∨ p = Exited.

Inductive main_step (groups : list serviceGroup)
  : mainPhase → phases → shared → mainPhase → phases → shared → Prop :=
  | begin_start ph sh : main_step groups Entered ph sh (AtGroup 0) ph sh
  | start_group i g ph sh :
      (** the check of the signal and the [go] statements are one step: a goroutine that
          has not been scheduled yet cannot be told from one not created yet *)
      groups !! i = Some g → failed sh = false →
      main_step groups (AtGroup i) ph sh (AwaitLaunch i) (launch g ph) sh
  | start_abandoned i g ph sh :
      groups !! i = Some g → failed sh = true →
      main_step groups (AtGroup i) ph sh Selecting ph sh
  | start_finished i ph sh :
      groups !! i = None → main_step groups (AtGroup i) ph sh Selecting ph sh
  | all_launched i g ph sh :
      groups !! i = Some g → (∀ svc, svc ∈ g → phase_of ph svc ≠ Launched) →
      main_step groups (AwaitLaunch i) ph sh (AwaitReady i 0) ph sh
  | ready_not_needed i idx g svc ph sh :
      groups !! i = Some g → g !! idx = Some svc → ReadyNotifier svc = false →
      main_step groups (AwaitReady i idx) ph sh (AwaitReady i (S idx)) ph sh
  | ready_signalled i idx g svc ph sh :
      groups !! i = Some g → g !! idx = Some svc → ReadyNotifier svc = true →
      Name svc ∈ ready sh ∨ phase_of ph svc = Exited →
      main_step groups (AwaitReady i idx) ph sh (AwaitReady i (S idx)) ph sh
  | ready_interrupted i idx g svc ph sh :
      groups !! i = Some g → g !! idx = Some svc → ReadyNotifier svc = true →
      failed sh = true ∨ cancelled sh = true →
      main_step groups (AwaitReady i idx) ph sh (AtGroup (S i)) ph (with_started g sh)
  | ready_done i idx g ph sh :
      groups !! i = Some g → g !! idx = None →
      main_step groups (AwaitReady i idx) ph sh (AtGroup (S i)) ph (with_started g sh)
  | select_done ph sh :
      cancelled sh = true → main_step groups Selecting ph sh (StopCalled None) ph sh
  | select_failure err ph sh :
      errCh sh = Some err →
      main_step groups Selecting ph sh (StopCalled (Some err)) ph (with_errCh None sh)
  | stop_called result ph sh :
      main_step groups (StopCalled result) ph sh (Stopping result) ph
        (let sh := with_cancelled sh in
         match stopOnce sh with
         | None => with_stop (Some (Some (reverse (startGroups sh)))) (stopped sh) sh
         | Some _ => sh
         end)
  | stop_returned result ph sh :
      stopOnce sh = Some None →
      main_step groups (Stopping result) ph sh (Draining result) ph sh
  | drained result ph sh :
      (∀ g svc, g ∈ groups → svc ∈ g → settled (phase_of ph svc)) →
      main_step groups (Draining result) ph sh (Returned result) ph sh.

(** [runServiceGroups] holds [startGroupsMu] from its first group to its last. *)
Definition starting (m : mainPhase) : bool :=
  match m with AtGroup _ | AwaitLaunch _ | AwaitReady _ _ => true | _ => false end.

(** ** The body of [stopOnce.Do], group by group *)
Inductive stop_step : shared → shared → Prop :=
  | stop_group g rest sh :
      stopOnce sh = Some (Some (g :: rest)) →
      stop_step sh (with_stop (Some (Some rest)) (stopped sh ++ [g]) sh)
  | stop_finished sh :
      stopOnce sh = Some (Some []) → stop_step sh (with_stop (Some None) (stopped sh) sh).

(** ** The whole *)
Record state : Set := MkState { main : mainPhase; procs : phases; glob : shared }.

(** What the manager does, the services' own code included. *)
Inductive internal (groups : list serviceGroup) : state → state → Prop :=
  | step_service g svc p' m ph sh sh' :
      g ∈ groups → svc ∈ g → service_step svc (phase_of ph svc) sh p' sh' →
      internal groups (MkState m ph sh) (MkState m (<[Name svc := p']> ph) sh')
  | step_main m ph sh m' ph' sh' :
      main_step groups m ph sh m' ph' sh' →
      internal groups (MkState m ph sh) (MkState m' ph' sh')
  | step_stop m ph sh sh' :
      stop_step sh sh' → internal groups (MkState m ph sh) (MkState m ph sh').

Inductive environment (groups : list serviceGroup) : state → state → Prop :=
  | step_ready g svc m ph sh :
      (** a service closes its [Ready] channel *)
      g ∈ groups → svc ∈ g → ReadyNotifier svc = true →
      environment groups (MkState m ph sh) (MkState m ph (with_ready (Name svc) sh))
  | step_cancel m ph sh :
      (** the caller's context, or the [cancel] of a concurrent [Stop] *)
      environment groups (MkState m ph sh) (MkState m ph (with_cancelled sh))
  | step_other_stop m ph sh :
      (** a concurrent [Stop] enters [stopOnce] and takes [startGroupsMu] *)
      stopOnce sh = None → starting m = false →
      environment groups (MkState m ph sh)
        (MkState m ph (with_stop (Some (Some (reverse (startGroups sh)))) (stopped sh) sh)).

Definition step (groups : list serviceGroup) (st st' : state) : Prop :=
  internal groups st st' ∨ environment groups st st'.

Definition initial : state :=
  MkState Entered ∅ (MkShared None false false ∅ [] None [] []).

Definition reachable (groups : list serviceGroup) (st : state) : Prop :=
  rtc (step groups) initial st.

End ServiceRun.
