(* ===== verification/ServiceRunSpec.v ===== *)
(** * Invariants of a running service manager *)

From S2P Require Import Prelude Document Store ServiceGraph ServiceRun.
From stdpp Require Import options.
#[local] Open Scope Z_scope.

Module ServiceRunSpec.
Import ServiceGraph ServiceRun.

(** An invariant holds in every reachable state. *)
Lemma invariant (groups : list serviceGroup) (I : state → Prop) :
  I initial → (∀ st st', I st → step groups st st' → I st') →
  ∀ st, reachable groups st → I st.
Proof.
  intros H0 Hstep. apply (rtc_ind_r I initial); [done|]. intros st st' _ Hs HI. by eapply Hstep.
Qed.

(** The failure [Run] took out of the channel, if it did. *)
Definition received (m : mainPhase) : option (option goerr) :=
  match m with
  | StopCalled r | Stopping r | Draining r | Returned r => r
  | _ => None
  end.

(** ** The failure channel *)
Record channel_inv (st : state) : Prop := {
  ch_first : match received (main st) with
    | Some err => head (reports (glob st)) = Some err
    | None => errCh (glob st) = head (reports (glob st))
    end;
  ch_failed : failed (glob st) = true → reports (glob st) ≠ [];
  ch_trigger : ∀ name, procs st !! name = Some Triggering → reports (glob st) ≠ []
}.

Lemma report_first err sh :
  errCh sh = head (reports sh) → errCh (report err sh) = head (reports (report err sh)).
Proof. simpl. intros ->. by destruct (reports sh). Qed.

Lemma report_nonempty err sh : reports (report err sh) ≠ [].
Proof. simpl. by destruct (reports sh). Qed.

Lemma head_app {A} (l k : list A) x : head l = Some x → head (l ++ k) = Some x.
Proof. by destruct l. Qed.

Lemma insert_phase_inv (ph : phases) name p k q :
  <[name := p]> ph !! k = Some q → q = p ∨ ph !! k = Some q.
Proof. intros [[_ <-]|[_ ?]]%lookup_insert_Some; auto. Qed.

Lemma launch_inv g ph k q : launch g ph !! k = Some q → q = Launched ∨ ph !! k = Some q.
Proof.
  induction g as [|svc g IH]; simpl; [auto|]. intros [<-|?]%insert_phase_inv; auto.
Qed.

Lemma channel_holds groups st : reachable groups st → channel_inv st.
Proof.
  apply invariant; [by split|]. clear st. intros st st' [Hf Hfail Ht] [Hs|Hs];
    [inversion Hs as [g svc p' m ph sh sh' _ _ Hp|m ph sh m' ph' sh' Hm|m ph sh sh' Hst]
    |inversion Hs]; subst; simpl in *; [| | |by split..].
  - assert (∀ q, p' = q → q ≠ Triggering → reports sh' = reports sh →
      ∀ name, <[Name svc:=p']> ph !! name = Some Triggering → reports sh' ≠ []) as Hother.
    { intros q <- Hq Er name Hn. rewrite Er.
      apply insert_phase_inv in Hn as [Hn|Hn]; [by subst|by eapply Ht]. }
    inversion Hp; subst; try (split; simpl; [done|done|by eapply Hother]; fail).
    + (* the send *)
      split; simpl.
      * destruct (received m); [by apply head_app|]. by apply report_first.
      * intros _. apply report_nonempty.
      * intros name _. apply report_nonempty.
    + (* the trigger *)
      split; simpl; [by destruct (received m)|intros _|].
      * unfold phase_of in *. destruct (ph !! Name svc) as [q|] eqn:E; simpl in *; [|done].
        subst q. by eapply Ht.
      * intros name Hn. apply insert_phase_inv in Hn as [Hn|Hn]; [done|by eapply Ht].
  - inversion Hm; subst; simpl in *; try (split; simpl; done).
    + split; simpl; [done|done|]. intros name Hn.
      apply launch_inv in Hn as [Hn|Hn]; [done|by eapply Ht].
    + split; simpl; congruence || done.
    + destruct (stopOnce sh); (split; simpl; [done|done|exact Ht]).
  - inversion Hst; subst; by split.
Qed.

(** ** Positions *)

(** The groups whose goroutines exist. *)
Definition launchedGroups (st : state) : nat :=
  match main st with
  | AwaitLaunch i | AwaitReady i _ => S i
  | _ => length (startGroups (glob st))
  end.

Definition at_group (m : mainPhase) : option nat :=
  match m with AtGroup i | AwaitLaunch i | AwaitReady i _ => Some i | _ => None end.

Lemma phase_insert ph svc svc' p :
  phase_of (<[Name svc := p]> ph) svc' =
  if decide (Name svc = Name svc') then p else phase_of ph svc'.
Proof.
  unfold phase_of. case_decide as E; [by rewrite E, lookup_insert_eq|by rewrite lookup_insert_ne].
Qed.

Lemma phase_launch g ph svc :
  phase_of (launch g ph) svc = if decide (Name svc ∈ Name <$> g) then Launched else phase_of ph svc.
Proof.
  induction g as [|svc' g IH]; cbn [launch foldr fmap list_fmap].
  - by destruct (decide (Name svc ∈ [])) as [[]%elem_of_nil|_].
  - fold (launch g ph). rewrite phase_insert, IH. clear IH.
    pose proof (elem_of_cons (Name <$> g) (Name svc) (Name svc')) as Hc.
    repeat case_decide; try done; exfalso; naive_solver.
Qed.

(** A goroutine that runs was launched, and stays so. *)
Lemma service_step_launched svc p sh p' sh' :
  service_step svc p sh p' sh' → p ≠ NotLaunched ∧ p' ≠ NotLaunched ∧ p ≠ Exited.
Proof. by destruct 1. Qed.

Lemma service_step_shared svc p sh p' sh' :
  service_step svc p sh p' sh' →
  startGroups sh' = startGroups sh ∧ ready sh' = ready sh ∧ cancelled sh' = cancelled sh ∧
  stopOnce sh' = stopOnce sh ∧ stopped sh' = stopped sh ∧
  (failed sh = true → failed sh' = true).
Proof. by destruct 1. Qed.

Lemma stop_step_shared sh sh' :
  stop_step sh sh' →
  startGroups sh' = startGroups sh ∧ ready sh' = ready sh ∧ cancelled sh' = cancelled sh ∧
  failed sh' = failed sh.
Proof. by destruct 1. Qed.

Lemma NoDup_fmap_same {A B} (f : A → B) l x y :
  NoDup (f <$> l) → x ∈ l → y ∈ l → f x = f y → x = y.
Proof.
  induction l as [|z l IH]; [by intros _ ?%elem_of_nil|]. cbn. intros [Hz Hn]%list.NoDup_cons.
  intros [->|Hx]%elem_of_cons [->|Hy]%elem_of_cons E; [done| | |by apply IH].
  - destruct Hz. rewrite E. by apply list_elem_of_fmap_2.
  - destruct Hz. rewrite <- E. by apply list_elem_of_fmap_2.
Qed.

Lemma elem_of_concat {A} (l : list (list A)) i g x : l !! i = Some g → x ∈ g → x ∈ concat l.
Proof.
  intros Hi Hx. apply list_elem_of_In, in_concat. exists g.
  rewrite <- !list_elem_of_In. split; [by eapply list_elem_of_lookup_2|done].
Qed.

Section groups.
Context (groups : list serviceGroup).
Hypothesis unique : NoDup (Name <$> concat groups).

(** Services of distinct positions have distinct names. *)
Lemma same_name i j g g' svc svc' :
  groups !! i = Some g → svc ∈ g → groups !! j = Some g' → svc' ∈ g' →
  Name svc = Name svc' → i = j ∧ svc = svc'.
Proof using unique.
  revert i j. induction groups as [|x l IH]; intros i j; [done|].
  cbn [concat] in unique. rewrite fmap_app in unique.
  apply list.NoDup_app in unique as (Hx & Hd & Hl).
  assert (∀ k g s, l !! k = Some g → s ∈ g → Name s ∈ Name <$> concat l) as Hin.
  { intros k g0 s Hk Hs. apply list_elem_of_fmap_2. by eapply elem_of_concat. }
  destruct i as [|i], j as [|j]; simpl; intros Hi Hs Hj Hs' E; simplify_eq.
  - split; [done|]. by apply (NoDup_fmap_same Name g).
  - exfalso. apply (Hd (Name svc)); [by apply list_elem_of_fmap_2|].
    rewrite E. by eapply Hin.
  - exfalso. apply (Hd (Name svc')); [by apply list_elem_of_fmap_2|].
    rewrite <- E. by eapply Hin.
  - destruct (IH Hl i j Hi Hs Hj Hs' E) as [-> ->]. done.
Qed.

Record position_inv (st : state) : Prop := {
  po_started : ∃ k, startGroups (glob st) = take k groups;
  po_at : ∀ i, at_group (main st) = Some i → length (startGroups (glob st)) = i;
  po_group : ∀ i, (main st = AwaitLaunch i ∨ ∃ idx, main st = AwaitReady i idx) →
    is_Some (groups !! i);
  po_entered : main st = Entered → startGroups (glob st) = [];
  po_launched : ∀ j g svc, groups !! j = Some g → svc ∈ g →
    phase_of (procs st) svc = NotLaunched ↔ (launchedGroups st <= j)%nat
}.

Lemma started_length k sg : sg = take k groups → (length sg <= length groups)%nat ∧ sg = take (length sg) groups.
Proof.
  intros ->. rewrite length_take. split; [lia|].
  destruct (decide (k <= length groups)%nat); [by rewrite Nat.min_l|].
  rewrite Nat.min_r, !take_ge by lia. done.
Qed.

(** One more group. *)
Lemma started_next sg i g :
  (∃ k, sg = take k groups) → length sg = i → groups !! i = Some g →
  sg ++ [g] = take (S i) groups.
Proof.
  intros [k Hk] Hl Hg. destruct (started_length k sg Hk) as [_ Hs].
  rewrite Hs, Hl. symmetry. by apply take_S_r.
Qed.

Lemma service_position g svc p ph p' sh sh' j g' svc' :
  g ∈ groups → svc ∈ g → groups !! j = Some g' → svc' ∈ g' →
  service_step svc (phase_of ph svc) sh p' sh' → p = phase_of (<[Name svc := p']> ph) svc' →
  p = NotLaunched ↔ phase_of ph svc' = NotLaunched.
Proof using unique.
  intros [i Hi]%list_elem_of_lookup_1 Hs Hj Hs' Hp ->. rewrite phase_insert. case_decide as E; [|done].
  destruct (same_name i j g g' svc svc') as [-> ->]; [done..|].
  apply service_step_launched in Hp as (? & ? & ?). naive_solver.
Qed.

Lemma launch_position i g ph j g' svc :
  groups !! i = Some g → groups !! j = Some g' → svc ∈ g' →
  phase_of (launch g ph) svc = if decide (i = j) then Launched else phase_of ph svc.
Proof using unique.
  intros Hi Hj Hs. rewrite phase_launch. destruct (decide (Name svc ∈ Name <$> g)) as [Hin|Hout].
  - apply list_elem_of_fmap in Hin as (svc' & E & Hin).
    destruct (same_name j i g' g svc svc') as [-> _]; [done..|]. by rewrite decide_True.
  - rewrite decide_False; [done|]. intros ->. simplify_eq. destruct Hout.
    by apply list_elem_of_fmap_2.
Qed.

Lemma position_next ph sh i g idx :
  position_inv (MkState (AwaitReady i idx) ph sh) → groups !! i = Some g →
  position_inv (MkState (AtGroup (S i)) ph (with_started g sh)).
Proof.
  intros [Hk Ha Hg He Hl] Hi. unfold launchedGroups in *. simpl in *.
  pose proof (started_next _ i g Hk (Ha i eq_refl) Hi) as E.
  pose proof (Ha i eq_refl) as Ei.
  assert (length (startGroups sh ++ [g]) = S i) as El by (rewrite length_app, Ei; simpl; lia).
  split; unfold launchedGroups; simpl; rewrite ?El; [by eexists|by intros k [= <-]|naive_solver|done|].
  intros j g' svc Hj Hs'. by rewrite (Hl j g' svc).
Qed.

Lemma position_step st st' : position_inv st → step groups st st' → position_inv st'.
Proof using unique.
  intros [Hk Ha Hg He Hl] [Hs|Hs];
    [inversion Hs as [g svc p' m ph sh sh' Hin Hin' Hp|m ph sh m' ph' sh' Hm|m ph sh sh' Hst]
    |inversion Hs]; subst; simpl in *; [| | |by split..].
  - pose proof (service_step_shared _ _ _ _ _ Hp) as (E & _).
    split; unfold launchedGroups in *; simpl in *; rewrite ?E; try done.
    intros j g' svc' Hj Hs'. rewrite <- (Hl j g' svc' Hj Hs').
    by eapply service_position; [..|reflexivity].
  - unfold launchedGroups in *. inversion Hm; subst; simpl in *.
    all: try (split; unfold launchedGroups; simpl;
      [done|intros ? [=]; subst; eauto|intros ? [[=]|[? [=]]]; subst; eauto|done|done]; fail).
    + (* the loop begins *)
      split; simpl; [done|intros i [= <-]; by rewrite He|by intros ? [?|[? ?]]|done|done].
    + (* a group is launched *)
      split; unfold launchedGroups; simpl; [done|intros ? [= <-]; by apply Ha|naive_solver|done|].
      intros j g' svc Hj Hs'.
      rewrite (launch_position i g _ j g') by done. specialize (Hl j g' svc Hj Hs').
      rewrite (Ha i) in Hl by done. case_decide; [subst|rewrite Hl; lia].
      split; [done|lia].
    + by apply (position_next _ _ i g idx).
    + by apply (position_next _ _ i g idx).
    + destruct (stopOnce sh); split; unfold launchedGroups; simpl; done || naive_solver.
  - apply stop_step_shared in Hst as (E & _).
    split; unfold launchedGroups in *; simpl in *; rewrite ?E; done.
Qed.

Lemma position_holds st : reachable groups st → position_inv st.
Proof using unique.
  apply invariant; [|apply position_step].
  split; simpl; try done; [by exists 0%nat|naive_solver|].
  intros j g svc _ _. unfold phase_of. rewrite lookup_empty. split; [cbn; lia|done].
Qed.

(** ** Readiness *)

(** What ends the wait for one service. *)
Definition waited (ph : phases) (sh : shared) (svc : Service) : Prop :=
  ReadyNotifier svc = true →
  Name svc ∈ ready sh ∨ phase_of ph svc = Exited ∨ failed sh = true ∨ cancelled sh = true.

(** The wait for the service at [k] of group [j] is over. *)
Definition passed (st : state) (j k : nat) : Prop :=
  (j < length (startGroups (glob st)))%nat ∨
  match main st with AwaitReady i idx => j = i ∧ (k < idx)%nat | _ => False end.

Definition gate_inv (st : state) : Prop :=
  ∀ j k g svc, groups !! j = Some g → g !! k = Some svc → passed st j k →
    waited (procs st) (glob st) svc.

Lemma waited_mono ph ph' sh sh' svc :
  (phase_of ph svc = Exited → phase_of ph' svc = Exited) → ready sh ⊆ ready sh' →
  (failed sh = true → failed sh' = true) → (cancelled sh = true → cancelled sh' = true) →
  waited ph sh svc → waited ph' sh' svc.
Proof.
  intros He Hr Hf Hc H Hn. destruct (H Hn) as [Hin|[E|[E|E]]]; [left; by apply Hr|auto..].
Qed.

Lemma exited_stays g svc j g' svc' ph p' sh sh' :
  g ∈ groups → svc ∈ g → groups !! j = Some g' → svc' ∈ g' →
  service_step svc (phase_of ph svc) sh p' sh' →
  phase_of ph svc' = Exited → phase_of (<[Name svc := p']> ph) svc' = Exited.
Proof using unique.
  intros [i Hi]%list_elem_of_lookup_1 Hs Hj Hs' Hp E. rewrite phase_insert. case_decide as En; [|done].
  destruct (same_name i j g g' svc svc') as [-> ->]; [done..|].
  apply service_step_launched in Hp as (_ & _ & []). done.
Qed.

Lemma gate_mono st ph sh :
  gate_inv st → startGroups (glob st) = startGroups sh →
  (∀ j g svc, groups !! j = Some g → svc ∈ g → phase_of (procs st) svc = Exited → phase_of ph svc = Exited) →
  ready (glob st) ⊆ ready sh → (failed (glob st) = true → failed sh = true) →
  (cancelled (glob st) = true → cancelled sh = true) →
  gate_inv (MkState (main st) ph sh).
Proof.
  intros H E Hex Hr Hf Hc j k g svc Hj Hk Hp.
  assert (passed st j k) as Hp' by (unfold passed in *; simpl in Hp; by rewrite E).
  eapply waited_mono; [|exact Hr|exact Hf|exact Hc|by eapply H].
  apply (Hex j g); [done|]. by eapply list_elem_of_lookup_2.
Qed.

(** The main goroutine moved without passing a service. *)
Lemma gate_main m m' ph sh sh' :
  gate_inv (MkState m ph sh) → startGroups sh = startGroups sh' → ready sh = ready sh' →
  (failed sh = true → failed sh' = true) → (cancelled sh = true → cancelled sh' = true) →
  (∀ i idx, m' = AwaitReady i idx → idx = 0%nat) →
  gate_inv (MkState m' ph sh').
Proof.
  intros H E Er Hf Hc Hm j k g svc Hj Hk Hp.
  eapply waited_mono; [done|by rewrite Er|exact Hf|exact Hc|eapply H; [done..|]].
  unfold passed in *. simpl in *. rewrite E. destruct Hp as [Hp|Hp]; [by left|].
  destruct m' as [| | |i idx| | | | |]; try done. specialize (Hm i idx eq_refl). lia.
Qed.

Lemma gate_ready i idx g svc ph sh :
  gate_inv (MkState (AwaitReady i idx) ph sh) → groups !! i = Some g → g !! idx = Some svc →
  waited ph sh svc → gate_inv (MkState (AwaitReady i (S idx)) ph sh).
Proof.
  intros H Hi Hs Hw j k g' svc' Hj Hk Hp. simpl.
  destruct (decide (j = i ∧ k = idx)) as [[-> ->]|Hne]; [by simplify_eq|].
  apply (H j k g'); [done..|]. unfold passed in *. simpl in *. lia.
Qed.

Lemma gate_next i idx g ph sh :
  gate_inv (MkState (AwaitReady i idx) ph sh) → length (startGroups sh) = i →
  groups !! i = Some g → g !! idx = None ∨ failed sh = true ∨ cancelled sh = true →
  gate_inv (MkState (AtGroup (S i)) ph (with_started g sh)).
Proof.
  intros H Ei Hi Hw j k g' svc Hj Hk Hp. unfold passed in Hp. simpl in Hp.
  rewrite length_app in Hp. simpl in Hp.
  destruct Hw as [Hn|Hw]; [|intros _; simpl; tauto].
  apply (waited_mono ph ph sh); [done..|]. apply (H j k g'); [done..|]. unfold passed. simpl.
  destruct (decide (j = i)) as [->|]; [|lia]. simplify_eq. right. split; [done|].
  apply lookup_lt_Some in Hk. apply lookup_ge_None in Hn. lia.
Qed.

Lemma gate_launch i g ph sh :
  position_inv (MkState (AtGroup i) ph sh) → gate_inv (MkState (AtGroup i) ph sh) →
  groups !! i = Some g → gate_inv (MkState (AwaitLaunch i) (launch g ph) sh).
Proof using unique.
  intros Hpos H Hi j k g' svc Hj Hk [Hp|Hp]; simpl in *; [|done].
  eapply waited_mono; [|done..|apply (H j k g'); [done..|by left]].
  simpl. rewrite (launch_position i g _ j g') by (done || by eapply list_elem_of_lookup_2).
  rewrite decide_False; [done|]. pose proof (po_at _ Hpos i eq_refl). simpl in *. lia.
Qed.

Lemma gate_step st st' :
  position_inv st → gate_inv st → step groups st st' → gate_inv st'.
Proof using unique.
  intros Hpos Hg Hstep. destruct Hstep as [Hs|Hs];
    [inversion Hs as [g svc p' m ph sh sh' Hin Hin' Hp|m ph sh m' ph' sh' Hm|m ph sh sh' Hst]
    |inversion Hs as [g svc m ph sh _ _ _|m ph sh|m ph sh _ _]]; subst.
  - pose proof (service_step_shared _ _ _ _ _ Hp) as (E & Er & Ec & _ & _ & Ef).
    apply (gate_mono _ _ _ Hg); simpl; rewrite ?E, ?Er, ?Ec; try done.
    intros j g' svc' Hj Hs'. by eapply exited_stays.
  - inversion Hm; subst;
      try (apply (gate_main _ _ _ _ _ Hg); simpl; try done; by intros ? ? [= <- <-]).
    + (* launch *)
      apply (gate_launch _ _ _ _ Hpos Hg). done.
    + apply (gate_ready _ _ g svc _ _ Hg); [done..|]. intros ?. congruence.
    + apply (gate_ready _ _ g svc _ _ Hg); [done..|]. intros ?. naive_solver.
    + eapply (gate_next i idx g _ _ Hg); [by apply Hpos|done|naive_solver].
    + eapply (gate_next i idx g _ _ Hg); [by apply Hpos|done|by left].
    + apply (gate_main _ _ _ _ _ Hg); destruct (stopOnce sh) eqn:Eo; simpl; rewrite ?Eo; try done; by intros ? ? [=].
  - apply stop_step_shared in Hst as (E & Er & Ec & Ef).
    apply (gate_mono _ _ _ Hg); simpl; rewrite ?E, ?Er, ?Ec, ?Ef; done.
  - apply (gate_mono _ _ _ Hg); simpl; try done. set_solver.
  - by apply (gate_mono _ _ _ Hg).
  - by apply (gate_mono _ _ _ Hg).
Qed.

Lemma gate_holds st : reachable groups st → gate_inv st.
Proof using unique.
  intros Hr. enough (position_inv st ∧ gate_inv st) by tauto. revert st Hr.
  apply invariant.
  - split; [by apply position_holds, rtc_refl|].
    intros j k g svc _ _ [Hp|Hp]; simpl in Hp; [lia|done].
  - intros st st' [Hpos Hg] Hstep. split; [by eapply position_step|by eapply gate_step].
Qed.

(** Once a later group runs, the wait did not end on a failure. *)
Definition signalled (ph : phases) (sh : shared) (svc : Service) : Prop :=
  ReadyNotifier svc = true →
  Name svc ∈ ready sh ∨ phase_of ph svc = Exited ∨ cancelled sh = true.

Definition opened_inv (st : state) : Prop :=
  ∀ j k g svc, groups !! j = Some g → g !! k = Some svc → (S j < launchedGroups st)%nat →
    signalled (procs st) (glob st) svc.

Lemma opened_mono m m' ph ph' sh sh' :
  opened_inv (MkState m ph sh) →
  (launchedGroups (MkState m' ph' sh') <= launchedGroups (MkState m ph sh))%nat →
  (∀ j g svc, groups !! j = Some g → svc ∈ g → phase_of ph svc = Exited → phase_of ph' svc = Exited) →
  ready sh ⊆ ready sh' → (cancelled sh = true → cancelled sh' = true) →
  opened_inv (MkState m' ph' sh').
Proof.
  intros H E Hex Hr Hc j k g svc Hj Hk Hp Hn.
  destruct (H j k g svc Hj Hk ltac:(lia) Hn) as [Hx|[Hx|Hx]]; simpl in *.
  - left. by apply Hr.
  - right. left. apply (Hex j g); [done| |done]. by eapply list_elem_of_lookup_2.
  - right. right. auto.
Qed.

Lemma opened_launch i g ph sh :
  position_inv (MkState (AtGroup i) ph sh) → gate_inv (MkState (AtGroup i) ph sh) →
  groups !! i = Some g → failed sh = false → opened_inv (MkState (AwaitLaunch i) (launch g ph) sh).
Proof using unique.
  intros Hpos H Hi Hf j k g' svc Hj Hk Hp Hn. unfold launchedGroups in Hp. simpl in *.
  pose proof (po_at _ Hpos i eq_refl) as Ei. simpl in Ei.
  assert (passed (MkState (AtGroup i) ph sh) j k) as Hpass by (left; simpl; lia).
  destruct (H j k g' svc Hj Hk Hpass Hn) as [?|[?|[?|?]]]; simpl in *; [by left| |congruence|by auto].
  right. left. rewrite (launch_position i g _ j g') by (done || by eapply list_elem_of_lookup_2).
  by rewrite decide_False by lia.
Qed.

Lemma opened_holds st : reachable groups st → opened_inv st.
Proof using unique.
  intros Hr. enough (position_inv st ∧ gate_inv st ∧ opened_inv st) by tauto. revert st Hr.
  apply invariant.
  { split; [by apply position_holds, rtc_refl|]. split; [by apply gate_holds, rtc_refl|].
    intros j k g svc _ _ Hp. unfold launchedGroups in Hp. simpl in Hp. lia. }
  intros st st' (Hpos & Hg & Ho) Hstep. split; [by eapply position_step|].
  split; [by eapply gate_step|].
  destruct Hstep as [Hs|Hs];
    [inversion Hs as [g svc p' m ph sh sh' Hin Hin' Hp|m ph sh m' ph' sh' Hm|m ph sh sh' Hst]
    |inversion Hs as [g svc m ph sh _ _ _|m ph sh|m ph sh _ _]]; subst.
  - pose proof (service_step_shared _ _ _ _ _ Hp) as (E & Er & Ec & _).
    apply (opened_mono _ _ _ _ _ _ Ho); rewrite ?Er, ?Ec; try done.
    + unfold launchedGroups. simpl. by rewrite E.
    + intros j g' svc' Hj Hs'. by eapply exited_stays.
  - inversion Hm; subst;
      try (apply (opened_mono _ _ _ _ _ _ Ho); done).
    + (* launch *) by apply opened_launch.
    + apply (opened_mono _ _ _ _ _ _ Ho); try done. unfold launchedGroups. simpl.
      rewrite length_app. simpl. pose proof (po_at _ Hpos i eq_refl). simpl in *. lia.
    + apply (opened_mono _ _ _ _ _ _ Ho); try done. unfold launchedGroups. simpl.
      rewrite length_app. simpl. pose proof (po_at _ Hpos i eq_refl). simpl in *. lia.
    + apply (opened_mono _ _ _ _ _ _ Ho); unfold launchedGroups; simpl; destruct (stopOnce sh); done.
  - apply stop_step_shared in Hst as (E & Er & Ec & Ef).
    apply (opened_mono _ _ _ _ _ _ Ho); unfold launchedGroups; simpl; rewrite ?E, ?Er, ?Ec; done.
  - apply (opened_mono _ _ _ _ _ _ Ho); try done. simpl. set_solver.
  - by apply (opened_mono _ _ _ _ _ _ Ho).
  - by apply (opened_mono _ _ _ _ _ _ Ho).
Qed.
End groups.

End ServiceRunSpec.
