(* ===== verification/ServiceShutdown.v ===== *)
(** * Shutting a service manager down

    The order in which services are stopped, the bound on the attempts of a service, and
    a measure of the work left once the run context is cancelled: every step the manager
    takes lowers it, and only a returned [Run] takes none. *)

From S2P Require Import Prelude Document Store ServiceGraph ServiceRun ServiceRunSpec.
From stdpp Require Import options.
#[local] Open Scope Z_scope.

Module ServiceShutdown.
Import ServiceGraph ServiceRun ServiceRunSpec.

(** ** Attempts *)
Definition phase_ok (svc : Service) (p : phase) : Prop :=
  match p with
  | Running a | Failed a _ => 0 <= a
  | Delaying a _ => 0 <= a < maxRetries svc
  | _ => True
  end.

Lemma service_step_ok svc p sh p' sh' :
  service_step svc p sh p' sh' → phase_ok svc p → phase_ok svc p'.
Proof. destruct 1; simpl; lia || done. Qed.

(** ** Stopping *)
Definition stop_entered (m : mainPhase) : Prop :=
  match m with Stopping _ | Draining _ | Returned _ => True | _ => False end.

(** Whether [Run] will not start another group. *)
Definition startedAll (m : mainPhase) : Prop :=
  match m with
  | Selecting | StopCalled _ | Stopping _ | Draining _ | Returned _ => True
  | _ => False
  end.

Record stop_inv (st : state) : Prop := {
  sp_entered : stop_entered (main st) → stopOnce (glob st) ≠ None;
  sp_done : match main st with Draining _ | Returned _ => stopOnce (glob st) = Some None | _ => True end;
  sp_none : stopOnce (glob st) = None → stopped (glob st) = []
}.

(** What is stopped and what is left make up the reverse of what was started. *)
Definition stop_order (st : state) : Prop :=
  match stopOnce (glob st) with
  | None => stopped (glob st) = []
  | Some rest => startedAll (main st) ∧
      stopped (glob st) ++ default [] rest = reverse (startGroups (glob st))
  end.

Lemma stop_holds groups st : reachable groups st → stop_inv st.
Proof.
  apply invariant; [by split|]. clear st. intros st st' [He Hd Hn] [Hs|Hs];
    [inversion Hs as [g svc p' m ph sh sh' _ _ Hp|m ph sh m' ph' sh' Hm|m ph sh sh' Hst]
    |inversion Hs]; subst; simpl in *; [| | |by split|by split|split; simpl; [done|destruct m; done || congruence|done]].
  - pose proof (service_step_shared _ _ _ _ _ Hp) as (_ & _ & _ & E & E' & _).
    by split; simpl; rewrite ?E, ?E'.
  - inversion Hm; subst; simpl in *; try (by split).
    destruct (stopOnce sh) eqn:E; split; simpl; rewrite ?E; done.
  - inversion Hst as [g rest|]; subst; split; simpl; try done.
    + destruct m; try done; simpl in *; congruence.
    + destruct m; done.
Qed.

Lemma stop_order_step groups st st' :
  main st ≠ Entered → stop_order st → step groups st st' → main st' ≠ Entered ∧ stop_order st'.
Proof.
  intros Hm0 Ho [Hs|Hs];
    [inversion Hs as [g svc p' m ph sh sh' _ _ Hp|m ph sh m' ph' sh' Hm|m ph sh sh' Hst]
    |inversion Hs]; subst; unfold stop_order in *; simpl in *; try done.
  - pose proof (service_step_shared _ _ _ _ _ Hp) as (E & _ & _ & E2 & E3 & _).
    by rewrite E2, E3, E.
  - inversion Hm; subst; simpl in *; try done; (split; [done|]);
      match type of Ho with context [stopOnce ?sh] => destruct (stopOnce sh) eqn:E end;
      simpl in *; rewrite ?E; simpl; try (exact Ho || by destruct Ho).
    split; [done|]. by rewrite Ho.
  - split; [done|]. inversion Hst as [g rest|]; subst; simpl in *; rewrite H in Ho; simpl in Ho;
      destruct Ho as [? Ho]; (split; [done|]).
    + by rewrite <- app_assoc.
    + done.
  - split; [done|]. rewrite H in Ho. split; [by destruct m|]. by rewrite Ho.
Qed.

(** ** The work left *)
Definition phaseWork (svc : Service) (p : phase) : nat :=
  match p with
  | NotLaunched => 3 * Z.to_nat (maxRetries svc) + 7
  | Launched => 3 * Z.to_nat (maxRetries svc) + 6
  | Running a => 3 * Z.to_nat (maxRetries svc - a) + 5
  | Failed a _ => 3 * Z.to_nat (maxRetries svc - a) + 4
  | Delaying a _ => 3 * Z.to_nat (maxRetries svc - a) + 3
  | Reporting _ => 2
  | Triggering => 1
  | Exited => 0
  end.

Definition servicesWork (ph : phases) (l : serviceGroup) : nat :=
  list_sum ((λ svc, phaseWork svc (phase_of ph svc)) <$> l).

Fixpoint groupsWork (groups : list serviceGroup) : nat :=
  match groups with [] => 0 | g :: groups => length g + 4 + groupsWork groups end.

Definition mainWork (groups : list serviceGroup) (m : mainPhase) : nat :=
  match m with
  | Entered => groupsWork groups + 7
  | AtGroup i => groupsWork (drop i groups) + 6
  | AwaitLaunch i => groupsWork (drop (S i) groups) + length (default [] (groups !! i)) + 8
  | AwaitReady i idx =>
      groupsWork (drop (S i) groups) + (length (default [] (groups !! i)) - idx) + 7
  | Selecting => 5
  | StopCalled _ => 4
  | Stopping _ => 3
  | Draining _ => 2
  | Returned _ => 1
  end.

Definition stopWork (groups : list serviceGroup) (once : option (option (list serviceGroup))) : nat :=
  match once with
  | None => length groups + 2
  | Some (Some rest) => length rest + 1
  | Some None => 0
  end.

Definition work (groups : list serviceGroup) (st : state) : nat :=
  servicesWork (procs st) (concat groups) + mainWork groups (main st) +
  stopWork groups (stopOnce (glob st)).

Lemma service_step_work svc p sh p' sh' :
  service_step svc p sh p' sh' → phase_ok svc p → (phaseWork svc p' < phaseWork svc p)%nat.
Proof. destruct 1; simpl; intros; lia. Qed.

(** One service moves, the others do not. *)
Lemma services_work_insert ph svc p l :
  NoDup (Name <$> l) → svc ∈ l →
  (servicesWork (<[Name svc := p]> ph) l + phaseWork svc (phase_of ph svc) =
   servicesWork ph l + phaseWork svc p)%nat.
Proof.
  unfold servicesWork. induction l as [|x l IH]; [by intros _ ?%elem_of_nil|].
  cbn [fmap list_fmap list_sum]. intros [Hx Hn]%list.NoDup_cons Hin.
  change (list_sum (?a :: ?l)) with (a + list_sum l)%nat. rewrite !phase_insert.
  apply elem_of_cons in Hin as [->|Hin].
  - rewrite decide_True by done. clear IH.
    enough (list_sum ((λ s, phaseWork s (phase_of (<[Name x := p]> ph) s)) <$> l) =
      list_sum ((λ s, phaseWork s (phase_of ph s)) <$> l)) by lia.
    f_equal. apply list_fmap_ext. intros i s Hi. rewrite phase_insert, decide_False; [done|].
    intros E. apply Hx. rewrite E. apply list_elem_of_fmap_2. by eapply list_elem_of_lookup_2.
  - rewrite decide_False; [specialize (IH Hn Hin); lia|].
    intros E. apply Hx. rewrite <- E. by apply list_elem_of_fmap_2.
Qed.

Lemma services_work_launch ph g l :
  (∀ svc, svc ∈ l → Name svc ∈ Name <$> g → phase_of ph svc = NotLaunched) →
  (servicesWork (launch g ph) l <= servicesWork ph l)%nat.
Proof.
  unfold servicesWork. induction l as [|x l IH]; [done|]. intros H. cbn [fmap list_fmap].
  change (list_sum (?a :: ?l)) with (a + list_sum l)%nat.
  assert (phaseWork x (phase_of (launch g ph) x) <= phaseWork x (phase_of ph x))%nat.
  { rewrite phase_launch. case_decide as E; [|lia]. rewrite (H x) by (done || by left). simpl. lia. }
  enough (list_sum ((λ s, phaseWork s (phase_of (launch g ph) s)) <$> l) <=
    list_sum ((λ s, phaseWork s (phase_of ph s)) <$> l))%nat by lia.
  apply IH. intros svc Hs. apply H. by right.
Qed.

Lemma groups_work_drop groups i g :
  groups !! i = Some g →
  (groupsWork (drop i groups) = length g + 4 + groupsWork (drop (S i) groups))%nat.
Proof. intros H. by rewrite (drop_S _ g i H). Qed.

Section groups.
Context (groups : list serviceGroup).
Hypothesis unique : NoDup (Name <$> concat groups).

Definition attempts_inv (st : state) : Prop :=
  ∀ svc, svc ∈ concat groups → phase_ok svc (phase_of (procs st) svc).

Lemma elem_of_groups g svc : g ∈ groups → svc ∈ g → svc ∈ concat groups.
Proof. intros [i Hi]%list_elem_of_lookup_1 Hs. by eapply elem_of_concat. Qed.

Lemma attempts_holds st : reachable groups st → attempts_inv st.
Proof using unique.
  apply invariant.
  { intros svc _. unfold phase_of. simpl. by rewrite lookup_empty. }
  clear st. intros st st' H [Hs|Hs];
    [inversion Hs as [g svc p' m ph sh sh' Hin Hin' Hp|m ph sh m' ph' sh' Hm|m ph sh sh' Hst]
    |inversion Hs]; subst; [| |exact H..].
  - intros svc' Hs'. simpl. rewrite phase_insert. case_decide as E; [|by apply H].
    assert (svc = svc') as <-.
    { apply (NoDup_fmap_same Name (concat groups)); try done. by eapply elem_of_groups. }
    eapply service_step_ok; [done|]. by apply H.
  - inversion Hm; subst; try exact H. intros svc Hs'. simpl. rewrite phase_launch.
    case_decide; [done|]. by apply H.
Qed.

Lemma launch_new i g ph sh svc :
  position_inv groups (MkState (AtGroup i) ph sh) → groups !! i = Some g →
  svc ∈ concat groups → Name svc ∈ Name <$> g → phase_of ph svc = NotLaunched.
Proof using unique.
  intros Hpos Hi Hc (svc' & E & Hs')%list_elem_of_fmap.
  assert (svc = svc') as ->.
  { apply (NoDup_fmap_same Name (concat groups)); try done. by eapply elem_of_concat. }
  apply (po_launched _ _ Hpos i g svc'); [done..|]. unfold launchedGroups. simpl.
  pose proof (po_at _ _ Hpos i eq_refl). simpl in *. lia.
Qed.

(** Every step of the manager lowers the work left. *)
Lemma internal_work st st' :
  position_inv groups st → attempts_inv st → internal groups st st' →
  (work groups st' < work groups st)%nat.
Proof using unique.
  intros Hpos Ha Hs. unfold work.
  inversion Hs as [g svc p' m ph sh sh' Hin Hin' Hp|m ph sh m' ph' sh' Hm|m ph sh sh' Hst];
    subst; simpl.
  - pose proof (elem_of_groups g svc Hin Hin') as Hc.
    pose proof (services_work_insert ph svc p' (concat groups) unique Hc) as Hw.
    pose proof (service_step_work _ _ _ _ _ Hp (Ha svc Hc)).
    apply service_step_shared in Hp as (_ & _ & _ & -> & _). lia.
  - inversion Hm; subst; unfold mainWork;
      repeat match goal with H : groups !! _ = Some _ |- _ =>
        rewrite ?(groups_work_drop _ _ _ H), ?H end; simpl; try lia.
    + change (drop 0 groups) with groups. lia.
    + pose proof (services_work_launch ph g (concat groups)
        (λ svc Hc Hn, launch_new i g ph sh' svc Hpos H Hc Hn)). lia.
    + apply lookup_lt_Some in H0. lia.
    + apply lookup_lt_Some in H0. lia.
    + destruct (stopOnce sh) eqn:E; simpl; rewrite ?E; [simpl; lia|]. rewrite length_reverse.
      destruct (po_started _ _ Hpos) as [k Hk]. simpl in Hk.
      pose proof (started_length groups k _ Hk). lia.
  - inversion Hst; subst; rewrite H; simpl; lia.
Qed.

(** Once the context is cancelled only a returned [Run] is stuck. *)
Lemma live_service g svc m ph sh :
  g ∈ groups → svc ∈ g → ¬ settled (phase_of ph svc) →
  ∃ st', internal groups (MkState m ph sh) st'.
Proof.
  intros Hin Hin' Hn.
  assert (∃ p' sh', service_step svc (phase_of ph svc) sh p' sh') as (p' & sh' & Hp).
  { destruct (phase_of ph svc) as [| |a|a err|a err|err| |]; try (exfalso; apply Hn; first [by left|by right]).
    - destruct (decide (0 < attempts svc)); eexists _, _; [by apply launched|].
      apply launched_no_attempt. lia.
    - eexists _, _. by apply (run_clean _ _ _ (RunReturned None)).
    - destruct (cancelled sh) eqn:E; [eexists _, _; by apply failed_cancelled|].
      destruct (decide (a < maxRetries svc)); eexists _, _; [by apply failed_retry|].
      apply failed_exhausted; [done|lia].
    - eexists _, _. apply delay_over.
    - destruct (allowedFailure svc) eqn:E; eexists _, _; [by apply report_allowed|by apply report_failure].
    - eexists _, _. apply triggered. }
  eexists. by eapply step_service.
Qed.

Definition returned (m : mainPhase) : Prop := ∃ result, m = Returned result.

#[export] Instance settled_dec p : Decision (settled p).
Proof.
  destruct p; first [left; by left|left; by right|right; by intros [?|?]].
Defined.

Lemma all_settled_dec (ph : phases) :
  (∀ g svc, g ∈ groups → svc ∈ g → settled (phase_of ph svc)) ∨
  ∃ g svc, g ∈ groups ∧ svc ∈ g ∧ ¬ settled (phase_of ph svc).
Proof.
  destruct (list.Forall_Exists_dec (λ svc, settled (phase_of ph svc))
    (λ svc, ¬ settled (phase_of ph svc)) (λ svc, decide _) (concat groups)) as [H|H].
  - left. intros g svc Hg Hs. rewrite list.Forall_forall in H. apply H. by eapply elem_of_groups.
  - right. apply list.Exists_exists in H as (svc & Hc & Hn).
    apply list_elem_of_In, in_concat in Hc as (g & Hg & Hs). exists g, svc.
    by rewrite !list_elem_of_In.
Qed.

Lemma shutdown_progress st :
  position_inv groups st → stop_inv st → cancelled (glob st) = true → ¬ returned (main st) →
  ∃ st', internal groups st st'.
Proof.
  intros Hpos Hst Hc Hr. destruct st as [m ph sh]. simpl in *.
  assert (∀ m' ph' sh', main_step groups m ph sh m' ph' sh' →
    ∃ st', internal groups (MkState m ph sh) st') as Hmain by (intros; eexists; by apply step_main).
  destruct m as [|i|i|i idx| |r|r|r|r].
  - eapply Hmain, begin_start.
  - destruct (groups !! i) as [g|] eqn:E; [|by eapply Hmain, start_finished].
    destruct (failed sh) eqn:Ef; eapply Hmain; [by eapply start_abandoned|by eapply start_group].
  - destruct (po_group _ _ Hpos i) as [g Hg]; [by left|].
    destruct (list.Forall_Exists_dec (λ svc, phase_of ph svc ≠ Launched)
      (λ svc, phase_of ph svc = Launched)) with (l := g) as [H|H].
    { intros svc. destruct (phase_of ph svc); by first [right; reflexivity|left; discriminate]. }
    + eapply Hmain, all_launched; [done|]. by rewrite list.Forall_forall in H.
    + apply list.Exists_exists in H as (svc & Hs & E).
      apply (live_service g svc); [by eapply list_elem_of_lookup_2|done|].
      rewrite E. by intros [?|?].
  - destruct (po_group _ _ Hpos i) as [g Hg]; [right; by eexists|].
    destruct (g !! idx) as [svc|] eqn:Es; [|by eapply Hmain, ready_done].
    destruct (ReadyNotifier svc) eqn:En; eapply Hmain;
      [eapply ready_interrupted; eauto|by eapply ready_not_needed].
  - by eapply Hmain, select_done.
  - eapply Hmain, stop_called.
  - destruct (stopOnce sh) as [[[|g rest]|]|] eqn:Eo.
    + eexists. by apply step_stop, stop_finished.
    + eexists. by eapply step_stop, stop_group.
    + by eapply Hmain, stop_returned.
    + by destruct (sp_entered _ Hst).
  - destruct (all_settled_dec ph) as [H|(g & svc & Hg & Hs & H)].
    + by eapply Hmain, drained.
    + by eapply live_service.
  - destruct Hr. by exists r.
Qed.

Lemma internal_cancelled st st' :
  internal groups st st' → cancelled (glob st) = true → cancelled (glob st') = true.
Proof.
  intros [g svc p' m ph sh sh' _ _ Hp|m ph sh m' ph' sh' Hm|m ph sh sh' Hst]; simpl.
  - by apply service_step_shared in Hp as (_ & _ & -> & _).
  - destruct Hm; simpl; try done. by destruct (stopOnce sh).
  - by apply stop_step_shared in Hst as (_ & _ & -> & _).
Qed.

(** A returned [Run] leaves no goroutine behind. *)
Definition drained_inv (st : state) : Prop :=
  returned (main st) → ∀ svc, svc ∈ concat groups → settled (phase_of (procs st) svc).

Lemma drained_holds st : reachable groups st → drained_inv st.
Proof using unique.
  apply invariant; [by intros [? [=]]|]. clear st. intros st st' H [Hs|Hs];
    [inversion Hs as [g svc p' m ph sh sh' Hin Hin' Hp|m ph sh m' ph' sh' Hm|m ph sh sh' Hst]
    |inversion Hs]; subst; [| |exact H..].
  - intros Hr svc' Hs'. simpl in *. rewrite phase_insert. case_decide as E; [|by apply H].
    exfalso. assert (svc = svc') as <-.
    { apply (NoDup_fmap_same Name (concat groups)); try done. by eapply elem_of_groups. }
    apply service_step_launched in Hp as (? & _ & ?). by destruct (H Hr svc Hs').
  - inversion Hm; subst; intros [r [=]]. intros svc Hs'. simpl.
    apply list_elem_of_In, in_concat in Hs' as (g & Hg & Hs').
    apply (H0 g svc); by apply list_elem_of_In.
Qed.

Lemma internal_reachable st st' : reachable groups st → internal groups st st' → reachable groups st'.
Proof. intros Hr Hs. eapply rtc_r; [exact Hr|by left]. Qed.

(** Any run of the manager is within the work left, and ends only when [Run] returned. *)
Lemma shutdown_bounded n st st' :
  reachable groups st → cancelled (glob st) = true → nsteps (internal groups) n st st' →
  (n + work groups st' <= work groups st)%nat ∧ reachable groups st' ∧ cancelled (glob st') = true.
Proof using unique.
  intros Hr Hc Hn. induction Hn as [st|n st st' st'' Hs Hn IH]; [by split|].
  pose proof (internal_work _ _ (position_holds _ unique _ Hr) (attempts_holds _ Hr) Hs).
  destruct IH as (? & ? & ?); [by eapply internal_reachable|by eapply internal_cancelled|].
  split; [lia|done].
Qed.

Lemma shutdown_reaches st :
  reachable groups st → cancelled (glob st) = true →
  ∃ st', rtc (internal groups) st st' ∧ returned (main st').
Proof using unique.
  remember (work groups st) as w eqn:Ew. revert st Ew.
  induction (lt_wf w) as [w _ IH]. intros st -> Hr Hc.
  assert (returned (main st) ∨ ¬ returned (main st)) as [Hd|Hd].
  { destruct (main st); first [left; by eexists|right; by intros [? [=]]]. }
  - exists st. split; [apply rtc_refl|done].
  - destruct (shutdown_progress st (position_holds _ unique _ Hr) (stop_holds _ _ Hr) Hc Hd) as [st' Hs].
    destruct (IH (work groups st')) with (st := st') as (st'' & Hst & Hd'); try done.
    + by apply internal_work; [by apply position_holds|by apply attempts_holds|].
    + by eapply internal_reachable.
    + by eapply internal_cancelled.
    + exists st''. split; [by eapply rtc_l|done].
Qed.
End groups.

End ServiceShutdown.
