(* ===== verification/ServiceTheorems.v ===== *)
(** * What the service manager guarantees

    The start order, readiness, the failure that is reported, the order of the stops and
    the end of a shutdown, over every interleaving of the manager's goroutines. *)

From S2P Require Import Prelude Document Store ServiceGraph ServiceGraphSpec ServiceRun ServiceRunSpec ServiceShutdown.
From stdpp Require Import options.
#[local] Open Scope Z_scope.

Module ServiceTheorems.
Import ServiceGraph ServiceGraphSpec ServiceRun ServiceRunSpec ServiceShutdown.

(** ** The resolved order *)

(** Services are kept under their own name; [Add] keeps it so. *)
Definition well_named (services : gmap string Service) : Prop :=
  ∀ name svc, services !! name = Some svc → Name svc = name.

Lemma add_well_named s added : well_named (services s) → well_named (services (Add s added)).
Proof.
  destruct s as [fs m]. simpl. revert m. induction added as [|svc l IH]; intros m H; [done|].
  simpl. apply IH. intros name svc' [[<- <-]|[_ Hl]]%lookup_insert_Some; [done|by apply H].
Qed.

Lemma instantiate_well_named enabled order s :
  well_named (services s) → well_named (services (instantiateAll enabled order s).1).
Proof.
  revert s. induction order as [|name order IH]; intros s H; simpl; [done|].
  case_decide; [by apply IH|]. destruct (factories s !! name) as [[svc|err]|]; [|done|by apply IH].
  by apply IH, (add_well_named s [svc]).
Qed.

Section order.
Context (services : gmap string Service).
Hypothesis named : well_named services.

Lemma members_names layer :
  (∀ n, n ∈ layer → is_Some (services !! n)) → Name <$> members services layer = layer.
Proof using named.
  intros Hk. induction layer as [|n l IH]; [done|]. unfold members. cbn [omap list_omap].
  destruct (Hk n) as [svc Hs]; [by left|]. rewrite Hs. cbn. rewrite (named n svc Hs). f_equal.
  apply IH. intros m Hm. apply Hk. by right.
Qed.

Lemma elem_of_members svc layer :
  svc ∈ members services layer ↔ services !! Name svc = Some svc ∧ Name svc ∈ layer.
Proof using named.
  unfold members. rewrite list_elem_of_omap. split.
  - intros (n & Hn & Hs). by rewrite (named n svc Hs).
  - intros [Hs Hn]. by exists (Name svc).
Qed.

Lemma concat_members layers :
  concat (members services <$> layers) = members services (concat layers).
Proof.
  induction layers as [|l layers IH]; [done|]. cbn [fmap list_fmap concat].
  unfold members in *. by rewrite IH, omap_app.
Qed.

Lemma elem_of_deps name d :
  d ∈ deps services name ↔
  ∃ svc l, services !! name = Some svc ∧ Dependencies svc = Some l ∧ d ∈ l ∧ is_Some (services !! d).
Proof.
  unfold deps. rewrite list_elem_of_filter. split.
  - intros [Hd Hin]. destruct (services !! name) as [svc|] eqn:E; simpl in *;
      [|by apply elem_of_nil in Hin].
    destruct (Dependencies svc) as [l|] eqn:El; simpl in *; [|by apply elem_of_nil in Hin].
    by exists svc, l.
  - intros (svc & l & -> & E & Hin & Hd). split; [done|]. simpl. by rewrite E.
Qed.

(** A service's dependencies are in earlier layers. *)
Lemma layered_earlier P layers i layer n d :
  layered services P layers → layers !! i = Some layer → n ∈ layer → d ∈ deps services n →
  d ∈ P ∨ ∃ j layer', (j < i)%nat ∧ layers !! j = Some layer' ∧ d ∈ layer'.
Proof.
  revert P i. induction layers as [|l layers IH]; intros P i; [done|].
  intros (_ & Hw & Hl) Hi Hn Hd. destruct i as [|i]; simpl in Hi.
  - simplify_eq. left. specialize (Hw n Hn).
    destruct (decide (d ∈ P)); [done|]. exfalso.
    assert (0 < waiting services P n) by (apply waiting_pos; eauto). lia.
  - destruct (IH _ i Hl Hi Hn Hd) as [[Hp|Hp]%elem_of_app|(j & l' & ? & ? & ?)]; [by left| |].
    + right. exists 0%nat, l. split; [lia|done].
    + right. exists (S j), l'. split; [lia|done].
Qed.

(** The sort succeeds exactly when it placed every service, and otherwise what is left
    waits for itself. *)
Lemma resolve_layers order1 order2 :
  iteration services order1 → iteration services order2 →
  ∃ layers, layered services [] layers ∧ NoDup (concat layers) ∧
    (∀ n, n ∈ concat layers → is_Some (services !! n)) ∧
    ((resolveOrder order1 order2 services = Ok (members services <$> layers) ∧
      ∀ n, is_Some (services !! n) → n ∈ concat layers) ∨
     (resolveOrder order1 order2 services = Err (EForeign ErrCyclicDependency) ∧
      ∃ n, tc (depends services) n n)).
Proof.
  intros H1 H2. destruct (topoNames_run services order1 order2 H1 H2) as (layers & Hr & Hl & Hn & Hin).
  exists layers. split; [done|]. split; [done|]. split; [intros n Hx; by apply Hin in Hx as [? _]|].
  unfold resolveOrder, topoSort. rewrite Hr.
  assert (list_to_set (concat layers) ⊆ dom services) as Hsub.
  { intros n Hx%elem_of_list_to_set. apply elem_of_dom. by apply Hin in Hx as [? _]. }
  assert (size (list_to_set (C:=gset string) (concat layers)) = length (concat layers)) as Hsz
    by by apply size_list_to_set.
  destruct (decide (len (concat layers) = Z.of_nat (size services))) as [E|E]; [left|right].
  - split; [done|]. intros n Hs. apply elem_of_dom in Hs.
    rewrite <- (set_subseteq_size_eq _ _ Hsub) in Hs; [by apply elem_of_list_to_set in Hs|].
    rewrite Hsz, size_dom. unfold len in E. lia.
  - split; [done|].
    set (C := filter (λ n, n ∉ concat layers) order1).
    destruct C as [|x C'] eqn:EC.
    { exfalso. apply E. unfold len. f_equal. rewrite <- Hsz, <- size_dom.
      f_equal. apply set_eq. intros n. split; [by apply Hsub|]. intros Hd.
      apply elem_of_list_to_set. destruct (decide (n ∈ concat layers)); [done|].
      assert (n ∈ C) as Hx.
      { apply list_elem_of_filter. split; [done|]. by apply H1, elem_of_dom. }
      rewrite EC in Hx. by apply elem_of_nil in Hx. }
    destruct (closed_set_cycle (depends services) C x) as (n & _ & Hc); [rewrite EC; by left| |by exists n].
    intros n [Hout Ho]%list_elem_of_filter. apply H1 in Ho.
    assert (0 < waiting services (concat layers) n) as Hw.
    { pose proof (waiting_nonneg services (concat layers) n).
      assert (waiting services (concat layers) n ≠ 0); [|lia].
      intros Ez. apply Hout, Hin. done. }
    apply waiting_pos in Hw as (d & Hd & Hp). exists d. split; [|done].
    apply list_elem_of_filter. split; [done|]. apply H1. by eapply deps_known.
Qed.

Lemma depends_descends layers n d i layer :
  layered services [] layers → tc (depends services) n d →
  layers !! i = Some layer → n ∈ layer →
  ∃ j layer', (j < i)%nat ∧ layers !! j = Some layer' ∧ d ∈ layer'.
Proof.
  intros Hl Ht. revert i layer. induction Ht as [n d [_ Hd]|n m d [_ Hd] _ IH]; intros i layer Hi Hn.
  - by destruct (layered_earlier [] layers i layer n d Hl Hi Hn Hd) as [[]%elem_of_nil|?].
  - destruct (layered_earlier [] layers i layer n m Hl Hi Hn Hd) as [[]%elem_of_nil|(j & l' & ? & Hj & Hm)].
    destruct (IH j l' Hj Hm) as (k & l'' & ? & ? & ?). exists k, l''. split; [lia|done].
Qed.

Lemma layered_acyclic layers n i layer :
  layered services [] layers → layers !! i = Some layer → n ∈ layer → ¬ tc (depends services) n n.
Proof.
  intros Hl Hi Hn Ht. revert layer Hi Hn. induction (lt_wf i) as [i _ IH]. intros layer Hi Hn.
  destruct (depends_descends layers n n i layer Hl Ht Hi Hn) as (j & l' & Hj & Hl' & Hn').
  by apply (IH j Hj l').
Qed.

Lemma tc_depends_known n d : tc (depends services) n d → is_Some (services !! n).
Proof. by destruct 1 as [? ? [? _]|? ? ? [? _]]. Qed.
End order.

Lemma concat_position {A} (l : list (list A)) x : x ∈ concat l → ∃ i g, l !! i = Some g ∧ x ∈ g.
Proof.
  intros Hx. apply list_elem_of_In, in_concat in Hx as (g & Hg & Hx).
  apply list_elem_of_In in Hx. apply list_elem_of_In, list_elem_of_lookup_1 in Hg as [i Hi].
  by exists i, g.
Qed.

(** Groups with each service's dependencies in earlier groups. *)
Definition ordered (services : gmap string Service) (groups : list serviceGroup) : Prop :=
  ∀ i group svc l d svc', groups !! i = Some group → svc ∈ group →
    Dependencies svc = Some l → d ∈ l → services !! d = Some svc' →
    ∃ j group', (j < i)%nat ∧ groups !! j = Some group' ∧ svc' ∈ group'.

Lemma resolved_order services order1 order2 groups :
  well_named services → iteration services order1 → iteration services order2 →
  resolveOrder order1 order2 services = Ok groups →
  (∀ svc, svc ∈ concat groups ↔ services !! Name svc = Some svc) ∧
  NoDup (Name <$> concat groups) ∧ ordered services groups.
Proof.
  intros Hw H1 H2 Hr.
  destruct (resolve_layers services order1 order2 H1 H2) as (layers & Hl & Hn & Hk & [[E Hall]|[E _]]);
    rewrite Hr in E; [|done]. injection E as ->. split; [|split].
  - intros svc. rewrite concat_members, elem_of_members by done.
    split; [by intros [? _]|]. intros Hs. split; [done|]. by apply Hall.
  - rewrite concat_members, members_names by done. done.
  - intros i group svc l d svc' Hi Hs Hd Hin Hs'.
    rewrite list_lookup_fmap in Hi. destruct (layers !! i) as [layer|] eqn:Ei; simplify_eq/=.
    apply elem_of_members in Hs as [Hsv Hs]; [|done].
    assert (d ∈ deps services (Name svc)) as Hdep by (apply elem_of_deps; by eauto 10).
    destruct (layered_earlier services [] layers i layer (Name svc) d Hl Ei Hs Hdep)
      as [[]%elem_of_nil|(j & l' & ? & Hj & Hd')].
    exists j, (members services l'). split; [done|]. rewrite list_lookup_fmap, Hj. split; [done|].
    apply elem_of_members; [done|]. by rewrite (Hw d svc' Hs').
Qed.

(** Resolving the order fails exactly when the dependency relation between the services
    of the process has a cycle, and then with [ErrCyclicDependency]; the map iteration orders
    do not matter. *)
Lemma cyclic_dependency_iff services order1 order2 :
  iteration services order1 → iteration services order2 →
  (resolveOrder order1 order2 services = Err (EForeign ErrCyclicDependency) ↔
     ∃ n, tc (depends services) n n) ∧
  (∀ err, resolveOrder order1 order2 services = Err err → err = EForeign ErrCyclicDependency).
Proof.
  intros H1 H2.
  destruct (resolve_layers services order1 order2 H1 H2) as (layers & Hl & _ & _ & [[-> Hall]|[-> Hc]]).
  - split; [|done]. split; [done|]. intros [n Ht]. exfalso.
    destruct (concat_position layers n) as (i & layer & Hi & Hn).
    { by apply Hall, (tc_depends_known _ n n). }
    by eapply layered_acyclic.
  - split; [done|]. by intros err [= <-].
Qed.

(** C20: Resolving the start order fails exactly when the dependency relation between the
    services of the process has a cycle, and then with [ErrCyclicDependency].  Otherwise the
    order contains every service of the process exactly once, and each service comes in a
    strictly later group than every dependency it names that is in the process.  Neither
    depends on the order Go ranges over its maps. *)
Theorem start_order_correct services order1 order2 :
  well_named services → iteration services order1 → iteration services order2 →
  match resolveOrder order1 order2 services with
  | Err err => err = EForeign ErrCyclicDependency ∧ ∃ n, tc (depends services) n n
  | Ok groups => (¬ ∃ n, tc (depends services) n n) ∧
      (∀ svc, svc ∈ concat groups ↔ services !! Name svc = Some svc) ∧
      NoDup (Name <$> concat groups) ∧
      (∀ i group svc l d svc', groups !! i = Some group → svc ∈ group →
         Dependencies svc = Some l → d ∈ l → services !! d = Some svc' →
         ∃ j group', (j < i)%nat ∧ groups !! j = Some group' ∧ svc' ∈ group')
  end.
Proof.
  intros Hw H1 H2. destruct (cyclic_dependency_iff services order1 order2 H1 H2) as [Hiff Herr].
  destruct (resolveOrder order1 order2 services) as [groups|err] eqn:E.
  - split; [by intros ?%Hiff|]. exact (resolved_order services order1 order2 groups Hw H1 H2 E).
  - rewrite (Herr err eq_refl) in *. by rewrite <- Hiff.
Qed.

(** ** Running *)

(** C21: No service is started before its dependencies: when a service has been launched,
    every dependency it names that is in the process was launched, and one that notifies
    readiness has signalled it, has returned for good, or the run was cancelled — in
    particular the wait never ended on a reported failure. *)
Theorem dependencies_ready_before_start services order1 order2 groups st svc l d dep :
  well_named services → iteration services order1 → iteration services order2 →
  resolveOrder order1 order2 services = Ok groups → reachable groups st →
  services !! Name svc = Some svc → phase_of (procs st) svc ≠ NotLaunched →
  Dependencies svc = Some l → d ∈ l → services !! d = Some dep →
  phase_of (procs st) dep ≠ NotLaunched ∧
  (ReadyNotifier dep = true →
     d ∈ ready (glob st) ∨ phase_of (procs st) dep = Exited ∨ cancelled (glob st) = true).
Proof.
  intros Hw H1 H2 Hr Hst Hs Hp Hl Hd Hdep.
  destruct (resolved_order services order1 order2 groups Hw H1 H2 Hr) as (Hin & Hn & Ho).
  destruct (concat_position groups svc) as (i & g & Hi & Hg); [by apply Hin|].
  destruct (Ho i g svc l d dep Hi Hg Hl Hd Hdep) as (j & g' & Hj & Hj' & Hg').
  pose proof (position_holds groups Hn st Hst) as Hpos.
  rewrite (po_launched _ _ Hpos i g svc Hi Hg) in Hp.
  rewrite (po_launched _ _ Hpos j g' dep Hj' Hg'). split; [lia|].
  apply list_elem_of_lookup_1 in Hg' as [k Hk]. rewrite <- (Hw d dep Hdep).
  apply (opened_holds groups Hn st Hst j k g'); [done..|lia].
Qed.

(** A failed service stops the start: once the loop has seen the failure signal nothing
    launches another service; a service not launched when it is raised never is. *)
Theorem no_start_after_failure groups st st' svc :
  NoDup (Name <$> concat groups) → reachable groups st → failed (glob st) = true →
  rtc (step groups) st st' → svc ∈ concat groups →
  phase_of (procs st) svc = NotLaunched → phase_of (procs st') svc = NotLaunched.
Proof.
  intros Hn Hr Hf Hs Hin. revert Hr Hf. induction Hs as [st|st st1 st' Hs _ IH]; [done|].
  intros Hr Hf Hp. apply IH; [by eapply rtc_r| |].
  - destruct Hs as [Hs|Hs]; [inversion Hs as [g s p' m ph sh sh' _ _ H|m ph sh m' ph' sh' H|m ph sh sh' H]|inversion Hs];
      subst; simpl in *; try done.
    + apply service_step_shared in H as (_ & _ & _ & _ & _ & H). by apply H.
    + destruct H; simpl; try done. by destruct (stopOnce sh).
    + by apply stop_step_shared in H as (_ & _ & _ & ->).
  - destruct Hs as [Hs|Hs]; [inversion Hs as [g s p' m ph sh sh' Hg Hs' H|m ph sh m' ph' sh' H|m ph sh sh' H]|inversion Hs];
      subst; simpl in *; try done.
    + rewrite phase_insert. case_decide as E; [|done].
      assert (s = svc) as ->.
      { apply (NoDup_fmap_same Name (concat groups)); try done. by eapply elem_of_groups. }
      apply service_step_launched in H as (? & _ & _). done.
    + destruct H; simpl in *; congruence.
Qed.

(** What the select of [Run] chose, from then on. *)
Definition chosen (m : mainPhase) : option (option (option goerr)) :=
  match m with
  | StopCalled r | Stopping r | Draining r | Returned r => Some r
  | _ => None
  end.

Lemma chosen_kept groups st st' r :
  rtc (step groups) st st' → chosen (main st) = Some r → chosen (main st') = Some r.
Proof.
  induction 1 as [|st st1 st' Hs _ IH]; [done|]. intros E. apply IH. clear IH. revert E.
  destruct Hs as [[| m ph sh m' ph' sh' H|]|[]]; simpl; try done; []. by destruct H.
Qed.

(** The outcome of the select in a state: the failure in the channel is the first one that was
    reported, or the context was cancelled. *)
Definition selected (sh : shared) (r : option (option goerr)) : Prop :=
  match r with
  | Some err => errCh sh = Some err ∧ head (reports sh) = Some err
  | None => cancelled sh = true
  end.

Lemma select_outcome groups st st' :
  reachable groups st → main st = Selecting → step groups st st' →
  main st' = Selecting ∨ ∃ r, main st' = StopCalled r ∧ selected (glob st) r.
Proof.
  intros Hr E Hs. destruct (channel_holds groups st Hr) as [Hf _ _]. rewrite E in Hf. simpl in Hf.
  revert E Hf. destruct Hs as [[| m ph sh m' ph' sh' H|]|[]]; simpl; try (by left); [].
  intros -> Hf. right. inversion H; subst; eexists; (split; [done|]); [done|]. split; [done|]. congruence.
Qed.

Lemma select_passed groups st st' r :
  reachable groups st → chosen (main st) = None → rtc (step groups) st st' →
  chosen (main st') = Some r →
  ∃ st1 st2, rtc (step groups) st st1 ∧ main st1 = Selecting ∧ step groups st1 st2 ∧
    selected (glob st1) r ∧ rtc (step groups) st2 st'.
Proof.
  intros Hr E Hs. revert Hr E. induction Hs as [|st st1 st' Hs Hrest IH]; [congruence|].
  intros Hr E Er. destruct (chosen (main st1)) as [r'|] eqn:E1.
  - assert (r' = r) as -> by (pose proof (chosen_kept _ _ _ _ Hrest E1); congruence).
    assert (main st = Selecting) as Em.
    { revert E E1. destruct Hs as [[| m ph sh m' ph' sh' H|]|[]]; simpl; try congruence; [].
      destruct H; simpl; congruence. }
    exists st, st1. split; [apply rtc_refl|]. split; [done|]. split; [done|]. split; [|done].
    destruct (select_outcome _ _ _ Hr Em Hs) as [E2|(r' & E2 & Hsel)]; rewrite E2 in E1; simpl in E1;
      congruence.
  - destruct IH as (st2 & st3 & ? & ?); [by eapply rtc_r|done|done|].
    exists st2, st3. split; [by eapply rtc_l|done].
Qed.

(** C22: However many services fail and in whatever order their goroutines interleave, the one
    failure [Run] can return is the first that was reported.  What [Run] returns is what its
    select received, and the select leaves in two ways only: with the value in the channel,
    which is that first failure and becomes the result, or with nil because the context was
    cancelled.  Once a failure is signalled a waiting [Run] can receive it, and it receives
    it unless the context is cancelled first; when both are ready Go picks either branch, and
    a run whose context is cancelled can return nil with the failure still in the channel
    ([cancelled_run_drops_failure]). *)
Theorem first_failure_reported groups st :
  reachable groups st →
  (∀ r, main st = Returned r → ∃ st1 st2, rtc (step groups) initial st1 ∧ main st1 = Selecting ∧
     step groups st1 st2 ∧ selected (glob st1) r ∧ rtc (step groups) st2 st) ∧
  (∀ err, main st = Returned (Some err) → head (reports (glob st)) = Some err) ∧
  (main st = Selecting →
     (∀ st', step groups st st' → main st' = Selecting ∨
        ∃ r, main st' = StopCalled r ∧ selected (glob st) r) ∧
     (failed (glob st) = true → ∃ err, errCh (glob st) = Some err ∧
        head (reports (glob st)) = Some err ∧
        ∃ st', internal groups st st' ∧ main st' = StopCalled (Some err))) ∧
  (∀ st' r, chosen (main st) = Some r → rtc (step groups) st st' → returned (main st') →
     main st' = Returned r).
Proof.
  intros Hr. pose proof (channel_holds groups st Hr) as [Hf Hfail _]. split; [|split; [|split]].
  - intros r E. apply (select_passed groups initial); [apply rtc_refl|done|done|by rewrite E].
  - intros err E. by rewrite E in Hf.
  - intros E. split; [by intros st' Hs; eapply select_outcome|]. intros Hd.
    rewrite E in Hf. simpl in Hf.
    destruct (reports (glob st)) as [|err l] eqn:El; [by destruct (Hfail Hd)|]. exists err.
    split; [done|]. split; [done|]. destruct st as [m ph sh]. simpl in *. subst m.
    eexists. split; [by apply step_main, select_failure|done].
  - intros st' r E Hs [r' E']. pose proof (chosen_kept _ _ _ _ Hs E) as E2. rewrite E' in E2 |- *.
    simpl in E2. congruence.
Qed.

(** C23: Unless another [Stop] came in before the first group started, by the time [Run]
    returns the groups that were started have been stopped, in exactly the reverse order,
    and every service that was launched is in one of them and has exited. *)
Theorem stopped_in_reverse groups st0 st :
  NoDup (Name <$> concat groups) → reachable groups st0 → main st0 = AtGroup 0 →
  stopOnce (glob st0) = None → rtc (step groups) st0 st → returned (main st) →
  stopped (glob st) = reverse (startGroups (glob st)) ∧
  ∀ svc, svc ∈ concat groups → phase_of (procs st) svc ≠ NotLaunched →
    svc ∈ concat (stopped (glob st)) ∧ phase_of (procs st) svc = Exited.
Proof.
  intros Hn Hr H0 Ho Hs [r Er].
  assert (reachable groups st) as Hr' by (by eapply rtc_trans).
  assert (main st ≠ Entered ∧ stop_order st) as [_ Hord].
  { clear Er Hr'. assert (main st0 ≠ Entered) as Hne by by rewrite H0.
    assert (stop_order st0) as Hord.
    { unfold stop_order. rewrite Ho. by apply (sp_none _ (stop_holds _ _ Hr)). }
    clear Hr H0 Ho. induction Hs as [|st0 st1 st Hs _ IH]; [done|].
    destruct (stop_order_step _ _ _ Hne Hord Hs). by apply IH. }
  pose proof (sp_done _ (stop_holds _ _ Hr')) as Hd. rewrite Er in Hd.
  unfold stop_order in Hord. rewrite Hd in Hord. simpl in Hord. rewrite app_nil_r in Hord.
  destruct Hord as [_ Hord]. split; [done|]. intros svc Hin Hp. split.
  - destruct (concat_position groups svc Hin) as (i & g & Hi & Hg).
    pose proof (position_holds groups Hn st Hr') as Hpos.
    rewrite (po_launched _ _ Hpos i g svc Hi Hg) in Hp. unfold launchedGroups in Hp.
    rewrite Er in Hp. destruct (po_started _ _ Hpos) as [k Hk].
    destruct (started_length groups k _ Hk) as [_ Hk']. rewrite Hord.
    apply list_elem_of_In, in_concat. exists g. rewrite <- !list_elem_of_In. split; [|done].
    apply elem_of_reverse. rewrite Hk'. apply (list_elem_of_lookup_2 _ i).
    rewrite lookup_take_lt; [done|lia].
  - destruct (drained_holds groups Hn st Hr') with (svc := svc); try done. by exists r.
Qed.

(** C24: Shutdown terminates: once the run context is cancelled, every execution of the
    manager's own steps, however scheduled, has at most [work] of them, it can only stop once
    [Run] has returned, and such an execution exists. *)
Theorem shutdown_terminates groups st :
  NoDup (Name <$> concat groups) → reachable groups st → cancelled (glob st) = true →
  (∀ n st', nsteps (internal groups) n st st' →
     (n <= work groups st)%nat ∧ (returned (main st') ∨ ∃ st'', internal groups st' st'')) ∧
  ∃ st', rtc (internal groups) st st' ∧ returned (main st').
Proof.
  intros Hn Hr Hc. split; [|by apply shutdown_reaches]. intros n st' Hs.
  destruct (shutdown_bounded groups Hn n st st' Hr Hc Hs) as (Hw & Hr' & Hc'). split; [lia|].
  assert (returned (main st') ∨ ¬ returned (main st')) as [Hd|Hd]; [|by left|right].
  { destruct (main st'); first [left; by eexists|right; by intros [? [=]]]. }
  apply (shutdown_progress groups st'); [by apply position_holds|by eapply stop_holds|done..].
Qed.

(** ** A process of two services *)

Definition database : Service := MkService "database" None 0 None None true.
Definition api : Service := MkService "api" (Some 1) 0 None (Some ["database"; "cache"]) false.
Definition both : gmap string Service := {[ "database" := database; "api" := api ]}.
Definition both_groups : list serviceGroup := [[database]; [api]].
Definition boom : goerr := EForeign "boom".

Lemma both_named : well_named both.
Proof.
  intros name svc. unfold both.
  intros [[<- <-]|[_ [<- <-]%lookup_singleton_Some]]%lookup_insert_Some; done.
Qed.

Lemma both_iteration : iteration both ["api"; "database"].
Proof.
  split; [by apply (bool_decide_unpack _); vm_compute|].
  intros n. unfold both. rewrite lookup_insert_is_Some, lookup_singleton_is_Some.
  rewrite !elem_of_cons, elem_of_nil.
  destruct (decide (n = "database")); naive_solver.
Qed.

Lemma both_resolved : resolveOrder ["api"; "database"] ["api"; "database"] both = Ok both_groups.
Proof. reflexivity. Qed.

Lemma both_unique : NoDup (Name <$> concat both_groups).
Proof. apply (bool_decide_unpack _). by vm_compute. Qed.

Definition launching : state := MkState (AtGroup 0) ∅ (MkShared None false false ∅ [] None [] []).

(** Both run, the database has signalled ready, nothing has failed. *)
Definition serving : state :=
  MkState Selecting {[ "database" := Running 0; "api" := Running 0 ]}
    (MkShared None false false {[ "database" ]} both_groups None [] []).

(** The api failed twice; its error waits in the channel. *)
Definition broken : state :=
  MkState Selecting {[ "database" := Running 0; "api" := Exited ]}
    (MkShared (Some (Some boom)) true false {[ "database" ]} both_groups None [] [Some boom]).

Definition finished : state :=
  MkState (Returned (Some (Some boom))) {[ "database" := Exited; "api" := Exited ]}
    (MkShared None true true {[ "database" ]} both_groups (Some None)
       [[api]; [database]] [Some boom]).

Lemma rtc_reaches {A} (R : relation A) x y z : rtc R x y → y = z → rtc R x z.
Proof. by intros ? <-. Qed.

Lemma service_at groups i k g svc p' m ph sh sh' :
  groups !! i = Some g → g !! k = Some svc → service_step svc (phase_of ph svc) sh p' sh' →
  step groups (MkState m ph sh) (MkState m (<[Name svc := p']> ph) sh').
Proof.
  intros Hi Hk Hp. left. eapply step_service; [..|exact Hp]; by eapply list_elem_of_lookup_2.
Qed.

Ltac main_goes c := eapply rtc_l; [left; eapply step_main, c; try reflexivity|].
Tactic Notation "goes" constr(i) open_constr(c) :=
  eapply rtc_l;
    [eapply (service_at both_groups i 0); [reflexivity|reflexivity|eapply c; try done]|].
Ltac stops c := eapply rtc_l; [left; eapply step_stop, c; reflexivity|].
Ltac arrived := eapply rtc_reaches; [apply rtc_refl|]; vm_compute; reflexivity.

Lemma launching_reachable : reachable both_groups launching.
Proof. main_goes begin_start. arrived. Qed.

Lemma serving_reachable : reachable both_groups serving ∧ rtc (step both_groups) launching serving.
Proof.
  enough (rtc (step both_groups) launching serving) as H.
  { split; [|done]. eapply rtc_trans; [apply launching_reachable|done]. }
  unfold launching.
  main_goes start_group. goes 0%nat launched.
  main_goes all_launched. { by intros ? ->%list_elem_of_singleton. }
  eapply rtc_l; [right; eapply (step_ready _ [database] database); [by left|by left|done]|].
  main_goes ready_signalled. { left. set_solver. }
  main_goes ready_done. main_goes start_group. goes 1%nat launched.
  main_goes all_launched. { by intros ? ->%list_elem_of_singleton. }
  main_goes ready_not_needed. main_goes ready_done. main_goes start_finished.
  arrived.
Qed.

Lemma broken_reachable : reachable both_groups broken ∧ rtc (step both_groups) launching broken.
Proof.
  enough (rtc (step both_groups) serving broken) as H.
  { split; (eapply rtc_trans; [apply serving_reachable|done]). }
  unfold serving.
  goes 1%nat (run_failed api _ 0 (RunReturned (Some boom))).
  goes 1%nat failed_retry. goes 1%nat delay_over.
  goes 1%nat (run_failed api _ 1 (RunReturned (Some boom))).
  goes 1%nat failed_exhausted. goes 1%nat report_failure. goes 1%nat triggered.
  arrived.
Qed.

Lemma finished_reachable : reachable both_groups finished ∧ rtc (step both_groups) launching finished.
Proof.
  enough (rtc (step both_groups) broken finished) as H.
  { split; (eapply rtc_trans; [apply broken_reachable|done]). }
  unfold broken. main_goes select_failure. main_goes stop_called.
  stops stop_group. stops stop_group.
  goes 0%nat (run_clean database _ 0 (RunReturned None)).
  stops stop_finished. main_goes stop_returned.
  main_goes drained.
  { intros g svc [->|[->|[]%elem_of_nil]%elem_of_cons]%elem_of_cons ->%list_elem_of_singleton; by right. }
  arrived.
Qed.

(** ** The properties at work *)

(** Two services that wait for each other. *)
Definition knot : gmap string Service :=
  {[ "a" := MkService "a" None 0 None (Some ["b"]) false;
     "b" := MkService "b" None 0 None (Some ["a"]) false ]}.

Lemma knot_iteration : iteration knot ["a"; "b"].
Proof.
  split; [by apply (bool_decide_unpack _); vm_compute|].
  intros n. unfold knot. rewrite lookup_insert_is_Some, lookup_singleton_is_Some.
  rewrite !elem_of_cons, elem_of_nil.
  destruct (decide (n = "a")); naive_solver.
Qed.

Lemma start_order_correct_witness :
  (NoDup (Name <$> concat both_groups)) ∧ ∃ n, tc (depends knot) n n.
Proof.
  split.
  - pose proof (start_order_correct both _ _ both_named both_iteration both_iteration) as H.
    rewrite both_resolved in H. exact (proj1 (proj2 (proj2 H))).
  - refine (proj2 (start_order_correct knot ["a"; "b"] ["a"; "b"] _ knot_iteration knot_iteration)).
    by apply map_Forall_lookup, (bool_decide_unpack _); vm_compute.
Defined.

Lemma dependencies_ready_before_start_witness :
  phase_of (procs serving) database ≠ NotLaunched ∧
  (ReadyNotifier database = true →
     "database" ∈ ready (glob serving) ∨ phase_of (procs serving) database = Exited ∨
     cancelled (glob serving) = true).
Proof.
  apply (dependencies_ready_before_start both _ _ both_groups serving api ["database"; "cache"]
    "database" database both_named both_iteration both_iteration both_resolved);
    [apply serving_reachable|reflexivity|by vm_compute|reflexivity|by left|reflexivity].
Defined.

(** A failure of the database while the api has not been started. *)
Definition early_failure : state :=
  MkState (AwaitReady 0 0) {[ "database" := Exited ]}
    (MkShared (Some (Some boom)) true false ∅ [] None [] [Some boom]).

Lemma early_failure_reachable : reachable both_groups early_failure.
Proof.
  eapply rtc_trans; [apply launching_reachable|]. unfold launching.
  main_goes start_group. goes 0%nat launched.
  main_goes all_launched. { by intros ? ->%list_elem_of_singleton. }
  goes 0%nat (run_failed database _ 0 (RunReturned (Some boom))).
  goes 0%nat failed_exhausted. goes 0%nat report_failure. goes 0%nat triggered.
  arrived.
Qed.

Definition abandoned : state :=
  MkState Selecting {[ "database" := Exited ]}
    (MkShared (Some (Some boom)) true false ∅ [[database]] None [] [Some boom]).

Lemma early_failure_abandoned : rtc (step both_groups) early_failure abandoned.
Proof.
  unfold early_failure. main_goes ready_interrupted. { by left. }
  main_goes start_abandoned. arrived.
Qed.

Lemma no_start_after_failure_witness : phase_of (procs abandoned) api = NotLaunched.
Proof.
  apply (no_start_after_failure both_groups early_failure abandoned api both_unique
    early_failure_reachable eq_refl early_failure_abandoned); [|reflexivity].
  by right; left.
Defined.

Lemma first_failure_reported_witness :
  (∃ err, main finished = Returned (Some err) ∧ head (reports (glob finished)) = Some err) ∧
  (∃ err st', internal both_groups broken st' ∧ main st' = StopCalled (Some err)).
Proof.
  split.
  - eexists. split; [reflexivity|].
    exact (proj1 (proj2 (first_failure_reported both_groups finished (proj1 finished_reachable)))
             _ eq_refl).
  - destruct (proj2 (proj1 (proj2 (proj2 (first_failure_reported both_groups broken
      (proj1 broken_reachable)))) eq_refl) eq_refl) as (err & _ & _ & st' & Hs & E).
    exact (ex_intro _ err (ex_intro _ st' (conj Hs E))).
Defined.

Lemma stopped_in_reverse_witness :
  stopped (glob finished) = reverse (startGroups (glob finished)) ∧
  ∀ svc, svc ∈ concat both_groups → phase_of (procs finished) svc ≠ NotLaunched →
    svc ∈ concat (stopped (glob finished)) ∧ phase_of (procs finished) svc = Exited.
Proof.
  exact (stopped_in_reverse both_groups launching finished both_unique launching_reachable
    eq_refl eq_refl (proj2 finished_reachable) (ex_intro _ _ eq_refl)).
Defined.

Definition interrupted : state :=
  MkState (main serving) (procs serving) (with_cancelled (glob serving)).

Lemma interrupted_reachable : reachable both_groups interrupted.
Proof. eapply rtc_r; [apply serving_reachable|]. right. apply step_cancel. Qed.

Lemma shutdown_terminates_witness :
  (∀ n st', nsteps (internal both_groups) n interrupted st' →
     (n <= work both_groups interrupted)%nat ∧
     (returned (main st') ∨ ∃ st'', internal both_groups st' st'')) ∧
  ∃ st', rtc (internal both_groups) interrupted st' ∧ returned (main st').
Proof. exact (shutdown_terminates both_groups interrupted both_unique interrupted_reachable eq_refl). Defined.

(** ** Limits

    A failure that is in the channel when the context is cancelled can be dropped: both
    branches of the select are ready and Go picks one. *)
Lemma cancelled_run_drops_failure :
  ∃ st, rtc (step both_groups) broken st ∧ failed (glob broken) = true ∧
    head (reports (glob broken)) = Some (Some boom) ∧ main st = Returned None.
Proof.
  eexists. split; [|split; [done|split; [done|]]].
  - unfold broken. eapply rtc_l; [right; apply step_cancel|]. main_goes select_done.
    main_goes stop_called. stops stop_group. stops stop_group.
    goes 0%nat (run_clean database _ 0 (RunReturned None)).
    stops stop_finished. main_goes stop_returned.
    eapply rtc_l; [left; apply step_main, drained|apply rtc_refl].
    intros g svc [->|[->|[]%elem_of_nil]%elem_of_cons]%elem_of_cons ->%list_elem_of_singleton; by right.
  - done.
Qed.

(** A [Stop] that enters [stopOnce] before the first group starts finds nothing to stop
    and uses the once up: the deferred [Stop] of [Run] then stops no service. *)
Lemma early_stop_skips_services :
  ∃ st, reachable both_groups st ∧ startGroups (glob st) = both_groups ∧
    returned (main st) ∧ stopped (glob st) = [].
Proof.
  set (done := MkState (Returned None) {[ "database" := Exited; "api" := Exited ]}
    (MkShared None false true ∅ both_groups (Some None) [] [])).
  exists done. split; [|by repeat split; eexists]. unfold done, initial, reachable.
  eapply rtc_l; [right; by apply step_cancel|]. eapply rtc_l; [right; by apply step_other_stop|].
  stops stop_finished.
  main_goes begin_start. main_goes start_group. goes 0%nat launched.
  main_goes all_launched. { by intros ? ->%list_elem_of_singleton. }
  main_goes ready_interrupted. { by right. }
  main_goes start_group. goes 1%nat launched.
  main_goes all_launched. { by intros ? ->%list_elem_of_singleton. }
  main_goes ready_not_needed. main_goes ready_done. main_goes start_finished.
  main_goes select_done. main_goes stop_called. main_goes stop_returned.
  goes 0%nat (run_clean database _ 0 (RunReturned None)).
  goes 1%nat (run_clean api _ 0 (RunReturned None)).
  main_goes drained.
  { intros g svc [->|[->|[]%elem_of_nil]%elem_of_cons]%elem_of_cons ->%list_elem_of_singleton; by right. }
  arrived.
Qed.

End ServiceTheorems.
