(* ===== verification/TypesafeApi.v ===== *)
(** * The generated TypeSafe API

    [pkg/gotypesafe/api.gen.go]: the JSON types of the decision provider, whose unions keep
    the raw message and are read by their discriminator, and the generated client of its
    two operations.  Numbers of answers are [float32].  The Module [TypesafeUnions] is the
    part of the file that the provider adapter does not call: the typed unions with
    their [From] and [Merge], the enumerations and the client that parses its responses. *)

From S2P Require Import Prelude GoFloat GoAny GoJson NetUrl Store JsonStruct OapiClient.
From Stdlib Require Import SpecFloat.
From stdpp Require Import options.
#[local] Open Scope Z_scope.

Module TypesafeApi.
Import JsonStruct.
Export OapiClient.

(** ** Unions

    A union holds a [json.RawMessage], here by its value: [UnmarshalJSON] keeps what it is
    given, [MarshalJSON] returns it, and a raw message that was never set is written as
    [null] and cannot be read. *)
Definition union : Set := option json.

Definition union_MarshalJSON (u : union) : json := default JNull u.
Definition union_UnmarshalJSON (j : json) : union := Some j.

Definition cunion : codec union :=
  MkCodec (λ u, Some (union_MarshalJSON u)) (λ _ j _, Some (union_UnmarshalJSON j)) None.

Definition unmarshalError : goerr := EForeign "json: cannot unmarshal".

(** [json.Unmarshal] of the raw message into a fresh value. *)
Definition union_as {A} (c : codec A) (u : union) : res A :=
  match u ≫= (λ j, read c false j (zero c)) with
  | Some a => Ok a
  | None => Err unmarshalError
  end.

(** The property [type] of the raw message. *)
Definition discriminator_codec : codec string :=
  cstruct (req "type" cstring :: [])%tags (λ s, (s, tt)) (λ '(s, tt), s).
Definition union_Discriminator (u : union) : res string := union_as discriminator_codec u.

Definition cfloat32 : codec spec_float :=
  MkCodec (λ f, JNum <$> f32_text f)
    (λ _ j t, match j with JNull => Some t | JNum n => parse_float32 n | _ => None end) f64_zero.

(** ** Answers *)
Record NoulAnswer : Set := MkNoulAnswer { na_Noul : spec_float; na_Type : string }.

Record ChoiceAnswer : Set := MkChoiceAnswer {
  ca_Choice : string;
  ca_Confidence : spec_float;
  ca_Probabilities : gmap string spec_float;
  ca_Type : string
}.

Record ScoreAnswer : Set := MkScoreAnswer {
  sa_Confidence : spec_float;
  sa_Legend : gmap string union;
  sa_Probabilities : gmap string spec_float;
  sa_Score : spec_float;
  sa_Type : string
}.

Definition NoulAnswer_codec : codec NoulAnswer :=
  cstruct (req "noul" cfloat32 :: req "type" cstring :: [])%tags
    (λ a, (na_Noul a, (na_Type a, tt))) (λ '(n, (t, tt)), MkNoulAnswer n t).

Definition ChoiceAnswer_codec : codec ChoiceAnswer :=
  cstruct (req "choice" cstring :: req "confidence" cfloat32 ::
           req "probabilities" (cmap cfloat32) :: req "type" cstring :: [])%tags
    (λ a, (ca_Choice a, (ca_Confidence a, (ca_Probabilities a, (ca_Type a, tt)))))
    (λ '(choice, (confidence, (probabilities, (t, tt)))), MkChoiceAnswer choice confidence probabilities t).

Definition ScoreAnswer_codec : codec ScoreAnswer :=
  cstruct (req "confidence" cfloat32 :: req "legend" (cmap cunion) ::
           req "probabilities" (cmap cfloat32) :: req "score" cfloat32 :: req "type" cstring :: [])%tags
    (λ a, (sa_Confidence a, (sa_Legend a, (sa_Probabilities a, (sa_Score a, (sa_Type a, tt))))))
    (λ '(confidence, (legend, (probabilities, (score, (t, tt))))),
       MkScoreAnswer confidence legend probabilities score t).

(** [Answer] *)
Definition Answer : Set := union.
Definition AsNoulAnswer (t : Answer) : res NoulAnswer := union_as NoulAnswer_codec t.
Definition AsScoreAnswer (t : Answer) : res ScoreAnswer := union_as ScoreAnswer_codec t.
Definition AsChoiceAnswer (t : Answer) : res ChoiceAnswer := union_as ChoiceAnswer_codec t.
Definition Answer_Discriminator (t : Answer) : res string := union_Discriminator t.

Inductive AnswerValue : Set :=
  | ValueChoiceAnswer (a : ChoiceAnswer)
  | ValueNoulAnswer (a : NoulAnswer)
  | ValueScoreAnswer (a : ScoreAnswer).

Definition unknownDiscriminator : goerr := EForeign "unknown discriminator value".

Definition Answer_ValueByDiscriminator (t : Answer) : res AnswerValue :=
  discriminator ← Answer_Discriminator t;
  if decide (discriminator = "choice") then a ← AsChoiceAnswer t; Ok (ValueChoiceAnswer a)
  else if decide (discriminator = "noul") then a ← AsNoulAnswer t; Ok (ValueNoulAnswer a)
  else if decide (discriminator = "score") then a ← AsScoreAnswer t; Ok (ValueScoreAnswer a)
  else Err unknownDiscriminator.

(** ** Questions *)
Record NoulCriteria : Set := MkNoulCriteria { nc_False : option union; nc_True : option union }.

Record NoulQuestion : Set := MkNoulQuestion {
  nq_Criteria : option NoulCriteria;
  nq_Instructions : option union;
  nq_Type : string
}.

Record ChoiceQuestion : Set := MkChoiceQuestion {
  chq_Criteria : gmap string (option union);
  chq_Instructions : option union;
  chq_Type : string
}.

Record ScoreQuestion : Set := MkScoreQuestion {
  scq_Criteria : list union;
  scq_Instructions : option union;
  scq_Type : string
}.

Definition NoulCriteria_codec : codec NoulCriteria :=
  cstruct (opt "false" cunion :: opt "true" cunion :: [])%tags
    (λ c, (nc_False c, (nc_True c, tt))) (λ '(f, (t, tt)), MkNoulCriteria f t).

Definition NoulQuestion_codec : codec NoulQuestion :=
  cstruct (opt "criteria" NoulCriteria_codec :: opt "instructions" cunion :: req "type" cstring :: [])%tags
    (λ q, (nq_Criteria q, (nq_Instructions q, (nq_Type q, tt))))
    (λ '(criteria, (instructions, (t, tt))), MkNoulQuestion criteria instructions t).

Definition ChoiceQuestion_codec : codec ChoiceQuestion :=
  cstruct (req "criteria" (cmap (cptr cunion)) :: opt "instructions" cunion :: req "type" cstring :: [])%tags
    (λ q, (chq_Criteria q, (chq_Instructions q, (chq_Type q, tt))))
    (λ '(criteria, (instructions, (t, tt))), MkChoiceQuestion criteria instructions t).

Definition ScoreQuestion_codec : codec ScoreQuestion :=
  cstruct (req "criteria" (cslice cunion) :: opt "instructions" cunion :: req "type" cstring :: [])%tags
    (λ q, (scq_Criteria q, (scq_Instructions q, (scq_Type q, tt))))
    (λ '(criteria, (instructions, (t, tt))), MkScoreQuestion criteria instructions t).

(** [Question] *)
Definition Question : Set := union.
Definition AsNoulQuestion (t : Question) : res NoulQuestion := union_as NoulQuestion_codec t.
Definition AsChoiceQuestion (t : Question) : res ChoiceQuestion := union_as ChoiceQuestion_codec t.
Definition AsScoreQuestion (t : Question) : res ScoreQuestion := union_as ScoreQuestion_codec t.
Definition Question_Discriminator (t : Question) : res string := union_Discriminator t.

Inductive QuestionValue : Set :=
  | ValueChoiceQuestion (q : ChoiceQuestion)
  | ValueNoulQuestion (q : NoulQuestion)
  | ValueScoreQuestion (q : ScoreQuestion).

Definition Question_ValueByDiscriminator (t : Question) : res QuestionValue :=
  discriminator ← Question_Discriminator t;
  if decide (discriminator = "choice") then q ← AsChoiceQuestion t; Ok (ValueChoiceQuestion q)
  else if decide (discriminator = "noul") then q ← AsNoulQuestion t; Ok (ValueNoulQuestion q)
  else if decide (discriminator = "score") then q ← AsScoreQuestion t; Ok (ValueScoreQuestion q)
  else Err unknownDiscriminator.

(** ** Requests and responses *)
Record SystemOneRequest : Set := MkSystemOneRequest {
  wire_Model : string;
  wire_Questions : gmap string Question;
  wire_State : union
}.

Record Usage : Set := MkUsage { us_InputTokens : Z; us_OutputTokens : Z }.

Record SystemOneResponse : Set := MkSystemOneResponse {
  so_Answers : gmap string Answer;
  so_Model : string;
  so_Usage : Usage
}.

Record ModelMetadata : Set := MkModelMetadata {
  mm_Description : string;
  mm_Name : string;
  mm_ReleaseDate : string
}.

Definition SystemOneRequest_codec : codec SystemOneRequest :=
  cstruct (req "model" cstring :: req "questions" (cmap cunion) :: req "state" cunion :: [])%tags
    (λ r, (wire_Model r, (wire_Questions r, (wire_State r, tt))))
    (λ '(model, (questions, (state, tt))), MkSystemOneRequest model questions state).

Definition Usage_codec : codec Usage :=
  cstruct (req "input_tokens" cint :: req "output_tokens" cint :: [])%tags
    (λ u, (us_InputTokens u, (us_OutputTokens u, tt))) (λ '(i, (o, tt)), MkUsage i o).

Definition SystemOneResponse_codec : codec SystemOneResponse :=
  cstruct (req "answers" (cmap cunion) :: req "model" cstring :: req "usage" Usage_codec :: [])%tags
    (λ r, (so_Answers r, (so_Model r, (so_Usage r, tt))))
    (λ '(answers, (model, (usage, tt))), MkSystemOneResponse answers model usage).

Definition ModelMetadata_codec : codec ModelMetadata :=
  cstruct (req "description" cstring :: req "name" cstring :: req "release_date" cstring :: [])%tags
    (λ m, (mm_Description m, (mm_Name m, (mm_ReleaseDate m, tt))))
    (λ '(d, (n, (r, tt))), MkModelMetadata d n r).

Definition ModelMetadataList_codec : codec (list ModelMetadata) :=
  cstruct (req "models" (cslice ModelMetadata_codec) :: [])%tags (λ l, (l, tt)) (λ '(l, tt), l).

(** ** The client *)
Section client.
Context {W : Type}.

Definition GeneratedClient : Type := Client W.

Definition NewGeneratedClient (do_default : request → W → W * res httpResponse) (server : string)
  (opts : list ClientOption) : res GeneratedClient := OapiClient.NewClient do_default server opts.

Definition NewModelsV1V1ModelsGetRequest (server : string) : res request :=
  Ok (new_request "GET" (operation_url server "/v1/models")).

Definition NewSystemoneV1SystemonePostRequestWithBody (server contentType body : string) : res request :=
  Ok (new_body_request "POST" (operation_url server "/v1/systemone") contentType body).

Definition NewSystemoneV1SystemonePostRequest (server : string) (body : SystemOneRequest) : res request :=
  buf ← json_Marshal SystemOneRequest_codec body;
  NewSystemoneV1SystemonePostRequestWithBody server "application/json" buf.

Definition ModelsV1V1ModelsGet (c : GeneratedClient) (reqEditors : list RequestEditorFn) :=
  send c (NewModelsV1V1ModelsGetRequest (Server c)) reqEditors.
Definition SystemoneV1SystemonePostWithBody (c : GeneratedClient) (contentType body : string)
  (reqEditors : list RequestEditorFn) :=
  send c (NewSystemoneV1SystemonePostRequestWithBody (Server c) contentType body) reqEditors.
Definition SystemoneV1SystemonePost (c : GeneratedClient) (body : SystemOneRequest)
  (reqEditors : list RequestEditorFn) :=
  send c (NewSystemoneV1SystemonePostRequest (Server c) body) reqEditors.

End client.
End TypesafeApi.

(** ** [jsonmerge.Merger]

    What [runtime.JSONMerge] does, as the vendored packages have it.  What the merger notes
    of replacements and mismatches is dropped by its caller. *)
Module JsonMerge.

Definition member (key : string) (object : list (string * goany)) : option goany :=
  snd <$> List.find (λ kv, bool_decide (kv.1 = key)) object.

(** [mergeValue], over the [mergeObjects] of a value. *)
Definition mergeValue (mergeObjects : goany → goany → goany) (patch : list (string * goany)) (key : string)
  (value : goany) : goany :=
  match member key patch with
  | None => value
  | Some patchValue =>
      match value, patchValue with
      | AMap _, AMap _ => mergeObjects value patchValue
      | AMap _, _ => value
      | ASlice _, AMap _ => mergeObjects value patchValue
      | _, _ => patchValue
      end
  end.

Fixpoint mergeObjects (CopyNonexistent : bool) (data patch : goany) {struct data} : goany :=
  match patch with
  | AMap patchObject =>
      match data with
      | ASlice dataArray =>
          ASlice ((fix go (i : Z) (l : list goany) : list goany :=
                     match l with
                     | [] => []
                     | val :: l => mergeValue (mergeObjects CopyNonexistent) patchObject (Itoa i) val :: go (i + 1)%Z l
                     end) 0%Z dataArray)
      | AMap dataObject =>
          let ret :=
            (fix go (l : list (string * goany)) : list (string * goany) :=
               match l with
               | [] => []
               | (k, v) :: l => (k, mergeValue (mergeObjects CopyNonexistent) patchObject k v) :: go l
               end) dataObject in
          AMap (if CopyNonexistent then
                  foldl (λ ret kv, if member kv.1 dataObject then ret else amap_insert kv.1 kv.2 ret) ret patchObject
                else ret)
      | _ => data
      end
  | _ => data
  end.

End JsonMerge.

(** ** What the adapter does not call *)
Module TypesafeUnions.
Import JsonStruct TypesafeApi.

(** *** Enumerations *)
Definition ChoiceAnswerType_Valid (e : string) : bool := if decide (e = "choice") then true else false.
Definition ChoiceQuestionType_Valid (e : string) : bool := if decide (e = "choice") then true else false.
Definition NoulAnswerType_Valid (e : string) : bool := if decide (e = "noul") then true else false.
Definition NoulQuestionType_Valid (e : string) : bool := if decide (e = "noul") then true else false.
Definition ScoreAnswerType_Valid (e : string) : bool := if decide (e = "score") then true else false.
Definition ScoreQuestionType_Valid (e : string) : bool := if decide (e = "score") then true else false.

(** *** The methods of a union

    A raw message is the value its text has; the text of a tree that was marshalled always
    has one. *)
Definition raw_message (j : json) : union := json_parse (json_text j).

Definition marshalError : goerr := EForeign "json: marshal".

Definition union_Marshal {A} (c : codec A) (v : A) : res union :=
  match write c v with Some j => Ok (raw_message j) | None => Err marshalError end.

(** A message that is absent merges as [{}]. *)
Definition JSONMerge (data patch : union) : res union :=
  match decode_any true (default (JObj []) data), decode_any true (default (JObj []) patch) with
  | Some data, Some patch =>
      match marshal (JsonMerge.mergeObjects true data patch) with
      | Some merged => Ok (raw_message merged)
      | None => Err (EForeign "error writing merged JSON")
      end
  | None, _ => Err (EForeign "error in data JSON")
  | _, None => Err (EForeign "error in patch JSON")
  end.

(** [t.union, err = ...; return err]: the message is overwritten with [nil] on an error. *)
Definition overwrite (b : res union) : union * option goerr :=
  match b with Ok b => (b, None) | Err err => (None, Some err) end.

(** [As], [From] and [Merge] of one variant. *)
Record variant (A : Type) : Type := MkVariant {
  As : union → res A;
  From : A → union → union * option goerr;
  Merge : A → union → union * option goerr
}.
Arguments MkVariant {A} _ _ _.
Arguments As {A} _ _.
Arguments From {A} _ _ _.
Arguments Merge {A} _ _ _.

Definition plain_variant {A} (c : codec A) : variant A :=
  MkVariant (union_as c)
    (λ v _, overwrite (union_Marshal c v))
    (λ v t, match union_Marshal c v with
            | Err err => (t, Some err)
            | Ok b => overwrite (JSONMerge t b)
            end).

(** A variant that the discriminator names: its [type] is set whatever the value has. *)
Definition type_patch (name : string) : union := Some (JObj [("type", JStr name)]).

Definition typed_variant {A} (c : codec A) (name : string) : variant A :=
  MkVariant (union_as c)
    (λ v t, match union_Marshal c v with
            | Err err => (t, Some err)
            | Ok b => overwrite (JSONMerge b (type_patch name))
            end)
    (λ v t, match (b ← union_Marshal c v; JSONMerge b (type_patch name)) with
            | Err err => (t, Some err)
            | Ok b => overwrite (JSONMerge t b)
            end).

(** *** [Answer] and [Question] *)
Definition Answer_NoulAnswer : variant NoulAnswer := typed_variant NoulAnswer_codec "noul".
Definition Answer_ScoreAnswer : variant ScoreAnswer := typed_variant ScoreAnswer_codec "score".
Definition Answer_ChoiceAnswer : variant ChoiceAnswer := typed_variant ChoiceAnswer_codec "choice".
Definition Question_NoulQuestion : variant NoulQuestion := typed_variant NoulQuestion_codec "noul".
Definition Question_ChoiceQuestion : variant ChoiceQuestion := typed_variant ChoiceQuestion_codec "choice".
Definition Question_ScoreQuestion : variant ScoreQuestion := typed_variant ScoreQuestion_codec "score".

(** *** The unions of a string, an object and an array

    A nil map or slice, which is written as [null], is not represented. *)
Definition cobject : codec (list (string * goany)) := cdocument.
Definition carray : codec (list goany) := cslice cany.

Definition ChoiceQuestionCriteria0 : variant string := plain_variant cstring.
Definition ChoiceQuestionCriteria1 : variant (list (string * goany)) := plain_variant cobject.
Definition ChoiceQuestionCriteria2 : variant (list goany) := plain_variant carray.
Definition ChoiceQuestionInstructions0 : variant string := plain_variant cstring.
Definition ChoiceQuestionInstructions1 : variant (list (string * goany)) := plain_variant cobject.
Definition ChoiceQuestionInstructions2 : variant (list goany) := plain_variant carray.
Definition NoulCriteriaFalse0 : variant string := plain_variant cstring.
Definition NoulCriteriaFalse1 : variant (list (string * goany)) := plain_variant cobject.
Definition NoulCriteriaFalse2 : variant (list goany) := plain_variant carray.
Definition NoulCriteriaTrue0 : variant string := plain_variant cstring.
Definition NoulCriteriaTrue1 : variant (list (string * goany)) := plain_variant cobject.
Definition NoulCriteriaTrue2 : variant (list goany) := plain_variant carray.
Definition NoulQuestionInstructions0 : variant string := plain_variant cstring.
Definition NoulQuestionInstructions1 : variant (list (string * goany)) := plain_variant cobject.
Definition NoulQuestionInstructions2 : variant (list goany) := plain_variant carray.
Definition ScoreAnswerLegend0 : variant string := plain_variant cstring.
Definition ScoreAnswerLegend1 : variant (list (string * goany)) := plain_variant cobject.
Definition ScoreAnswerLegend2 : variant (list goany) := plain_variant carray.
Definition ScoreQuestionCriteria0 : variant string := plain_variant cstring.
Definition ScoreQuestionCriteria1 : variant (list (string * goany)) := plain_variant cobject.
Definition ScoreQuestionCriteria2 : variant (list goany) := plain_variant carray.
Definition ScoreQuestionInstructions0 : variant string := plain_variant cstring.
Definition ScoreQuestionInstructions1 : variant (list (string * goany)) := plain_variant cobject.
Definition ScoreQuestionInstructions2 : variant (list goany) := plain_variant carray.
Definition SystemOneRequestState0 : variant string := plain_variant cstring.
Definition SystemOneRequestState1 : variant (list (string * goany)) := plain_variant cobject.
Definition SystemOneRequestState2 : variant (list goany) := plain_variant carray.
Definition ValidationErrorLoc0 : variant string := plain_variant cstring.
Definition ValidationErrorLoc1 : variant Z := plain_variant cint.

(** *** Validation errors *)
Record ValidationError : Set := MkValidationError {
  ve_Ctx : option (list (string * goany));
  ve_Input : goany;
  ve_Loc : list union;
  ve_Msg : string;
  ve_Type : string
}.

Definition ValidationError_codec : codec ValidationError :=
  cstruct (opt "ctx" cdocument :: opt_any "input" :: req "loc" (cslice cunion) :: req "msg" cstring ::
           req "type" cstring :: [])%tags
    (λ e, (ve_Ctx e, (ve_Input e, (ve_Loc e, (ve_Msg e, (ve_Type e, tt))))))
    (λ '(ctx, (input, (loc, (msg, (t, tt))))), MkValidationError ctx input loc msg t).

Definition HTTPValidationError : Set := option (list ValidationError).
Definition HTTPValidationError_codec : codec HTTPValidationError :=
  cstruct (opt "detail" (cslice ValidationError_codec) :: [])%tags (λ d, (d, tt)) (λ '(d, tt), d).

(** *** The client that parses its responses *)

(** The response of an operation, over the type of its [JSON200]. *)
Record parsedReply (A : Type) : Type := MkParsed {
  Body : string;
  HTTPResponse : httpResponse;
  JSON200 : option A;
  JSON422 : option HTTPValidationError
}.
Arguments MkParsed {A} _ _ _ _.
Arguments Body {A} _.
Arguments HTTPResponse {A} _.
Arguments JSON200 {A} _.
Arguments JSON422 {A} _.

Definition parsed_StatusCode {A} (r : parsedReply A) : Z := hr_StatusCode (HTTPResponse r).
Definition parsed_ContentType {A} (r : parsedReply A) : string := header_get "Content-Type" (HTTPResponse r).

Definition json_Unmarshal {A} (c : codec A) (text : string) : res A :=
  match json_parse text ≫= (λ j, read c false j (zero c)) with
  | Some dest => Ok dest
  | None => Err unmarshalError
  end.

Definition parse_json {A} (c : codec A) (rsp : httpResponse) : res (parsedReply A) :=
  bodyBytes ← read_all (hr_Body rsp);
  let isJSON := NetUrl.contains_string "json" (header_get "Content-Type" rsp) in
  if isJSON && (hr_StatusCode rsp =? 200) then
    dest ← json_Unmarshal c bodyBytes; Ok (MkParsed bodyBytes rsp (Some dest) None)
  else if isJSON && (hr_StatusCode rsp =? 422) then
    dest ← json_Unmarshal HTTPValidationError_codec bodyBytes; Ok (MkParsed bodyBytes rsp None (Some dest))
  else Ok (MkParsed bodyBytes rsp None None).

Definition ModelsV1V1ModelsGetResponse : Type := parsedReply (list ModelMetadata).
Definition ParseModelsV1V1ModelsGetResponse : httpResponse → res ModelsV1V1ModelsGetResponse :=
  parse_json ModelMetadataList_codec.

Definition SystemoneV1SystemonePostResponse : Type := parsedReply SystemOneResponse.
Definition ParseSystemoneV1SystemonePostResponse : httpResponse → res SystemoneV1SystemonePostResponse :=
  parse_json SystemOneResponse_codec.

Section client.
Context {W : Type}.

(** [ClientWithResponses] embeds the client. *)
Definition NewClientWithResponses (do_default : request → W → W * res httpResponse) (server : string)
  (opts : list ClientOption) : res GeneratedClient := NewGeneratedClient do_default server opts.

Definition then_parse {A} (call : W → W * res httpResponse) (parse : httpResponse → res A) (w : W) : W * res A :=
  let '(w, rsp) := call w in (w, rsp ≫= parse).

Definition ModelsV1V1ModelsGetWithResponse (c : GeneratedClient) (reqEditors : list RequestEditorFn)
  : W → W * res ModelsV1V1ModelsGetResponse :=
  then_parse (ModelsV1V1ModelsGet c reqEditors) ParseModelsV1V1ModelsGetResponse.
Definition SystemoneV1SystemonePostWithBodyWithResponse (c : GeneratedClient) (contentType body : string)
  (reqEditors : list RequestEditorFn) : W → W * res SystemoneV1SystemonePostResponse :=
  then_parse (SystemoneV1SystemonePostWithBody c contentType body reqEditors) ParseSystemoneV1SystemonePostResponse.
Definition SystemoneV1SystemonePostWithResponse (c : GeneratedClient) (body : SystemOneRequest)
  (reqEditors : list RequestEditorFn) : W → W * res SystemoneV1SystemonePostResponse :=
  then_parse (SystemoneV1SystemonePost c body reqEditors) ParseSystemoneV1SystemonePostResponse.

End client.
End TypesafeUnions.
