(* ===== verification/Typesafe.v ===== *)
(** * The TypeSafe client

    [pkg/gotypesafe]: configuration, the request that goes on the wire, the answers
    that come back. *)

From S2P Require Import Prelude GoFloat GoAny Decision Document Store Effects JsonStruct TypesafeApi.
From Stdlib Require Import SpecFloat.
From stdpp Require Import options.
#[local] Open Scope Z_scope.

Module Typesafe.
Import TypesafeApi.

Definition Millisecond : duration := 1000000.
Definition Second : duration := 1000000000.

(** ** Errors and constants *)
Definition statusOverloaded : Z := 529.
Definition backoffExponentBase : Z := 2.

(** The public package's own sentinels. *)
Definition errResponseTooLarge : string := "typesafe: response exceeds configured size limit".
Definition errOverloaded : string := "typesafe: provider temporarily overloaded".
Definition ErrResponseTooLarge : goerr := EForeign errResponseTooLarge.
Definition ErrOverloaded : goerr := EForeign errOverloaded.

(** [errors.Is] with one of them. *)
Fixpoint errors_Is_tag (e : goerr) (tag : string) : bool :=
  match e with
  | EIs _ => false
  | EForeign tag' => bool_decide (tag' = tag)
  | EJoin e1 e2 => errors_Is_tag e1 tag || errors_Is_tag e2 tag
  end.
Definition errMarshal : goerr := EForeign "json: unsupported value".

Definition DefaultBaseURL : string := "https://api.typesafe.ai".
Definition DefaultModel : string := "jev-latest".
Definition DefaultTimeout : duration := 10 * Second.
Definition DefaultMaxResponseBytes : Z := 2 ^ 20.
Definition DefaultConcurrency : Z := 32.
Definition DefaultMaxAttempts : Z := 3.
Definition DefaultBackoffBase : duration := 200 * Millisecond.
Definition DefaultBackoffMax : duration := 5 * Second.
Definition DefaultMaxElapsed : duration := 30 * Second.
Definition MaxRetryAfterWait : duration := 30 * Second.

(** ** Configuration *)
Record Config : Set := MkConfig {
  BaseURL : string;
  APIKey : string;
  cfg_DefaultModel : string;
  Timeout : duration;
  MaxResponseBytes : Z;
  Concurrency : Z;
  MaxAttempts : Z;
  BackoffBase : duration;
  BackoffMax : duration;
  MaxElapsed : duration
}.

Definition or_default (n default : Z) : Z := if n <=? 0 then default else n.

Definition withDefaults (c : Config) : Config := {|
  BaseURL := if decide (BaseURL c = "") then DefaultBaseURL else BaseURL c;
  APIKey := APIKey c;
  cfg_DefaultModel := if decide (cfg_DefaultModel c = "") then DefaultModel else cfg_DefaultModel c;
  Timeout := or_default (Timeout c) DefaultTimeout;
  MaxResponseBytes := or_default (MaxResponseBytes c) DefaultMaxResponseBytes;
  Concurrency := or_default (Concurrency c) DefaultConcurrency;
  MaxAttempts := or_default (MaxAttempts c) DefaultMaxAttempts;
  BackoffBase := or_default (BackoffBase c) DefaultBackoffBase;
  BackoffMax := or_default (BackoffMax c) DefaultBackoffMax;
  MaxElapsed := or_default (MaxElapsed c) DefaultMaxElapsed
|}.

Definition validate (c : Config) : res unit :=
  guard_err (bool_decide (BaseURL c = "")) ErrRequiredConfigValueNotSet ;;
  guard_err (BackoffMax c <? BackoffBase c) ErrInvalidValue.

(** [New], less the generated client's construction. *)
Definition New (c : Config) : res Config :=
  let c := withDefaults c in
  validate c ;; Ok c.

(** ** Requests *)

(** What an [any] of criteria holds; a map may be nil inside a non-nil interface. *)
Inductive criteria : Set :=
  | CritNil
  | CritMap (m : option (gmap string goany))
  | CritList (l : list goany)
  | CritOther (v : goany).

Record QuestionInput : Set := MkQuestionInput {
  qi_Type : QuestionType;
  qi_Instructions : goany;
  qi_Criteria : criteria
}.

Record Request : Set := MkRequest {
  rq_State : goany;
  rq_Model : string;
  rq_Questions : gmap string QuestionInput
}.

Definition maxChoiceCriteria : Z := 255.
Definition minScoreCriteria : Z := 2.
Definition maxScoreCriteria : Z := 10.

Definition normalizedChoiceCriteria (raw : criteria) : res (gmap string goany) :=
  match raw with
  | CritMap m =>
      let m := default ∅ m in
      guard_err ((msize m =? 0) || (maxChoiceCriteria <? msize m)) ErrInvalidArgument ;; Ok m
  | _ => Err (EIs ErrInvalidArgument)
  end.

Definition normalizedScoreCriteria (raw : criteria) : res (list goany) :=
  match raw with
  | CritList l =>
      guard_err ((len l <? minScoreCriteria) || (maxScoreCriteria <? len l)) ErrInvalidArgument ;; Ok l
  | _ => Err (EIs ErrInvalidArgument)
  end.

Definition normalizedQuestionCriteria (question : QuestionInput) : res criteria :=
  if decide (qi_Type question = QuestionTypeNoul) then Ok (qi_Criteria question)
  else if decide (qi_Type question = QuestionTypeChoice) then
    m ← normalizedChoiceCriteria (qi_Criteria question); Ok (CritMap (Some m))
  else if decide (qi_Type question = QuestionTypeScore) then
    l ← normalizedScoreCriteria (qi_Criteria question); Ok (CritList l)
  else Err (EIs ErrInvalidArgument).

(** The value [json.Marshal] sees; a nil map encodes as [null]. *)
Definition criteria_value (c : criteria) : goany :=
  match c with
  | CritNil | CritMap None => ANil
  | CritMap (Some m) => AMap (amap_of m)
  | CritList l => ASlice l
  | CritOther v => v
  end.

(** [marshalIntoUnion] *)
Definition marshalIntoUnion (value : goany) : res union :=
  match marshal value with Some j => Ok (union_UnmarshalJSON j) | None => Err errMarshal end.

(** The keys come out of [json.Marshal] in increasing order. *)
Definition buildQuestion (question : QuestionInput) : res Question :=
  criteria ← normalizedQuestionCriteria question;
  marshalIntoUnion (AMap (
    match criteria with CritNil => [] | _ => [("criteria", criteria_value criteria)] end ++
    (if decide (qi_Instructions question = ANil) then []
     else [("instructions", qi_Instructions question)]) ++
    [("type", AString (qi_Type question))])).

Definition buildNamedQuestion (questions : gmap string Question) (named : string * QuestionInput)
  : res (gmap string Question) :=
  guard_err (bool_decide (named.1 = "")) ErrInvalidArgument ;;
  wireQuestion ← buildQuestion named.2;
  Ok (<[named.1 := wireQuestion]> questions).

(** [order] lists the questions as the loop over the map visits them. *)
Definition buildRequest (order : list (string * QuestionInput)) (request : Request)
  (defaultModel : string) : res SystemOneRequest :=
  guard_err (msize (rq_Questions request) =? 0) ErrInvalidArgument ;;
  state ← marshalIntoUnion (rq_State request);
  questions ← res_foldM buildNamedQuestion ∅ order;
  Ok (MkSystemOneRequest
        (if decide (rq_Model request = "") then defaultModel else rq_Model request) questions state).

(** ** Responses *)

(** [Attempt] and [Response]; a [Decision] has the fields of [decision.Answer]. *)

Record Attempt : Set := MkAttempt {
  at_Number : Z;
  at_StatusCode : Z;
  at_Duration : duration;
  at_Err : option goerr
}.

Record Response : Set := MkResponse {
  rp_Model : string;
  rp_Answers : Answers;
  rp_InputTokens : Z;
  rp_OutputTokens : Z;
  rp_Attempts : list Attempt;
  rp_Duration : duration
}.

(** [float64(x)] of a [float32], which is exact. *)
Definition f64_of_f32 (f : spec_float) : float64 :=
  match f with
  | S754_finite s m e => binary_normalize 53 1024 (cond_Zopp s (Zpos m)) e s
  | _ => f
  end.

Definition floatMap (values : gmap string spec_float) : gmap string float64 := f64_of_f32 <$> values.

(** An accessor of a union; its error becomes a parse failure. *)
Definition parsed {A} (r : res A) : res A :=
  match r with Ok a => Ok a | Err _ => Err (EIs ErrParseFailed) end.

Definition normalizeNoulAnswer (wireAnswer : TypesafeApi.Answer) : res Decision.Answer :=
  wire ← parsed (AsNoulAnswer wireAnswer);
  Ok (MkAnswer QuestionTypeNoul "" f64_zero (f64_of_f32 (na_Noul wire)) f64_zero false ∅ ∅).

Definition normalizeChoiceAnswer (wireAnswer : TypesafeApi.Answer) : res Decision.Answer :=
  wire ← parsed (AsChoiceAnswer wireAnswer);
  Ok (MkAnswer QuestionTypeChoice (ca_Choice wire) f64_zero f64_zero
        (f64_of_f32 (ca_Confidence wire)) true (floatMap (ca_Probabilities wire)) ∅).

(** [decodeUnion]: the text of the union decoded into an [any]. *)
Definition decodeUnion (value : union) : res goany :=
  match decode_any false (union_MarshalJSON value) with Some v => Ok v | None => Err (EForeign "json: number out of range") end.

Definition normalizeLegend (legend : gmap string goany) (entry : string * union)
  : res (gmap string goany) :=
  decoded ← decodeUnion entry.2;
  Ok (<[entry.1 := decoded]> legend).

Definition normalizeScoreAnswer (wireAnswer : TypesafeApi.Answer) : res Decision.Answer :=
  wire ← parsed (AsScoreAnswer wireAnswer);
  legend ← res_foldM normalizeLegend ∅ (map_to_list (sa_Legend wire));
  Ok (MkAnswer QuestionTypeScore "" (f64_of_f32 (sa_Score wire)) f64_zero
        (f64_of_f32 (sa_Confidence wire)) true (floatMap (sa_Probabilities wire)) legend).

Definition normalizeAnswer (wireAnswer : TypesafeApi.Answer) : res Decision.Answer :=
  discriminator ← parsed (Answer_Discriminator wireAnswer);
  if decide (discriminator = QuestionTypeNoul) then normalizeNoulAnswer wireAnswer
  else if decide (discriminator = QuestionTypeChoice) then normalizeChoiceAnswer wireAnswer
  else if decide (discriminator = QuestionTypeScore) then normalizeScoreAnswer wireAnswer
  else Err (EIs ErrParseFailed).

Definition normalizeEntry (answers : Answers) (entry : string * TypesafeApi.Answer) : res Answers :=
  answer ← normalizeAnswer entry.2;
  Ok (<[entry.1 := answer]> answers).

(** [order]: the answers as the loop over the map visits them. *)
Definition normalizeResponse (order : list (string * TypesafeApi.Answer)) (response : SystemOneResponse)
  : res Response :=
  guard_err (bool_decide (so_Model response = "")) ErrParseFailed ;;
  answers ← res_foldM normalizeEntry ∅ order;
  Ok (MkResponse (so_Model response) answers 
        (us_InputTokens (so_Usage response)) (us_OutputTokens (so_Usage response)) [] 0).

End Typesafe.
