(* ===== verification/TypesafeClient.v ===== *)
(** * The bounded calls of the TypeSafe client

    [pkg/gotypesafe/client.go]: one physical request and its classification, the
    response ceiling, the retry loop with its backoff, and the adapter of
    [internal/pkg/provider/typesafe] on top. *)

From S2P Require Import Prelude GoFloat GoAny Decision Document Store Effects.
From S2P Require Import GoJson JsonStruct OapiClient TypesafeApi Typesafe.
From Stdlib Require Import SpecFloat.
From stdpp Require Import options.
#[local] Open Scope Z_scope.

Module TypesafeClient.
Import JsonStruct TypesafeApi Typesafe.

(** ** Outside *)

(** The HTTP client under the generated one, the context, the timer, the semaphore of
    slots, and the orders in which maps are ranged over. *)
Class Transport (W : Type) := {
  http_Do : request → W → W * res httpResponse;
  ctx_Err : W → option goerr;
  await_timer : duration → W → W * option goerr;    (** [Some err]: the context ended first *)
  await_slot : W → W * option goerr;
  release_slot : W → W;
  answer_order : gmap string TypesafeApi.Answer → list (string * TypesafeApi.Answer);
  question_order : gmap string QuestionInput → list (string * QuestionInput);
  http_ParseTime : string → option time;
  float_overflow : float64 → Z      (** conversion to [int64] out of range is the platform's *)
}.

(** What leaves the client: each physical request, each wait between two. *)
Inductive clientEvent : Set :=
  | Requested (attempt : Attempt)
  | Waited (delay : duration).

Record failure : Set := MkFailure {
  f_err : goerr;
  f_statusCode : Z;
  f_retryable : bool;
  f_retryAfter : duration
}.

Section client.
Context {W : Type} `{Transport W} `{Runtime W}.

(** ** Construction *)
Record HTTPClient : Type := MkHTTPClient { config : Config; generated : GeneratedClient (W:=W) }.

(** The editor that puts the credential on every request. *)
Definition authorize (config : Config) : RequestEditorFn := λ request,
  Ok (OapiClient.MkRequest (rq_method request) (rq_path request) (rq_query request)
        (header_set "Authorization" ("Bearer " +:+ APIKey config) (rq_header request)) (rq_body request)).

(** [New]; the configured [http.Client] is the transport. *)
Definition New (cfg : Config) : res HTTPClient :=
  config ← Typesafe.New cfg;
  generated ← NewGeneratedClient http_Do (BaseURL config)
    [WithHTTPClient http_Do; WithRequestEditorFn (authorize config)];
  Ok (MkHTTPClient config generated).

(** ** Classification *)
Definition classifyTransport (ctxErr : option goerr) (err : goerr) : failure :=
  match ctxErr with
  | Some ctxErr => MkFailure ctxErr 0 false 0
  | None =>
      if errors_Is err ContextCanceled then MkFailure (EIs ContextCanceled) 0 false 0
      else if errors_Is err ContextDeadlineExceeded then MkFailure (EIs ErrTimeout) 0 true 0
      else MkFailure (EIs ErrConnectFailed) 0 true 0
  end.

(** [time.Duration(n) * unit] for a header that parses and is positive. *)
Definition header_delay (value : string) (unit : duration) : option duration :=
  match Atoi value with
  | Some n => if 0 <? n then Some (wrap64 (n * unit)) else None
  | None => None
  end.

(** [time.Time.Sub] saturates. *)
Definition saturate (d : Z) : duration := Z.max (- 2 ^ 63) (Z.min (2 ^ 63 - 1) d).

Definition headerRetryAfter : string := "Retry-After".
Definition headerRetryAfterMillis : string := "Retry-After-Ms".

Definition parseRetryAfter (response : httpResponse) (now : time) : duration :=
  match header_delay (header_get headerRetryAfterMillis response) Millisecond with
  | Some d => d
  | None =>
      match header_delay (header_get headerRetryAfter response) Second with
      | Some d => d
      | None =>
          match http_ParseTime (header_get headerRetryAfter response) with
          | Some retryAt => Z.max (saturate (retryAt - now)) 0
          | None => 0
          end
      end
  end.

(** The sentinel of a status and whether it may be retried. *)
Definition statusFailure (statusCode : Z) : goerr * bool :=
  if decide (statusCode = 401) then (EIs ErrNotAuthenticated, false)
  else if decide (statusCode = 403) then (EIs ErrPermissionDenied, false)
  else if decide (statusCode = 400 ∨ statusCode = 422) then (EIs ErrValidationFailed, false)
  else if decide (statusCode = 429) then (EIs ErrRateLimited, true)
  else if decide (statusCode = statusOverloaded) then (ErrOverloaded, true)
  else if 500 <=? statusCode then (EIs ErrFetchFailed, true)
  else (EIs ErrFetchFailed, false).

Definition classifyStatus (response : httpResponse) (now : time) : failure :=
  let '(err, retryable) := statusFailure (hr_StatusCode response) in
  MkFailure err (hr_StatusCode response) retryable (parseRetryAfter response now).

(** ** One request *)

(** [io.ReadAll] of [io.LimitReader(body, limit)]; the error of the stream comes in a read
    of its own, after the bytes. *)
Definition read_limited (body : string * option goerr) (limit : Z) : res string :=
  if limit <=? strlen body.1 then Ok (String.substring 0 (Z.to_nat limit) body.1)
  else match body.2 with Some err => Err err | None => Ok body.1 end.

Definition readResponse (c : Config) (response : httpResponse) : res string :=
  body ← read_limited (hr_Body response) (wrap64 (MaxResponseBytes c + 1));
  if MaxResponseBytes c <? strlen body then Err ErrResponseTooLarge else Ok body.

Definition success (statusCode : Z) : bool := (200 <=? statusCode) && (statusCode <? 300).

(** [json.Unmarshal] into a fresh value. *)
Definition json_Unmarshal {A} (c : codec A) (body : string) : res A :=
  match json_parse body ≫= (λ j, read c false j (zero c)) with
  | Some a => Ok a
  | None => Err unmarshalError
  end.

Definition decodeSystemOneResponse (body : string) : res Response :=
  decoded ← parsed (json_Unmarshal SystemOneResponse_codec body);
  normalizeResponse (answer_order (so_Answers decoded)) decoded.

(** What a response comes to; on a failing status the clock is read, for a date in its
    headers. *)
Definition judge (c : Config) (response : httpResponse) (w : W) : W * (Response + failure) :=
  match readResponse c response with
  | Err err => (w, inr (MkFailure err (hr_StatusCode response) false 0))
  | Ok body =>
      if negb (success (hr_StatusCode response)) then
        let '(w, now) := world_now w in (w, inr (classifyStatus response now))
      else (w, match decodeSystemOneResponse body with
               | Err err => inr (MkFailure err (hr_StatusCode response) false 0)
               | Ok r => inl r
               end)
  end.

Definition attempt_error (result : Response + failure) : option goerr :=
  match result with inl _ => None | inr f => Some (f_err f) end.

Definition evaluateAttempt (c : HTTPClient) (number : Z) (body : SystemOneRequest) (w : W)
  : W * Attempt * (Response + failure) :=
  let '(w, startedAt) := world_now w in
  let '(w, posted) := SystemoneV1SystemonePost (generated c) body [] w in
  let '(w, now) := world_now w in
  match posted with
  | Err err =>
      let result := inr (classifyTransport (ctx_Err w) err) in
      (w, MkAttempt number 0 (now - startedAt) (attempt_error result), result)
  | Ok response =>
      let '(w, result) := judge (config c) response w in
      (w, MkAttempt number (hr_StatusCode response) (now - startedAt) (attempt_error result), result)
  end.

(** ** Retrying *)

(** Truncation to an integer. *)
Definition truncate (f : float64) : option Z :=
  match f with
  | S754_zero _ => Some 0
  | S754_finite s m e =>
      let n := if 0 <=? e then Zpos m * 2 ^ e else Zpos m / 2 ^ (- e) in
      Some (if s then - n else n)
  | _ => None
  end.

Definition f64_to_int64 (f : float64) : Z :=
  match truncate f with
  | Some n => if (- 2 ^ 63 <=? n) && (n <? 2 ^ 63) then n else float_overflow f
  | None => float_overflow f
  end.

Definition backoffFor (c : Config) (number : Z) (retryAfter : duration) : duration :=
  Z.min (Z.max retryAfter (Z.min
    (f64_to_int64 (f64_mul (f64_of_Z (BackoffBase c))
       (f64_of_Z (backoffExponentBase ^ (number - 1)))))
    (BackoffMax c))) MaxRetryAfterWait.

(** [shouldRetry]; the clock is read last. *)
Definition shouldRetry (c : Config) (f : failure) (number : Z) (startedAt : time) (w : W) : W * bool :=
  if f_retryable f && (number <? MaxAttempts c) &&
     match ctx_Err w with None => true | Some _ => false end
  then let '(w, now) := world_now w in (w, now - startedAt <? MaxElapsed c)
  else (w, false).

(** [waitBeforeRetry], with the wait it made. *)
Definition waitBeforeRetry (c : Config) (number : Z) (f : failure) (startedAt : time) (w : W)
  : W * list clientEvent * res unit :=
  let delay := backoffFor c number (f_retryAfter f) in
  let '(w, now) := world_now w in
  if MaxElapsed c <=? wrap64 (now - startedAt + delay) then (w, [], Err (EIs ErrTimeout))
  else
    let '(w, ended) := await_timer delay w in
    (w, [Waited delay], match ended with None => Ok tt | Some err => Err err end).

Definition with_attempts (r : Response) (attempts : list Attempt) (d : duration) : Response :=
  MkResponse (rp_Model r) (rp_Answers r) (rp_InputTokens r) (rp_OutputTokens r) attempts d.

(** The loop, for the attempts [remaining]; the error of wrapping nil is nil, so without an
    attempt the zero response comes back. *)
Fixpoint retryLoop (remaining : nat) (c : HTTPClient) (body : SystemOneRequest) (startedAt : time)
  (attempts : list Attempt) (last : option failure) (w : W)
  : W * list clientEvent * res Response :=
  let failed := match last with
    | Some f => Err (f_err f)
    | None => Ok (MkResponse "" ∅ 0 0 [] 0)
    end in
  match remaining with
  | O => (w, [], failed)
  | S remaining =>
      let number := len attempts + 1 in
      let '(w, attempt, result) := evaluateAttempt c number body w in
      let attempts := attempts ++ [attempt] in
      match result with
      | inl response =>
          let '(w, now) := world_now w in
          (w, [Requested attempt], Ok (with_attempts response attempts (now - startedAt)))
      | inr f =>
          let '(w, again) := shouldRetry (config c) f number startedAt w in
          if negb again then (w, [Requested attempt], Err (f_err f))
          else
            let '(w, waits, waited) := waitBeforeRetry (config c) number f startedAt w in
            match waited with
            | Err err => (w, Requested attempt :: waits, Err err)
            | Ok _ =>
                let '(w, events, result) :=
                  retryLoop remaining c body startedAt attempts (Some f) w in
                (w, Requested attempt :: waits ++ events, result)
            end
      end
  end.

Definition evaluateWithRetries (c : HTTPClient) (body : SystemOneRequest) (w : W)
  : W * list clientEvent * res Response :=
  let '(w, startedAt) := world_now w in
  retryLoop (Z.to_nat (MaxAttempts (config c))) c body startedAt [] None w.

(** ** Calls *)
Definition Evaluate (c : HTTPClient) (request : Request) (w : W) : W * list clientEvent * res Response :=
  if decide (APIKey (config c) = "") then (w, [], Err (EIs ErrRequiredConfigValueNotSet))
  else match buildRequest (question_order (rq_Questions request)) request (cfg_DefaultModel (config c)) with
  | Err err => (w, [], Err err)
  | Ok body =>
      let '(w, refused) := await_slot w in
      match refused with
      | Some err => (w, [], Err err)
      | None =>
          let '(w, events, result) := evaluateWithRetries c body w in
          (release_slot w, events, result)
      end
  end.

Definition Models (c : HTTPClient) (w : W) : W * res (list ModelMetadata) :=
  if decide (APIKey (config c) = "") then (w, Err (EIs ErrRequiredConfigValueNotSet))
  else
    let '(w, refused) := await_slot w in
    match refused with
    | Some err => (w, Err err)
    | None =>
        let '(w, got) := ModelsV1V1ModelsGet (generated c) [] w in
        match got with
        | Err err => (release_slot w, Err (f_err (classifyTransport (ctx_Err w) err)))
        | Ok response =>
            (release_slot w,
             body ← readResponse (config c) response;
             if negb (success (hr_StatusCode response))
             then Err (statusFailure (hr_StatusCode response)).1
             else parsed (json_Unmarshal ModelMetadataList_codec body))
        end
    end.

(** ** The adapter *)
Definition questionCriteria (question : Provider.Question) : criteria :=
  if decide (Provider.pq_Type question = QuestionTypeNoul)
  then CritMap (Provider.pq_NoulCriteria question)
  else if decide (Provider.pq_Type question = QuestionTypeChoice)
  then CritMap (Some (Provider.pq_ChoiceCriteria question))
  else if decide (Provider.pq_Type question = QuestionTypeScore)
  then CritList (Provider.pq_ScoreCriteria question)
  else CritNil.

Definition adaptQuestion (questions : gmap string QuestionInput) (question : Provider.Question)
  : res (gmap string QuestionInput) :=
  match questions !! Provider.pq_ID question with
  | Some _ => Err (EIs ErrInvalidArgument)
  | None =>
      Ok (<[Provider.pq_ID question := MkQuestionInput (Provider.pq_Type question)
             (Provider.pq_Instructions question) (questionCriteria question)]> questions)
  end.

Definition adaptRequest (request : Provider.Request) : res Request :=
  questions ← res_foldM adaptQuestion ∅ (Provider.pr_Questions request);
  Ok (MkRequest (Provider.pr_State request) (Provider.pr_Model request) questions).

Definition adaptAttempt (a : Attempt) : Provider.Attempt :=
  Provider.MkAttempt (at_Number a) (at_StatusCode a) (at_Duration a) (at_Err a).

Definition adaptResponse (r : Response) : Provider.Response :=
  Provider.MkResponse (rp_Model r) (rp_Answers r)
    (Provider.MkUsage (rp_InputTokens r) (rp_OutputTokens r))
    (adaptAttempt <$> rp_Attempts r) (rp_Duration r).

Definition mapError (err : goerr) : goerr :=
  if errors_Is_tag err errResponseTooLarge then EIs Prelude.ErrResponseTooLarge
  else if errors_Is_tag err errOverloaded then EIs Prelude.ErrOverloaded
  else err.

Definition Client_Evaluate (c : HTTPClient) (request : Provider.Request) (w : W)
  : W * list clientEvent * res Provider.Response :=
  match adaptRequest request with
  | Err err => (w, [], Err err)
  | Ok adapted =>
      let '(w, events, result) := Evaluate c adapted w in
      (w, events, match result with
                  | Ok r => Ok (adaptResponse r)
                  | Err err => Err (mapError err)
                  end)
  end.

End client.
End TypesafeClient.
