(* ===== verification/TypesafeSpec.v ===== *)
(** * The TypeSafe client keeps its bounds

    Lemmas behind the properties of the client: what a compiled policy marshals to, the
    request it builds, and the invariant of the retry loop. *)

From S2P Require Import Prelude GoFloat GoAny Decision Document CompileCondition Canonical Compile WellFormed CompileSound.
From S2P Require Import Store Effects Policies EvalConvert Evaluations JsonStruct OapiClient TypesafeApi Typesafe TypesafeClient.
From stdpp Require Import options.
#[local] Open Scope Z_scope.

Module TypesafeSpec.
Import TypesafeApi Typesafe TypesafeClient WellFormed.

(** ** A compiled question marshals *)
Lemma struct_fields fields j :
  Canonical.struct fields = Some j → Forall is_Some fields.
Proof.
  unfold Canonical.struct. intros (l & Hm & _)%fmap_Some. clear j. revert l Hm.
  induction fields as [|f fields IH]; intros l; [constructor|]. simpl.
  intros (x & Hf & (l' & Hm & _)%bind_Some)%bind_Some. constructor; [by eexists|by eapply IH].
Qed.

Lemma jarr_elements l j : Canonical.jarr l = Some j → Forall is_Some l.
Proof.
  unfold Canonical.jarr. intros (k & Hm & _)%fmap_Some. clear j. revert k Hm.
  induction l as [|f l IH]; intros k; [constructor|]. simpl.
  intros (x & Hf & (l' & Hm & _)%bind_Some)%bind_Some. constructor; [by eexists|by eapply IH].
Qed.

Lemma field_some name v : is_Some (Canonical.field name v) → is_Some v.
Proof. unfold Canonical.field. by rewrite fmap_is_Some. Qed.

Lemma field_omitempty_some b name v :
  is_Some (Canonical.field_omitempty b name v) → b = false → is_Some v.
Proof. intros H ->. by apply (field_some name). Qed.

Lemma marshal_map m : marshal (AMap (amap_of m)) = Canonical.jmap marshal m.
Proof. done. Qed.

Lemma marshal_slice l : marshal (ASlice l) = Canonical.jarr (marshal <$> l).
Proof.
  unfold Canonical.jarr. cbn [marshal]. f_equal.
  induction l as [|v l IH]; [done|]. cbn. rewrite IH. done.
Qed.

(** Instructions and criteria of a question, as values. *)
Definition marshals (v : goany) : Prop := is_Some (marshal v).

Lemma question_marshals q :
  is_Some (Canonical.question_json q) →
  marshals (Canonical.cnq_Instructions q) ∧
  marshals (AMap (amap_of (default ∅ (Canonical.cnq_NoulCriteria q)))) ∧
  marshals (AMap (amap_of (Canonical.cnq_ChoiceCriteria q))) ∧
  marshals (ASlice (Canonical.cnq_ScoreCriteria q)).
Proof.
  intros [j Hj%struct_fields]. unfold marshals.
  repeat match goal with H : Forall _ (_ :: _) |- _ => apply Forall_cons_iff in H as [? H] end.
  split; [|split; [|split]].
  - destruct (decide (Canonical.cnq_Instructions q = ANil)) as [->|Hn]; [by eexists|].
    eapply field_omitempty_some; [done|by apply bool_decide_eq_false].
  - destruct (decide (default ∅ (Canonical.cnq_NoulCriteria q) = ∅)) as [->|Hn]; [by eexists|].
    rewrite marshal_map. eapply field_omitempty_some; [done|by apply bool_decide_eq_false].
  - destruct (decide (Canonical.cnq_ChoiceCriteria q = ∅)) as [->|Hn]; [by eexists|].
    rewrite marshal_map. eapply field_omitempty_some; [done|by apply bool_decide_eq_false].
  - destruct (Canonical.cnq_ScoreCriteria q) as [|v l] eqn:E; [by eexists|]. rewrite marshal_slice.
    by eapply field_omitempty_some.
Qed.

Lemma compiled_question_marshals compiled id q :
  wf_compiled compiled → c_Questions compiled !! id = Some q →
  marshals (cq_Instructions q) ∧
  marshals (AMap (amap_of (default ∅ (cq_NoulCriteria q)))) ∧
  marshals (AMap (amap_of (cq_ChoiceCriteria q))) ∧ marshals (ASlice (cq_ScoreCriteria q)).
Proof.
  intros Hwf Hq. pose proof (wfc_canonical _ Hwf) as Hc. unfold Canonical.canonicalize in Hc.
  destruct (Canonical.policy_json (Canonical.canonicalForm compiled)) as [j|] eqn:Ej; [|done].
  apply struct_fields in Ej.
  assert (is_Some (Canonical.field "questions"
    (Canonical.jarr (Canonical.question_json <$> Canonical.canonicalQuestions compiled)))) as Hf.
  { rewrite list.Forall_forall in Ej. apply Ej. in_list. }
  apply field_some in Hf as [jq Hjq%jarr_elements].
  rewrite list.Forall_forall in Hjq.
  pose (cq := Canonical.MkCanonicalQuestion (cq_ID q) (cq_Type q) (cq_Instructions q)
    (cq_NoulCriteria q) (cq_ChoiceCriteria q) (cq_ScoreCriteria q)).
  apply (question_marshals cq). apply Hjq. apply list_elem_of_fmap_2.
  unfold Canonical.canonicalQuestions. apply list_elem_of_fmap. exists id.
  rewrite Hq. split; [done|]. rewrite (wfc_questionIDs _ Hwf). apply elem_of_sorted_keys. by eexists.
Qed.

(** ** The question that goes on the wire *)
Definition inputOf (q : CompiledQuestion) : QuestionInput :=
  MkQuestionInput (cq_Type q) (cq_Instructions q)
    (questionCriteria (Provider.MkQuestion (cq_ID q) (cq_Type q) (cq_Instructions q)
       (cq_NoulCriteria q) (cq_ChoiceCriteria q) (cq_ScoreCriteria q))).

Lemma marshal_fields (crit : list (string * goany)) instructions t :
  Forall (λ kv, marshals kv.2) crit → marshals instructions →
  ∃ j, marshalIntoUnion (AMap (crit ++
    (if decide (instructions = ANil) then [] else [("instructions", instructions)]) ++
    [("type", AString t)])) = Ok j.
Proof.
  intros Hc Hi. unfold marshalIntoUnion.
  assert (∀ l, Forall (λ kv : string * goany, marshals kv.2) l → marshals (AMap l)) as Hmap.
  { intros l Hl. unfold marshals. cbn [marshal]. rewrite fmap_is_Some.
    induction Hl as [|[k v] l [j Hj] _ [js IH]]; [by eexists|]. cbn in *. rewrite Hj. cbn.
    rewrite IH. by eexists. }
  destruct (Hmap (crit ++ (if decide (instructions = ANil) then [] else [("instructions", instructions)])
    ++ [("type", AString t)])) as [j ->]; [|by eexists].
  apply list.Forall_app. split; [done|]. apply list.Forall_app.
  split; [|repeat constructor; by eexists]. case_decide; repeat constructor. done.
Qed.

(** The policy's limits are within the client's. *)
Lemma choice_in_range m :
  MinChoiceCriteria <= msize m <= MaxChoiceCriteria →
  normalizedChoiceCriteria (CritMap (Some m)) = Ok m.
Proof.
  unfold MinChoiceCriteria, MaxChoiceCriteria, normalizedChoiceCriteria, maxChoiceCriteria.
  intros Hm. change (default ∅ (Some m)) with m. cbv zeta.
  replace (msize m =? 0) with false by lia. by replace (255 <? msize m) with false by lia.
Qed.

Lemma score_in_range l :
  MinScoreCriteria <= len l <= MaxScoreCriteria → normalizedScoreCriteria (CritList l) = Ok l.
Proof.
  unfold MinScoreCriteria, MaxScoreCriteria, normalizedScoreCriteria, minScoreCriteria, maxScoreCriteria.
  intros Hl. replace (len l <? 2) with false by lia. by replace (10 <? len l) with false by lia.
Qed.

Lemma compiled_question_builds compiled id q :
  wf_compiled compiled → c_Questions compiled !! id = Some q →
  ∃ j, buildQuestion (inputOf q) = Ok j.
Proof.
  intros Hwf Hq. destruct (compiled_question_marshals _ _ _ Hwf Hq) as (Hi & Hn & Hch & Hs).
  pose proof (wfc_questions_valid _ Hwf id q Hq) as Hv. unfold buildQuestion.
  destruct Hv as [instr crit|instr crit _ _ Hlen _|instr levels _ _ Hlen _]; simpl in Hi, Hn, Hch, Hs.
  - apply (marshal_fields [("criteria", criteria_value (CritMap crit))]); [|done].
    repeat constructor. destruct crit; [done|by eexists].
  - apply choice_in_range in Hlen.
    change (normalizedQuestionCriteria _) with
      (m ← normalizedChoiceCriteria (CritMap (Some crit)); Ok (CritMap (Some m))).
    rewrite Hlen. apply (marshal_fields [("criteria", _)]); [|done]. by repeat constructor.
  - apply score_in_range in Hlen.
    change (normalizedQuestionCriteria _) with
      (l ← normalizedScoreCriteria (CritList levels); Ok (CritList l)).
    rewrite Hlen. apply (marshal_fields [("criteria", _)]); [|done]. by repeat constructor.
Qed.

(** ** The request *)
Definition adapted (question : Provider.Question) : QuestionInput :=
  MkQuestionInput (Provider.pq_Type question) (Provider.pq_Instructions question)
    (questionCriteria question).

Lemma adapt_questions (qs : list Provider.Question) (m : gmap string QuestionInput) :
  NoDup (Provider.pq_ID <$> qs) → (∀ q, q ∈ qs → m !! Provider.pq_ID q = None) →
  ∃ m', res_foldM adaptQuestion m qs = Ok m' ∧
    ∀ id qi, m' !! id = Some qi ↔
      m !! id = Some qi ∨ ∃ q, q ∈ qs ∧ Provider.pq_ID q = id ∧ qi = adapted q.
Proof.
  revert m. induction qs as [|q qs IH]; intros m Hn Hm.
  - exists m. split; [done|]. intros id qi. split; [by left|]. by intros [?|(? & []%elem_of_nil & _)].
  - cbn in Hn. apply list.NoDup_cons in Hn as [Hq Hn]. cbn [res_foldM].
    assert (adaptQuestion m q = Ok (<[Provider.pq_ID q := adapted q]> m)) as ->.
    { unfold adaptQuestion. by rewrite Hm by by left. }
    cbn. destruct (IH (<[Provider.pq_ID q := adapted q]> m) Hn) as (m' & Hr & Hin).
    { intros q' Hq'. rewrite lookup_insert_ne; [by apply Hm; right|].
      intros E. apply Hq. rewrite E. by apply list_elem_of_fmap_2. }
    exists m'. split; [exact Hr|]. intros id qi. rewrite Hin, lookup_insert_Some. split.
    + intros [[[<- <-]|[_ ?]]|(q' & ? & ? & ?)]; [right; exists q|by left|right; exists q'];
        (split; [|done]); by (left || right).
    + intros [Hl|(q' & [->|Hq']%elem_of_cons & <- & ->)]; [|by left; left|right; eauto].
      left. right. split; [|done]. intros <-. by rewrite Hm in Hl by by left.
Qed.

Lemma build_questions (order : list (string * QuestionInput)) m :
  NoDup order.*1 → Forall (λ kv, kv.1 ≠ "" ∧ ∃ j, buildQuestion kv.2 = Ok j) order →
  ∃ m', res_foldM buildNamedQuestion m order = Ok m' ∧
    dom m' = dom m ∪ list_to_set order.*1 ∧
    (∀ k, k ∉ order.*1 → m' !! k = m !! k) ∧
    (∀ k q, (k, q) ∈ order → ∃ u, m' !! k = Some u ∧ buildQuestion q = Ok u).
Proof.
  intros Hn Hb. revert m Hn. induction Hb as [|[k q] order [Hk [j Hj]] _ IH]; intros m Hn.
  - exists m. split; [done|]. split; [set_solver|]. split; [done|]. by intros k q ?%elem_of_nil.
  - cbn in Hk, Hj. cbn [res_foldM]. apply list.NoDup_cons in Hn as [Hnk Hn].
    assert (buildNamedQuestion m (k, q) = Ok (<[k := j]> m)) as ->.
    { unfold buildNamedQuestion. cbn [fst snd]. by rewrite bool_decide_eq_false_2, Hj by done. }
    cbn. destruct (IH (<[k := j]> m)) as (m' & Hr & Hd & Hother & Hin); [done|].
    exists m'. split; [exact Hr|]. split; [rewrite Hd, dom_insert_L; set_solver|]. split.
    + intros k' Hk'. rewrite Hother by set_solver. apply lookup_insert_ne. set_solver.
    + intros k' q' [[= -> ->]|Hk']%elem_of_cons; [|by apply Hin]. exists j. split; [|done].
      rewrite Hother by done. apply lookup_insert_eq.
Qed.

(** The provider request of a compiled policy. *)
Lemma provider_question compiled id q :
  wf_compiled compiled → c_Questions compiled !! id = Some q →
  cq_ID q = id ∧ id ≠ "".
Proof.
  intros Hwf Hq. pose proof (wfc_questions_valid _ Hwf id q Hq) as Hv.
  assert (IsIdentifier id = true) as Hi by by destruct Hv.
  split; [by destruct Hv|]. by intros ->.
Qed.

Lemma compiled_request compiled input :
  wf_compiled compiled →
  ∃ request, adaptRequest (Evaluations.buildProviderRequest compiled input) = Ok request ∧
    rq_State request = EvalConvert.ci_State input ∧ rq_Model request = c_Model compiled ∧
    rq_Questions request = inputOf <$> c_Questions compiled.
Proof.
  intros Hwf. unfold adaptRequest, Evaluations.buildProviderRequest. cbn [Provider.pr_Questions].
  set (toQuestion := λ id, let question := default Canonical.zeroQuestion (c_Questions compiled !! id) in
    Provider.MkQuestion (cq_ID question) (cq_Type question) (cq_Instructions question)
      (cq_NoulCriteria question) (cq_ChoiceCriteria question) (cq_ScoreCriteria question)).
  assert (∀ id q, c_Questions compiled !! id = Some q →
    Provider.pq_ID (toQuestion id) = id ∧ adapted (toQuestion id) = inputOf q) as Hq.
  { intros id q Hq. unfold toQuestion. rewrite Hq. split; [|done]. by eapply provider_question. }
  pose proof (wfc_questionIDs _ Hwf) as Hids.
  destruct (adapt_questions (toQuestion <$> c_QuestionIDs compiled) ∅) as (m & Hr & Hin).
  - rewrite Hids, <- list_fmap_compose.
    rewrite (list_fmap_ext _ id); [rewrite list_fmap_id; apply NoDup_sorted_keys|].
    intros i id Hi%list_elem_of_lookup_2. apply elem_of_sorted_keys in Hi as [q Hi].
    by destruct (Hq id q Hi).
  - intros q _. apply lookup_empty.
  - rewrite Hr. eexists. split; [reflexivity|]. split; [done|]. split; [done|].
    cbn. apply map_eq. intros id. apply option_eq. intros qi. rewrite Hin, lookup_empty, lookup_fmap.
    split.
    + intros [?|(q & Hm & <- & ->)]; [done|]. apply list_elem_of_fmap in Hm as (id & -> & Hm).
      rewrite Hids in Hm. apply elem_of_sorted_keys in Hm as [q Hm].
      destruct (Hq id q Hm) as [-> ->]. by rewrite Hm.
    + destruct (c_Questions compiled !! id) as [q|] eqn:E; [|done]. intros [= <-].
      right. exists (toQuestion id). destruct (Hq id q E) as [? ->]. split; [|done].
      apply list_elem_of_fmap_2. rewrite Hids. apply elem_of_sorted_keys. by eexists.
Qed.

Lemma compiled_builds compiled input order request model :
  wf_compiled compiled → marshals (EvalConvert.ci_State input) →
  adaptRequest (Evaluations.buildProviderRequest compiled input) = Ok request →
  order ≡ₚ map_to_list (rq_Questions request) →
  ∃ body, buildRequest order request model = Ok body ∧
    wire_Model body = (if decide (c_Model compiled = "") then model else c_Model compiled) ∧
    wire_State body = marshal (EvalConvert.ci_State input) ∧
    dom (wire_Questions body) = dom (c_Questions compiled) ∧
    ∀ id q, c_Questions compiled !! id = Some q →
      ∃ u, wire_Questions body !! id = Some u ∧ buildQuestion (inputOf q) = Ok u.
Proof.
  intros Hwf [js Hs] Hr Ho. destruct (compiled_request compiled input Hwf) as (r & Hr' & Est & Em & Eq).
  rewrite Hr in Hr'. injection Hr' as <-. unfold buildRequest. rewrite Est, Em, Eq in *.
  pose proof (wfc_questions_len _ Hwf) as Hlen. unfold msize in *. rewrite map_size_fmap.
  replace (Z.of_nat (size (c_Questions compiled)) =? 0) with false by lia. cbn.
  unfold marshalIntoUnion. rewrite Hs. cbn.
  destruct (build_questions order ∅) as (m & Hb & Hd & _ & Hin).
  - rewrite Ho. apply NoDup_fst_map_to_list.
  - rewrite list.Forall_forall. intros [k qi] Hk. rewrite Ho in Hk.
    apply elem_of_map_to_list in Hk. rewrite lookup_fmap in Hk.
    destruct (c_Questions compiled !! k) as [q|] eqn:E; simplify_eq/=.
    split; [by eapply provider_question|by eapply compiled_question_builds].
  - rewrite Hb. cbn. eexists. split; [reflexivity|]. cbn. split; [done|]. split; [done|]. split.
    + rewrite Hd, dom_empty_L, (left_id_L ∅ (∪)). apply set_eq. intros k.
      rewrite elem_of_list_to_set, Ho, <- (dom_fmap_L inputOf (c_Questions compiled)).
      rewrite elem_of_dom, list_elem_of_fmap. split.
      * intros ([k' qi] & -> & Hk). apply elem_of_map_to_list in Hk. by eexists.
      * intros [qi Hk]. exists (k, qi). split; [done|]. by apply elem_of_map_to_list.
    + intros id q Hq. apply Hin. rewrite Ho. apply elem_of_map_to_list. by rewrite lookup_fmap, Hq.
Qed.

(** ** The retry loop *)
Definition attempts_of (events : list clientEvent) : list Attempt :=
  omap (λ e, match e with Requested a => Some a | Waited _ => None end) events.
Definition waits_of (events : list clientEvent) : list duration :=
  omap (λ e, match e with Requested _ => None | Waited d => Some d end) events.

(** An attempt that failed in a way worth repeating. *)
Definition transient (a : Attempt) : Prop :=
  (at_StatusCode a = 0 ∧ at_Err a ∈ [Some (EIs ErrTimeout); Some (EIs ErrConnectFailed)]) ∨
  (at_StatusCode a = 429 ∨ 500 <= at_StatusCode a).

Lemma statusFailure_retryable statusCode :
  (statusFailure statusCode).2 = true ↔ statusCode = 429 ∨ 500 <= statusCode.
Proof.
  unfold statusFailure, statusOverloaded. repeat (case_decide; simpl); try lia.
  destruct (500 <=? statusCode) eqn:E; simpl; split; lia || done.
Qed.

Section loop.
Context {W : Type} `{Transport W} `{Runtime W}.

Lemma judge_transient c response (w w' : W) f :
  judge c response w = (w', inr f) → f_retryable f = true →
  hr_StatusCode response = 429 ∨ 500 <= hr_StatusCode response.
Proof.
  unfold judge. destruct (readResponse c response) as [b|e]; [|by intros [= _ <-]].
  destruct (negb (success (hr_StatusCode response))).
  - destruct (world_now w) as [w1 now]. intros [= _ <-]. unfold classifyStatus.
    pose proof (statusFailure_retryable (hr_StatusCode response)).
    destruct (statusFailure _) as [err r]. simpl. by intros ->; tauto.
  - by destruct (decodeSystemOneResponse b) as [r|e]; intros [= _ <-].
Qed.

Lemma evaluateAttempt_run (c : HTTPClient) number body (w w' : W) a result :
  evaluateAttempt c number body w = (w', a, result) →
  at_Number a = number ∧ at_Err a = attempt_error result ∧
  (∀ f, result = inr f → f_retryable f = true → transient a).
Proof.
  unfold evaluateAttempt. destruct (world_now w) as [w1 startedAt].
  destruct (SystemoneV1SystemonePost (generated c) body [] w1) as [w2 posted]. destruct (world_now w2) as [w3 now].
  destruct posted as [response|err].
  - destruct (judge (config c) response w3) as [w4 r] eqn:E. intros [= <- <- <-]. split; [done|].
    split; [done|]. intros f -> Hf. right. by eapply judge_transient.
  - intros [= <- <- <-]. split; [done|]. split; [done|]. intros f [= <-] Hf. left. split; [done|].
    simpl. unfold classifyTransport in *. destruct (ctx_Err w3); [done|]. repeat case_match; simpl in *; try done; in_list.
Qed.

Lemma backoff_bounds c number retryAfter :
  Z.min retryAfter MaxRetryAfterWait <= backoffFor c number retryAfter <= MaxRetryAfterWait.
Proof. unfold backoffFor. lia. Qed.

Lemma waitBeforeRetry_run c number f startedAt (w w' : W) waits r :
  waitBeforeRetry c number f startedAt w = (w', waits, r) →
  attempts_of waits = [] ∧ Forall (λ d, d <= MaxRetryAfterWait) (waits_of waits) ∧
  (is_ok r = true → waits_of waits = [backoffFor c number (f_retryAfter f)]).
Proof.
  unfold waitBeforeRetry. destruct (world_now w) as [w1 now]. case_match.
  - intros [= <- <- <-]. by repeat constructor.
  - destruct (await_timer _ w1) as [w2 ended]. intros [= <- <- <-]. split; [done|].
    split; [|done]. repeat constructor. apply backoff_bounds.
Qed.

(** What a run of the loop leaves behind. *)
Record loop_result (number : Z) (before : list Attempt) (events : list clientEvent)
  (result : res Response) : Prop := {
  lr_numbers : ∀ i a, attempts_of events !! i = Some a → at_Number a = number + Z.of_nat i;
  lr_transient : ∀ i a, attempts_of events !! i = Some a →
    (S i < length (attempts_of events))%nat → transient a;
  lr_waits : Forall (λ d, d <= MaxRetryAfterWait) (waits_of events);
  lr_result : match result with
    | Ok r => rp_Attempts r = before ++ attempts_of events ∧
        ∃ a, list.last (attempts_of events) = Some a ∧ at_Err a = None
    | Err _ => Forall (λ a, at_Err a ≠ None) (attempts_of events)
    end
}.

Lemma attempts_of_app l k : attempts_of (l ++ k) = attempts_of l ++ attempts_of k.
Proof. apply omap_app. Qed.
Lemma waits_of_app l k : waits_of (l ++ k) = waits_of l ++ waits_of k.
Proof. apply omap_app. Qed.

Lemma attempts_of_waits a waits events :
  attempts_of waits = [] → attempts_of (Requested a :: waits ++ events) = a :: attempts_of events.
Proof.
  intros Hw. change (a :: attempts_of (waits ++ events) = a :: attempts_of events).
  by rewrite attempts_of_app, Hw.
Qed.

Lemma attempts_of_wait a waits : attempts_of waits = [] → attempts_of (Requested a :: waits) = [a].
Proof. intros Hw. change (a :: attempts_of waits = [a]). by rewrite Hw. Qed.

Lemma loop_one number before a waits result :
  at_Number a = number → attempts_of waits = [] →
  Forall (λ d, d <= MaxRetryAfterWait) (waits_of waits) →
  match result with
  | Ok r => rp_Attempts r = before ++ [a] ∧ at_Err a = None
  | Err _ => at_Err a ≠ None
  end → loop_result number before (Requested a :: waits) result.
Proof.
  intros Hn Hw Hd Hr.
  assert (attempts_of (Requested a :: waits) = [a]) as Ea by by apply attempts_of_wait.
  split; rewrite ?Ea.
  - intros [|i] a' Hi; simplify_eq/=; lia.
  - intros [|i] a' Hi; simplify_eq/=; lia.
  - done.
  - destruct result; [|by repeat constructor]. destruct Hr as [-> ?]. split; [done|]. by exists a.
Qed.

Lemma loop_more number before a waits events result :
  at_Number a = number → transient a → at_Err a ≠ None → attempts_of waits = [] →
  Forall (λ d, d <= MaxRetryAfterWait) (waits_of waits) →
  loop_result (number + 1) (before ++ [a]) events result →
  loop_result number before (Requested a :: waits ++ events) result.
Proof.
  intros Hn Ht He Hw Hd [Hnum Htr Hwt Hr].
  pose proof (attempts_of_waits a waits events Hw) as Ea.
  split; rewrite ?Ea.
  - intros [|i] a' Hi; simplify_eq/=; [lia|]. rewrite (Hnum i a') by done. lia.
  - intros [|i] a' Hi Hl; simplify_eq/=; [done|]. apply (Htr i); [done|lia].
  - change (Forall (λ d, d <= MaxRetryAfterWait) (waits_of (waits ++ events))).
    rewrite waits_of_app. by apply list.Forall_app.
  - destruct result as [r|e]; [|by constructor]. destruct Hr as (-> & a' & Hl & He').
    split; [by rewrite <- app_assoc|]. exists a'. split; [|done].
    destruct (attempts_of events); [done|exact Hl].
Qed.

Lemma retryLoop_run remaining (c : HTTPClient) body startedAt attempts last (w w' : W) events result :
  retryLoop remaining c body startedAt attempts last w = (w', events, result) →
  (0 < remaining)%nat ∨ last ≠ None →
  (length (attempts_of events) <= remaining)%nat ∧
  ((0 < remaining)%nat → attempts_of events ≠ []) ∧
  loop_result (len attempts + 1) attempts events result.
Proof.
  revert attempts last w events. induction remaining as [|remaining IH]; intros attempts last w events.
  - cbn. destruct last as [f|]; [|by intros _ [?|[]]; [lia|done]]. intros [= <- <- <-] _.
    split; [cbn; lia|]. split; [lia|]. split; try done.
  - cbn [retryLoop].
    destruct (evaluateAttempt c (len attempts + 1) body w) as [[w1 a] r] eqn:Ea.
    apply evaluateAttempt_run in Ea as (Hn & He & Ht). destruct r as [response|f].
    + destruct (world_now w1) as [w2 now]. intros [= <- <- <-] _. split; [cbn; lia|].
      split; [done|]. by apply loop_one.
    + assert (at_Err a ≠ None) as Hne by by rewrite He.
      destruct (shouldRetry (config c) f (len attempts + 1) startedAt w1) as [w2 again] eqn:Es.
      destruct again; cbn [negb].
      * assert (f_retryable f = true) as Hf.
        { unfold shouldRetry in Es. by destruct (f_retryable f). }
        destruct (waitBeforeRetry (config c) (len attempts + 1) f startedAt w2) as [[w3 waits] waited] eqn:Ew.
        apply waitBeforeRetry_run in Ew as (Hwa & Hwd & _).
        destruct waited as [u|err].
        -- destruct (retryLoop remaining c body startedAt (attempts ++ [a]) (Some f) w3)
             as [[w4 evs] res'] eqn:El. intros [= <- <- <-] _.
           destruct (IH _ _ _ _ El) as (Hl & _ & Hr); [by right|].
           rewrite (attempts_of_waits a waits evs Hwa). split; [simpl; lia|]. split; [done|].
           apply loop_more; try done; [by apply (Ht f)|].
           replace (len attempts + 1 + 1) with (len (attempts ++ [a]) + 1); [done|].
           unfold len. rewrite length_app. simpl. lia.
        -- intros [= <- <- <-] _.
           assert (attempts_of (Requested a :: waits) = [a]) as -> by by apply attempts_of_wait.
           split; [simpl; lia|]. split; [done|]. by apply loop_one.
      * intros [= <- <- <-] _. split; [cbn; lia|]. split; [done|]. by apply loop_one.
Qed.
End loop.

(** ** The response ceiling *)
Lemma substring_length n s : (n <= String.length s)%nat → String.length (String.substring 0 n s) = n.
Proof.
  revert s. induction n as [|n IH]; intros s Hn; [by destruct s|].
  destruct s as [|c s]; simpl in *; [lia|]. by rewrite IH by lia.
Qed.

Lemma readResponse_exact c response body :
  0 < MaxResponseBytes c < 2 ^ 63 - 1 →
  readResponse c response = Ok body ↔
  hr_Body response = (body, None) ∧ strlen body <= MaxResponseBytes c.
Proof.
  intros Hm. unfold readResponse, read_limited. rewrite wrap64_small by lia.
  destruct (hr_Body response) as [bytes err]. simpl.
  destruct (MaxResponseBytes c + 1 <=? strlen bytes) eqn:E; simpl.
  - rewrite (proj2 (Z.ltb_lt _ _)); [split; [done|]|].
    + intros [[= -> ->] ?]. lia.
    + unfold strlen in *. rewrite substring_length by lia. lia.
  - destruct err as [err|]; simpl; [split; [done|by intros [[=] _]]|].
    replace (MaxResponseBytes c <? strlen bytes) with false by lia. split.
    + intros [= <-]. split; [done|]. lia.
    + by intros [[= <-] _].
Qed.

End TypesafeSpec.
