(* ===== verification/TypesafeWire.v ===== *)
(** * What crosses the wire to TypeSafe

    The request of every attempt as the HTTP client sees it, the typed question that the
    provider's schema reads from what was built for a compiled question, the answers
    that are read from what the provider encodes, and the round trips of the generated
    unions. *)

From S2P Require Import Prelude GoFloat GoAny GoJson NetUrl NetUrlSpec Decision Document.
From S2P Require Import CompileCondition Canonical Compile WellFormed CompileSound Store Effects.
From S2P Require Import JsonStruct JsonStructSpec OapiClient TypesafeApi Typesafe TypesafeClient TypesafeSpec.
From Stdlib Require Import SpecFloat.
From stdpp Require Import options.
#[local] Open Scope Z_scope.

Module TypesafeWire.
Import JsonStruct CodecSound NetUrlSpec TypesafeApi Typesafe TypesafeClient TypesafeSpec WellFormed.

(** ** Requests *)

(** The path of a base URL: the root, or a prefix. *)
Definition base_path (base : list string) : string :=
  match base with [] => "/" | _ => rooted base +:+ "/" end.

(** [NewClient] adds the slash that is missing. *)
Definition slashed (server : string) : string :=
  if has_slash_suffix server then server else server +:+ "/".

Definition wire_post (config : Config) (base : list string) (text : string) : request :=
  OapiClient.MkRequest "POST" (rooted (base ++ ["v1"; "systemone"])) ""
    (<["Authorization" := ["Bearer " +:+ APIKey config]]> {["Content-Type" := ["application/json"]]})
    (Some text).

Definition wire_get (config : Config) (base : list string) : request :=
  OapiClient.MkRequest "GET" (rooted (base ++ ["v1"; "models"])) ""
    {["Authorization" := ["Bearer " +:+ APIKey config]]} None.

Lemma operation_url_base server base operation :
  url_path server = base_path base → Forall plain_segment base →
  operation ∈ [["v1"; "systemone"]; ["v1"; "models"]] →
  operation_url server (rooted operation) = (rooted (base ++ operation), "").
Proof.
  intros Hs Hb Ho. rewrite !elem_of_cons, elem_of_nil in Ho. unfold operation_url. rewrite Hs.
  unfold base_path. destruct base as [|s base]; [by destruct Ho as [->|[->|[]]]|].
  destruct Ho as [->|[->|[]]]; apply pair_eq; (split; [|reflexivity]).
  - apply (resolve_rooted (s :: base) ["v1"; "systemone"]); [done..|constructor; [|constructor; [|done]]; by split_and!].
  - apply (resolve_rooted (s :: base) ["v1"; "models"]); [done..|constructor; [|constructor; [|done]]; by split_and!].
Qed.

Section requests.
Context {W : Type} `{Transport W} `{Runtime W}.

Lemma New_inv cfg (c : HTTPClient (W:=W)) : New cfg = Ok c →
  Typesafe.New cfg = Ok (config c) ∧
  generated c = MkClient (slashed (BaseURL (config c))) http_Do [authorize (config c)].
Proof.
  unfold New, NewGeneratedClient, OapiClient.NewClient. intros Hn. inv_ok. split; [done|].
  injection Hok0 as <-. unfold slashed. cbn [Server Doer RequestEditors]. by destruct (has_slash_suffix _).
Qed.

Lemma write_request body : is_Some (write SystemOneRequest_codec body).
Proof.
  assert (∀ m : gmap string union, is_Some (Canonical.jmap (write cunion) m)) as Hm.
  { intros m. unfold Canonical.jmap. rewrite fmap_is_Some. apply mapM_is_Some_2.
    apply list.Forall_forall. intros kv _. by eexists. }
  destruct (Hm (wire_Questions body)) as [j Hj]. destruct body as [model questions state]. cbn in *.
  rewrite Hj. by eexists.
Qed.

(** Every attempt sends the same request. *)
Lemma post_sends cfg (c : HTTPClient (W:=W)) base body j w :
  New cfg = Ok c → url_path (slashed (BaseURL (config c))) = base_path base → Forall plain_segment base →
  write SystemOneRequest_codec body = Some j →
  SystemoneV1SystemonePost (generated c) body [] w = http_Do (wire_post (config c) base (json_text j)) w.
Proof using.
  intros [_ Hg]%New_inv Hu Hb Hj. unfold SystemoneV1SystemonePost, send.
  unfold NewSystemoneV1SystemonePostRequest, NewSystemoneV1SystemonePostRequestWithBody, json_Marshal.
  rewrite Hj, Hg. cbn [or_error fmap option_fmap option_map mbind res_bind Server].
  change "/v1/systemone" with (rooted ["v1"; "systemone"]). rewrite (operation_url_base _ base) by (done || in_list).
  reflexivity.
Qed.

Lemma models_sends cfg (c : HTTPClient (W:=W)) base w :
  New cfg = Ok c → url_path (slashed (BaseURL (config c))) = base_path base → Forall plain_segment base →
  ModelsV1V1ModelsGet (generated c) [] w = http_Do (wire_get (config c) base) w.
Proof using.
  intros [_ Hg]%New_inv Hu Hb. unfold ModelsV1V1ModelsGet, send, NewModelsV1V1ModelsGetRequest.
  rewrite Hg. cbn [Server]. change "/v1/models" with (rooted ["v1"; "models"]).
  rewrite (operation_url_base _ base) by (done || in_list). reflexivity.
Qed.
End requests.

(** ** Questions *)

(** A free-form value behind a pointer to a union: [null] is the nil pointer. *)
Definition pointer (v : goany) : option union :=
  match marshal v with None | Some JNull => None | Some j => Some (Some j) end.

(** What the provider's schema makes of a compiled question. *)
Definition typed_question (q : CompiledQuestion) : QuestionValue :=
  if decide (cq_Type q = QuestionTypeNoul) then
    ValueNoulQuestion (MkNoulQuestion
      ((λ m : gmap string goany, MkNoulCriteria (m !! "false" ≫= pointer) (m !! "true" ≫= pointer))
         <$> cq_NoulCriteria q) (pointer (cq_Instructions q)) QuestionTypeNoul)
  else if decide (cq_Type q = QuestionTypeChoice) then
    ValueChoiceQuestion (MkChoiceQuestion (pointer <$> cq_ChoiceCriteria q)
      (pointer (cq_Instructions q)) QuestionTypeChoice)
  else
    ValueScoreQuestion (MkScoreQuestion (marshal <$> cq_ScoreCriteria q)
      (pointer (cq_Instructions q)) QuestionTypeScore).

Lemma read_pointer v j strict : marshal v = Some j → read (cptr cunion) strict j None = Some (pointer v).
Proof. intros Hj. unfold pointer. rewrite Hj. by destruct j. Qed.

(** The members that [buildQuestion] writes, and what the schema reads from them. *)
Definition question_members (jc ji : json) (instructions : goany) (t : string) : list (string * json) :=
  ("criteria", jc) :: (if decide (instructions = ANil) then [] else [("instructions", ji)]) ++ [("type", JStr t)].

Lemma marshal_members crit instructions jc ji t :
  marshal crit = Some jc → marshal instructions = Some ji →
  marshalIntoUnion (AMap ([("criteria", crit)] ++
    (if decide (instructions = ANil) then [] else [("instructions", instructions)]) ++ [("type", AString t)])) =
  Ok (Some (JObj (question_members jc ji instructions t))).
Proof.
  intros Hc Hi. unfold question_members, marshalIntoUnion. case_decide; cbn; rewrite Hc; cbn; by rewrite ?Hi.
Qed.

Lemma read_members_question {A} (tag1 : tag A) jc ji instructions t a :
  tg_name tag1 = "criteria" → marshal instructions = Some ji →
  read (tg_codec tag1) false jc (zero (tg_codec tag1)) = Some a →
  read_members false (tag1 :: opt "instructions" cunion :: req "type" cstring :: [])%tags
    (question_members jc ji instructions t) (zeros (tag1 :: opt "instructions" cunion :: req "type" cstring :: [])%tags)
  = Some (a, (pointer instructions, (t, tt))).
Proof.
  intros Hn Hi Hr. unfold question_members. cbn [read_members zeros].
  pose proof (read_member_here false tag1 (opt "instructions" cunion :: req "type" cstring :: [])%tags jc
    (zero (tg_codec tag1))) as Hh. rewrite Hn in Hh. rewrite Hh, Hr. cbn [fmap option_fmap option_map mbind option_bind].
  clear Hh Hr. case_decide as E.
  - subst. injection Hi as <-. cbn [app read_members].
    rewrite read_member_later by (rewrite ?Hn; done || in_list). reflexivity.
  - cbn [app read_members]. rewrite read_member_later by (rewrite ?Hn; done || in_list).
    rewrite (read_member_here false (opt "instructions" cunion)). change (tg_codec (opt "instructions" cunion)) with (cptr cunion).
    rewrite (read_pointer instructions ji) by done. cbn [fmap option_fmap option_map mbind option_bind].
    rewrite read_member_later by (rewrite ?Hn; done || in_list). reflexivity.
Qed.

Lemma discriminator_question jc ji instructions t :
  union_Discriminator (Some (JObj (question_members jc ji instructions t))) = Ok t.
Proof. unfold question_members. by case_decide. Qed.

(** *** Criteria *)
Lemma read_choice_criteria (m : gmap string goany) jc :
  marshal (AMap (amap_of m)) = Some jc → read (cmap (cptr cunion)) false jc ∅ = Some (pointer <$> m).
Proof.
  rewrite marshal_map. intros Hj. pose proof Hj as (l & _ & ->)%fmap_Some. cbn.
  apply (read_entries_jmap marshal); [done|]. intros k v j _ Hv. by apply read_pointer.
Qed.

Lemma read_score_criteria l jc :
  marshal (ASlice l) = Some jc → read (cslice cunion) false jc [] = Some (marshal <$> l).
Proof.
  rewrite marshal_slice. intros (k & -> & Hk)%jarr_written. cbn. apply mapM_Some.
  induction Hk as [|v j l k Hv Hk IH]; constructor; [|done]. cbn. by rewrite Hv.
Qed.

(** A map with at most the two keys of the criteria of a yes/no question. *)
Lemma two_keys (m : gmap string goany) :
  (∀ k, is_Some (m !! k) → k = "true" ∨ k = "false") →
  sorted_keys m = match m !! "false" with Some _ => ["false"] | None => [] end ++
                  match m !! "true" with Some _ => ["true"] | None => [] end.
Proof.
  intros Hk. symmetry. apply sorted_keys_unique.
  - destruct (m !! "false"), (m !! "true"); repeat constructor; by vm_compute.
  - destruct (m !! "false"), (m !! "true"); repeat constructor; set_solver.
  - intros k. destruct (m !! "false") as [f|] eqn:Ef, (m !! "true") as [v|] eqn:Et; cbn [app];
      rewrite ?elem_of_cons, elem_of_nil; split; try (intros Hin; destruct_or! Hin; subst; eauto);
      intros Hs; destruct (Hk k Hs); subst; auto; rewrite ?Ef, ?Et in Hs; by destruct Hs.
Qed.

Definition member (key : string) (v : option goany) : list (string * json) :=
  match v ≫= marshal with Some j => [(key, j)] | None => [] end.

Lemma read_noul_members (f v : option goany) :
  (∀ a, f = Some a → is_Some (marshal a)) → (∀ a, v = Some a → is_Some (marshal a)) →
  read_members false (opt "false" cunion :: opt "true" cunion :: [])%tags
    (member "false" f ++ member "true" v) (None, (None, tt)) = Some (f ≫= pointer, (v ≫= pointer, tt)).
Proof.
  intros Hf Hv.
  assert (∀ x, read_members false (opt "false" cunion :: opt "true" cunion :: [])%tags (member "true" v) (x, (None, tt))
    = Some (x, (v ≫= pointer, tt))) as Htrue.
  { intros x. unfold member. destruct v as [v|]; [|done]. destruct (Hv v eq_refl) as [j Hj]. cbn. rewrite Hj.
    cbn [read_members]. rewrite read_member_later by (done || in_list). rewrite (read_member_here false (opt "true" cunion)).
    change (tg_codec (opt "true" cunion)) with (cptr cunion). by rewrite (read_pointer v j). }
  unfold member at 1. destruct f as [f|]; [|by rewrite Htrue]. destruct (Hf f eq_refl) as [j Hj].
  cbn [mbind option_bind]. rewrite Hj. cbn [app read_members].
  rewrite (read_member_here false (opt "false" cunion)). change (tg_codec (opt "false" cunion)) with (cptr cunion).
  rewrite (read_pointer f j) by done. apply Htrue.
Qed.

Lemma read_noul_criteria m jc :
  (∀ k, is_Some (m !! k) → k = "true" ∨ k = "false") → marshal (AMap (amap_of m)) = Some jc →
  read (cptr NoulCriteria_codec) false jc None =
    Some (Some (MkNoulCriteria (m !! "false" ≫= pointer) (m !! "true" ≫= pointer))).
Proof.
  intros Hk Hj.
  assert (jc = JObj (member "false" (m !! "false") ++ member "true" (m !! "true")) ∧
    (∀ a, m !! "false" = Some a → is_Some (marshal a)) ∧ (∀ a, m !! "true" = Some a → is_Some (marshal a)))
    as (-> & Hf & Ht).
  { revert Hj. unfold amap_of. rewrite (two_keys m Hk). unfold member.
    destruct (m !! "false") as [f|] eqn:Ef, (m !! "true") as [v|] eqn:Et; cbn [app omap list_omap];
      rewrite ?Ef, ?Et; cbn; try (destruct (marshal f) eqn:Mf; cbn; [|done]);
      try (destruct (marshal v) eqn:Mv; cbn; [|done]); intros [= <-]; split_and!; try done;
      intros a [= <-]; rewrite ?Mf, ?Mv; by eexists. }
  cbn [read cptr]. unfold NoulCriteria_codec at 1. cbn [read cstruct default zero zeros tg_codec opt cptr nc_False nc_True].
  by rewrite read_noul_members.
Qed.

(** *** The typed question *)
Lemma union_as_struct {T X} (fs : fields X) (out : T → X) (in_ : X → T) l x :
  read_members false fs l (out (in_ (zeros fs))) = Some x →
  union_as (cstruct fs out in_) (Some (JObj l)) = Ok (in_ x).
Proof. intros Hr. unfold union_as. cbn. by rewrite Hr. Qed.

Lemma value_noul u q : Question_Discriminator u = Ok QuestionTypeNoul → AsNoulQuestion u = Ok q →
  Question_ValueByDiscriminator u = Ok (ValueNoulQuestion q).
Proof. unfold Question_ValueByDiscriminator. intros -> E. cbn. by rewrite E. Qed.
Lemma value_choice u q : Question_Discriminator u = Ok QuestionTypeChoice → AsChoiceQuestion u = Ok q →
  Question_ValueByDiscriminator u = Ok (ValueChoiceQuestion q).
Proof. unfold Question_ValueByDiscriminator. intros -> E. cbn. by rewrite E. Qed.
Lemma value_score u q : Question_Discriminator u = Ok QuestionTypeScore → AsScoreQuestion u = Ok q →
  Question_ValueByDiscriminator u = Ok (ValueScoreQuestion q).
Proof. unfold Question_ValueByDiscriminator. intros -> E. cbn. by rewrite E. Qed.

(** A compiled question is built, and the schema reads it back as that question. *)
Lemma compiled_question_typed compiled id q :
  wf_compiled compiled → c_Questions compiled !! id = Some q →
  ∃ u, buildQuestion (inputOf q) = Ok u ∧ Question_ValueByDiscriminator u = Ok (typed_question q).
Proof.
  intros Hwf Hq. destruct (compiled_question_marshals _ _ _ Hwf Hq) as ([ji Hi] & Hn & [jch Hch] & [js Hs]).
  pose proof (wfc_questions_valid _ Hwf id q Hq) as Hv. unfold buildQuestion.
  destruct Hv as [instr crit _ _ Hkeys|instr crit _ _ Hlen _|instr levels _ _ Hlen _];
    cbn [cq_Instructions cq_NoulCriteria cq_ChoiceCriteria cq_ScoreCriteria] in Hi, Hn, Hch, Hs.
  - assert (∃ jc, marshal (criteria_value (CritMap crit)) = Some jc ∧
      read (cptr NoulCriteria_codec) false jc None = Some ((λ m : gmap string goany,
        MkNoulCriteria (m !! "false" ≫= pointer) (m !! "true" ≫= pointer)) <$> crit)) as (jc & Hc & Hr).
    { destruct crit as [m|]; [|by exists JNull]. destruct Hn as [jc Hc]. exists jc. split; [done|].
      cbn [fmap option_fmap option_map]. by apply read_noul_criteria; [intros k [v Hv]; by destruct (Hkeys m k v)|]. }
    exists (Some (JObj (question_members jc ji instr QuestionTypeNoul))). split.
    { exact (marshal_members _ _ _ _ QuestionTypeNoul Hc Hi). }
    eapply eq_trans; [apply value_noul; [apply discriminator_question|]|reflexivity].
    eapply eq_trans; [eapply union_as_struct, (read_members_question (opt "criteria" NoulCriteria_codec)); done|].
    reflexivity.
  - apply choice_in_range in Hlen.
    exists (Some (JObj (question_members jch ji instr QuestionTypeChoice))). split.
    { change (normalizedQuestionCriteria _) with
        (m ← normalizedChoiceCriteria (CritMap (Some crit)); Ok (CritMap (Some m))).
      rewrite Hlen. exact (marshal_members _ _ _ _ QuestionTypeChoice Hch Hi). }
    eapply eq_trans; [apply value_choice; [apply discriminator_question|]|reflexivity].
    eapply eq_trans; [eapply union_as_struct, (read_members_question (req "criteria" (cmap (cptr cunion))));
      [done..|by apply read_choice_criteria]|reflexivity].
  - apply score_in_range in Hlen.
    exists (Some (JObj (question_members js ji instr QuestionTypeScore))). split.
    { change (normalizedQuestionCriteria _) with
        (l ← normalizedScoreCriteria (CritList levels); Ok (CritList l)).
      rewrite Hlen. exact (marshal_members _ _ _ _ QuestionTypeScore Hs Hi). }
    eapply eq_trans; [apply value_score; [apply discriminator_question|]|reflexivity].
    eapply eq_trans; [eapply union_as_struct, (read_members_question (req "criteria" (cslice cunion)));
      [done..|by apply read_score_criteria]|reflexivity].
Qed.

(** *** The request *)
Lemma cunion_reads_back u : is_Some u → reads_back cunion u.
Proof. by intros [j ->] strict j' [= <-]. Qed.

Lemma buildQuestion_set question u : buildQuestion question = Ok u → is_Some u.
Proof.
  unfold buildQuestion. destruct (normalizedQuestionCriteria question); [|done]. cbn -[marshal].
  unfold marshalIntoUnion. destruct (marshal _); [|done]. intros [= <-]. by eexists.
Qed.

Lemma request_reads_back body :
  (∀ id u, wire_Questions body !! id = Some u → is_Some u) → is_Some (wire_State body) →
  reads_back SystemOneRequest_codec body.
Proof.
  intros Hq Hs. apply cstruct_reads_back; [done|by destruct body| |].
  - apply (bool_decide_unpack _). by vm_compute.
  - cbn. split_and!; [auto with codec| |by apply cunion_reads_back|done].
    apply cmap_reads_back. intros id u Hu. by apply cunion_reads_back, (Hq id).
Qed.

(** The questions of a compiled policy, as the schema reads them. *)
Lemma compiled_questions_typed compiled (questions : gmap string Question) :
  wf_compiled compiled → dom questions = dom (c_Questions compiled) →
  (∀ id q, c_Questions compiled !! id = Some q → ∃ u, questions !! id = Some u ∧ buildQuestion (inputOf q) = Ok u) →
  Question_ValueByDiscriminator <$> questions = (λ q, Ok (typed_question q)) <$> c_Questions compiled.
Proof.
  intros Hwf Hd Hq. apply map_eq. intros id. rewrite !lookup_fmap.
  destruct (c_Questions compiled !! id) as [q|] eqn:E; cbn.
  - destruct (Hq id q E) as (u & -> & Hu). cbn.
    destruct (compiled_question_typed compiled id q Hwf E) as (u' & Hu' & Ht). rewrite Hu in Hu'.
    injection Hu' as <-. by rewrite Ht.
  - apply not_elem_of_dom in E. rewrite <- Hd in E. apply not_elem_of_dom in E. by rewrite E.
Qed.

Lemma compiled_questions_set compiled (questions : gmap string Question) id u :
  dom questions = dom (c_Questions compiled) →
  (∀ id q, c_Questions compiled !! id = Some q → ∃ u, questions !! id = Some u ∧ buildQuestion (inputOf q) = Ok u) →
  questions !! id = Some u → is_Some u.
Proof.
  intros Hd Hq Hid. assert (id ∈ dom (c_Questions compiled)) as [q Hk]%elem_of_dom.
  { rewrite <- Hd. by eapply elem_of_dom_2. }
  destruct (Hq id q Hk) as (u' & Hu & Hb). pose proof (eq_trans (eq_sym Hu) Hid) as [= ->]. by eapply buildQuestion_set.
Qed.

(** ** Answers *)

(** A [float32] whose text reads back. *)
Definition float32_ok (f : spec_float) : Prop := f32_text f ≫= parse_float32 = Some f.

Lemma cfloat32_reads_back f : float32_ok f → reads_back cfloat32 f.
Proof. unfold float32_ok. intros Hf strict j (s & Hs & ->)%fmap_Some. rewrite Hs in Hf. exact Hf. Qed.
#[local] Hint Resolve cfloat32_reads_back : codec.

(** A legend entry as the decision has it. *)
Definition legend_value (u : union) : goany := default ANil (decode_any false (union_MarshalJSON u)).

(** A typed answer, what the client makes of it, and how the provider encodes it. *)
Definition decision_of (v : AnswerValue) : Decision.Answer :=
  match v with
  | ValueNoulAnswer a =>
      MkAnswer QuestionTypeNoul "" f64_zero (f64_of_f32 (na_Noul a)) f64_zero false ∅ ∅
  | ValueChoiceAnswer a =>
      MkAnswer QuestionTypeChoice (ca_Choice a) f64_zero f64_zero (f64_of_f32 (ca_Confidence a)) true
        (floatMap (ca_Probabilities a)) ∅
  | ValueScoreAnswer a =>
      MkAnswer QuestionTypeScore "" (f64_of_f32 (sa_Score a)) f64_zero (f64_of_f32 (sa_Confidence a)) true
        (floatMap (sa_Probabilities a)) (legend_value <$> sa_Legend a)
  end.

Definition answer_union (v : AnswerValue) : TypesafeApi.Answer :=
  match v with
  | ValueNoulAnswer a => write NoulAnswer_codec a
  | ValueChoiceAnswer a => write ChoiceAnswer_codec a
  | ValueScoreAnswer a => write ScoreAnswer_codec a
  end.

Definition answer_ok (v : AnswerValue) : Prop :=
  match v with
  | ValueNoulAnswer a => na_Type a = QuestionTypeNoul ∧ float32_ok (na_Noul a)
  | ValueChoiceAnswer a => ca_Type a = QuestionTypeChoice ∧ float32_ok (ca_Confidence a) ∧
      (∀ k f, ca_Probabilities a !! k = Some f → float32_ok f)
  | ValueScoreAnswer a => sa_Type a = QuestionTypeScore ∧ float32_ok (sa_Confidence a) ∧
      float32_ok (sa_Score a) ∧ (∀ k f, sa_Probabilities a !! k = Some f → float32_ok f) ∧
      (∀ k u, sa_Legend a !! k = Some u → is_Some u ∧ is_Some (decode_any false (union_MarshalJSON u)))
  end.

Lemma NoulAnswer_reads_back a : float32_ok (na_Noul a) → reads_back NoulAnswer_codec a.
Proof.
  intros Hn. apply cstruct_reads_back; [done|by destruct a| |].
  - apply (bool_decide_unpack _). by vm_compute.
  - cbn. split_and!; auto with codec.
Qed.

Lemma ChoiceAnswer_reads_back a : float32_ok (ca_Confidence a) →
  (∀ k f, ca_Probabilities a !! k = Some f → float32_ok f) → reads_back ChoiceAnswer_codec a.
Proof.
  intros Hc Hp. apply cstruct_reads_back; [done|by destruct a| |].
  - apply (bool_decide_unpack _). by vm_compute.
  - cbn. split_and!; eauto with codec.
Qed.

Lemma ScoreAnswer_reads_back a : answer_ok (ValueScoreAnswer a) → reads_back ScoreAnswer_codec a.
Proof.
  intros (_ & Hc & Hs & Hp & Hl). apply cstruct_reads_back; [done|by destruct a| |].
  - apply (bool_decide_unpack _). by vm_compute.
  - cbn. split_and!; eauto with codec. apply cmap_reads_back. intros k u Hu. by apply cunion_reads_back, (Hl k).
Qed.

Lemma union_as_written {A} (c : codec A) a :
  reads_back c a → is_Some (write c a) → union_as c (write c a) = Ok a.
Proof. intros Hr [j Hj]. unfold union_as. rewrite Hj. cbn. by rewrite (Hr false j Hj). Qed.

Lemma float32_written f : float32_ok f → ∃ s, f32_text f = Some s.
Proof. unfold float32_ok. destruct (f32_text f); [eauto|done]. Qed.

Lemma floats_written (m : gmap string spec_float) : (∀ k f, m !! k = Some f → float32_ok f) →
  ∃ l, Canonical.jmap (write cfloat32) m = Some (JObj l).
Proof.
  intros Hm. unfold Canonical.jmap.
  destruct (mapM (λ kv : string * spec_float, (λ j, (kv.1, j)) <$> write cfloat32 kv.2) (amap_of m)) as [l|] eqn:E;
    [by eexists|].
  exfalso. apply mapM_None in E. apply list.Exists_exists in E as (kv & Hkv & E). apply amap_of_elem in Hkv.
  destruct (float32_written _ (Hm _ _ Hkv)) as [s Hs]. cbn in E. by rewrite Hs in E.
Qed.

Lemma legend_written (m : gmap string union) : ∃ l, Canonical.jmap (write cunion) m = Some (JObj l).
Proof.
  unfold Canonical.jmap. destruct (mapM _ (amap_of m)) as [l|] eqn:E; [by eexists|].
  exfalso. apply mapM_None in E. by apply list.Exists_exists in E as (kv & _ & E).
Qed.

(** The provider can encode an answer, and its discriminator is its type. *)
Lemma answer_written v : answer_ok v → is_Some (answer_union v) ∧
  Answer_Discriminator (answer_union v) =
    Ok (match v with ValueNoulAnswer _ => QuestionTypeNoul | ValueChoiceAnswer _ => QuestionTypeChoice
        | ValueScoreAnswer _ => QuestionTypeScore end).
Proof.
  destruct v as [[choice confidence probabilities t]|[noul t]|[confidence legend probabilities score t]];
    cbn [answer_ok ca_Type ca_Confidence ca_Probabilities na_Type na_Noul sa_Type sa_Confidence sa_Score
         sa_Probabilities sa_Legend].
  - intros (-> & [c Hc]%float32_written & [l Hl]%floats_written). cbn in Hl |- *. rewrite Hc. cbn. rewrite Hl.
    split; [by eexists|reflexivity].
  - intros (-> & [n Hn]%float32_written). cbn. rewrite Hn. split; [by eexists|reflexivity].
  - intros (-> & [c Hc]%float32_written & [s Hs]%float32_written & [l Hl]%floats_written & _).
    destruct (legend_written legend) as [k Hk]. cbn in Hl, Hk |- *. rewrite Hc. cbn. rewrite Hk. cbn. rewrite Hl. cbn.
    rewrite Hs. split; [by eexists|reflexivity].
Qed.

(** The client reads the answer the provider encoded. *)
Lemma normalizeAnswer_written v : answer_ok v → normalizeAnswer (answer_union v) = Ok (decision_of v).
Proof.
  intros Hok. destruct (answer_written v Hok) as [Hset Hd]. unfold normalizeAnswer. rewrite Hd.
  destruct v as [a|a|a]; cbn [parsed mbind res_bind]; simpl decide; cbv iota.
  - destruct Hok as (_ & Hc & Hp). unfold normalizeChoiceAnswer, AsChoiceAnswer. cbn [answer_union] in *.
    by rewrite (union_as_written _ a (ChoiceAnswer_reads_back a Hc Hp) Hset).
  - destruct Hok as (_ & Hn). unfold normalizeNoulAnswer, AsNoulAnswer. cbn [answer_union] in *.
    by rewrite (union_as_written _ a (NoulAnswer_reads_back a Hn) Hset).
  - unfold normalizeScoreAnswer, AsScoreAnswer. cbn [answer_union] in *.
    rewrite (union_as_written _ a (ScoreAnswer_reads_back a Hok) Hset). cbn [parsed mbind res_bind].
    rewrite (res_foldM_build normalizeLegend legend_value _ (sa_Legend a)); [done|done|].
    intros acc k u Hu. destruct Hok as (_ & _ & _ & _ & Hl). destruct (Hl k u Hu) as [_ [g Hg]].
    unfold normalizeLegend, decodeUnion, legend_value. cbn [snd fst]. by rewrite Hg.
Qed.

Lemma normalizeResponse_written order (answers : gmap string AnswerValue) model usage :
  order ≡ₚ map_to_list (answer_union <$> answers) → model ≠ "" → (∀ id v, answers !! id = Some v → answer_ok v) →
  normalizeResponse order (MkSystemOneResponse (answer_union <$> answers) model usage) =
    Ok (Typesafe.MkResponse model (decision_of <$> answers) (us_InputTokens usage) (us_OutputTokens usage) [] 0).
Proof.
  intros Ho Hm Hok. unfold normalizeResponse. rewrite bool_decide_eq_false_2 by done. cbn [guard_err mbind res_bind so_Model].
  rewrite (res_foldM_build_fmap normalizeEntry answer_union decision_of order answers Ho); [done|].
  intros acc k v Hv. unfold normalizeEntry. cbn [snd fst]. by rewrite (normalizeAnswer_written v (Hok k v Hv)).
Qed.

Lemma response_reads_back r :
  (∀ id u, so_Answers r !! id = Some u → is_Some u) →
  wrap64 (us_InputTokens (so_Usage r)) = us_InputTokens (so_Usage r) →
  wrap64 (us_OutputTokens (so_Usage r)) = us_OutputTokens (so_Usage r) →
  reads_back SystemOneResponse_codec r.
Proof.
  intros Ha Hi Ho. apply cstruct_reads_back; [done|by destruct r| |].
  - apply (bool_decide_unpack _). by vm_compute.
  - cbn. split_and!; auto with codec.
    + apply cmap_reads_back. intros id u Hu. by apply cunion_reads_back, (Ha id).
    + apply cstruct_reads_back; [done|by destruct (so_Usage r)| |].
      * apply (bool_decide_unpack _). by vm_compute.
      * cbn. split_and!; auto with codec.
Qed.

Section judging.
Context {W : Type} `{Transport W} `{Runtime W}.

Lemma judge_reads c answers model usage headers j (w : W) :
  (∀ m, answer_order m ≡ₚ map_to_list m) → (∀ id v, answers !! id = Some v → answer_ok v) → model ≠ "" →
  wrap64 (us_InputTokens usage) = us_InputTokens usage → wrap64 (us_OutputTokens usage) = us_OutputTokens usage →
  write SystemOneResponse_codec (MkSystemOneResponse (answer_union <$> answers) model usage) = Some j →
  JsonText.json_ok j max_nesting = true →
  0 < MaxResponseBytes c < 2 ^ 63 - 1 → strlen (json_text j) <= MaxResponseBytes c →
  judge c (MkHttpResponse 200 headers (json_text j, None)) w = (w, inl
    (Typesafe.MkResponse model (decision_of <$> answers) (us_InputTokens usage) (us_OutputTokens usage) [] 0)).
Proof using.
  intros Ho Hok Hm Hi Hu Hj Hjok Hc Hl. unfold judge.
  rewrite (proj2 (readResponse_exact c (MkHttpResponse 200 headers (json_text j, None)) (json_text j) Hc)) by done.
  cbn [hr_StatusCode success negb]. change (negb (success 200)) with false. cbv iota.
  unfold decodeSystemOneResponse, json_Unmarshal. rewrite JsonText.json_parse_text by done. cbn [mbind option_bind].
  rewrite (response_reads_back (MkSystemOneResponse (answer_union <$> answers) model usage)) with (strict := false) (j := j);
    [|..|done]; [|intros id u|done..].
  - cbn [parsed mbind res_bind so_Answers]. by rewrite normalizeResponse_written.
  - cbn [so_Answers]. rewrite lookup_fmap. intros (v & Hv & ->)%fmap_Some. by apply answer_written, (Hok id).
Qed.

Lemma judge_refuses c status headers body (w : W) :
  0 < MaxResponseBytes c < 2 ^ 63 - 1 → body.2 ≠ None ∨ MaxResponseBytes c < strlen body.1 →
  ∃ f, judge c (MkHttpResponse status headers body) w = (w, inr f).
Proof using.
  intros Hc Hb. unfold judge. destruct (readResponse c _) as [text|err] eqn:E; [|by eexists].
  apply readResponse_exact in E as [E ?]; [|done]. cbn in E. subst body. cbn in Hb. destruct Hb; [done|lia].
Qed.

End judging.

(** ** Building unions *)
Section unions.
Import TypesafeUnions.

(** A message that decoding and encoding leaves as it is: its keys are sorted and once
    each. *)
Definition normal (j : json) : Prop := decode_any true j ≫= marshal = Some j.

Lemma raw_message_ok j : JsonText.json_ok j max_nesting = true → raw_message j = Some j.
Proof. apply JsonText.json_parse_text. Qed.

(** The value a variant was built from is the value it is read as. *)
Lemma plain_variant_roundtrip {A} (c : codec A) v j u :
  write c v = Some j → JsonText.json_ok j max_nesting = true → reads_back c v →
  From (plain_variant c) v u = (Some j, None) ∧ As (plain_variant c) (Some j) = Ok v.
Proof.
  intros Hj Hok Hr. cbn. unfold union_Marshal. rewrite Hj, raw_message_ok by done.
  split; [done|]. unfold union_as. cbn. by rewrite (Hr false j Hj).
Qed.

Lemma marshal_members_app m l t :
  mapM (λ kv : string * goany, (λ j, (kv.1, j)) <$> marshal kv.2) m = Some (l ++ [("type", JStr t)]) →
  ∃ m0 a, m = m0 ++ [("type", a)] ∧ marshal a = Some (JStr t) ∧ m0.*1 = l.*1 ∧
    mapM (λ kv : string * goany, (λ j, (kv.1, j)) <$> marshal kv.2) m0 = Some l.
Proof.
  revert m. induction l as [|kv l IH]; intros [|[k x] m]; cbn; [intros [=]| |intros [=]|].
  - destruct (marshal x) as [j|] eqn:Ex; cbn; [|done]. destruct (mapM _ m) as [r|] eqn:E; cbn; [|done].
    intros [= -> -> ->]. exists [], x. apply mapM_Some, Forall2_nil_inv_r in E. by subst.
  - destruct (marshal x) as [j|] eqn:Ex; cbn; [|done]. destruct (mapM _ m) as [r|] eqn:E; cbn; [|done].
    intros [= <- ->]. destruct (IH m E) as (m0 & a & -> & Ha & Hk & Hm). exists ((k, x) :: m0), a.
    cbn. rewrite Ex. cbn. unfold fmap in Hk. rewrite Hm. split_and!; [done..|by f_equal|done].
Qed.

(** Merging the discriminator sets it, and leaves the other members. *)
Lemma merge_type m0 a t name : marshal a = Some (JStr t) → "type" ∉ m0.*1 →
  JsonMerge.mergeObjects true (AMap (m0 ++ [("type", a)])) (AMap [("type", AString name)]) =
    AMap (m0 ++ [("type", AString name)]).
Proof.
  intros Ha Hm. cbn [JsonMerge.mergeObjects].
  assert (is_Some (JsonMerge.member "type" (m0 ++ [("type", a)]))) as [b Hb].
  { clear -Hm. induction m0 as [|[k x] m0 IH]; [by eexists|]. unfold JsonMerge.member. cbn.
    rewrite fmap_cons, not_elem_of_cons in Hm. destruct (bool_decide (k = "type")) eqn:E; [by eexists|].
    apply IH, Hm. }
  cbn [foldl fst]. rewrite Hb. f_equal. clear Hb b. induction m0 as [|[k x] m0 IH].
  - destruct a; try reflexivity; by apply fmap_Some in Ha as (? & _ & ?).
  - rewrite fmap_cons, not_elem_of_cons in Hm. destruct Hm as [Hk Hm]. cbn [app]. rewrite IH by done.
    unfold JsonMerge.mergeValue, JsonMerge.member. cbn. by rewrite bool_decide_eq_false_2 by done.
Qed.

Lemma typed_variant_from {A} (c : codec A) name v v' l t u :
  write c v = Some (JObj (l ++ [("type", JStr t)])) → write c v' = Some (JObj (l ++ [("type", JStr name)])) →
  "type" ∉ l.*1 → normal (JObj (l ++ [("type", JStr t)])) → utf8_sanitize name = name → JsonText.utf8_valid name = true →
  JsonText.json_ok (JObj (l ++ [("type", JStr t)])) max_nesting = true →
  From (typed_variant c name) v u = (write c v', None).
Proof.
  intros Hv Hv' Hl Hn Hs Hu Hok. cbn. unfold union_Marshal. rewrite Hv, Hv', raw_message_ok by done.
  unfold JSONMerge, type_patch. cbn [from_option id]. unfold normal in Hn.
  destruct (decode_any true (JObj (l ++ [("type", JStr t)]))) as [d|] eqn:Ed; [|done].
  pose proof Ed as Em. cbn in Em. apply fmap_Some in Em as (kvs & _ & ->). cbn [mbind option_bind] in Hn.
  set (m := foldl _ _ kvs) in *. clearbody m. clear Ed kvs.
  change (JObj <$> mapM (λ kv : string * goany, (λ j, (kv.1, j)) <$> marshal kv.2) m
    = Some (JObj (l ++ [("type", JStr t)]))) in Hn.
  apply fmap_Some in Hn as (r & Hr & [= <-]).
  destruct (marshal_members_app m l t Hr) as (m0 & a & -> & Ha & Hk & Hm).
  assert (decode_any true (JObj [("type", JStr name)]) = Some (AMap [("type", AString name)])) as ->.
  { cbn. by rewrite Hs. }
  rewrite (merge_type m0 a t name Ha) by by rewrite Hk.
  change (marshal (AMap (m0 ++ [("type", AString name)]))) with
    (JObj <$> mapM (λ kv : string * goany, (λ j, (kv.1, j)) <$> marshal kv.2) (m0 ++ [("type", AString name)])).
  assert (mapM (λ kv : string * goany, (λ j, (kv.1, j)) <$> marshal kv.2) (m0 ++ [("type", AString name)]) =
    Some (l ++ [("type", JStr name)])) as ->.
  { apply mapM_Some, Forall2_app; [by apply mapM_Some|]. by repeat constructor. }
  cbn. rewrite raw_message_ok; [done|].
  cbn in Hok |- *. rewrite forallb_app in Hok |- *. apply andb_true_iff in Hok as [-> _]. cbn. by rewrite Hu.
Qed.

(** A string variant is not merged into a string: the message stays, and no error says so. *)
Lemma merge_string_keeps v y : JsonText.json_ok (JStr v) max_nesting = true →
  JsonText.json_ok (JStr y) max_nesting = true → utf8_sanitize y = y →
  Merge SystemOneRequestState0 v (Some (JStr y)) = (Some (JStr y), None).
Proof.
  intros Hv Hy Hs. unfold SystemOneRequestState0, plain_variant. cbn [Merge]. unfold union_Marshal.
  change (write cstring v) with (Some (JStr v)). cbv iota. rewrite raw_message_ok by done.
  unfold JSONMerge. cbn [from_option id decode_any]. rewrite Hs. cbn. by rewrite raw_message_ok.
Qed.

(** An answer under the type of its variant, whatever its own says. *)
Definition retyped (v : AnswerValue) : AnswerValue :=
  match v with
  | ValueNoulAnswer a => ValueNoulAnswer (MkNoulAnswer (na_Noul a) "noul")
  | ValueChoiceAnswer a =>
      ValueChoiceAnswer (MkChoiceAnswer (ca_Choice a) (ca_Confidence a) (ca_Probabilities a) "choice")
  | ValueScoreAnswer a =>
      ValueScoreAnswer (MkScoreAnswer (sa_Confidence a) (sa_Legend a) (sa_Probabilities a) (sa_Score a) "score")
  end.

Definition from_answer (v : AnswerValue) : Answer → Answer * option goerr :=
  match v with
  | ValueNoulAnswer a => From Answer_NoulAnswer a
  | ValueChoiceAnswer a => From Answer_ChoiceAnswer a
  | ValueScoreAnswer a => From Answer_ScoreAnswer a
  end.

Definition answer_type (v : AnswerValue) : string :=
  match v with
  | ValueNoulAnswer a => na_Type a | ValueChoiceAnswer a => ca_Type a | ValueScoreAnswer a => sa_Type a end.

(** The members of an answer before its type, which is written last. *)
Lemma answer_members v : answer_ok (retyped v) → ∃ l, "type" ∉ l.*1 ∧
  answer_union v = Some (JObj (l ++ [("type", JStr (answer_type v))])) ∧
  answer_union (retyped v) = Some (JObj (l ++ [("type", JStr (answer_type (retyped v)))])).
Proof.
  assert (∀ l : list (string * json), bool_decide ("type" ∉ l.*1) = true → "type" ∉ l.*1) as Hin.
  { intros l. apply bool_decide_eq_true_1. }
  destruct v as [[choice confidence probabilities t]|[noul t]|[confidence legend probabilities score t]];
    cbn [answer_ok retyped ca_Type ca_Confidence ca_Probabilities na_Type na_Noul sa_Type sa_Confidence sa_Score
         sa_Probabilities sa_Legend].
  - intros (_ & [c Hc]%float32_written & [l Hl]%floats_written). cbn in Hl |- *. rewrite Hc. cbn. rewrite Hl.
    exists [("choice", JStr choice); ("confidence", JNum c); ("probabilities", JObj l)]. split; [by apply Hin|done].
  - intros (_ & [n Hn]%float32_written). cbn. rewrite Hn.
    exists [("noul", JNum n)]. split; [by apply Hin|done].
  - intros (_ & [c Hc]%float32_written & [s Hs]%float32_written & [l Hl]%floats_written & _).
    destruct (legend_written legend) as [k Hk]. cbn in Hl, Hk |- *. rewrite Hc. cbn. rewrite Hk. cbn. rewrite Hl. cbn.
    rewrite Hs. exists [("confidence", JNum c); ("legend", JObj k); ("probabilities", JObj l); ("score", JNum s)].
    split; [by apply Hin|done].
Qed.

(** An answer that the generated constructor builds is the answer the adapter reads. *)
Lemma built_answer_read v u j : answer_ok (retyped v) → answer_union v = Some j →
  normal j → JsonText.json_ok j max_nesting = true →
  (from_answer v u).2 = None ∧ normalizeAnswer (from_answer v u).1 = Ok (decision_of (retyped v)).
Proof.
  intros Hok Hj Hn Ht. destruct (answer_members v Hok) as (l & Hl & Hv & Hr).
  assert (from_answer v u = (answer_union (retyped v), None)) as ->.
  { rewrite Hv in Hj. injection Hj as <-. by destruct v; eapply typed_variant_from. }
  split; [done|]. by apply normalizeAnswer_written.
Qed.

Example built_answer_ex :
  let a := MkNoulAnswer (f64_of_Z 0) "stale" in
  Answer_ValueByDiscriminator (From Answer_NoulAnswer a None).1 = Ok (ValueNoulAnswer (MkNoulAnswer (f64_of_Z 0) "noul")) ∧
  From SystemOneRequestState1 [("b", AInt 1); ("a", AString "x")] None =
    (Some (JObj [("b", JNum "1"); ("a", JStr "x")]), None) ∧
  Merge SystemOneRequestState1 [("b", AMap [("c", AInt 2)])] (Some (JObj [("a", JStr "x"); ("b", JObj [("d", JNum "1")])])) =
    (Some (JObj [("a", JStr "x"); ("b", JObj [("c", JNum "2"); ("d", JNum "1")])]), None) ∧
  Merge SystemOneRequestState1 [("b", AInt 2)] (Some (JObj [("b", JObj [("d", JNum "1")])])) =
    (Some (JObj [("b", JObj [("d", JNum "1")])]), None) ∧
  Merge SystemOneRequestState0 "x" (Some (JStr "y")) = (Some (JStr "y"), None).
Proof. vm_compute. repeat split. Qed.

End unions.
End TypesafeWire.
