(* ===== verification/TypesafeTheorems.v ===== *)
(** * What the TypeSafe client guarantees

    The bound on physical requests and waits, the request that every compiled policy
    becomes on the wire, and the answers that are read from a reply. *)

From S2P Require Import Prelude GoFloat GoAny GoJson NetUrl NetUrlSpec Decision Document CompileCondition Canonical Compile WellFormed CompileSound.
From S2P Require Import Fixtures Condition Store Effects Policies EvalConvert Evaluations.
From S2P Require Import JsonStruct OapiClient TypesafeApi Typesafe TypesafeClient TypesafeSpec TypesafeWire.
From Stdlib Require Import SpecFloat.
From stdpp Require Import options.
#[local] Open Scope Z_scope.

Module TypesafeTheorems.
Import EvalConvert JsonStruct NetUrlSpec TypesafeApi Typesafe TypesafeClient TypesafeSpec TypesafeWire.

(** A configuration that [New] accepts allows at least one attempt. *)
Lemma New_attempts cfg c : Typesafe.New cfg = Ok c → 1 <= MaxAttempts c ∧ 0 < BackoffBase c <= BackoffMax c.
Proof.
  unfold Typesafe.New, validate. intros. inv_ok. simpl in *. unfold or_default in *.
  repeat case_match; try (unfold DefaultMaxAttempts, DefaultBackoffBase, DefaultBackoffMax, Millisecond, Second in *); lia.
Qed.

(** C25: The retry loop is bounded: one call makes at least one and at most [MaxAttempts]
    physical requests, numbered from one; only failures worth repeating (a timeout, an
    unreachable host, 429, 5xx) are repeated; no wait exceeds 30 seconds, whatever a
    [Retry-After] header says; and a success reports exactly the requests that were made. *)
Theorem provider_calls_bounded {W} `{Transport W} `{Runtime W} cfg (c : HTTPClient (W:=W)) body (w w' : W) events result :
  New cfg = Ok c → evaluateWithRetries c body w = (w', events, result) →
  (1 <= len (attempts_of events) <= MaxAttempts (config c)) ∧
  (∀ i a, attempts_of events !! i = Some a → at_Number a = 1 + Z.of_nat i) ∧
  (∀ i a, attempts_of events !! i = Some a → 1 + Z.of_nat i < len (attempts_of events) → transient a) ∧
  Forall (λ d, d <= MaxRetryAfterWait) (waits_of events) ∧
  match result with
  | Ok r => rp_Attempts r = attempts_of events ∧
      ∃ a, list.last (attempts_of events) = Some a ∧ at_Err a = None
  | Err _ => Forall (λ a, at_Err a ≠ None) (attempts_of events)
  end.
Proof.
  intros Hc Hr. apply New_inv in Hc as [[Hm _]%New_attempts _]. unfold evaluateWithRetries in Hr.
  destruct (world_now w) as [w1 startedAt].
  destruct (retryLoop_run _ _ _ _ _ _ _ _ _ _ Hr) as (Hl & Hn & [H1 H2 H3 H4]); [left; lia|].
  split; [|split; [exact H1|split; [|done]]].
  - unfold len. destruct (attempts_of events); [by destruct Hn; [lia|]|]. simpl in *. lia.
  - intros i a Hi Hlt. apply (H2 i a Hi). unfold len in Hlt. lia.
Qed.

(** C26: Every policy that compiles can be sent, for every order in which the maps are
    ranged over: its provider request passes the adapter and the client's request builder;
    every attempt posts the same body to [v1/systemone] under the base URL with the
    credential; the provider's schema reads from that body exactly the questions of the
    policy, each with its type, instructions and criteria, and the state and the model; and
    the text decodes to the request that was built. *)
Theorem compiled_policy_sends {W} `{Transport W} `{Runtime W} doc n compiled input cfg
    (c : HTTPClient (W:=W)) base :
  Compile.CompileWithMaxQuestions (Some doc) n = Ok compiled →
  is_Some (marshal (ci_State input)) →
  New cfg = Ok c → url_path (slashed (BaseURL (config c))) = base_path base → Forall plain_segment base →
  ∃ request, adaptRequest (Evaluations.buildProviderRequest compiled input) = Ok request ∧
    ∀ order, order ≡ₚ map_to_list (rq_Questions request) →
      ∃ body j, buildRequest order request (cfg_DefaultModel (config c)) = Ok body ∧
        wire_Model body = (if decide (c_Model compiled = "") then cfg_DefaultModel (config c) else c_Model compiled) ∧
        wire_State body = marshal (ci_State input) ∧
        Question_ValueByDiscriminator <$> wire_Questions body = (λ q, Ok (typed_question q)) <$> c_Questions compiled ∧
        write SystemOneRequest_codec body = Some j ∧
        (∀ w, SystemoneV1SystemonePost (generated c) body [] w = http_Do (wire_post (config c) base (json_text j)) w) ∧
        (JsonText.json_ok j max_nesting = true → json_Unmarshal SystemOneRequest_codec (json_text j) = Ok body).
Proof.
  intros Hc Hs Hn Hu Hb. destruct (CompileSound.compile_inv doc n compiled Hc) as [Hwf _].
  destruct (compiled_request compiled input Hwf) as (request & Hr & _).
  exists request. split; [done|]. intros order Ho.
  destruct (compiled_builds compiled input order request (cfg_DefaultModel (config c)) Hwf Hs Hr Ho)
    as (body & Hbuild & Hm & Hst & Hd & Hq).
  destruct (write_request body) as [j Hj]. exists body, j. split_and!; try done.
  - by apply compiled_questions_typed.
  - intros w. by eapply post_sends.
  - intros Hjok. unfold json_Unmarshal. rewrite JsonText.json_parse_text by done. cbn [mbind option_bind].
    rewrite (request_reads_back body) with (strict := false) (j := j); [done| |by rewrite Hst|done].
    intros id u Hid. by eapply compiled_questions_set.
Qed.

(** C27: A reply is read for what the provider encoded: a body that encodes typed answers, a
    model and a usage, within the ceiling and read to its end, comes back as those answers
    (with their numbers, which are [float32], unchanged), that model and that usage,
    whatever the order in which the map of answers is ranged over; a body whose stream
    fails, or one longer than the ceiling, is a failure. *)
Theorem provider_answer_read {W} `{Transport W} `{Runtime W} c answers model usage headers j (w : W) :
  (∀ m, answer_order m ≡ₚ map_to_list m) → 0 < MaxResponseBytes c < 2 ^ 63 - 1 →
  (∀ id v, answers !! id = Some v → answer_ok v) → model ≠ "" →
  wrap64 (us_InputTokens usage) = us_InputTokens usage → wrap64 (us_OutputTokens usage) = us_OutputTokens usage →
  write SystemOneResponse_codec (MkSystemOneResponse (answer_union <$> answers) model usage) = Some j →
  JsonText.json_ok j max_nesting = true →
  (strlen (json_text j) <= MaxResponseBytes c →
   judge c (MkHttpResponse 200 headers (json_text j, None)) w = (w, inl
     (Typesafe.MkResponse model (decision_of <$> answers) (us_InputTokens usage) (us_OutputTokens usage) [] 0))) ∧
  (∀ status err, err ≠ None ∨ MaxResponseBytes c < strlen (json_text j) →
   ∃ f, judge c (MkHttpResponse status headers (json_text j, err)) w = (w, inr f)).
Proof.
  intros Ho Hc Hok Hm Hi Hu Hj Hjok. split; [intros; by apply judge_reads|].
  intros status err Hb. by apply judge_refuses.
Qed.

(** ** A transport that plays a script *)
Record World : Set := MkWorld { script : list (res httpResponse); clock : Z }.

Definition next_reply (w : World) : World * res httpResponse :=
  match script w with
  | [] => (w, Err (EForeign "connection refused"))
  | r :: rest => (MkWorld rest (clock w + 100 * Millisecond), r)
  end.

(** One yes/no answer, 0.9 as a [float32]. *)
Definition sure_answers : gmap string AnswerValue :=
  {["spam" := ValueNoulAnswer (MkNoulAnswer (S754_finite false 15099494 (-24)) QuestionTypeNoul)]}.

Definition sure : SystemOneResponse :=
  MkSystemOneResponse (answer_union <$> sure_answers) "jev-1" (MkUsage 12 1).

Definition sure_json : json := default JNull (write SystemOneResponse_codec sure).

#[export] Instance scripted : Transport World := {
  http_Do _ w := next_reply w;
  ctx_Err _ := None;
  await_timer d w := (MkWorld (script w) (clock w + d), None);
  await_slot w := (w, None);
  release_slot w := w;
  answer_order m := map_to_list m;
  question_order m := map_to_list m;
  http_ParseTime _ := None;
  float_overflow _ := - 2 ^ 63
}.

#[export] Instance scripted_clock : Runtime World := {
  world_now w := (w, clock w);
  world_newID w := (w, "");
  rand_Read n w := (w, Err (EForeign ""))
}.

Definition key_only : Config := MkConfig "" "key" "" 0 0 0 0 0 0 0.
Definition client : HTTPClient (W:=World) :=
  match New key_only with Ok c => c | Err _ => MkHTTPClient key_only (MkClient "" http_Do []) end.

(** A 503 that asks for a minute, a 429 that asks for a second, then the answer. *)
Definition answer_reply : res httpResponse :=
  Ok (MkHttpResponse 200 {["Content-Type" := "application/json"]} (json_text sure_json, None)).
Definition limited (after : string) (code : Z) : res httpResponse :=
  Ok (MkHttpResponse code {["Retry-After" := after]} ("", None)).

Definition bumpy : World := MkWorld [limited "1" 429; limited "" 503; answer_reply] 0.
Definition wire_request : SystemOneRequest := MkSystemOneRequest "jev-latest" ∅ (Some JNull).

Definition bumpy_run := evaluateWithRetries client wire_request bumpy.

(** Three requests; one second as the header asked, then the doubled backoff. *)
Example bumpy_waits :
  waits_of bumpy_run.1.2 = [1 * Second; 400 * Millisecond] ∧
  at_StatusCode <$> attempts_of bumpy_run.1.2 = [429; 503; 200].
Proof. vm_compute. done. Qed.

Example impatient_wait :
  parseRetryAfter (MkHttpResponse 503 {["Retry-After" := "60"]} ("", None)) 0 = 60 * Second ∧
  backoffFor (config client) 1 (60 * Second) = 30 * Second ∧
  Typesafe.New (MkConfig "" "" "" 0 0 0 0 Second Millisecond 0) = Err (EIs ErrInvalidValue).
Proof. vm_compute. done. Qed.

Lemma provider_calls_bounded_witness :
  (1 <= len (attempts_of bumpy_run.1.2) <= MaxAttempts (config client)) ∧
  Forall (λ d, d <= MaxRetryAfterWait) (waits_of bumpy_run.1.2).
Proof.
  destruct (provider_calls_bounded key_only client wire_request bumpy bumpy_run.1.1 bumpy_run.1.2
    bumpy_run.2 eq_refl) as (H1 & _ & _ & H2 & _).
  - unfold bumpy_run. by destruct (evaluateWithRetries client wire_request bumpy) as [[? ?] ?].
  - exact (conj H1 H2).
Defined.

Definition question_input : CreateInput :=
  MkCreateInput None [] (AString "where is my invoice?") None None "" "".

Lemma compiled_policy_sends_witness :
  ∃ request, adaptRequest (Evaluations.buildProviderRequest Fixtures.router_policy question_input) = Ok request ∧
    ∀ order, order ≡ₚ map_to_list (rq_Questions request) →
      ∃ body j, buildRequest order request "jev-latest" = Ok body ∧
        wire_Model body = "jev-latest" ∧ wire_State body = Some (JStr "where is my invoice?") ∧
        Question_ValueByDiscriminator <$> wire_Questions body =
          (λ q, Ok (typed_question q)) <$> c_Questions Fixtures.router_policy ∧
        write SystemOneRequest_codec body = Some j ∧
        (∀ w, SystemoneV1SystemonePost (generated client) body [] w =
           http_Do (OapiClient.MkRequest "POST" "/v1/systemone" ""
             (<["Authorization" := ["Bearer key"]]> {["Content-Type" := ["application/json"]]})
             (Some (json_text j))) w) ∧
        (JsonText.json_ok j max_nesting = true → json_Unmarshal SystemOneRequest_codec (json_text j) = Ok body).
Proof.
  exact (compiled_policy_sends Fixtures.router MaxQuestions Fixtures.router_policy question_input key_only client []
    Fixtures.router_policy_ok (ex_intro _ (JStr "where is my invoice?") eq_refl) eq_refl eq_refl (Forall_nil_2 _)).
Defined.

Lemma provider_answer_read_witness :
  judge (config client) (MkHttpResponse 200 ∅ (json_text sure_json, None)) bumpy = (bumpy, inl
    (Typesafe.MkResponse "jev-1" (decision_of <$> sure_answers) 12 1 [] 0)).
Proof.
  refine (proj1 (provider_answer_read (config client) sure_answers "jev-1" (MkUsage 12 1) ∅ sure_json bumpy
    (λ m, Permutation_refl _) _ _ _ eq_refl eq_refl _ _) _).
  - split; by vm_compute.
  - intros id v Hv. unfold sure_answers in Hv. apply lookup_singleton_Some in Hv as [_ <-].
    split; [done|by vm_compute].
  - done.
  - by vm_compute.
  - by vm_compute.
  - by vm_compute.
Defined.

(** ** A limit: answers are read at single precision

    0.9 on the wire is the [float32] nearest to it, which is below the [float64] 0.9 a
    policy threshold compiles to: a rule [noul >= 0.9] does not match an answer of 0.9. *)
Example threshold_missed :
  f32_text (S754_finite false 15099494 (-24)) = Some "0.9" ∧
  match decodeSystemOneResponse (json_text sure_json) with
  | Ok r => match rp_Answers r !! "spam" with
            | Some a => f64_leb (f64_of_ratio 9 10) (ans_Noul a) = false ∧
                f64_text (ans_Noul a) = Some "0.8999999761581421"
            | None => False
            end
  | Err _ => False
  end.
Proof. vm_compute. done. Qed.

(** One canonical text, two requests: absent noul criteria are sent as null, empty ones as an
    empty object. *)
Definition sent_questions (c : Compiled) : list (res TypesafeApi.Question) :=
  (λ kv, buildQuestion (inputOf kv.2)) <$> map_to_list (c_Questions c).

Example same_text_other_request :
  c_Canonical Fixtures.yesno_absent = c_Canonical Fixtures.yesno_empty ∧
  sent_questions Fixtures.yesno_absent ≠ sent_questions Fixtures.yesno_empty.
Proof. split; [vm_compute; reflexivity|vm_compute; discriminate]. Qed.

End TypesafeTheorems.
