(* ===== verification/HttpTheorems.v ===== *)
(** * What the HTTP surface guarantees

    What a request must pass before a handler runs, what every reply carries, and the
    status a caller sees for each way an evaluation can go. *)

From S2P Require Import Prelude GoFloat GoAny GoJson Decision Document Store Effects Loader Policies Secrets.
From S2P Require Import Fixtures EvalConvert Evaluations MemStore ServiceFixtures Typesafe TypesafeClient.
From S2P Require Import HttpServer ApiJson HttpRouter.
From stdpp Require Import options.
#[local] Open Scope Z_scope.

Module HttpTheorems.
Import MemStore ServiceFixtures EvalConvert HttpErrors HttpServer HttpRouter.

(** ** The gate in front of the API *)

(** The credential a configuration asks for. *)
Definition authorized (token : string) (req : HttpRequest) : Prop :=
  token = "" ∨ Authorization req = scheme +:+ token.

#[export] Instance authorized_dec token req : Decision (authorized token req).
Proof. unfold authorized. apply _. Defined.

Section gate.
Context {W : Type} `{HttpOutside W}.

(** Who answers, when the limiter let the request in or not. *)
Definition gate (config : RouterConfig (W:=W)) (req : HttpRequest) (allowed : bool)
  : Reply + HttpRequest :=
  let refuse status code message := inl (error_reply status (MkError code message None)) in
  let body := max_bytes (MaxRequestBytes config) (Body req) in
  if negb allowed then refuse 429 ErrorCodeTooManyRequests "Too many requests"
  else if decide (authorized (APIToken config) req) then
    if negb (strictJSONTarget (Pattern req)) then inr (with_body req body)
    else match body.2 with
    | Some MaxBytesError => refuse 413 ErrorCodePayloadTooLarge "the request body is too large"
    | Some BodyReadError => refuse 400 ErrorCodeBadRequest "the request could not be decoded"
    | None =>
        if decodeSingleStrictJSON (Pattern req) body.1 then inr (with_body req body)
        else refuse 400 ErrorCodeBadRequest "the request could not be decoded"
    end
  else refuse 401 ErrorCodeUnauthorized "Unauthorized".

Lemma bearer_runs token (next : Handler (W:=W)) sc req w :
  authorized token req → BearerAuth token next sc req w = next sc req w.
Proof.
  unfold authorized, BearerAuth. intros Ha. case_decide; [done|].
  destruct Ha as [?|Ha]; [done|]. apply drop_prefix_app in Ha as ->. by rewrite decide_True.
Qed.

Lemma bearer_refuses token (next : Handler (W:=W)) sc req w :
  ¬ authorized token req → ∃ reason, BearerAuth token next sc req w =
    writeError sc w 401 ErrorCodeUnauthorized "Unauthorized" reason.
Proof.
  unfold authorized, BearerAuth. intros Ha. case_decide; [tauto|].
  destruct (drop_prefix scheme (Authorization req)) as [t|] eqn:E; [|by eexists].
  apply drop_prefix_app in E. case_decide; [subst; tauto|by eexists].
Qed.

(** The scope a handler runs in. *)
Definition api_scope (sc : scope) (id : string) : scope :=
  foldl (λ sc kv, set_header sc kv.1 kv.2)
    (MkScope id (<[HeaderRequestID := id]> (sc_headers sc))) securityHeaders.

Definition guarded (config : RouterConfig (W:=W)) (next : Handler (W:=W)) : Handler :=
  chain next [RateLimit (NewRateLimiter "api" (RequestsPerMinute config) (RateLimitBurst config));
              BearerAuth (APIToken config); BodyLimit (MaxRequestBytes config); strictJSONBodies].

(** The inner chain: a refusal keeps the headers and leaves the world to the limiter. *)
Lemma guarded_run config next sc req w w2 allowed :
  limiter_Allow (NewRateLimiter "api" (RequestsPerMinute config) (RateLimitBurst config)) w = (w2, allowed) →
  match gate config req allowed with
  | inl reply => ∃ events, guarded config next sc req w =
      MkOutcome w2 events (json_headers (sc_headers sc)) (Some reply)
  | inr req' => guarded config next sc req w = next sc req' w2
  end.
Proof.
  intros Hl. unfold guarded, chain, gate. cbn [foldr]. unfold RateLimit. rewrite Hl.
  destruct allowed; cbn [negb]; [|by eexists].
  case_decide as Ha; [rewrite bearer_runs by done|destruct (bearer_refuses (APIToken config)
    (BodyLimit (MaxRequestBytes config) (strictJSONBodies next)) sc req w2 Ha) as [reason ->]; by eexists].
  unfold BodyLimit, strictJSONBodies. cbn [with_body Pattern Body].
  destruct (negb (strictJSONTarget (Pattern req))); [done|].
  destruct (max_bytes _ _) as [bytes [[]|]]; cbn [snd fst]; [by eexists..|].
  destruct (decodeSingleStrictJSON (Pattern req) bytes); [done|by eexists].
Qed.

Lemma api_run config next sc req w :
  let '(w1, id) := sanitiseRequestID (RequestIDHeader req) w in
  let o := guarded config next (api_scope sc id) req w1 in
  let route := routeTemplate req in
  apiMiddleware config next sc req w =
    match out_reply o with
    | Some reply => add_events [RequestCompleted (Method req) route (rp_status reply)]
        (add_events [ObserveHTTP (Method req) route (rp_status reply)] o)
    | None => MkOutcome (out_world o)
        (out_events o ++ [HandlerPanicked; RequestRejected 500 reasonHandlerPanic])
        (json_headers (out_headers o))
        (Some (error_reply 500 (MkError ErrorCodeInternalServerError "Internal server error" None)))
    end.
Proof.
  unfold apiMiddleware. cbn [chain foldr]. unfold RequestID.
  destruct (sanitiseRequestID (RequestIDHeader req) w) as [w1 id].
  unfold Recovery, SecurityHeaders, AccessLog, Metrics.
  change (RateLimit _ _ (foldl _ _ _) req w1) with (guarded config next (api_scope sc id) req w1).
  by destruct (guarded config next (api_scope sc id) req w1) as [w2 events headers [reply|]].
Qed.

(** What [Recovery] answers. *)
Definition panic_reply : Reply :=
  error_reply 500 (MkError ErrorCodeInternalServerError "Internal server error" None).

(** Every request the middlewares see is answered, and a handler runs only behind the gate: over
    budget is 429, a missing or wrong token 401, a body over the limit 413, a body that is
    not exactly one strict JSON value 400, and in each of these the handler is not run; what
    passes reaches the handler with the body cut at the limit, and its panic is a 500.
    Each reply that was not a panic leaves exactly the two records with its status. *)
Theorem api_request_gate config next sc req w w1 id w2 allowed :
  sanitiseRequestID (RequestIDHeader req) w = (w1, id) →
  limiter_Allow (NewRateLimiter "api" (RequestsPerMinute config) (RateLimitBurst config)) w1 = (w2, allowed) →
  let o := apiMiddleware config next sc req w in
  let records status := [ObserveHTTP (Method req) (routeTemplate req) status;
                         RequestCompleted (Method req) (routeTemplate req) status] in
  match gate config req allowed with
  | inl reply => out_reply o = Some reply ∧ out_world o = w2 ∧
      out_headers o = json_headers (sc_headers (api_scope sc id)) ∧
      ∃ events, out_events o = events ++ records (rp_status reply)
  | inr req' =>
      let h := next (api_scope sc id) req' w2 in
      out_world o = out_world h ∧
      match out_reply h with
      | Some reply => out_reply o = Some reply ∧ out_headers o = out_headers h ∧
          out_events o = out_events h ++ records (rp_status reply)
      | None => out_headers o = json_headers (out_headers h) ∧ out_reply o = Some panic_reply ∧
          out_events o = out_events h ++ [HandlerPanicked; RequestRejected 500 reasonHandlerPanic]
      end
  end.
Proof.
  intros Hs Hl. cbv zeta. pose proof (api_run config next sc req w) as Hr. rewrite Hs in Hr.
  cbv zeta in Hr. rewrite Hr. clear Hr.
  pose proof (guarded_run config next (api_scope sc id) req w1 w2 allowed Hl) as Hg.
  destruct (gate config req allowed) as [reply|req'].
  - destruct Hg as [events ->]. cbn. do 3 (split; [done|]). exists events.
    by rewrite <- app_assoc.
  - rewrite Hg. destruct (next _ req' w2) as [w3 events headers [reply|]]; cbn.
    + repeat split. by rewrite <- app_assoc.
    + done.
Qed.

End gate.

(** ** Creating an evaluation *)
Definition declared_statuses : list Z := [201; 400; 404; 409; 413; 422; 429; 500; 502; 503; 504].

Lemma createEvaluationStatus_declared mapped :
  ∃ status, createEvaluationStatus mapped = error_reply status (f_body mapped) ∧
    status ∈ declared_statuses ∧ status ≠ 201 ∧
    (f_status mapped ∈ [400; 404; 409; 413; 422; 429; 502; 503; 504] → status = f_status mapped).
Proof.
  unfold createEvaluationStatus, createEvaluationClientFailure, createEvaluationUpstreamFailure,
    statusClientClosedRequest, declared_statuses.
  repeat case_decide; eexists; (split; [reflexivity|]); (split; [by in_list|]); (split; [done|]);
    rewrite !elem_of_cons, elem_of_nil; lia.
Qed.

Section create.
Context {W : Type} `{Database W} `{ProviderPort W} `{Runtime W} `{YamlDecoder} `{Secrets.AEADConstruction}.

Lemma recordedFailureStatus_declared code :
  f_status (recordedFailureStatus code) ∈ [422; 502; 503; 504].
Proof. unfold recordedFailureStatus. repeat case_decide; in_list. Qed.

(** The reply to a recorded failure: its declared status, its evaluation and its code. *)
Definition failure_reply (ev : APIEvaluation) (reply : Reply) : Prop :=
  let code := default "" (ae_FailureCode ev) in
  rp_status reply = f_status (recordedFailureStatus code) ∧
  ∃ e, rp_body reply = BodyError e ∧ err_Details e = Some (ae_Id ev, code).

Lemma recorded_failure_reply ev mapped :
  classifyRecordedFailure ev = Some mapped → failure_reply ev (createEvaluationStatus mapped).
Proof.
  unfold classifyRecordedFailure. case_decide; [done|]. intros [= <-].
  destruct (createEvaluationStatus_declared (MkFailure
    (f_status (recordedFailureStatus (default "" (ae_FailureCode ev))))
    (MkError (err_Code (f_body (recordedFailureStatus (default "" (ae_FailureCode ev)))))
       (err_Message (f_body (recordedFailureStatus (default "" (ae_FailureCode ev)))))
       (Some (ae_Id ev, default "" (ae_FailureCode ev)))))) as (status & -> & _ & _ & Hs).
  split; [|by eexists]. cbn in *. apply Hs.
  pose proof (recordedFailureStatus_declared (default "" (ae_FailureCode ev))) as Hin. set_solver.
Qed.

(** C29: A decision that was not made never looks like one that was: the create handler
    answers 201 exactly when the service returned an evaluation that completed, with that
    evaluation; everything else is one of the declared failure statuses with an error
    envelope.  A failure the service recorded is answered with the status of its failure code
    and always names its evaluation and that code in the details, and no other failure
    carries details. *)
Theorem created_means_completed (s : Evaluations.Service) requestID request (st st' : St W) reply :
  CreateEvaluation s requestID request st = (st', Ok reply) →
  rp_status reply ∈ declared_statuses ∧
  (rp_status reply = 201 ↔ ∃ body ev, cr_Body request = Some body ∧
     Evaluations.Create s (createInputFromRequest requestID body (cr_IdempotencyKey request)) st = (st', Ok ev) ∧
     ae_Status ev = EvaluationStatusCompleted ∧ reply = MkReply 201 (BodyEvaluation ev)) ∧
  (rp_status reply ≠ 201 → ∃ e, rp_body reply = BodyError e) ∧
  (∀ body ev, cr_Body request = Some body →
     Evaluations.Create s (createInputFromRequest requestID body (cr_IdempotencyKey request)) st = (st', Ok ev) →
     ae_Status ev ≠ EvaluationStatusCompleted → failure_reply ev reply) ∧
  (∀ e details, rp_body reply = BodyError e → err_Details e = Some details →
     ∃ body ev, cr_Body request = Some body ∧
       Evaluations.Create s (createInputFromRequest requestID body (cr_IdempotencyKey request)) st = (st', Ok ev) ∧
       ae_Status ev ≠ EvaluationStatusCompleted).
Proof.
  unfold CreateEvaluation. destruct (cr_Body request) as [body|].
  2:{ intros [= <- <-]. cbn. split; [in_list|]. split; [split; [done|by intros (? & ? & ? & _)]|].
      split; [by eexists|]. split; [done|]. by intros e details [= <-]. }
  unfold mbind at 1, M_bind, settle.
  destruct (Evaluations.Create s _ st) as [st1 [ev|err]] eqn:E; cbn [fst snd];
    [|destruct (panicked st st1); [done|]].
  - unfold classifyRecordedFailure. case_decide as Es.
    + intros [= <- <-]. cbn. split; [in_list|]. split; [|split; [done|split; [|done]]].
      * split; [|done]. intros _. by exists body, ev.
      * intros body' ev' [= <-] E' Hn. congruence.
    + intros [= <- <-]. pose proof (recorded_failure_reply ev) as Hrep.
      unfold classifyRecordedFailure in Hrep. rewrite decide_False in Hrep by done.
      specialize (Hrep _ eq_refl). pose proof Hrep as (Est & e & Eb & _).
      pose proof (recordedFailureStatus_declared (default "" (ae_FailureCode ev))) as Hin.
      rewrite <- Est in Hin. split; [unfold declared_statuses; set_solver|].
      split; [split|split; [by eexists|split]].
      * intros E201. rewrite E201 in Hin. set_solver.
      * intros (body' & ev' & [= <-] & E' & ? & _). congruence.
      * intros body' ev' [= <-] E' _. rewrite E in E'. by injection E' as <-.
      * intros _ _ _ _. by exists body, ev.
  - intros [= <- <-]. unfold createEvaluationFailure.
    destruct (createEvaluationStatus_declared (classify err)) as (status & -> & Hd & Hn & _).
    cbn. split; [done|]. split; [split; [done|intros (? & ? & [= <-] & E' & _); congruence]|].
    split; [by eexists|]. split; [intros body' ev' [= <-] E' _; congruence|].
    intros e details [= <-] He. exfalso. revert He.
    unfold classify, classifyProvider. by repeat case_match.
Qed.

End create.

(** ** From the provider to the caller *)

(** The status a caller sees for an error of the TypeSafe client that is recorded. *)
Definition upstream_status (err : goerr) : Z :=
  f_status (recordedFailureStatus (Evaluations.classifyProviderFailure (TypesafeClient.mapError err))).

(** Provider trouble keeps its meaning across the client, the adapter, the stored failure
    code and the HTTP status: an unanswered or overloaded provider, a rate limit and a 5xx are
    503, a timeout is 504, and a provider that rejects the credential or the request, sends an
    oversized body or one that cannot be read, is 502; none of them is a success or blamed on
    the caller. *)
Theorem upstream_failure_status :
  (∀ statusCode, upstream_status (TypesafeClient.statusFailure statusCode).1 =
     if decide (statusCode ∈ [400; 401; 422]) then 502 else 503) ∧
  (∀ err, upstream_status (TypesafeClient.f_err (TypesafeClient.classifyTransport None err)) =
     if errors_Is err ContextCanceled then 503
     else if errors_Is err ContextDeadlineExceeded then 504 else 503) ∧
  upstream_status Typesafe.ErrResponseTooLarge = 502 ∧
  upstream_status (EIs ErrParseFailed) = 502 ∧
  upstream_status (EIs ErrTimeout) = 504.
Proof.
  split; [|split; [|done]].
  - intros statusCode. unfold TypesafeClient.statusFailure, Typesafe.statusOverloaded.
    repeat (case_decide; [subst; first [done|destruct_or?; subst; done]|]).
    rewrite decide_False by (rewrite !elem_of_cons, elem_of_nil; lia).
    by destruct (500 <=? statusCode).
  - intros err. unfold TypesafeClient.classifyTransport. by repeat case_match.
Qed.

(** ** A listener to run *)
#[export] Instance plain_outside : HttpOutside unit := {
  uuid_NewString w := (w, "6ba7b810-9dad-11d1-80b4-00c04fd430c8");
  uuid_Parse s := bool_decide (strlen s = 36);
  limiter_Allow _ w := (w, true)
}.

Definition echo : Handler (W:=unit) := λ sc req w,
  MkOutcome w [] (sc_headers sc) (Some (MkReply 200 (BodyStatus (Body req).1))).

Definition router_config : RouterConfig (W:=unit) := MkRouterConfig "secret" 8 600 10 None (λ _, true).

Definition post (token body : string) : HttpRequest :=
  MkHttpRequest "POST" patternCreateEvaluation ∅ ∅ {[ "Authorization" := [token] ]} (body, None).

Definition api_reply (req : HttpRequest) : option Reply :=
  out_reply (apiMiddleware router_config echo (MkScope "" ∅) req tt).

Example gate_examples :
  rp_status <$> api_reply (post "Bearer secret" "{} ") = Some 200 ∧
  rp_status <$> api_reply (post "Bearer secrets" "{}") = Some 401 ∧
  rp_status <$> api_reply (post "secret" "{}") = Some 401 ∧
  rp_status <$> api_reply (post "Bearer secret" "{} {}") = Some 400 ∧
  rp_status <$> api_reply (post "Bearer secret" "[1,2,3,4]") = Some 413.
Proof. vm_compute. done. Qed.

Lemma api_request_gate_witness :
  api_reply (post "Bearer wrong" "{}") =
    Some (error_reply 401 (MkError ErrorCodeUnauthorized "Unauthorized" None)).
Proof.
  exact (proj1 (api_request_gate router_config echo (MkScope "" ∅) (post "Bearer wrong" "{}")
    tt tt "6ba7b810-9dad-11d1-80b4-00c04fd430c8" tt true eq_refl eq_refl)).
Defined.

Definition http_request : CreateEvaluationRequest :=
  MkCreateEvaluationRequest
    (Some (MkCreateEvaluationBody (AString "where is my invoice?") (Some (MkRef "router" "1.0.0")) None
       (Some Fixtures.router_facts) None)) (Some "key-1").

Definition http_reply : Reply := MkReply 201 (BodyEvaluation ServiceFixtures.evaluation1).

Definition http_outcome : St World * res Reply :=
  CreateEvaluation service "req-1" http_request (start script).

Lemma http_run : CreateEvaluation service "req-1" http_request (start script) =
  (http_outcome.1, Ok http_reply).
Proof. apply (run_ok http_outcome). vm_compute. reflexivity. Qed.

Lemma created_means_completed_witness : rp_status http_reply ∈ declared_statuses.
Proof.
  exact (proj1 (created_means_completed ServiceFixtures.service "req-1" http_request
    (start script) http_outcome.1 http_reply http_run)).
Defined.

(** A body over the limit is refused with the code of an internal error. *)
Example too_large_code :
  api_reply (post "Bearer secret" "[1,2,3,4]") =
    Some (error_reply 413 (MkError "INTERNAL_SERVER_ERROR" "the request body is too large" None)).
Proof. vm_compute. reflexivity. Qed.

End HttpTheorems.
