(* ===== verification/ListenerTheorems.v ===== *)
(** * What the assembled listener guarantees

    The whole path of a REST request: the mux, the binder, the gate, the strict body, the
    handler and the encoded reply, against a specification that reads the request once. *)

From S2P Require Import Prelude GoFloat GoAny GoJson NetUrl Decision Document Store Effects Loader Policies.
From S2P Require Import Secrets EvalConvert Evaluations HttpServer JsonStruct ApiJson JsonStructSpec ApiJsonSpec HttpRouter ApiServer.
From S2P Require Import Fixtures MemStore ServiceFixtures HttpTheorems.
From stdpp Require Import options.
#[local] Open Scope Z_scope.

Module ListenerTheorems.
Import EvalConvert HttpErrors HttpServer HttpRouter HttpTheorems ApiServer Listener.

(** ** Reading a request once *)

(** The calls the API can make. *)
Inductive call : Set :=
  | CallListEvaluations (params : ListEvaluationsParams)
  | CallCreateEvaluation (request : CreateEvaluationRequest)
  | CallGetEvaluation (evaluationId : uuid)
  | CallSubmitFeedback (request : SubmitFeedbackRequest)
  | CallListPolicies
  | CallGetPolicy (name version : string)
  | CallValidatePolicy (document : option (list (string * goany))).

Definition patternListEvaluations : string := "GET /v1/evaluations".
Definition patternGetEvaluation : string := "GET /v1/evaluations/{evaluationId}".
Definition patternListPolicies : string := "GET /v1/policies".
Definition patternGetPolicy : string := "GET /v1/policies/{policyName}/versions/{policyVersion}".

Definition api_patterns : list string :=
  [patternListEvaluations; patternCreateEvaluation; patternGetEvaluation; patternSubmitFeedback;
   patternListPolicies; patternGetPolicy; patternValidatePolicy].

(** The strict value of a body. *)
Definition read_body {B} (decode : json → option B) (body : string) : option B :=
  p ← json_prefix body; decode p.1.

Section listener.
Context {W : Type} `{Database W} `{ProviderPort W} `{Runtime W} `{YamlDecoder}.
Context `{Secrets.AEADConstruction} `{HttpOutside (St W)} `{ErrorText} `{UuidText} `{ParamRuntime}.

(** The call a request asks for, up to its body: its parameters are read first. *)
Definition read_call (req : HttpRequest) : (string → option call) + paramError :=
  let with_params {P} (bound : P + paramError) (k : P → string → option call) :=
    match bound with inl p => inl (k p) | inr e => inr e end in
  let pattern := Pattern req in
  if decide (pattern = patternListEvaluations) then
    with_params (params_ListEvaluations req) (λ p _, Some (CallListEvaluations p))
  else if decide (pattern = patternCreateEvaluation) then
    with_params (params_CreateEvaluation req) (λ key body,
      (λ b, CallCreateEvaluation (MkCreateEvaluationRequest (Some b) key)) <$>
        read_body (ApiJson.decode_CreateEvaluationRequest true) body)
  else if decide (pattern = patternGetEvaluation) then
    with_params (params_evaluationId req) (λ id _, Some (CallGetEvaluation id))
  else if decide (pattern = patternSubmitFeedback) then
    with_params (params_evaluationId req) (λ id body,
      (λ b, CallSubmitFeedback (MkSubmitFeedbackRequest id (Some b))) <$>
        read_body (ApiJson.decode_SubmitFeedbackRequest true) body)
  else if decide (pattern = patternGetPolicy) then
    with_params (params_GetPolicy req) (λ p _, Some (CallGetPolicy p.1 p.2))
  else if decide (pattern = patternValidatePolicy) then
    inl (λ body, (λ d, CallValidatePolicy (Some d)) <$>
      read_body (ApiJson.decode_ValidatePolicyRequest true) body)
  else inl (λ _, Some CallListPolicies).

Definition run_call (s : Server) (requestID : string) (c : call) : M W Reply :=
  match c with
  | CallListEvaluations params => ListEvaluations params
  | CallCreateEvaluation request => CreateEvaluation (s_evaluations s) requestID request
  | CallGetEvaluation id => GetEvaluation id
  | CallSubmitFeedback request => SubmitFeedback (s_evaluations s) request
  | CallListPolicies => ListPolicies (s_policies s)
  | CallGetPolicy name version => GetPolicy (s_policies s) name version
  | CallValidatePolicy document => ValidatePolicy (s_policies s) document
  end.

(** The response interface of a call. *)
Definition objects_of (c : call) : list (Z * ApiJson.bodyKind) :=
  match c with
  | CallListEvaluations _ => ListEvaluationsResponseObject
  | CallCreateEvaluation _ => CreateEvaluationResponseObject
  | CallGetEvaluation _ => GetEvaluationResponseObject
  | CallSubmitFeedback _ => SubmitFeedbackResponseObject
  | CallListPolicies => ListPoliciesResponseObject
  | CallGetPolicy _ _ => GetPolicyResponseObject
  | CallValidatePolicy _ => ValidatePolicyResponseObject
  end.

(** What goes out for the response object of a call. *)
Definition final_reply (reply : Reply) : Reply :=
  if decide (is_Some (ApiJson.encode_body (rp_body reply))) then reply
  else error_reply 500 (MkError ErrorCodeInternalServerError "Internal server error" None).

(** ** Every call answers, with a response object its operation declares *)
Lemma implements_error objects status e :
  (status, ApiJson.KindError) ∈ objects → implements objects (error_reply status e) = true.
Proof using. intros Hin. unfold implements. cbn. by apply bool_decide_eq_true. Qed.

Lemma implements_create mapped : implements CreateEvaluationResponseObject (createEvaluationStatus mapped) = true.
Proof using.
  destruct (createEvaluationStatus_declared mapped) as (status & -> & Hd & Hn & _).
  apply implements_error. unfold declared_statuses in Hd. rewrite !elem_of_cons, elem_of_nil in Hd.
  destruct_or! Hd; subst; [done|..]; in_list.
Qed.

(** How a call ends: with a response object its operation declares, or in a panic, which
    only the creation of an evaluation can. *)
Definition ends (c : call) (w w' : St W) (r : res Reply) : Prop :=
  match r with
  | Ok reply => implements (objects_of c) reply = true
  | Err _ => panicked w w' = true ∧ ∃ request, c = CallCreateEvaluation request
  end.

Lemma run_call_ends s requestID c w : ∃ w' r, run_call s requestID c w = (w', r) ∧ ends c w w' r.
Proof using.
  assert (∀ (w' : St W) reply, implements (objects_of c) reply = true →
    ∃ w2 r, (w', Ok reply) = (w2, r) ∧ ends c w w2 r) as Hdone by (intros w' reply ?; by exists w', (Ok reply)).
  destruct c; cbn [run_call objects_of].
  - unfold ListEvaluations. case_decide; [by apply Hdone|]. rewrite M_bind_run. unfold attempt.
    destruct (Evaluations.List _ w) as [w1 [page|err]]; cbn [fst snd]; by apply Hdone.
  - unfold CreateEvaluation. destruct (cr_Body request); [|by apply Hdone].
    rewrite M_bind_run. unfold settle. destruct (Evaluations.Create _ _ w) as [w1 [ev|err]]; cbn [fst snd].
    + destruct (classifyRecordedFailure ev); [by apply Hdone, implements_create|by apply Hdone].
    + destruct (panicked w w1) eqn:Ep; [|by apply Hdone, implements_create].
      exists w1, (Err err). split; [done|]. split; [done|by eexists].
  - unfold GetEvaluation. rewrite M_bind_run. unfold attempt.
    destruct (Evaluations.Get _ w) as [w1 [ev|err]]; cbn [fst snd]; [by apply Hdone|].
    case_decide; by apply Hdone.
  - unfold SubmitFeedback. destruct (sf_Body request) as [[outcome note]|]; [|by apply Hdone].
    rewrite M_bind_run. unfold attempt.
    destruct (Evaluations.SubmitFeedback _ _ w) as [w1 [ev|err]]; cbn [fst snd]; [by apply Hdone|].
    repeat case_decide; by apply Hdone.
  - by apply Hdone.
  - unfold GetPolicy. destruct (Policies.Get _ _ _); [by apply Hdone|]. case_decide; by apply Hdone.
  - unfold ValidatePolicy. destruct document; [|by apply Hdone].
    destruct (Policies.Validate _ _); [by apply Hdone|]. repeat case_decide; by apply Hdone.
Qed.

(** ** The strict handlers run the call *)
(** What the strict handler leaves: the reply, or the panic on its way up. *)
Definition answered (sc : scope) (w : St W) (r : res Reply) : outcome (St W) :=
  match r with
  | Ok reply => MkOutcome w [] (json_headers (sc_headers sc)) (Some (final_reply reply))
  | Err _ => MkOutcome w [] (sc_headers sc) None
  end.

Lemma respond_call {A} s objects (handler : scope → A → M W Reply) request c sc req w :
  handler sc request = run_call s (sc_requestID sc) c → objects = objects_of c →
  ∃ w' r, run_call s (sc_requestID sc) c w = (w', r) ∧ ends c w w' r ∧
    respond (MkStrictOptions request_error response_error) objects (operation handler) request sc req w =
      answered sc w' r.
Proof using.
  intros Hc ->. destruct (run_call_ends s (sc_requestID sc) c w) as (w' & r & Hr & He).
  exists w', r. do 2 (split; [done|]). unfold respond, operation. rewrite Hc, Hr. cbn [fst snd].
  destruct r as [reply|err]; cbn [ends is_ok negb andb] in *.
  - rewrite He. unfold answered, final_reply. by destruct (ApiJson.encode_body (rp_body reply)).
  - by destruct He as [-> _].
Qed.

Lemma decode_body_strict {B} (decode_s decode_l : json → option B) body b :
  (∀ j b, decode_s j = Some b → decode_l j = Some b) →
  read_body decode_s body = Some b → decode_body decode_l (body, None) = inl b.
Proof using.
  intros Hd (p & Hp & Hb)%bind_Some. unfold decode_body. cbn [fst]. rewrite Hp.
  destruct p as [v rest]. cbn in Hb. by rewrite (Hd _ _ Hb).
Qed.

(** A request the gate lets in carries a body that reads strictly. *)
Lemma gate_passes (config : RouterConfig (W:=St W)) req allowed req' :
  gate config req allowed = inr req' →
  req' = with_body req (Body req') ∧
  (strictJSONTarget (Pattern req) = true →
   ∃ body, Body req' = (body, None) ∧ decodeSingleStrictJSON (Pattern req) body = true).
Proof using.
  unfold gate. destruct allowed; [|done]. cbn [negb]. case_decide; [|done].
  destruct (strictJSONTarget (Pattern req)); cbn [negb].
  - destruct (max_bytes _ _) as [body [[]|]]; cbn [snd fst]; [done..|].
    destruct (decodeSingleStrictJSON _ _) eqn:E; [|done]. intros [= <-]. cbn. split; [done|].
    intros _. by exists body.
  - intros [= <-]. by split.
Qed.

Lemma strict_body_reads {B} pattern (decode : json → option B) body :
  (∀ v, decode_strict pattern v = bool_decide (is_Some (decode v))) →
  decodeSingleStrictJSON pattern body = true → ∃ b, read_body decode body = Some b.
Proof using.
  unfold decodeSingleStrictJSON, read_body. intros Hd. destruct (json_prefix body) as [[v rest]|]; [|done].
  rewrite Hd. intros [[b Hb]%bool_decide_eq_true _]%andb_prop. by exists b.
Qed.

(** ** A handler that makes a call *)
Definition serves (s : Server) (pattern : string) (complete : string → option call)
  (h : Handler (W:=St W)) : Prop :=
  ∀ sc req w, Pattern req = pattern →
    (strictJSONTarget pattern = true →
     ∃ body, Body req = (body, None) ∧ decodeSingleStrictJSON pattern body = true) →
    ∃ c w' r, complete (Body req).1 = Some c ∧
      run_call s (sc_requestID sc) c w = (w', r) ∧ ends c w w' r ∧ h sc req w = answered sc w' r.

Lemma serves_plain {A} s pattern objects (handler : scope → A → M W Reply) request c :
  (∀ sc, handler sc request = run_call s (sc_requestID sc) c) → objects = objects_of c →
  serves s pattern (λ _, Some c)
    (respond (MkStrictOptions request_error response_error) objects (operation handler) request).
Proof using.
  intros Hc Ho sc req w _ _. exists c.
  destruct (respond_call s objects handler request c sc req w (Hc sc) Ho) as (w' & r & H').
  by exists w', r.
Qed.

Lemma serves_body {A B} s pattern objects (decode_s decode_l : json → option B) (k : B → A)
    (handler : scope → A → M W Reply) (c : B → call) :
  strictJSONTarget pattern = true →
  (∀ v, decode_strict pattern v = bool_decide (is_Some (decode_s v))) →
  (∀ j b, decode_s j = Some b → decode_l j = Some b) →
  (∀ sc b, handler sc (k b) = run_call s (sc_requestID sc) (c b)) →
  (∀ b, objects = objects_of (c b)) →
  serves s pattern (λ body, c <$> read_body decode_s body)
    (with_json_body (MkStrictOptions request_error response_error) decode_l (λ b,
      respond (MkStrictOptions request_error response_error) objects (operation handler) (k b))).
Proof using.
  intros Ht Hd Hl Hc Ho sc req w _ (body & Hbody & Hs)%(λ f, f Ht).
  destruct (strict_body_reads pattern decode_s body Hd Hs) as [b Hb]. exists (c b).
  destruct (respond_call s objects handler (k b) (c b) sc req w (Hc sc b) (Ho b)) as (w' & r & Hr & Hi & Hh).
  exists w', r. rewrite Hbody. cbn [fst]. split; [by rewrite Hb|]. do 2 (split; [done|]).
  unfold with_json_body. by rewrite Hbody, (decode_body_strict decode_s decode_l body b Hl Hb).
Qed.

(** How a call that ended is observed: its reply, when it can be encoded, and the two records
    of the request; a panic is a 500 that leaves neither the access record nor the metric. *)
Definition observed (req : HttpRequest) (r : res Reply) (o : outcome (St W)) : Prop :=
  match r with
  | Ok reply => out_reply o = Some (final_reply reply) ∧
      out_events o = [ObserveHTTP (Method req) (Pattern req) (rp_status (final_reply reply));
                      RequestCompleted (Method req) (Pattern req) (rp_status (final_reply reply))]
  | Err _ => out_reply o = Some panic_reply ∧
      out_events o = [HandlerPanicked; RequestRejected 500 reasonHandlerPanic]
  end.

(** What a caller of the API observes, past the binder. *)
Definition gated_call (r : Router (W:=W)) (req : HttpRequest) (complete : string → option call) (w : St W)
  (o : outcome (St W)) : Prop :=
  ∀ w1 id w2 allowed,
    sanitiseRequestID (RequestIDHeader req) w = (w1, id) →
    limiter_Allow (NewRateLimiter "api" (RequestsPerMinute (config r)) (RateLimitBurst (config r))) w1
      = (w2, allowed) →
    out_headers o = json_headers (sc_headers (api_scope (MkScope "" ∅) id)) ∧
    match gate (config r) req allowed with
    | inl reply => out_world o = w2 ∧ out_reply o = Some reply ∧
        ∃ events, out_events o = events ++
          [ObserveHTTP (Method req) (Pattern req) (rp_status reply);
           RequestCompleted (Method req) (Pattern req) (rp_status reply)]
    | inr req' => ∃ c w3 answer, complete (Body req').1 = Some c ∧
        run_call (server r) id c w2 = (w3, answer) ∧ ends c w2 w3 answer ∧
        out_world o = w3 ∧ observed req answer o
    end.

Lemma gated_serves (r : Router (W:=W)) req complete h w :
  Pattern req ≠ "" → serves (server r) (Pattern req) complete h →
  gated_call r req complete w (apiMiddleware (config r) h (MkScope "" ∅) req w).
Proof using.
  intros Hp Hs w1 id w2 allowed Hid Hl.
  pose proof (api_request_gate (config r) h (MkScope "" ∅) req w w1 id w2 allowed Hid Hl) as Hg.
  cbv zeta in Hg. generalize dependent (apiMiddleware (config r) h (MkScope "" ∅) req w). intros o Hg.
  unfold routeTemplate in Hg. rewrite decide_False in Hg by done.
  destruct (gate (config r) req allowed) as [reply|req'] eqn:Eg.
  - by destruct Hg as (-> & -> & -> & events & ->); split_and!; [..|by exists events].
  - apply gate_passes in Eg as [Hr Hbody].
    destruct (Hs (api_scope (MkScope "" ∅) id) req' w2) as (c & w3 & answer & Hc & Hr' & Hi & Hh).
    + by rewrite Hr.
    + intros Ht. by apply Hbody.
    + rewrite Hh in Hg. destruct answer as [reply|err]; cbn in Hg; destruct Hg as (Ho & Hg1 & Hg2 & Hg3).
      * rewrite Ho, Hg2. split; [done|]. by exists c, w3, (Ok reply).
      * rewrite Ho, Hg1. split; [done|]. by exists c, w3, (Err err).
Qed.

(** ** The registered handlers *)

(** The handler of an API pattern, and the specification it meets. *)
Definition call_served (r : Router (W:=W)) (req : HttpRequest) (w : St W) (o : outcome (St W)) : Prop :=
  match read_call req with
  | inr _ => o = MkOutcome w [] (json_headers ∅) (Some (error_reply 400
      (MkError ErrorCodeBadRequest "the request could not be decoded" None)))
  | inl complete => gated_call r req complete w o
  end.

Lemma bound_served {P} (r : Router (W:=W)) si (params : HttpRequest → P + paramError)
    (k : P → string → option call) (h : P → Handler) req w :
  Pattern req ≠ "" →
  read_call req = match params req with inl p => inl (k p) | inr e => inr e end →
  (∀ p, serves (server r) (Pattern req) (k p) (h p)) →
  call_served r req w
    (bound (MkWrapper si [apiMiddleware (config r)] request_error) params h (MkScope "" ∅) req w).
Proof using.
  intros Hp Hc Hs. unfold call_served, bound. rewrite Hc.
  destruct (params req) as [p|e]; [|done]. by apply gated_serves.
Qed.

Lemma wrapped_served (r : Router (W:=W)) si (k : string → option call) (h : Handler) req w :
  Pattern req ≠ "" → read_call req = inl k → serves (server r) (Pattern req) k h →
  call_served r req w
    (wrapped (MkWrapper si [apiMiddleware (config r)] request_error) h (MkScope "" ∅) req w).
Proof using. intros Hp Hc Hs. unfold call_served. rewrite Hc. by apply gated_serves. Qed.

Lemma api_route_served (r : Router (W:=W)) req w h :
  (Pattern req, h) ∈ HandlerWithOptions (strict_handler r) (std_options r) →
  Pattern req ∈ api_patterns ∧ call_served r req w (h (MkScope "" ∅) req w).
Proof using.
  destruct req as [method pattern values query headers body]. cbn [Pattern].
  unfold HandlerWithOptions. cbn [std_options BaseURL Middlewares ErrorHandlerFunc].
  rewrite !elem_of_cons. intros Hin.
  destruct_or! Hin; try (by apply elem_of_nil in Hin); injection Hin as -> ->;
    (split; [by in_list|]).
  - apply (bound_served r _ params_ListEvaluations (λ p _, Some (CallListEvaluations p))); [done..|].
    intros p. by apply serves_plain.
  - eapply bound_served; [done..|]. intros key. apply serves_body; [done..| |done|done].
    apply PayloadSound.decode_CreateEvaluationRequest_lax.
  - eapply bound_served; [done..|]. intros p. by apply serves_plain.
  - eapply bound_served; [done..|]. intros id. apply serves_body; [done..| |done|done].
    apply PayloadSound.decode_SubmitFeedbackRequest_lax.
  - eapply wrapped_served; [done..|]. by apply serves_plain.
  - eapply bound_served; [done..|]. intros p. by apply serves_plain.
  - eapply wrapped_served; [done..|]. apply serves_body; [done..| |done|done].
    apply PayloadSound.decode_ValidatePolicyRequest_lax.
Qed.

Lemma other_routes (r : Router (W:=W)) pattern h :
  (pattern, h) ∈ Router_Handler r → pattern ∈ api_patterns →
  (pattern, h) ∈ HandlerWithOptions (strict_handler r) (std_options r).
Proof using.
  unfold Router_Handler. intros [Hin|Hin]%elem_of_app Hp; [done|].
  apply elem_of_app in Hin as [Hin|Hin]; exfalso; revert Hp.
  - rewrite !elem_of_cons, elem_of_nil in Hin. destruct_or! Hin; try done; injection Hin as -> _;
      intros Hp%(bool_decide_pack (_ ∈ api_patterns)); by vm_compute in Hp.
  - unfold mountMCP in Hin. destruct (MCPHandler (config r)); [|by apply elem_of_nil in Hin].
    rewrite !elem_of_cons, elem_of_nil in Hin. destruct_or! Hin; try done; injection Hin as -> _;
      intros Hp%(bool_decide_pack (_ ∈ api_patterns)); by vm_compute in Hp.
Qed.

(** C28: A REST request is read once and served once.  On every API route the parameters are
    read first, and parameters that cannot be read are a 400 that no middleware saw: it has
    no request identifier, no access record and no security header, and it costs neither
    the token nor the budget.  Past that, over budget is 429, a missing or wrong token 401,
    a body over the limit 413, a body that is not exactly one strict JSON value 400, and in
    each of these no operation runs; otherwise exactly one operation runs, once, on the
    parameters and the strict value of the body, and answers with a response object the
    operation declares, which is the reply when it can be encoded and 500 when not.  The reply
    carries the identifier and the security headers, and the last two records are its own.
    The one exception is a panic, which only the creation of an evaluation can end in, when the
    recorder refuses a negative token count: that is a 500 with the same headers and neither
    an access record nor a metric. *)
Theorem rest_request_served (r : Router (W:=W)) raw w pattern values h :
  NetUrl.find_handler (Router_Handler r) (raw_method raw) (raw_path raw) =
    NetUrl.Matched pattern values h →
  pattern ∈ api_patterns →
  let req := MkHttpRequest (raw_method raw) pattern values (NetUrl.parse_query (raw_query raw))
    (raw_headers raw) (raw_body raw) in
  ∃ o, ServeHTTP (Router_Handler r) raw w = Answered o ∧
  match read_call req with
  | inr _ => o = MkOutcome w [] (json_headers ∅) (Some (error_reply 400
      (MkError ErrorCodeBadRequest "the request could not be decoded" None)))
  | inl complete => ∀ w1 id w2 allowed,
      sanitiseRequestID (RequestIDHeader req) w = (w1, id) →
      limiter_Allow (NewRateLimiter "api" (RequestsPerMinute (config r)) (RateLimitBurst (config r))) w1
        = (w2, allowed) →
      let records status := [ObserveHTTP (Method req) pattern status;
                             RequestCompleted (Method req) pattern status] in
      out_headers o = json_headers (sc_headers (api_scope (MkScope "" ∅) id)) ∧
      match gate (config r) req allowed with
      | inl reply => out_world o = w2 ∧ out_reply o = Some reply ∧
          ∃ events, out_events o = events ++ records (rp_status reply)
      | inr req' => ∃ c w3 answer, complete (Body req').1 = Some c ∧
          run_call (server r) id c w2 = (w3, answer) ∧ out_world o = w3 ∧
          match answer with
          | Ok reply => implements (objects_of c) reply = true ∧
              out_reply o = Some (final_reply reply) ∧
              out_events o = records (rp_status (final_reply reply))
          | Err _ => (∃ request, c = CallCreateEvaluation request) ∧ panicked w2 w3 = true ∧
              out_reply o = Some panic_reply ∧
              out_events o = [HandlerPanicked; RequestRejected 500 reasonHandlerPanic]
          end
      end
  end.
Proof using.
  intros Hf Hp req. exists (h (MkScope "" ∅) req w). split.
  { unfold ServeHTTP. by rewrite Hf. }
  apply NetUrl.find_handler_Matched, other_routes in Hf; [|done].
  destruct (api_route_served r req w h Hf) as [_ Hs]. revert Hs. unfold call_served.
  destruct (read_call req) as [complete|]; [|done]. intros Hs w1 id w2 allowed Hid Hl.
  destruct (Hs w1 id w2 allowed Hid Hl) as [Hh Hg]. split; [done|]. revert Hg.
  destruct (gate (config r) req allowed) as [reply|req']; [done|].
  intros (c & w3 & answer & Hc & Hr & He & Hw & Ho). exists c, w3, answer.
  do 3 (split; [done|]). destruct answer; [done|]. destruct He, Ho. done.
Qed.

End listener.

(** ** On a running listener *)
Import MemStore ServiceFixtures HttpFixtures.

Definition handler_of {H} (d : NetUrl.dispatch H) (h : H) : H :=
  match d with NetUrl.Matched _ _ h => h | _ => h end.

Definition nowhere : Handler (W:=St World) := λ sc _ w, MkOutcome w [] ∅ None.

Definition served_by (raw : rawRequest) : Handler :=
  handler_of (NetUrl.find_handler (Router_Handler router) (raw_method raw) (raw_path raw)) nowhere.

(** A malformed identifier costs no token; a well-formed one does. *)
Lemma rest_request_served_witness :
  (∃ o, ServeHTTP (Router_Handler router) (get "/v1/evaluations/nope" "" "") (start script) = Answered o ∧
     out_reply o = Some (error_reply 400 (MkError ErrorCodeBadRequest "the request could not be decoded" None))) ∧
  (∃ o, ServeHTTP (Router_Handler router) (get ("/v1/evaluations/" +:+ fixed_id) "" "") (start script) = Answered o ∧
     out_reply o = Some (error_reply 401 (MkError ErrorCodeUnauthorized "Unauthorized" None))).
Proof.
  split.
  - destruct (rest_request_served router (get "/v1/evaluations/nope" "" "") (start script)
      patternGetEvaluation {["evaluationId" := "nope"]} (served_by (get "/v1/evaluations/nope" "" "")))
      as (o & Ho & Hr); [reflexivity|apply (bool_decide_unpack _); reflexivity|].
    exists o. split; [exact Ho|]. exact (f_equal out_reply Hr).
  - destruct (rest_request_served router (get ("/v1/evaluations/" +:+ fixed_id) "" "") (start script)
      patternGetEvaluation {["evaluationId" := fixed_id]} (served_by (get ("/v1/evaluations/" +:+ fixed_id) "" "")))
      as (o & Ho & Hr); [reflexivity|apply (bool_decide_unpack _); reflexivity|].
    exists o. split; [exact Ho|].
    exact (proj1 (proj2 (proj2 (Hr (start script) fixed_id (start script) true eq_refl eq_refl)))).
Defined.

(** A provider that bills a negative number of tokens: the reply is a 500, nothing is stored
    and no access record or metric is left. *)
Definition negative_usage : list (res Provider.Response) :=
  [Ok (Provider.MkResponse "jev-1" Fixtures.router_answers (Provider.MkUsage 120 (-8)) [] 0)].

Definition create_raw : rawRequest :=
  MkRaw "POST" "/v1/evaluations" "" {[ "Authorization" := ["Bearer secret"] ]}
    (json_text (JObj [("policyRef", JObj [("name", JStr "router"); ("version", JStr "1.0.0")]);
                      ("state", JStr "where is my invoice?");
                      ("facts", JObj [("owner.known", JBool true)])]), None).

Definition billed (script : list (res Provider.Response)) : option (Z * list httpEvent * nat) :=
  match ServeHTTP (Router_Handler router) create_raw (start script) with
  | Answered o => (λ reply, (rp_status reply, out_events o,
      size (t_evaluations (tables (st_world (out_world o)))))) <$> out_reply o
  | _ => None
  end.

Example negative_usage_panics :
  billed negative_usage = Some (500, [HandlerPanicked; RequestRejected 500 reasonHandlerPanic], 0%nat) ∧
  billed script = Some (201, [ObserveHTTP "POST" patternCreateEvaluation 201;
                              RequestCompleted "POST" patternCreateEvaluation 201], 1%nat).
Proof. split; vm_compute; reflexivity. Qed.

End ListenerTheorems.
