(* ===== verification/ClientTheorems.v ===== *)
(** * The client and the listener agree

    A call of the generated client is read by the listener as that call, and the reply of
    the listener is read by the client as the value the operation returned. *)

From S2P Require Import Prelude GoFloat GoAny GoJson NetUrl NetUrlSpec Decision Document Store Effects.
From S2P Require Import Loader Policies Secrets EvalConvert Evaluations HttpServer JsonStruct OapiClient ApiJson JsonStructSpec ApiJsonSpec.
From S2P Require Import HttpRouter ApiClient ApiServer HttpTheorems ListenerTheorems.
From S2P Require Import MemStore ServiceFixtures.
From Stdlib Require Import Ascii String.
From stdpp Require Import options.
#[local] Open Scope Z_scope.

Module ClientTheorems.
Import EvalConvert HttpErrors HttpServer JsonStruct ApiJson CodecSound PayloadSound.
Import HttpRouter ApiServer Listener HttpTheorems ListenerTheorems NetUrlSpec ClientTypes.

(** ** Two sets of types

    The client's structs and the server's have the same fields and tags. *)
Section same.
Context `{UuidText}.

Lemma client_requests_agree :
  client_CreateEvaluationRequest = CreateEvaluationRequest_codec ∧
  client_SubmitFeedbackRequest = SubmitFeedbackRequest_codec ∧
  client_ValidatePolicyRequest = ValidatePolicyRequest_codec.
Proof using. by repeat split. Qed.

Lemma client_replies_agree :
  client_Error = Error_codec ∧ client_Evaluation = Evaluation_codec ∧
  client_EvaluationList = EvaluationList_codec ∧ client_Feedback = Feedback_codec ∧
  client_PolicyList = PolicyList_codec ∧ client_Policy = Policy_codec ∧
  client_PolicyValidation = PolicyValidation_codec.
Proof using. by repeat split. Qed.
End same.

(** ** Calls that travel *)

(** The body of a request can be written, and every string of it is UTF-8. *)
Definition body_ok {A} (c : codec A) (a : A) : Prop :=
  ∃ j, write c a = Some j ∧ JsonText.json_ok j max_nesting = true.

(** A path parameter that the multiplexer matches with a wildcard. *)
Definition segment_ok (s : string) : Prop := s ≠ "" ∧ s ≠ "." ∧ s ≠ ".." ∧ s ≠ "/".

Section client.
Context {W : Type} `{Database W} `{ProviderPort W} `{Runtime W} `{YamlDecoder}.
Context `{Secrets.AEADConstruction} `{HttpOutside (St W)} `{ErrorText} `{UuidText}.
Context {canonical : uuid → Prop} `{ParamRuntime} {param_laws : ParamRuntimeLaws canonical}.
Context `{StyleRuntime} {style_laws : StyleLaws}.

Definition call_ok (c : call) : Prop :=
  match c with
  | CallListEvaluations p => opt_all int_ok (lp_Limit p) ∧ opt_all int_ok (lp_Offset p)
  | CallCreateEvaluation req => opt_all canonical (cr_IdempotencyKey req) ∧
      ∃ b, cr_Body req = Some b ∧ request_ok b ∧ body_ok client_CreateEvaluationRequest b
  | CallGetEvaluation id => canonical id
  | CallSubmitFeedback req => canonical (sf_EvaluationId req) ∧
      ∃ b, sf_Body req = Some b ∧ body_ok client_SubmitFeedbackRequest b
  | CallListPolicies => True
  | CallGetPolicy name version => segment_ok name ∧ segment_ok version
  | CallValidatePolicy document =>
      ∃ d, document = Some d ∧ any_ok (AMap d) ∧ body_ok client_ValidatePolicyRequest d
  end.

(** The client's method for a call. *)
Definition client_request (server : string) (c : call) : res OapiClient.request :=
  match c with
  | CallListEvaluations p => ApiClient.NewListEvaluationsRequest server (Some p)
  | CallCreateEvaluation req =>
      ApiClient.NewCreateEvaluationRequest server (cr_IdempotencyKey req) (default (zero client_CreateEvaluationRequest) (cr_Body req))
  | CallGetEvaluation id => ApiClient.NewGetEvaluationRequest server id
  | CallSubmitFeedback req =>
      ApiClient.NewSubmitFeedbackRequest server (sf_EvaluationId req) (default ("", None) (sf_Body req))
  | CallListPolicies => ApiClient.NewListPoliciesRequest server
  | CallGetPolicy name version => ApiClient.NewGetPolicyRequest server name version
  | CallValidatePolicy document => ApiClient.NewValidatePolicyRequest server (default [] document)
  end.

Definition pattern_of (c : call) : string :=
  match c with
  | CallListEvaluations _ => patternListEvaluations
  | CallCreateEvaluation _ => patternCreateEvaluation
  | CallGetEvaluation _ => patternGetEvaluation
  | CallSubmitFeedback _ => patternSubmitFeedback
  | CallListPolicies => patternListPolicies
  | CallGetPolicy _ _ => patternGetPolicy
  | CallValidatePolicy _ => patternValidatePolicy
  end.

Definition values_of (c : call) : gmap string string :=
  match c with
  | CallGetEvaluation id => {["evaluationId" := id]}
  | CallSubmitFeedback req => {["evaluationId" := sf_EvaluationId req]}
  | CallGetPolicy name version => {["policyName" := name; "policyVersion" := version]}
  | _ => ∅
  end.

(** ** Dispatch *)
Lemma operation_url_rooted server l :
  OapiClient.url_path server = "/v1/" → l ≠ [] → Forall plain_segment l →
  without "?" (NetUrl.join_with "/" l) = true → without "#" (NetUrl.join_with "/" l) = true →
  OapiClient.operation_url server ("/" +:+ NetUrl.join_with "/" l) = (rooted ("v1" :: l), "").
Proof using.
  intros Hs Hne Hl Hq Hf. unfold OapiClient.operation_url. rewrite Hs.
  assert (∀ sep, without sep (NetUrl.join_with "/" l) = true → sep ≠ "."%char → sep ≠ "/"%char →
    without sep ("." +:+ "/" +:+ NetUrl.join_with "/" l) = true) as Hw.
  { intros sep Hsep Hd Hsl. rewrite !without_app, Hsep. unfold without. cbn.
    by rewrite !bool_decide_eq_false_2. }
  rewrite (cut_without "#") by (by apply Hw). cbn [fst].
  rewrite (cut_without "?") by (by apply Hw). cbn [fst snd]. f_equal.
  change (String "/" (String "v" (String "1" "/"))) with (rooted ["v1"] +:+ "/").
  change ("." +:+ "/" +:+ NetUrl.join_with "/" l) with ("./" +:+ NetUrl.join_with "/" l).
  apply (resolve_rooted ["v1"]); [done..| |done]. apply Forall_singleton. split_and!; done.
Qed.

Definition method_of (c : call) : string :=
  match c with
  | CallCreateEvaluation _ | CallSubmitFeedback _ | CallValidatePolicy _ => "POST"
  | _ => "GET"
  end.

Definition segments_of (c : call) : list string :=
  match c with
  | CallListEvaluations _ | CallCreateEvaluation _ => ["evaluations"]
  | CallGetEvaluation id => ["evaluations"; NetUrl.PathEscape id]
  | CallSubmitFeedback req => ["evaluations"; NetUrl.PathEscape (sf_EvaluationId req); "feedback"]
  | CallListPolicies => ["policies"]
  | CallGetPolicy name version =>
      ["policies"; NetUrl.PathEscape name; "versions"; NetUrl.PathEscape version]
  | CallValidatePolicy _ => ["policies"; "validate"]
  end.

Lemma canonical_segment id : canonical id → segment_ok id.
Proof using param_laws. intros Hid%canonical_length. by split_and!; intros ->. Qed.

Lemma segment_plain s : segment_ok s → plain_segment (NetUrl.PathEscape s).
Proof using. intros (? & ? & ? & _). by apply escape_plain. Qed.

(** The segments a call carries as parameters. *)
Definition params_ok (c : call) : Prop :=
  match c with
  | CallGetEvaluation id => segment_ok id
  | CallSubmitFeedback req => segment_ok (sf_EvaluationId req)
  | CallGetPolicy name version => segment_ok name ∧ segment_ok version
  | _ => True
  end.

Lemma call_params_ok c : call_ok c → params_ok c.
Proof using param_laws.
  destruct c; cbn; try done; [apply canonical_segment|]. intros [? _]. by apply canonical_segment.
Qed.

Lemma segments_plain c : params_ok c → Forall plain_segment ("v1" :: segments_of c).
Proof using.
  assert (∀ s, bool_decide (s ∈ ["v1"; "evaluations"; "feedback"; "policies"; "versions"; "validate"]) = true →
    plain_segment s) as Hlit.
  { intros s Hs%bool_decide_eq_true. rewrite !elem_of_cons, elem_of_nil in Hs.
    by destruct_or! Hs; subst. }
  intros Hc. destruct c; cbn in *; rewrite !Forall_cons_iff; split_and!; try apply list.Forall_nil_2;
    try (by apply Hlit); apply segment_plain; tauto.
Qed.

(** The table of the API patterns, with other patterns that name no method. *)
Lemma api_dispatch {A} (h1 h2 h3 h4 h5 h6 h7 : A) rest c :
  params_ok c → Forall (λ r, NetUrl.pt_method (NetUrl.parse_pattern r.1) = "") rest →
  ∃ h, NetUrl.find_handler
    ([(patternListEvaluations, h1); (patternCreateEvaluation, h2); (patternGetEvaluation, h3);
      (patternSubmitFeedback, h4); (patternListPolicies, h5); (patternGetPolicy, h6);
      (patternValidatePolicy, h7)] ++ rest) (method_of c) (rooted ("v1" :: segments_of c)) =
    NetUrl.Matched (pattern_of c) (values_of c) h.
Proof using.
  intros Hc Hrest.
  assert (∀ m, m ≠ "" → NetUrl.with_method m ((λ r, (NetUrl.parse_pattern r.1, r)) <$> rest) = []) as Hm.
  { intros m Hm. unfold NetUrl.with_method. induction Hrest as [|r rest Hr _ IH]; [done|].
    rewrite fmap_cons, filter_cons_False; [exact IH|]. cbn [fst]. congruence. }
  assert (∀ m a b, NetUrl.with_method (A:=string * A) m (a ++ b) = NetUrl.with_method m a ++ NetUrl.with_method m b) as Happ.
  { intros. unfold NetUrl.with_method. by rewrite list.filter_app, fmap_app. }
  pose proof (segments_plain c Hc) as Hplain.
  set (api := [(patternListEvaluations, h1); (patternCreateEvaluation, h2); (patternGetEvaluation, h3);
      (patternSubmitFeedback, h4); (patternListPolicies, h5); (patternGetPolicy, h6);
      (patternValidatePolicy, h7)]).
  assert (∀ h matches,
    NetUrl.match_path (NetUrl.with_method (method_of c) ((λ r, (NetUrl.parse_pattern r.1, r)) <$> api))
      (NetUrl.path_segment <$> "v1" :: segments_of c) [] = Some ((pattern_of c, h), matches) →
    list_to_map (zip (NetUrl.wildcards (NetUrl.parse_pattern (pattern_of c))) matches) = values_of c →
    ∃ h, NetUrl.find_handler (api ++ rest) (method_of c) (rooted ("v1" :: segments_of c)) =
      NetUrl.Matched (pattern_of c) (values_of c) h) as Hgo.
  { intros h matches Hp Hv. exists h. rewrite <- Hv. apply find_handler_rooted; [done|done|].
    rewrite fmap_app, Happ, Hm, app_nil_r by (by destruct c). exact Hp. }
  destruct c as [p|req|id|req| |name version|d]; cbn [segments_of fmap list_fmap] in Hgo;
    rewrite ?path_segment_escape in Hgo; cbn in Hc; unfold segment_ok in Hc.
  - apply (Hgo h1 []); reflexivity.
  - apply (Hgo h2 []); reflexivity.
  - apply (Hgo h3 [id]); [|reflexivity]. do 2 apply match_path_lit.
    apply match_path_wild; [reflexivity|tauto|reflexivity].
  - apply (Hgo h4 [sf_EvaluationId req]); [|reflexivity]. do 2 apply match_path_lit.
    apply match_path_wild; [reflexivity|tauto|reflexivity].
  - apply (Hgo h5 []); reflexivity.
  - apply (Hgo h6 [name; version]); [|reflexivity]. do 2 apply match_path_lit.
    apply match_path_wild; [reflexivity|tauto|]. apply match_path_lit.
    apply match_path_wild; [reflexivity|tauto|reflexivity].
  - apply (Hgo h7 []); reflexivity.
Qed.

(** ** Building *)
Definition opt_pair (name : string) (v : option string) : list (string * string) :=
  match v with Some v => [(name, v)] | None => [] end.

Definition query_pairs (p : ListEvaluationsParams) : list (string * string) :=
  opt_pair "limit" (Itoa <$> lp_Limit p) ++ opt_pair "offset" (Itoa <$> lp_Offset p) ++
  opt_pair "policyName" (lp_PolicyName p) ++ opt_pair "policyVersion" (lp_PolicyVersion p) ++
  opt_pair "outcome" (lp_Outcome p) ++ opt_pair "status" (lp_Status p).

Lemma query_fragments_pair {A} (style : A → option string) name (text : A → string) v :
  (∀ a, style a = Some (fragment (name, text a))) →
  OapiClient.query_fragments style v = Ok (fragment <$> opt_pair name (text <$> v)).
Proof using.
  intros Hs. destruct v as [a|]; [|done]. cbn. rewrite Hs. cbn.
  by rewrite split_on_without by by apply fragment_without.
Qed.

Lemma operation_url_call server c :
  OapiClient.url_path server = "/v1/" → params_ok c →
  OapiClient.operation_url server ("/" +:+ NetUrl.join_with "/" (segments_of c)) =
    (rooted ("v1" :: segments_of c), "").
Proof using.
  intros Hs Hc. pose proof (segments_plain c Hc) as [_ Hp]%Forall_cons_iff.
  assert (∀ sep, NetUrl.segment_char sep = false → sep ≠ "/"%char →
    without sep (NetUrl.join_with "/" (segments_of c)) = true) as Hw.
  { intros sep Hsep Hsl.
    assert (∀ s, bool_decide (s ∈ ["evaluations"; "feedback"; "policies"; "versions"; "validate"]) = true →
      without sep s = true) as Hlit.
    { intros s Hin%bool_decide_eq_true. eapply string_forall_impl.
      2:{ assert (NetUrl.string_forall NetUrl.segment_char s = true) as Hsc; [|exact Hsc].
          rewrite !elem_of_cons, elem_of_nil in Hin. by destruct_or! Hin; subst. }
      intros ch Hch. apply negb_true_iff, bool_decide_eq_false. intros ->. congruence. }
    assert (without sep "/" = true) as Hslash.
    { unfold without. cbn. by rewrite bool_decide_eq_false_2. }
    destruct c; cbn [segments_of NetUrl.join_with]; rewrite ?without_app, ?Hslash, ?escape_without by done;
      rewrite ?Hlit by reflexivity; reflexivity. }
  apply operation_url_rooted; [done|by destruct c|done|by apply Hw|by apply Hw].
Qed.

(** What the client sends for a call, without the body. *)
Definition client_headers (c : call) : option (list string) :=
  match c with CallCreateEvaluation req => (λ key, [key]) <$> cr_IdempotencyKey req | _ => None end.

Definition client_query (c : call) : string :=
  match c with
  | CallListEvaluations p => NetUrl.join_with "&" (fragment <$> query_pairs p)
  | _ => ""
  end.

(** The body a call is written with. *)
Definition client_body (c : call) : option json :=
  match c with
  | CallCreateEvaluation req => b ← cr_Body req; write client_CreateEvaluationRequest b
  | CallSubmitFeedback req => b ← sf_Body req; write client_SubmitFeedbackRequest b
  | CallValidatePolicy document => d ← document; write client_ValidatePolicyRequest d
  | _ => None
  end.

Lemma client_request_built server c :
  OapiClient.url_path server = "/v1/" → call_ok c → ∃ rq,
    client_request server c = Ok rq ∧ OapiClient.rq_method rq = method_of c ∧
    OapiClient.rq_path rq = rooted ("v1" :: segments_of c) ∧ OapiClient.rq_query rq = client_query c ∧
    OapiClient.rq_header rq !! "Idempotency-Key" = client_headers c ∧
    OapiClient.rq_header rq !! "X-Request-Id" = None ∧
    OapiClient.rq_body rq = json_text <$> client_body c.
Proof using param_laws style_laws.
  intros Hs Hc. pose proof (operation_url_call server c Hs (call_params_ok c Hc)) as Hu.
  destruct c as [p|req|id|req| |name version|document]; cbn [segments_of NetUrl.join_with] in Hu; cbn in Hc.
  - unfold client_request, ApiClient.NewListEvaluationsRequest.
    change ("/" +:+ "evaluations") with "/evaluations" in Hu. rewrite Hu. cbn [fst].
    rewrite !(query_fragments_pair (StyleQueryInteger _) _ Itoa) by (intros; apply style_query_integer).
    rewrite !(query_fragments_pair (StyleQueryString _) _ (λ s, s)) by (intros; apply style_query_string).
    cbn [mbind res_bind]. eexists. split; [reflexivity|]. split_and!; try done. cbn. unfold query_pairs.
    rewrite !fmap_app. by destruct p as [? ? [] [] [] []].
  - destruct Hc as (Hkey & b & Hb & _ & j & Hj & _). change ("/" +:+ "evaluations") with "/evaluations" in Hu.
    unfold client_request, ApiClient.NewCreateEvaluationRequest, OapiClient.json_Marshal,
      ApiClient.NewCreateEvaluationRequestWithBody. rewrite Hb, Hu. cbn [default from_option id]. rewrite Hj. cbn [fmap option_fmap option_map].
    cbn [OapiClient.or_error mbind res_bind]. unfold client_headers, client_body. rewrite Hb. cbn [mbind option_bind]. rewrite Hj.
    destruct (cr_IdempotencyKey req) as [key|].
    + rewrite style_header_uuid. eexists. split; [reflexivity|]. by split_and!.
    + eexists. split; [reflexivity|]. by split_and!.
  - unfold client_request, ApiClient.NewGetEvaluationRequest. rewrite style_path_uuid. cbn [OapiClient.or_error mbind res_bind].
    change ("/" +:+ "evaluations" +:+ "/" +:+ NetUrl.PathEscape id) with ("/evaluations/" +:+ NetUrl.PathEscape id) in Hu.
    rewrite Hu. eexists. split; [reflexivity|]. by split_and!.
  - destruct Hc as (_ & b & Hb & j & Hj & _).
    unfold client_request, ApiClient.NewSubmitFeedbackRequest, OapiClient.json_Marshal,
      ApiClient.NewSubmitFeedbackRequestWithBody. rewrite Hb. cbn [default from_option id]. rewrite Hj. cbn [fmap option_fmap option_map].
    cbn [OapiClient.or_error mbind res_bind]. rewrite style_path_uuid. cbn [OapiClient.or_error mbind res_bind].
    change ("/" +:+ "evaluations" +:+ "/" +:+ NetUrl.PathEscape (sf_EvaluationId req) +:+ "/" +:+ "feedback")
      with ("/evaluations/" +:+ NetUrl.PathEscape (sf_EvaluationId req) +:+ "/feedback") in Hu.
    rewrite Hu. unfold client_body. rewrite Hb. cbn [mbind option_bind]. rewrite Hj.
    eexists. split; [reflexivity|]. by split_and!.
  - unfold client_request, ApiClient.NewListPoliciesRequest. change ("/" +:+ "policies") with "/policies" in Hu.
    rewrite Hu. eexists. split; [reflexivity|]. by split_and!.
  - unfold client_request, ApiClient.NewGetPolicyRequest. rewrite !style_path_string. cbn [OapiClient.or_error mbind res_bind].
    change ("/" +:+ "policies" +:+ "/" +:+ NetUrl.PathEscape name +:+ "/" +:+ "versions" +:+ "/" +:+ NetUrl.PathEscape version)
      with ("/policies/" +:+ NetUrl.PathEscape name +:+ "/versions/" +:+ NetUrl.PathEscape version) in Hu.
    rewrite Hu. eexists. split; [reflexivity|]. by split_and!.
  - destruct Hc as (d & Hd & _ & j & Hj & _). change ("/" +:+ "policies" +:+ "/" +:+ "validate") with "/policies/validate" in Hu.
    unfold client_request, ApiClient.NewValidatePolicyRequest, OapiClient.json_Marshal,
      ApiClient.NewValidatePolicyRequestWithBody. rewrite Hd. cbn [default from_option id]. rewrite Hj. cbn [fmap option_fmap option_map].
    cbn [OapiClient.or_error mbind res_bind]. rewrite Hu. unfold client_body. rewrite ?Hd. cbn [mbind option_bind]. rewrite Hj.
    eexists. split; [reflexivity|]. by split_and!.
Qed.

(** ** Reading *)
Lemma query_bound p :
  opt_all int_ok (lp_Limit p) → opt_all int_ok (lp_Offset p) →
  let q := foldl add_pair ∅ (query_pairs p) in
  BindQueryInteger "limit" q = inl (lp_Limit p) ∧ BindQueryInteger "offset" q = inl (lp_Offset p) ∧
  BindQueryString "policyName" q = inl (lp_PolicyName p) ∧
  BindQueryString "policyVersion" q = inl (lp_PolicyVersion p) ∧
  BindQueryString "outcome" q = inl (lp_Outcome p) ∧ BindQueryString "status" q = inl (lp_Status p).
Proof using param_laws.
  destruct p as [limit offset policyName policyVersion outcome status]. cbn. intros Hl Ho.
  destruct limit, offset, policyName, policyVersion, outcome, status; split_and!;
    first [apply bind_integer_absent | apply bind_integer | apply bind_string_absent | apply bind_string];
    first [reflexivity | assumption].
Qed.

Lemma body_read {B} (c : codec B) b j :
  write c b = Some j → JsonText.json_ok j max_nesting = true → reads_back c b →
  read_body (λ j, read c true j (zero c)) (json_text j) = Some b.
Proof using.
  intros Hj Hok Hb. unfold read_body.
  pose proof (JsonText.json_prefix_text j "" Hok eq_refl) as Hp. rewrite append_nil in Hp. rewrite Hp. cbn.
  by apply Hb.
Qed.

(** The listener reads the request of a call as that call. *)
Lemma client_request_read c headers body :
  call_ok c → headers !! "Idempotency-Key" = client_headers c → ∃ complete,
    read_call (MkHttpRequest (method_of c) (pattern_of c) (values_of c)
      (NetUrl.parse_query (client_query c)) headers body) = inl complete ∧
    complete (default "" (json_text <$> client_body c)) = Some c.
Proof using param_laws.
  intros Hc Hh. destruct c as [p|req|id|req| |name version|document]; cbn in Hc.
  - destruct Hc as [Hl Ho]. unfold client_query. rewrite parse_query_fragments.
    destruct (query_bound p Hl Ho) as (H1' & H2' & H3' & H4' & H5' & H6').
    exists (λ _, Some (CallListEvaluations p)). split; [|done]. unfold read_call, params_ListEvaluations. cbn [Pattern Query].
    rewrite decide_True by done. rewrite H1', H2', H3', H4', H5', H6'. by destruct p.
  - destruct Hc as (Hkey & b & Hb & Hok & j & Hj & Hjok).
    unfold client_headers in Hh. unfold client_body. rewrite Hb. cbn [mbind option_bind]. rewrite Hj.
    cbn [fmap option_fmap option_map default from_option id].
    rewrite (proj1 client_requests_agree) in Hj.
    pose proof (body_read _ b j Hj Hjok (CreateEvaluationRequest_reads_back b Hok)) as Hread.
    exists (λ body, (λ b, CallCreateEvaluation (MkCreateEvaluationRequest (Some b) (cr_IdempotencyKey req))) <$>
      read_body (decode_CreateEvaluationRequest true) body). split.
    + unfold read_call, params_CreateEvaluation. cbn [Pattern Headers pattern_of]. rewrite Hh.
      rewrite decide_False, decide_True by done.
      destruct (cr_IdempotencyKey req) as [key|]; cbn; [by rewrite bind_header_uuid|done].
    + unfold decode_CreateEvaluationRequest. rewrite Hread. cbn. rewrite <- Hb. by destruct req.
  - exists (λ _, Some (CallGetEvaluation id)). split; [|done].
    unfold read_call, params_evaluationId, PathValue. cbn. by rewrite bind_path_uuid.
  - destruct Hc as (Hid & b & Hb & j & Hj & Hjok). unfold client_body. rewrite Hb. cbn [mbind option_bind]. rewrite Hj.
    cbn [fmap option_fmap option_map default from_option id].
    rewrite (proj1 (proj2 client_requests_agree)) in Hj.
    pose proof (body_read _ b j Hj Hjok (SubmitFeedbackRequest_reads_back b)) as Hread.
    exists (λ body, (λ b, CallSubmitFeedback (MkSubmitFeedbackRequest (sf_EvaluationId req) (Some b))) <$>
      read_body (decode_SubmitFeedbackRequest true) body). split.
    + unfold read_call, params_evaluationId, PathValue. cbn. by rewrite bind_path_uuid.
    + unfold decode_SubmitFeedbackRequest. rewrite Hread. cbn. rewrite <- Hb. by destruct req.
  - by exists (λ _, Some CallListPolicies).
  - destruct Hc as [(Hn & _) (Hv & _)]. exists (λ _, Some (CallGetPolicy name version)). split; [|done].
    unfold read_call, params_GetPolicy, PathValue. cbn. rewrite !bind_path by done. reflexivity.
  - destruct Hc as (d & -> & Hd & j & Hj & Hjok). unfold client_body. cbn [mbind option_bind]. rewrite Hj.
    cbn [fmap option_fmap option_map default from_option id].
    rewrite (proj2 (proj2 client_requests_agree)) in Hj.
    pose proof (body_read _ d j Hj Hjok (ValidatePolicyRequest_reads_back d Hd)) as Hread.
    exists (λ body, (λ d, CallValidatePolicy (Some d)) <$> read_body (decode_ValidatePolicyRequest true) body).
    split; [done|]. unfold decode_ValidatePolicyRequest. by rewrite Hread.
Qed.

Lemma router_dispatch (r : Router (W:=W)) c : params_ok c →
  ∃ h, NetUrl.find_handler (Router_Handler r) (method_of c) (rooted ("v1" :: segments_of c)) =
    NetUrl.Matched (pattern_of c) (values_of c) h.
Proof using.
  intros Hc. apply api_dispatch; [done|]. apply list.Forall_app. split; [by repeat constructor|].
  unfold mountMCP. destruct (MCPHandler (config r)); by repeat constructor.
Qed.

(** The body of a call passes the strict middleware. *)
Lemma client_body_strict c :
  call_ok c → strictJSONTarget (pattern_of c) = true →
  decodeSingleStrictJSON (pattern_of c) (default "" (json_text <$> client_body c)) = true.
Proof using.
  assert (∀ {B} (cd : codec B) b j pattern, write cd b = Some j → JsonText.json_ok j max_nesting = true →
    reads_back cd b → (∀ v, decode_strict pattern v = bool_decide (is_Some (read cd true v (zero cd)))) →
    decodeSingleStrictJSON pattern (json_text j) = true) as Hgo.
  { intros B cd b j pattern Hj Hok Hb Hd. unfold decodeSingleStrictJSON.
    pose proof (JsonText.json_prefix_text j "" Hok eq_refl) as Hp. rewrite append_nil in Hp. rewrite Hp.
    rewrite Hd, (Hb true j Hj). done. }
  destruct c as [p|req|id|req| |name version|document]; cbn [pattern_of]; intros Hc Ht; cbn in Hc; try done.
  - destruct Hc as (_ & b & Hb & Hok & j & Hj & Hjok). unfold client_body. rewrite Hb. cbn [mbind option_bind].
    rewrite Hj. by eapply Hgo; [..|apply CreateEvaluationRequest_reads_back|].
  - destruct Hc as (_ & b & Hb & j & Hj & Hjok). unfold client_body. rewrite Hb. cbn [mbind option_bind].
    rewrite Hj. by eapply Hgo; [..|apply SubmitFeedbackRequest_reads_back|].
  - destruct Hc as (d & -> & Hd & j & Hj & Hjok). unfold client_body. cbn [mbind option_bind].
    rewrite Hj. by eapply Hgo; [..|apply ValidatePolicyRequest_reads_back|].
Qed.

Definition wire (rq : OapiClient.request) (headers : gmap string (list string)) : rawRequest :=
  MkRaw (OapiClient.rq_method rq) (OapiClient.rq_path rq) (OapiClient.rq_query rq) headers
    (default "" (OapiClient.rq_body rq), None).

(** A call of the client is that call at the server: the listener dispatches the request to
    the operation it is meant for, and past the gate that operation runs with exactly the
    arguments of the call and its response object goes out. *)
Lemma client_call_served (r : Router (W:=W)) base c w :
  OapiClient.url_path base = "/v1/" → call_ok c → ∃ rq, client_request base c = Ok rq ∧
  OapiClient.rq_header rq !! "X-Request-Id" = None ∧
  ∀ headers, headers !! "Idempotency-Key" = OapiClient.rq_header rq !! "Idempotency-Key" →
  ∃ o, ServeHTTP (Router_Handler r) (wire rq headers) w = Answered o ∧
  ∀ w1 id w2,
    let req := MkHttpRequest (OapiClient.rq_method rq) (pattern_of c) (values_of c)
      (NetUrl.parse_query (OapiClient.rq_query rq)) headers (default "" (OapiClient.rq_body rq), None) in
    sanitiseRequestID (RequestIDHeader req) w = (w1, id) →
    limiter_Allow (NewRateLimiter "api" (RequestsPerMinute (config r)) (RateLimitBurst (config r))) w1
      = (w2, true) →
    authorized (APIToken (config r)) req →
    strlen (Body req).1 <= MaxRequestBytes (config r) →
    ∃ w3 answer, run_call (server r) id c w2 = (w3, answer) ∧ ends c w2 w3 answer ∧
      out_world o = w3 ∧
      out_reply o = Some (match answer with Ok reply => final_reply reply | Err _ => panic_reply end) ∧
      out_headers o !! "Content-Type" = Some ContentTypeJSON.
Proof using param_laws style_laws.
  intros Hbase Hc. destruct (client_request_built base c Hbase Hc) as (rq & Hrq & Hm & Hp & Hq & Hk & Hx & Hb).
  exists rq. do 2 (split; [done|]). intros headers Hh. rewrite Hk in Hh.
  destruct (router_dispatch r c (call_params_ok c Hc)) as [h Hf].
  destruct (rest_request_served r (wire rq headers) w (pattern_of c) (values_of c) h) as (o & Ho & Hserved).
  { cbn [wire raw_method raw_path]. by rewrite Hm, Hp. }
  { destruct c; by in_list. }
  exists o. split; [done|]. intros w1 id w2 req Hid Hl Ha Hsize.
  cbn [wire raw_method raw_path raw_query raw_headers raw_body] in Hserved. rewrite Hq, Hm, Hb in Hserved.
  subst req. rewrite Hq, Hm, Hb in Hid, Ha, Hsize.
  destruct (client_request_read c headers (default "" (json_text <$> client_body c), None) Hc Hh)
    as (complete & Hread & Hcomplete).
  rewrite Hread in Hserved. destruct (Hserved w1 id w2 true Hid Hl) as [Hct Hg]. clear Hserved.
  unfold gate in Hg. cbn [negb] in Hg. rewrite decide_True in Hg by done.
  unfold max_bytes in Hg. cbn [Body fst snd Pattern] in Hg, Hsize.
  replace (MaxRequestBytes (config r) <? _) with false in Hg by lia. cbn [fst snd] in Hg.
  assert (∃ c' w3 answer, complete (default "" (json_text <$> client_body c)) = Some c' ∧
    run_call (server r) id c' w2 = (w3, answer) ∧ ends c' w2 w3 answer ∧ out_world o = w3 ∧
    out_reply o = Some (match answer with Ok reply => final_reply reply | Err _ => panic_reply end))
    as (c' & w3 & answer & Hc' & Hr & Hi & Hw & Ho').
  { destruct (strictJSONTarget (pattern_of c)) eqn:Et; cbn [negb] in Hg;
      [rewrite (client_body_strict c Hc Et) in Hg|];
      destruct Hg as (c' & w3 & answer & ? & ? & ? & Ha'); exists c', w3, answer;
      destruct answer; destruct_and!; done. }
  rewrite Hcomplete in Hc'. injection Hc' as <-. exists w3, answer. split_and!; try done.
  rewrite Hct. unfold json_headers. by rewrite lookup_insert_eq.
Qed.

(** ** Replies *)

(** The client's reader of a call. *)
Definition parse_call (c : call) : OapiClient.httpResponse → res ApiClient.parsedResponse :=
  match c with
  | CallListEvaluations _ => ApiClient.ParseListEvaluationsResponse
  | CallCreateEvaluation _ => ApiClient.ParseCreateEvaluationResponse
  | CallGetEvaluation _ => ApiClient.ParseGetEvaluationResponse
  | CallSubmitFeedback _ => ApiClient.ParseSubmitFeedbackResponse
  | CallListPolicies => ApiClient.ParseListPoliciesResponse
  | CallGetPolicy _ _ => ApiClient.ParseGetPolicyResponse
  | CallValidatePolicy _ => ApiClient.ParseValidatePolicyResponse
  end.

(** The generated client and the generated server have the same table. *)
Lemma parse_call_objects c : parse_call c = ApiClient.parse_response (objects_of c).
Proof using. by destruct c. Qed.

Definition newline : string := String "010" EmptyString.

(** A reply as the listener writes it: [json.Encoder] ends the text with a newline. *)
Definition wire_reply (reply : Reply) (headers : gmap string string) (j : json) : OapiClient.httpResponse :=
  OapiClient.MkHttpResponse (rp_status reply) headers (json_text j +:+ newline, None).

Lemma find_case (cases : list (Z * bodyKind)) status kind :
  NoDup (cases.*1) → (status, kind) ∈ cases →
  List.find (λ c : Z * bodyKind, true && (status =? c.1)) cases = Some (status, kind).
Proof using.
  induction cases as [|[s k] cases IH]; [by intros _ ?%elem_of_nil|].
  cbn. intros [Hs Hn]%list.NoDup_cons [[= <- <-]|Hin]%elem_of_cons; [by rewrite Z.eqb_refl|].
  destruct (status =? s) eqn:E; [|by apply IH]. apply Z.eqb_eq in E as ->. exfalso. apply Hs.
  apply list_elem_of_fmap. by exists (s, kind).
Qed.

Lemma objects_distinct c : NoDup ((objects_of c).*1).
Proof using. apply (bool_decide_unpack _). by destruct c. Qed.

Lemma unmarshal_reads body p kind j :
  payload_of body = Some p → kind_of body = Some kind → payload_ok p → write_payload p = Some j →
  ApiClient.unmarshal_payload kind j = Some p.
Proof using.
  intros Hp Hk Hok Hj. pose proof (payload_reads_back p j false Hok Hj) as Hr.
  destruct client_replies_agree as (Eerr & Eev & Eevs & Efb & Eps & Ep & Ev).
  destruct body; cbn in Hp, Hk; try done; injection Hp as <-; injection Hk as <-;
    unfold ApiClient.unmarshal_payload; rewrite ?Eerr, ?Eev, ?Eevs, ?Efb, ?Eps, ?Ep, ?Ev; by rewrite Hr.
Qed.

Lemma json_parse_wire j : JsonText.json_ok j max_nesting = true → json_parse (json_text j +:+ newline) = Some j.
Proof using.
  intros Hok. unfold json_parse. rewrite JsonText.json_prefix_text by done. by rewrite decide_True.
Qed.

(** A declared reply, read. *)
Lemma declared_reply_read c reply headers p j :
  payload_of (rp_body reply) = Some p → payload_ok p → write_payload p = Some j →
  JsonText.json_ok j max_nesting = true → headers !! "Content-Type" = Some ContentTypeJSON →
  implements (objects_of c) reply = true → ∃ parsed,
    parse_call c (wire_reply reply headers j) = Ok parsed ∧
    ApiClient.StatusCode parsed = rp_status reply ∧
    ∀ status, ApiClient.GetJSON status parsed = if decide (status = rp_status reply) then Some p else None.
Proof using.
  intros Hp Hok Hj Hjok Hct. rewrite parse_call_objects. unfold ApiClient.parse_response, wire_reply.
  unfold OapiClient.read_all, OapiClient.header_get.
  cbn [OapiClient.hr_Body OapiClient.hr_Header OapiClient.hr_StatusCode fst snd mbind res_bind]. rewrite Hct.
  change (NetUrl.contains_string "json" (default "" (Some ContentTypeJSON))) with true.
  unfold implements. destruct (kind_of (rp_body reply)) as [kind|] eqn:Hk; [|done].
  intros Hin%bool_decide_eq_true. rewrite (find_case _ _ kind (objects_distinct c) Hin).
  rewrite json_parse_wire by done. cbn [mbind option_bind].
  rewrite (unmarshal_reads (rp_body reply) p kind j Hp Hk Hok Hj).
  eexists. split; [reflexivity|]. split; [done|]. intros status. unfold ApiClient.GetJSON. cbn.
  by repeat case_decide.
Qed.

(** C31: The client returns what the operation answered, although it reads into types of its
    own ([ClientTypes]) and the server writes others.  Provided the leaves of the value
    survive their own text (numbers that print and parse back, integers of 64 bits,
    identifiers in canonical form, free-form values that decode to themselves: [payload_ok],
    a hypothesis here) and the text is UTF-8 nested no deeper than the decoder reads, a reply
    the operation declares is parsed without an error, and the field of its status holds
    exactly the value that was encoded; a reply with a status the operation does not declare,
    such as the 429 of every operation but one, is parsed without an error into a response
    none of whose fields is set. *)
Theorem client_reads_reply c reply headers p j :
  payload_of (rp_body reply) = Some p → payload_ok p → write_payload p = Some j →
  JsonText.json_ok j max_nesting = true → headers !! "Content-Type" = Some ContentTypeJSON →
  (implements (objects_of c) reply = true → ∃ parsed,
     parse_call c (wire_reply reply headers j) = Ok parsed ∧
     ApiClient.StatusCode parsed = rp_status reply ∧
     ∀ status, ApiClient.GetJSON status parsed = if decide (status = rp_status reply) then Some p else None) ∧
  ((∀ kind, (rp_status reply, kind) ∉ objects_of c) → ∃ parsed,
     parse_call c (wire_reply reply headers j) = Ok parsed ∧
     ApiClient.StatusCode parsed = rp_status reply ∧ ∀ status, ApiClient.GetJSON status parsed = None).
Proof using.
  intros Hp Hok Hj Hjok Hct. split; [by apply declared_reply_read|].
  intros Hnot. rewrite parse_call_objects. unfold ApiClient.parse_response, wire_reply.
  unfold OapiClient.read_all, OapiClient.header_get.
  cbn [OapiClient.hr_Body OapiClient.hr_Header OapiClient.hr_StatusCode fst snd mbind res_bind].
  destruct (List.find _ (objects_of c)) as [[status kind]|] eqn:E.
  - exfalso. apply List.find_some in E as [Hin E]. cbn in E. apply andb_prop in E as [_ E].
    apply Z.eqb_eq in E. subst status. apply (Hnot kind). by apply list_elem_of_In.
  - eexists. split; [reflexivity|]. by split.
Qed.

(** The statuses the middlewares refuse with and an operation does not declare. *)
Lemma undeclared_refusals c :
  filter (λ status, ¬ status ∈ (objects_of c).*1) [400; 401; 413; 429] =
  match c with
  | CallCreateEvaluation _ => []
  | CallListPolicies => [400; 413; 429]
  | CallValidatePolicy _ => [429]
  | _ => [413; 429]
  end.
Proof using. by destruct c. Qed.

(** ** A client on the listener *)

(** What the transport brings back. *)
Definition over_listener (r : Router (W:=W)) (rq : OapiClient.request) (w : St W)
  : St W * res OapiClient.httpResponse :=
  match ServeHTTP (Router_Handler r) (wire rq (OapiClient.rq_header rq)) w with
  | Answered o =>
      (out_world o,
       match (reply ← out_reply o; j ← encode_body (rp_body reply); Some (wire_reply reply (out_headers o) j)) with
       | Some rsp => Ok rsp
       | None => Err (EForeign "EOF")
       end)
  | Redirected _ => (w, Err (EForeign "redirected"))
  | Refused status => (w, Ok (OapiClient.MkHttpResponse status ∅ ("", None)))
  end.

(** An editor that adds the credential. *)
Definition bearer (token : string) : OapiClient.RequestEditorFn := λ rq,
  Ok (OapiClient.MkRequest (OapiClient.rq_method rq) (OapiClient.rq_path rq) (OapiClient.rq_query rq)
    (OapiClient.header_set "Authorization" (scheme +:+ token) (OapiClient.rq_header rq)) (OapiClient.rq_body rq)).

(** The client's call that reads its response. *)
Definition with_response (cl : OapiClient.Client (St W)) (c : call) : St W → St W * res ApiClient.parsedResponse :=
  match c with
  | CallListEvaluations p => ApiClient.ListEvaluationsWithResponse cl (Some p) []
  | CallCreateEvaluation req => ApiClient.CreateEvaluationWithResponse cl (cr_IdempotencyKey req)
      (default (zero client_CreateEvaluationRequest) (cr_Body req)) []
  | CallGetEvaluation id => ApiClient.GetEvaluationWithResponse cl id []
  | CallSubmitFeedback req => ApiClient.SubmitFeedbackWithResponse cl (sf_EvaluationId req)
      (default ("", None) (sf_Body req)) []
  | CallListPolicies => ApiClient.ListPoliciesWithResponse cl []
  | CallGetPolicy name version => ApiClient.GetPolicyWithResponse cl name version []
  | CallValidatePolicy document => ApiClient.ValidatePolicyWithResponse cl (default [] document) []
  end.

Lemma with_response_send cl c w :
  with_response cl c w = ApiClient.and_parse
    (OapiClient.send cl (client_request (OapiClient.Server cl) c) []) (parse_call c) w.
Proof using. by destruct c. Qed.

Lemma encode_payload reply p j :
  payload_of (rp_body reply) = Some p → write_payload p = Some j → encode_body (rp_body reply) = Some j.
Proof using. destruct (rp_body reply); cbn; try done; intros [= <-]; done. Qed.

(** C30: A call through the client is the call.  For a client of a server mounted at [/v1/]
    that holds the token, every call whose values the wire represents, whatever characters
    its names and filters hold, is dispatched to its operation; within the budget and the
    size limit the operation runs once, with exactly the arguments of the call, the state
    moves as the operation moves it, and the client returns in the field of the status the
    very value the operation answered with.  (A creation that panics on a negative token
    count reaches the client as the 500 it is, in the field of the failure envelope.) *)
Theorem client_call_is_the_call (r : Router (W:=W)) base c w w1 id w2 :
  OapiClient.url_path base = "/v1/" → call_ok c →
  uuid_NewString w = (w1, id) →
  limiter_Allow (NewRateLimiter "api" (RequestsPerMinute (config r)) (RateLimitBurst (config r))) w1
    = (w2, true) →
  strlen (default "" (json_text <$> client_body c)) <= MaxRequestBytes (config r) →
  ∃ w3 answer, run_call (server r) id c w2 = (w3, answer) ∧
  let returns status p := ∃ parsed,
    with_response (OapiClient.MkClient base (over_listener r) [bearer (APIToken (config r))]) c w =
      (w3, Ok parsed) ∧
    ApiClient.StatusCode parsed = status ∧ ApiClient.GetJSON status parsed = Some p in
  match answer with
  | Ok reply => ∀ p j, payload_of (rp_body reply) = Some p → payload_ok p → write_payload p = Some j →
      JsonText.json_ok j max_nesting = true → returns (rp_status reply) p
  | Err _ => (∃ request, c = CallCreateEvaluation request) ∧ panicked w2 w3 = true ∧
      ∃ e, returns 500 (PayloadError e)
  end.
Proof using param_laws style_laws.
  intros Hbase Hc Hid Hl Hsize.
  destruct (client_call_served r base c w Hbase Hc) as (rq & Hrq & Hx & Hserved).
  destruct (client_request_built base c Hbase Hc) as (rq' & Hrq' & _ & _ & _ & _ & _ & Hb).
  rewrite Hrq in Hrq'. injection Hrq' as <-.
  set (headers := OapiClient.header_set "Authorization" (scheme +:+ APIToken (config r)) (OapiClient.rq_header rq)).
  destruct (Hserved headers) as (o & Ho & Hrun).
  { by apply lookup_insert_ne. }
  destruct (Hrun w1 id w2) as (w3 & answer & Hcall & Hi & Hw & Hr & Hct).
  - unfold RequestIDHeader, header_get. cbn [Headers]. unfold headers, OapiClient.header_set.
    rewrite lookup_insert_ne, Hx by done. cbn. done.
  - done.
  - right. unfold Authorization, header_get. cbn [Headers]. unfold headers, OapiClient.header_set.
    by rewrite lookup_insert_eq.
  - cbn [Body fst]. by rewrite Hb.
  - exists w3, answer. split; [done|]. cbv zeta.
    assert (∀ reply p j, implements (objects_of c) reply = true → out_reply o = Some reply →
      payload_of (rp_body reply) = Some p → payload_ok p → write_payload p = Some j →
      JsonText.json_ok j max_nesting = true → ∃ parsed,
      with_response (OapiClient.MkClient base (over_listener r) [bearer (APIToken (config r))]) c w =
        (w3, Ok parsed) ∧
      ApiClient.StatusCode parsed = rp_status reply ∧ ApiClient.GetJSON (rp_status reply) parsed = Some p)
      as Hread.
    { clear Hr Hi. intros reply p j Hi Hr Hp Hok Hj Hjok.
      assert (encode_body (rp_body reply) = Some j) as Henc by by apply (encode_payload reply p).
      destruct (declared_reply_read c reply (out_headers o) p j Hp Hok Hj Hjok Hct Hi) as (parsed & Hparse & Hst & Hget).
      exists parsed. rewrite with_response_send. unfold ApiClient.and_parse, OapiClient.send.
      cbn [OapiClient.Server OapiClient.Doer]. rewrite Hrq. cbn.
      unfold over_listener. cbn [OapiClient.rq_header].
      change (wire _ _) with (wire rq headers). rewrite Ho, Hr. cbn [mbind option_bind]. rewrite Henc. cbn.
      rewrite Hw, Hparse. split_and!; [done|done|]. rewrite Hget. by rewrite decide_True. }
    destruct answer as [reply|err].
    + intros p j Hp Hok Hj Hjok. apply (Hread reply p j); try done.
      rewrite Hr. unfold final_reply. by rewrite (encode_payload reply p j Hp Hj), decide_True.
    + destruct Hi as [Hp [request ->]]. split; [by eexists|]. split; [done|].
      eexists. eapply (Hread panic_reply); [done|exact Hr|reflexivity|..].
      * done.
      * reflexivity.
      * vm_compute. reflexivity.
Qed.

End client.

(** ** On a running listener *)
Import MemStore ServiceFixtures HttpFixtures.

Definition base_url : string := "http://localhost:8080/v1/".

(** A name with a slash and a version with a space, that no policy has. *)
Definition odd_call : call := CallGetPolicy "a/b" "1 0".

Definition odd_reply : Reply :=
  match (run_call (server router) fixed_id odd_call (start script)).2 with
  | Ok reply => reply | Err _ => bodyRequired end.

Definition envelope_of (reply : Reply) : payload :=
  match payload_of (rp_body reply) with Some p => p | None => PayloadError (MkEnvelope "" ANil "") end.
Definition json_of (p : payload) : json := match write_payload p with Some j => j | None => JNull end.

Lemma client_call_is_the_call_witness :
  rp_status odd_reply = 404 ∧ ∃ w3 parsed,
    with_response (OapiClient.MkClient base_url (over_listener router) [bearer "secret"]) odd_call (start script) =
      (w3, Ok parsed) ∧ ApiClient.GetJSON 404 parsed = Some (envelope_of odd_reply).
Proof.
  split; [vm_compute; reflexivity|].
  destruct (client_call_is_the_call (canonical:=canonical_uuid) router base_url odd_call (start script) (start script)
    fixed_id (start script)) as (w3 & answer & Hrun & Hread);
    [vm_compute; reflexivity|repeat split; intros E; discriminate E|reflexivity|reflexivity
    |apply Z.leb_le; reflexivity|].
  destruct answer as [reply|err]; [|destruct Hread as [[req E] _]; discriminate E].
  assert (reply = odd_reply) as ->.
  { unfold odd_reply. rewrite Hrun. reflexivity. }
  destruct (Hread (envelope_of odd_reply) (json_of (envelope_of odd_reply))) as (parsed & Hp & _ & Hget);
    [vm_compute; reflexivity..|].
  exists w3, parsed. split; [exact Hp|]. exact Hget.
Defined.

Definition too_many : Reply := error_reply 429 (MkError ErrorCodeTooManyRequests "Too many requests" None).

Definition json_only : gmap string string := json_headers ∅.
Lemma json_only_type : json_only !! "Content-Type" = Some ContentTypeJSON.
Proof. by vm_compute. Qed.

(** The create call returns the envelope of a 429; the listing returns nothing for it. *)
Lemma client_reads_reply_witness :
  (∃ parsed, parse_call (CallCreateEvaluation (MkCreateEvaluationRequest None None))
      (wire_reply too_many json_only (json_of (envelope_of too_many))) = Ok parsed ∧
    ApiClient.GetJSON 429 parsed = Some (envelope_of too_many)) ∧
  (∃ parsed, parse_call CallListPolicies (wire_reply too_many json_only (json_of (envelope_of too_many))) = Ok parsed ∧
    ApiClient.GetJSON 429 parsed = None).
Proof.
  split.
  - destruct (proj1 (client_reads_reply (CallCreateEvaluation (MkCreateEvaluationRequest None None)) too_many
      json_only (envelope_of too_many) (json_of (envelope_of too_many))
      eq_refl eq_refl eq_refl eq_refl json_only_type) eq_refl) as (parsed & Hp & _ & Hg).
    exists parsed. split; [exact Hp|]. exact (Hg 429).
  - destruct (proj2 (client_reads_reply CallListPolicies too_many
      json_only (envelope_of too_many) (json_of (envelope_of too_many))
      eq_refl eq_refl eq_refl eq_refl json_only_type)) as (parsed & Hp & _ & Hg).
    { intros [] Hin%(bool_decide_pack (_ ∈ ListPoliciesResponseObject)); exact Hin. }
    exists parsed. split; [exact Hp|]. exact (Hg 429).
Defined.

(** ** What a parse sets is declared *)
Section declared.
Import ApiClient.
Context `{UuidText}.

Lemma unmarshal_payload_kind kind j p : unmarshal_payload kind j = Some p → payload_kind p = kind.
Proof using. by destruct kind; intros (? & _ & ->)%fmap_Some. Qed.

Lemma parse_response_declared cases rsp r status p :
  parse_response cases rsp = Ok r → pr_JSON r = Some (status, p) →
  (status, payload_kind p) ∈ cases ∧ status = StatusCode r ∧ GetJSON status r = Some p.
Proof using.
  unfold parse_response. destruct (read_all (hr_Body rsp)) as [text|]; [|done]. cbn [mbind res_bind].
  destruct (List.find _ cases) as [[s kind]|] eqn:Ef; [|by intros [= <-]].
  destruct (json_parse text ≫= unmarshal_payload kind) as [dest|] eqn:Ed; [|done].
  intros [= <-]. cbn [pr_JSON]. intros [= -> ->]. apply bind_Some in Ed as (j & _ & Ed).
  apply List.find_some in Ef as [Hin [_ Hs]%andb_true_iff]. cbn in Hs.
  rewrite (unmarshal_payload_kind _ _ _ Ed). unfold GetJSON, StatusCode. cbn. rewrite decide_True by done.
  split_and!; [by apply list_elem_of_In|lia|done].
Qed.

(** Each operation parses into the fields of its own response type. *)
Lemma parsed_fields_declared fields parse rsp r status p :
  (fields, parse) ∈
    [(ListEvaluationsResponse, ParseListEvaluationsResponse); (CreateEvaluationResponse, ParseCreateEvaluationResponse);
     (GetEvaluationResponse, ParseGetEvaluationResponse); (SubmitFeedbackResponse, ParseSubmitFeedbackResponse);
     (ListPoliciesResponse, ParseListPoliciesResponse); (ValidatePolicyResponse, ParseValidatePolicyResponse);
     (GetPolicyResponse, ParseGetPolicyResponse)] →
  parse rsp = Ok r → pr_JSON r = Some (status, p) → (status, payload_kind p) ∈ fields ∧ status = StatusCode r.
Proof using.
  intros Hin Hp Hj. assert (parse = parse_response fields) as ->.
  { rewrite !elem_of_cons, elem_of_nil in Hin. by destruct_or!; simplify_eq. }
  by destruct (parse_response_declared _ _ _ _ _ Hp Hj) as (? & ? & _).
Qed.

End declared.

End ClientTheorems.
