(* ===== verification/ApiDocument.v ===== *)
(** * The embedded OpenAPI document

    The last part of [internal/pkg/http/api/api.gen.go]: the chunks of the document, their
    decoding, and the loading of the result.  The Modules [Base64] and [Flate] are what it
    uses of [encoding/base64] and [compress/flate]; [openapi3.Loader] is a parameter. *)

From S2P Require Import Prelude GoFloat GoAny NetUrl Store.
From Stdlib Require Import Ascii String.
From stdpp Require Import options.

(** ** [base64.StdEncoding.DecodeString] *)
Module Base64.

Definition sextet (c : ascii) : option N :=
  let b := byte c in
  if in_range 0x41 0x5A c then Some (b - 0x41)%N
  else if in_range 0x61 0x7A c then Some (b - 0x61 + 26)%N
  else if in_range 0x30 0x39 c then Some (b - 0x30 + 52)%N
  else if (b =? 0x2B)%N then Some 62%N
  else if (b =? 0x2F)%N then Some 63%N
  else None.

Definition is_newline (c : ascii) : bool := (byte c =? 0x0A)%N || (byte c =? 0x0D)%N.
Definition is_pad (c : ascii) : bool := (byte c =? 0x3D)%N.

(** Quanta of four characters; padding ends the text, and the bits it leaves over are not
    looked at. *)
Fixpoint quanta (l : list ascii) : option (list N) :=
  match l with
  | [] => Some []
  | c0 :: c1 :: c2 :: c3 :: l =>
      a ← sextet c0; b ← sextet c1;
      if is_pad c2 && is_pad c3 && bool_decide (l = []) then Some [a * 4 + b / 16]%N
      else c ← sextet c2;
      if is_pad c3 && bool_decide (l = []) then Some [a * 4 + b / 16; b mod 16 * 16 + c / 4]%N
      else d ← sextet c3;
      rest ← quanta l;
      Some (a * 4 + b / 16 :: b mod 16 * 16 + c / 4 :: c mod 4 * 64 + d :: rest)%N
  | _ => None
  end.

(** Line ends are skipped wherever they are. *)
Definition DecodeString (s : string) : option (list N) :=
  quanta (base.filter (λ c, is_newline c = false) (list_ascii_of_string s)).

End Base64.

(** ** [flate.NewReader], read to the end *)
Module Flate.

(** The bits not yet read, each byte from its least significant bit; a byte boundary is
    where a multiple of eight is left.  An error is [None]: the caller drops what it read. *)
Abbreviation stream := (list bool).

Definition bits_of_byte (b : N) : stream := N.testbit b <$> [0; 1; 2; 3; 4; 5; 6; 7]%N.
Definition bits_of (l : list N) : stream := l ≫= bits_of_byte.

(** A number of [n] bits, least significant first; an end of the input is an error. *)
Fixpoint take_bits (n : nat) (s : stream) : option (N * stream) :=
  match n, s with
  | O, _ => Some (0%N, s)
  | S n, [] => None
  | S n, b :: s => '(v, s) ← take_bits n s; Some ((if b then N.succ_double v else N.double v), s)
  end.

(** *** Huffman codes *)

(** A code as the tree of its words; nothing is under [Free]. *)
Inductive code : Set := Free | Symbol (value : N) | Branch (zero one : code).

(** The words count up with their length and, in one length, in the order of the symbols,
    so the tree is filled from the left; what does not fit is left over. *)
Fixpoint fill (depth here : nat) (pending : list (N * nat)) : code * list (N * nat) :=
  match pending with
  | [] => (Free, [])
  | (symbol, len) :: rest =>
      if decide (len = here) then (Symbol symbol, rest)
      else match depth with
      | O => (Free, pending)
      | S depth =>
          let zero := fill depth (S here) pending in
          let one := fill depth (S here) zero.2 in
          (Branch zero.1 one.1, one.2)
      end
  end.

Fixpoint complete (c : code) : bool :=
  match c with Free => false | Symbol _ => true | Branch zero one => complete zero && complete one end.

Definition maxCodeLen : nat := 15.

(** [huffmanDecoder.init]: a code without words and a code of one word of one bit are
    accepted, any other has to be complete. *)
Definition huffman_init (lengths : list nat) : option code :=
  let words := imap (λ i len, (N.of_nat i, len)) lengths in
  let pending := seq 1 maxCodeLen ≫= λ len, base.filter (λ w, w.2 = len) words in
  let filled := fill maxCodeLen 0 pending in
  if decide (pending = []) then Some Free
  else if decide (filled.2 = []) then
    if complete filled.1 || bool_decide (snd <$> pending = [1]) then Some filled.1 else None
  else None.

(** [huffSym] *)
Fixpoint huffSym (c : code) (s : stream) : option (N * stream) :=
  match c, s with
  | Free, _ => None
  | Symbol v, _ => Some (v, s)
  | Branch zero one, [] => None
  | Branch zero one, b :: s => huffSym (if b then one else zero) s
  end.

(** *** Blocks *)

(** The base and the number of extra bits of a length symbol. *)
Definition length_base (v : N) : option (N * nat) :=
  if (v <? 265)%N then Some (v - 254, 0%nat)%N
  else if (v <? 269)%N then Some (v * 2 - 519, 1%nat)%N
  else if (v <? 273)%N then Some (v * 4 - 1057, 2%nat)%N
  else if (v <? 277)%N then Some (v * 8 - 2149, 3%nat)%N
  else if (v <? 281)%N then Some (v * 16 - 4365, 4%nat)%N
  else if (v <? 285)%N then Some (v * 32 - 8861, 5%nat)%N
  else if (v <? 286)%N then Some (258%N, 0%nat)
  else None.

(** A distance from its symbol. *)
Definition read_distance (dist : N) (s : stream) : option (N * stream) :=
  if (dist <? 4)%N then Some (dist + 1, s)%N
  else if (dist <? 30)%N then
    let nb := N.to_nat ((dist - 2) / 2) in
    '(extra, s) ← take_bits nb s;
    Some (2 ^ (N.of_nat nb + 1) + 1 + (dist mod 2 * 2 ^ N.of_nat nb + extra), s)%N
  else None.

(** [n] bytes from [d] back; what was written is kept latest first. *)
Fixpoint copy (fuel n d : nat) (out : list N) : list N :=
  if decide (n <= d) then take n (drop (d - n) out) ++ out
  else match fuel with
       | O => out
       | S fuel => copy fuel (n - d) d (take d out ++ out)
       end.

(** [huffmanBlock], up to the end of block symbol.  Every symbol has a bit, so the bits left
    are fuel enough. *)
Fixpoint huffmanBlock (fuel : nat) (literals : code) (distances : stream → option (N * stream))
  (s : stream) (out : list N) : option (stream * list N) :=
  match fuel with
  | O => None
  | S fuel =>
      '(v, s) ← huffSym literals s;
      if (v <? 256)%N then huffmanBlock fuel literals distances s (v :: out)
      else if (v =? 256)%N then Some (s, out)
      else
        '(base, n) ← length_base v;
        '(extra, s) ← take_bits n s;
        '(symbol, s) ← distances s;
        '(dist, s) ← read_distance symbol s;
        if decide (N.to_nat dist <= List.length out) then
          let n := N.to_nat (base + extra) in
          huffmanBlock fuel literals distances s (copy n n (N.to_nat dist) out)
        else None
  end.

(** [dataBlock]: from the next byte, a length, its complement and that many bytes. *)
Fixpoint take_bytes (n : nat) (s : stream) (out : list N) : option (stream * list N) :=
  match n with
  | O => Some (s, out)
  | S n => '(b, s) ← take_bits 8 s; take_bytes n s (b :: out)
  end.

Definition dataBlock (s : stream) (out : list N) : option (stream * list N) :=
  '(n, s) ← take_bits 16 (drop (List.length s mod 8) s);
  '(nn, s) ← take_bits 16 s;
  if decide (nn = N.lxor n 0xFFFF) then take_bytes (N.to_nat n) s out else None.

Definition fixedLengths : list nat :=
  replicate 144 8 ++ replicate 112 9 ++ replicate 24 7 ++ replicate 8 8.

(** The distance of a fixed block has five bits, the first the most significant. *)
Definition fixed_distance (s : stream) : option (N * stream) :=
  '(v, s) ← take_bits 5 s;
  Some (foldl (λ r i, if N.testbit v i then N.succ_double r else N.double r) 0 [0; 1; 2; 3; 4], s)%N.

Definition codeOrder : list nat := [16; 17; 18; 0; 8; 7; 9; 6; 10; 5; 11; 4; 12; 3; 13; 2; 14; 1; 15].

(** [n] code lengths of three bits, in the order of [codeOrder]. *)
Fixpoint read_codebits (order : list nat) (n : nat) (s : stream) (lengths : list nat)
  : option (list nat * stream) :=
  match n, order with
  | S n, i :: order => '(v, s) ← take_bits 3 s; read_codebits order n s (<[i := N.to_nat v]> lengths)
  | _, _ => Some (lengths, s)
  end.

(** The literal and distance code lengths, run-length coded, latest first. *)
Fixpoint read_lengths (fuel n : nat) (c : code) (s : stream) (lengths : list nat)
  : option (list nat * stream) :=
  if decide (n = List.length lengths) then Some (lengths, s)
  else match fuel with
  | O => None
  | S fuel =>
      '(x, s) ← huffSym c s;
      if (x <? 16)%N then read_lengths fuel n c s (N.to_nat x :: lengths)
      else
        '(rep, nb, b) ← (if (x =? 16)%N then (λ b, (3, 2, b)) <$> head lengths
                         else if (x =? 17)%N then Some (3, 3, 0) else Some (11, 7, 0));
        '(extra, s) ← take_bits nb s;
        let rep := rep + N.to_nat extra in
        if decide (List.length lengths + rep <= n) then read_lengths fuel n c s (replicate rep b ++ lengths)
        else None
  end.

(** [readHuffman] *)
Definition readHuffman (s : stream) : option (code * code * stream) :=
  '(hlit, s) ← take_bits 5 s;
  let nlit := 257 + N.to_nat hlit in
  if decide (286 < nlit) then None else
  '(hdist, s) ← take_bits 5 s;
  let ndist := 1 + N.to_nat hdist in
  if decide (30 < ndist) then None else
  '(hclen, s) ← take_bits 4 s;
  '(codebits, s) ← read_codebits codeOrder (4 + N.to_nat hclen) s (replicate 19 0);
  c ← huffman_init codebits;
  '(lengths, s) ← read_lengths (nlit + ndist) (nlit + ndist) c s [];
  let lengths := reverse lengths in
  literals ← huffman_init (take nlit lengths);
  distances ← huffman_init (drop nlit lengths);
  Some (literals, distances, s).

(** [nextBlock]: the last block ends the data, whatever follows it. *)
Fixpoint read_blocks (fuel : nat) (s : stream) (out : list N) : option (list N) :=
  match fuel with
  | O => None
  | S fuel =>
      '(final, s) ← take_bits 1 s;
      '(typ, s) ← take_bits 2 s;
      '(s, out) ← (if (typ =? 0)%N then dataBlock s out
                   else if (typ =? 1)%N then
                     literals ← huffman_init fixedLengths;
                     huffmanBlock (List.length s) literals fixed_distance s out
                   else if (typ =? 2)%N then
                     '(literals, distances, s) ← readHuffman s;
                     huffmanBlock (List.length s) literals (huffSym distances) s out
                   else None);
      if (final =? 1)%N then Some out else read_blocks fuel s out
  end.

(** All the data. *)
Definition ReadAll (compressed : list N) : option (list N) :=
  let s := bits_of compressed in reverse <$> read_blocks (List.length s) s [].

End Flate.

(** ** The document *)
Module ApiDocument.

(** The chunks, as they are in the source. *)
Definition swaggerSpec : list string := [
  "5Ftbbxu5kv4rRO8C+yLLl0kCrN48iXPGO0nGG9s5C2SCmGKX1EzYZA8vtrWB/vuiSPadujhxjFmcN7Wa";
  "l2JV8auqj+xvGVNlpSRIa7LZt6yimpZgQfuns1sqHLVcyfNX+MxlNssqaotskklaQjbLoG2SZ5NMw1+O";
  "a8izmdUOJplhBZQU+y6ULqnNZplzHFvaVYX9jdVcLrP1epKd51BWyoJkq99hhX1yMEzzCkfPZtkpYVQI";
  "0AesUAYkub4+f0VsQS0p6VcwxBbcEBQAjCUaKkFXdC5gmk2C4AXQHHQreme+A5zwYdK+4SW3jVL+cqBX";
  "7dDCv+wOmMOCOmGz2fOjSVbSe166MpudHOETl+HpuJmHSwtL0H6iPxYLAxtnUuFtcqru2EeJsddoL1Mp";
  "acCb+1ea/4NauKNe+UxJC9JPTKtKcOatfPjFoDG+deb7dw2LbJb922HrSofhrTk801rFqfrGvCqAVFrd";
  "8hw00WCdlpATo0qwBZdL8oHPgRXAvhKmnMiJVJY4A9NsPUE53wczP42ctU/dUUNKKtA3IPeSvFRyITh7";
  "Ijl467DkK6y8PBqcgZzccVsQSnK+WIAGaWuZvZTRqFe8BOXsE9s258F4VJo70IRLYnkZ7HguLWhJxSXo";
  "W9BhuJ8uXOtYC8pFtOM7ZV8rJ/OfP/07RYxjBdFglNMsKOKCroSi+ZVSb6hewtNYaK7yFYF7BpBDTmwB";
  "hCm54EunIScMuOBy6aVD83AG15LeUi4QUp/YhdDPndRAWYGzE6WJcpaoBWG0oozblZfzSqm3VK4iNJin";
  "ETKEpI161NQC8dHAi3gtqbOF0vx/IX8iKwPVoIlVX0EGAOPGIMAqTe60iia+lpVWDIxB/Z5Jy+3q6aH1";
  "DoQ4COBK5s7G/ek1WinB2QoVazVlqMt1HfG8nU89uIxThj8kEAx7eYSfKflnwVlBFhxEbgjV6GVgEDBz";
  "qEDmhihJbrDLzYxQIpUThFGtOeAbsSI3+NfNhFDCCsUZNG9vwvPNhNx4++cg/ROVObmptJrTORfccjDx";
  "T0oMU7ozgH8c9U/2vRGwBJnfYG5TaVWBxpfeZF4K/DVIWSZZO2wvw8mVwy3dyUqOk3mDdOUc04ZJFib3";
  "XpHnHFVNxUVHipD6jY2dAxMUd0VcuOYWNKcYy9DkKyJdCZozIuAWxLRNu9T8CzCLU6P2f1D6nj43LyI1";
  "x2iskXx+ZQ/qvH3z/DfuDq7kFbYNCVudYH8MA3xKSPFSA7XQZu+dbKnvLQvKrHmgIbUzFm1otWPWgxzO";
  "4/NvNLEFjeo3ljOinQBMUWieNCaXgku48Hv7YUKcEtSVANtAQ66YK0HaKXkPC58SOSnA1FJVQq3wNQGJ";
  "EGdImDv05mCm5NwSboiEWww4mlsLkljVRZ+ca2BW6VVyMSVYmlNLt3lUSe/fgFzaIpudPH8xGW/R/ip/";
  "xZQEg3GIMfUMRANTOq+zPpSwrcKSsoUFvEc32+5uF01D9GVLLYwx9SpEOAwMqKAvLl8C4mFYBcYVOnKO";
  "6ch3w+Ap523ywPG0gK8IyFsQqsJVg175MOE0YHVgpgieOdygKY31ycL1xcXZ+8+X705/P/v88vTyzOMn";
  "D37hZUMoFxxXY+64ZYVH+gSwqjwNqzlYygW28V5gDF2mGg7W74dr2ycV0Rh1vHFDONsKX9vsHONlCsGY";
  "x4781PZRjFo4wMQ9S3gt3ANzKMIFRdfekQ70Gq8nWbTfy6jfsdWjIYPxmaDGkLsCJP5vnfG7VtkGEDpQ";
  "87GWcZJJJ0T2CTEn36O8x2iCnpC/dwLO87RYCG6BfjAggNmYqihnmSphQnDKIGiAIF+UE59H7RJyHywZ";
  "iTyyZJQk2bhqQHdvOAhdfqOmGOvj8rfTg5PnLzAl93B0T5mtYdOrKAfGQ3rMTRqthrL9zkOKsVs+3zIE";
  "dl8vnFoLZWW7Wmo4j7bVK6e9CG83tIuZabD+SMb4FvK3KgexoYlR4rbTYuxCt6ANVxJyUmKjoCrKrKNC";
  "rGLK2vWVzujB+XdutkbTl6E9+omyVOxavatRbNvo177RENn8hor+1fOanmWbFbR+OgSSSYNytTxddNqO";
  "mG94SHcG5YAny0hFl1z6ZjVvUlDzVvliQM0Bi7YCa6aCSgwOykk7IXNg1BkYhFsSsGmp1Z3xg2FhOse4";
  "PY4gcZKOwudKCaDS50IWSt+q+bGfXTs7n2pNVz4/r6nJsV1VQyYmmMaeFb0Yk4bJbHjGehXb9X/ZuCdI";
  "TMQ/Zg0+Z+0e/BxKPM8bf/EQ2hm29fWzYXzpW/U3dUcWVA8ts1SWzGGBZqWyhmVfaNZ4PcXiCj4jkN+Q";
  "Eqg0hCYy2Aa8uPXJg1QtNYGpWeQFc88018utB84wQWAct3n7HPjZ1FJfA+Rzyr6OI/73xOUuN79P1IP7";
  "yivmjy2RY88AKpXdIwvyfQdHCEMhdm36tn7oK6xWe4jh/b21KXg2WyjaaJsiek6YeF/ESDnOLTaGjMDp";
  "J16oKqQAr7fXaw/ICh6oj0rDd+nxr1i/7g9twZx13Zsas3agR1AGvmL2XFbOpmE5RujdnuxN17aP5u+o";
  "e+RTXeVs9us6DapxBefJs7p2TmJI6FhHwP6meFiYiVtrZINkrNi8hsaYY1DzbNXLSATt4gDGBEI6OeMy";
  "1J+13w2SgLiXOgVrp1y9WlVwSRdAuoNMa+rpuyX1vFC3d63/hH//MC/UIvJAF5tNFLmBvnVqOOrQFi+e";
  "JRyus0k6TX85mTxsz2yW7gMVPN9QCUOaLvhnsQp1V+SFGjZZ+UqRh3PhzSXYQwokrwMUMYUhgzWHdqml";
  "9kzaTZwCo1tzi5EDTW38Szcvua1TiI2kXyLK77JwHc27BNbR0dEuAw9nSi37uq40BkCFmHylvoLcUKEo";
  "Z7e2GO6JzniDzimposdBvTs2qLL6Du7yqhiRlkmvbKQZrCTOOZZ67aFvoRK1pj8C8dQJX8RTnIln4blc";
  "hhOFOlsiJpz2kbnjwhIlW0T8L7id/inrWxjEeG/zPJsFUglniI3csKeVJzHPxqS6LXSD9GHOJVhD0FX9";
  "Tm1YlIZBSRPKA86F20kkArsHPaGwQ/F6dP8kFto4ezgS84VlcyATmaa2iDh/Nf1TtkfG3BCa33Kj9Moz";
  "xoEuDmVrZMCpx1qsFTwzaqbkTC6UZhhqrD/xincd6ookcpFBq/9hyBc1r+WJmsYhMVBJX55EPL+Fjs0K";
  "f0cCIY4wofyFgAIk6Qnu2vPbqS/sGEjjdx7PQVq+4KCzWfb2/Kq9XYIPGJG4FdA9O++g9iw7mj6bHoUs";
  "FSSteDbLfpkeT4+w0KO28BvlsNWpf15Cojx/B3dgLFlwbewkRW6T81eEmtZQlsNcA/0KGleE266pdjLM";
  "f846k056d5s+pnG9bXIY7vesJzsbxvs52DJ1QSc4/LsQ6toT0+2Iu32wD02SmRwvGXg33B5qctEflaxh";
  "c/Y8FB4RU+tPg9tIJ0dHj3cG3SeGEofRp6SiSyBq0XG3kPc9C3Kkhm/kPexcSfJdjnd36d0FWE+y5/vM";
  "k7oy48/CXVlSvYp+354QQW8HWLo0Pi53/g3JTootu1xJVmgllUMQu6fMihVR0iupOVHC9Ll7jkdKZyyZ";
  "AzEuMt3kvH/U5k/d9V6HdLaAcvqnvMShVgiBVJLBrb140S8MoTRfckztO5DRMPCMSiU5o6K5dMANCdDH";
  "qAiQy+J9rnjCwG08XRjDy/CI9cH4MrjtGNzfy/Wryh/v9sWmo+B1P63ARGU92oDHP2EDbroJ0jFZQxV6";
  "m4RbbsGfn3RDPjt6trtTc3PMd/jP3R2aK4PY4fiX3R2Gl8Ow38nJPssZ3+nxffcQcniV6ofgCfue7GWx";
  "+vap77KHahI303zXPew2uBPZx9DorRBzW7qkWEYTSppjjTSSrie9ROfwW5faXHfynj6W/APsDwBJ75L2";
  "E0XR3Zv4771THynWvgbLCh8SoWu/73GOw0WX+U/G47qwx5jEqODz4EIkp5Z2qhFWULnEMNtmAU2h4I8v";
  "fCsuF8KBZL7hwlmnARcyDnR9UuExvPPxg1ya+HjiENeoaMPeqA38/ymg/UCceaQt9t4rqnuzglBSuJJK";
  "UrNLW3dcnXVuBF/Mly/qRj8RPDusfMJBzjyDEWkhDPeY/FiMP9q6avq3KCqiWFWrrFrtzV99nR/eRhZt";
  "M6a9DKxXSN/rkqHlxRCvNFRKh4zcH8uHpNwPPSXvVPhchJtdl/bi0W3TPKxmjHd95i/7OYCVphf3AqzH";
  "9sgOt77pinuwEdFgnLCToHqs+3xh9JT49Z3p8iNtguirTRrYuml98QOzRCqE9zC7x/741pJD68NIqDX/";
  "RpZna9rYOOkgKCc+1OvxUJs/09uT/UmN3dJSew2foqk+/XR33/ixiX/7L5a1dhF9tcFfsasfKnjW4GOq";
  "YHJyXN/8q9xccEZOL84RWZ0W2Sw7vD32mV8cfUQz+eQtXMuVBkN6k6+aaepDU+O51v4g57EnjlJHnWHA";
  "mg4cFheIct0fMIUbN34Cy6XtfEWJkS9+6hm/3Oz8Ez7fpPdv433NM2m1zzWOX/T+/0CFg97N75Lev1MW";
  "uodp8TqCXPq7Yv5b1eEXsYlPVkPD6Irnr7JZ9j8H8enAX6dBvXwYcvXr9f8FAAD//w=="
]%string.


Definition ErrBase64 : goerr := EForeign "base64: corrupt input".
Definition ErrFlate : goerr := EForeign "flate: corrupt input".

(** The error branches after the decoding cannot be taken: a [bytes.Buffer] does not refuse
    what it is given, and [Close] repeats the error of the reader. *)
Definition decodeSpec (chunks : list string) : res string :=
  match Base64.DecodeString (String.concat "" chunks) with
  | None => Err ErrBase64
  | Some compressed =>
      match Flate.ReadAll compressed with
      | None => Err ErrFlate
      | Some document => Ok (bytes document)
      end
  end.

(** [rawSpec]: the closure over what was decoded when the package was initialised. *)
Definition decodeSpecCached (chunks : list string) : unit → res string :=
  let data := decodeSpec chunks in λ _, data.

Definition rawSpec : unit → res string := decodeSpecCached swaggerSpec.

Definition PathToRawSpec (pathToFile : string) : gmap string (unit → res string) :=
  if decide (0 < strlen pathToFile)%Z then {[ pathToFile := rawSpec ]} else ∅.

Definition GetSpecJSON (_ : unit) : res string := rawSpec tt.

(** [path.Clean] of any path. *)
Definition path_Clean (p : string) : string :=
  let rooted := match p with String "/" _ => true | _ => false end in
  let step stack s :=
    if decide (s = "" ∨ s = ".") then stack
    else if decide (s = "..") then
      match stack with
      | [] => if rooted then [] else [s]
      | top :: rest => if decide (top = "..") then s :: stack else rest
      end
    else s :: stack in
  let clean := String.concat "/" (reverse (foldl step [] (NetUrl.split_on "/" p))) in
  if rooted then "/" +:+ clean else if decide (clean = "") then "." else clean.

(** [openapi3.Loader] with external references allowed: how it reads a URI, and the data.
    [T] is the loaded document. *)
Class OpenapiLoader (T : Type) := LoadFromData : (string → res string) → string → res T.

Section load.
Context {T : Type} `{OpenapiLoader T}.

(** [ReadFromURIFunc] *)
Definition ReadFromURI (resolvePath : gmap string (unit → res string)) (url : string) : res string :=
  match resolvePath !! path_Clean url with
  | None => Err (EForeign "path not found")
  | Some getSpec => getSpec tt
  end.

Definition GetSpec (_ : unit) : res T :=
  let resolvePath := PathToRawSpec "" in
  specData ← rawSpec tt;
  LoadFromData (ReadFromURI resolvePath) specData.

Definition GetSwagger (_ : unit) : res T := GetSpec tt.
End load.

End ApiDocument.
