(* ===== verification/DocumentTheorems.v ===== *)
(** * The OpenAPI document against the server

    The embedded document ([ApiDocument]) read as what it declares, the operations and the
    schemas, with the meaning JSON Schema gives to the keywords it uses ([JsonSchema]); which
    values of the API types are written as it declares ([Conformance]); and the theorems: the
    generated server serves exactly the declared operations, with the declared replies, and
    what the services store and load has the declared form. *)

From S2P Require Import Prelude GoFloat GoAny GoTime GoJson Decision Document Condition Canonical Store Loader Policies.
From S2P Require Import EvalConvert Evaluations HttpServer JsonStruct JsonStructSpec ApiJson ApiJsonSpec HttpRouter.
From S2P Require Import ApiServer ApiDocument Effects WellFormed EvalSpec ServiceSpec EvaluationTheorems.
From S2P Require Import MemStore ServiceFixtures HttpTheorems ListenerTheorems.
From Stdlib Require Import Ascii DecimalString.
From stdpp Require Import options.
#[local] Open Scope Z_scope.

(** ** Schemas *)
Module JsonSchema.

Inductive jsonType : Set := TObject | TArray | TString | TNumber | TInteger | TBoolean | TNull.

(** A schema is the list of its keywords. *)
Inductive keyword : Set :=
  | KRef (name : string)
  | KType (types : list jsonType)
  | KEnum (values : list string)
  | KMinimum (n : Z)
  | KMaximum (n : Z)
  | KMaxLength (n : Z)
  | KProperties (properties : list (string * list keyword))
  | KRequired (names : list string)
  | KAdditional (declared : list string) (s : list keyword)
  | KItems (s : list keyword).

Abbreviation schema := (list keyword).

(** The value under a name. *)
Fixpoint named {A} (name : string) (l : list (string * A)) : option A :=
  match l with [] => None | (key, v) :: l => if String.eqb name key then Some v else named name l end.

(** An integer literal: digits, with a sign. *)
Definition is_integer (t : string) : bool :=
  let body := match t with String c t' => if decide (c = "-"%char) then t' else t | _ => t end in
  negb (bool_decide (body = "")) && bool_decide (skip_digits body = "").

Definition has_type (j : json) (t : jsonType) : bool :=
  match t, j with
  | TObject, JObj _ | TArray, JArr _ | TString, JStr _ | TNumber, JNum _ | TBoolean, JBool _
  | TNull, JNull => true
  | TInteger, JNum t => is_integer t
  | _, _ => false
  end.

(** The number of code points of a string. *)
Definition rune_count (s : string) : Z := strlen (map_runes (λ _ _, "x") 0 s).

(** What a keyword asks of a value; one about another type of value asks nothing.  [env]
    resolves references. *)
Inductive satisfies (env : string → option schema) : keyword → json → Prop :=
  | sat_ref name s j : env name = Some s → Forall (λ k, satisfies env k j) s →
      satisfies env (KRef name) j
  | sat_type types j : existsb (has_type j) types = true → satisfies env (KType types) j
  | sat_enum values j : (∃ s, j = JStr s ∧ s ∈ values) → satisfies env (KEnum values) j
  | sat_minimum n j :
      (∀ t, j = JNum t → ∃ f, parse_float t = Some f ∧ f64_ltb f (f64_of_Z n) = false) →
      satisfies env (KMinimum n) j
  | sat_maximum n j :
      (∀ t, j = JNum t → ∃ f, parse_float t = Some f ∧ f64_ltb (f64_of_Z n) f = false) →
      satisfies env (KMaximum n) j
  | sat_maxLength n j : (∀ s, j = JStr s → rune_count s <= n) → satisfies env (KMaxLength n) j
  | sat_properties properties j :
      (∀ l key v s, j = JObj l → (key, v) ∈ l → named key properties = Some s → Forall (λ k, satisfies env k v) s) →
      satisfies env (KProperties properties) j
  | sat_required names j : (∀ l, j = JObj l → ∀ name, name ∈ names → name ∈ l.*1) →
      satisfies env (KRequired names) j
  | sat_additional declared s j :
      (∀ l key v, j = JObj l → (key, v) ∈ l → key ∉ declared → Forall (λ k, satisfies env k v) s) →
      satisfies env (KAdditional declared s) j
  | sat_items s j : (∀ l v, j = JArr l → v ∈ l → Forall (λ k, satisfies env k v) s) →
      satisfies env (KItems s) j.

Definition conforms (env : string → option schema) (s : schema) (j : json) : Prop :=
  Forall (λ k, satisfies env k j) s.

(** ** Reading the document *)

Definition member (name : string) (j : json) : option json :=
  match j with JObj l => named name l | _ => None end.
Definition at_path (names : list string) (j : json) : option json :=
  foldl (λ j name, j ≫= member name) (Some j) names.
Definition as_string (j : json) : option string := match j with JStr s => Some s | _ => None end.
Definition as_list (j : json) : option (list json) := match j with JArr l => Some l | _ => None end.
Definition as_object (j : json) : option (list (string * json)) := match j with JObj l => Some l | _ => None end.
Definition as_number (j : json) : option Z := match j with JNum t => Atoi t | _ => None end.

Definition jsonTypes : list (string * jsonType) :=
  [("object", TObject); ("array", TArray); ("string", TString); ("number", TNumber);
   ("integer", TInteger); ("boolean", TBoolean); ("null", TNull)].

Definition read_types (j : json) : option (list jsonType) :=
  match j with
  | JStr t => (λ t, [t]) <$> named t jsonTypes
  | JArr l => mapM (λ j, t ← as_string j; named t jsonTypes) l
  | _ => None
  end.

Definition schema_ref (j : json) : option string := as_string j ≫= drop_prefix "#/components/schemas/".

(** One member of a schema object; annotations ask nothing, and a keyword that is not known
    here is refused. *)
Definition read_keyword (read : json → option schema) (siblings : list (string * json))
  (kv : string * json) : option schema :=
  let key := kv.1 in let j := kv.2 in
  if existsb (String.eqb key) ["description"; "format"; "default"] then Some []
  else if String.eqb key "$ref" then (λ name, [KRef name]) <$> schema_ref j
  else if String.eqb key "type" then (λ types, [KType types]) <$> read_types j
  else if String.eqb key "enum" then (λ values, [KEnum values]) <$> (as_list j ≫= mapM as_string)
  else if String.eqb key "minimum" then (λ n, [KMinimum n]) <$> as_number j
  else if String.eqb key "maximum" then (λ n, [KMaximum n]) <$> as_number j
  else if String.eqb key "maxLength" then (λ n, [KMaxLength n]) <$> as_number j
  else if String.eqb key "required" then (λ names, [KRequired names]) <$> (as_list j ≫= mapM as_string)
  else if String.eqb key "properties" then
    l ← as_object j; (λ ps, [KProperties ps]) <$> mapM (λ kv, pair kv.1 <$> read kv.2) l
  else if String.eqb key "items" then (λ s, [KItems s]) <$> read j
  else if String.eqb key "additionalProperties" then
    match j with
    | JBool true => Some []
    | _ => (λ s, [KAdditional (default [] (named "properties" siblings ≫= as_object)).*1 s]) <$> read j
    end
  else None.

(** [depth] is how deep schemas may nest. *)
Fixpoint read_schema (depth : nat) (j : json) : option schema :=
  match depth with
  | O => None
  | S depth => l ← as_object j; mjoin <$> mapM (read_keyword (read_schema depth) l) l
  end.

(** An operation: its pattern, its identifier, the location, the name and the necessity of
    its parameters, and the schemas of its body and of the body of each status. *)
Record operation : Set := MkOperation {
  op_pattern : string;
  op_id : string;
  op_parameters : list (string * string * bool);
  op_body : option string;
  op_responses : list (Z * string)
}.

(** The value itself, or what it refers to among the components. *)
Definition resolve (components : json) (kind : string) (j : json) : option json :=
  match member "$ref" j with
  | None => Some j
  | Some ref => name ← as_string ref ≫= drop_prefix ("#/components/" +:+ kind +:+ "/");
                at_path [kind; name] components
  end.

Definition content_schema (j : json) : option string :=
  at_path ["content"; "application/json"; "schema"; "$ref"] j ≫= schema_ref.

Definition read_parameter (components j : json) : option (string * string * bool) :=
  p ← resolve components "parameters" j;
  where_ ← member "in" p ≫= as_string;
  name ← member "name" p ≫= as_string;
  Some (where_, name, match member "required" p with Some (JBool b) => b | _ => false end).

Definition read_response (components : json) (kv : string * json) : option (Z * string) :=
  status ← Atoi kv.1;
  r ← resolve components "responses" kv.2;
  pair status <$> content_schema r.

Definition read_operation (components : json) (path : string) (kv : string * json) : option operation :=
  method ← named kv.1 [("get", "GET"); ("post", "POST")];
  id ← member "operationId" kv.2 ≫= as_string;
  parameters ← mapM (read_parameter components) (default [] (member "parameters" kv.2 ≫= as_list));
  responses ← member "responses" kv.2 ≫= as_object;
  responses ← mapM (read_response components) responses;
  let body := member "requestBody" kv.2 ≫= content_schema in
  Some (MkOperation (method +:+ " " +:+ path) id parameters body responses).

(** What a document declares: its operations and the schemas of its components. *)
Record declared : Set := MkDeclared {
  operations : list operation;
  schemas : list (string * schema)
}.

Definition read_document (text : string) : option declared :=
  doc ← json_parse text;
  components ← member "components" doc;
  paths ← member "paths" doc ≫= as_object;
  ops ← mapM (λ kv, l ← as_object kv.2; mapM (read_operation components kv.1) l) paths;
  named_schemas ← member "schemas" components ≫= as_object;
  ss ← mapM (λ kv, pair kv.1 <$> read_schema 8 kv.2) named_schemas;
  Some (MkDeclared (mjoin ops) ss).

(** The embedded document. *)
Definition read_spec (spec : res string) : option declared :=
  match spec with Ok text => read_document text | Err _ => None end.

Definition document : option declared := read_spec (ApiDocument.GetSpecJSON tt).

Definition interface : declared := Eval vm_compute in default (MkDeclared [] []) document.

Lemma document_read : document = Some interface.
Proof. vm_compute. reflexivity. Qed.

Definition env (name : string) : option schema := named name (schemas interface).

End JsonSchema.

(** ** Codecs against schemas *)
Module Conformance.
Import EvalConvert HttpErrors HttpServer JsonStruct ApiJson ApiEnums JsonSchema CodecSound PayloadSound.

Lemma named_In {A} name (l : list (string * A)) v : named name l = Some v → (name, v) ∈ l.
Proof.
  induction l as [|[key w] l IH]; simpl; [done|]. destruct (String.eqb_spec name key) as [->|].
  - intros [= ->]. apply elem_of_cons. by left.
  - intros H. apply elem_of_cons. right. by apply IH.
Qed.

Lemma is_integer_Itoa n : is_integer (Itoa n) = true.
Proof.
  unfold is_integer, Itoa, string_of_Z.
  destruct (Z.to_int n) as [d|d]; cbn [NilZero.string_of_int];
    destruct (string_of_uint_zero d) as (d' & -> & _ & Hnil);
    pose proof (skip_digits_uint d') as Hk.
  - destruct d'; [done|..]; cbn [NilEmpty.string_of_uint] in *;
      rewrite decide_False by done; by rewrite Hk.
  - rewrite decide_True by done. rewrite Hk. by destruct d'.
Qed.

Lemma rune_count_le s : rune_count s <= strlen s.
Proof.
  unfold rune_count, strlen. apply Nat2Z.inj_le. generalize 0%nat at 1.
  induction s as [|c s IH]; intros [|k]; cbn [map_runes]; [done..| |].
  - generalize (default 1 (rune_size (String c s)) - 1)%nat. intros k.
    rewrite length_append. cbn. specialize (IH k). lia.
  - cbn. specialize (IH k). lia.
Qed.

(** What a keyword asks of a string, and of the other leaves. *)
Definition string_keyword (a : string) (k : keyword) : Prop :=
  match k with
  | KType types => TString ∈ types
  | KEnum values => a ∈ values
  | KMaxLength n => rune_count a <= n
  | _ => False
  end.

Definition float_keyword (f : float64) (k : keyword) : Prop :=
  match k with
  | KType types => TNumber ∈ types
  | KMinimum n => float_ok f ∧ f64_ltb f (f64_of_Z n) = false
  | KMaximum n => float_ok f ∧ f64_ltb (f64_of_Z n) f = false
  | _ => False
  end.

(** The values of [P] are written as the schema asks. *)
Definition written_as {A} (c : codec A) (s : schema) (a : A) : Prop :=
  ∀ j, write c a = Some j → conforms env s j.

Lemma sat_one_type types t j : t ∈ types → has_type j t = true → satisfies env (KType types) j.
Proof. intros Ht Hj. constructor. apply existsb_exists. exists t. by rewrite <- list_elem_of_In. Qed.

Lemma cstring_as s a : Forall (string_keyword a) s → written_as cstring s a.
Proof.
  intros Hs j [= <-]. eapply list.Forall_impl; [exact Hs|]. intros [] Hk; try done.
  - by eapply sat_one_type.
  - constructor. eauto.
  - constructor. by intros ? [= <-].
Qed.

Lemma cuuid_as `{UuidText} a : written_as cuuid [KType [TString]] a.
Proof. intros j [= <-]. repeat constructor. Qed.

Lemma ctime_as a : written_as ctime [KType [TString]] a.
Proof. intros j. cbn. destruct (GoTime.rfc3339 a); intros [= <-]. repeat constructor. Qed.

Lemma cbool_as a : written_as cbool [KType [TBoolean]] a.
Proof. intros j [= <-]. repeat constructor. Qed.

Lemma cint_as a : written_as cint [KType [TInteger]] a.
Proof.
  intros j [= <-]. apply list.Forall_singleton. eapply (sat_one_type _ TInteger); [in_list|].
  apply is_integer_Itoa.
Qed.

Lemma cfloat_as s a : Forall (float_keyword a) s → written_as cfloat s a.
Proof.
  intros Hs j. cbn. destruct (f64_text a) as [t|] eqn:E; intros [= <-].
  eapply list.Forall_impl; [exact Hs|]. intros [] Hk; try done.
  - by eapply sat_one_type.
  - destruct Hk as [Ha Hk]. unfold float_ok in Ha. rewrite E in Ha. constructor. intros ? [= <-]. eauto.
  - destruct Hk as [Ha Hk]. unfold float_ok in Ha. rewrite E in Ha. constructor. intros ? [= <-]. eauto.
Qed.

Lemma any_as a : written_as cany [] a.
Proof. intros j _. by constructor. Qed.

(** Maps and slices: their entries and elements. *)
Definition map_keyword {A} (c : codec A) (m : gmap string A) (k : keyword) : Prop :=
  match k with
  | KType types => TObject ∈ types
  | KAdditional _ s => ∀ key a, m !! key = Some a → written_as c s a
  | _ => False
  end.

Definition slice_keyword {A} (c : codec A) (l : list A) (k : keyword) : Prop :=
  match k with
  | KType types => TArray ∈ types
  | KItems s => ∀ a, a ∈ l → written_as c s a
  | _ => False
  end.

Lemma cmap_as {A} (c : codec A) s m : Forall (map_keyword c m) s → written_as (cmap c) s m.
Proof.
  intros Hs j. cbn. intros (l & Hl%mapM_Some & ->)%fmap_Some.
  eapply list.Forall_impl; [exact Hs|]. intros [] Hk; try done; [by eapply sat_one_type|].
  constructor. intros l' key v [= <-] Hin _.
  apply list_elem_of_lookup in Hin as [i Hi].
  destruct (Forall2_lookup_r _ _ _ _ _ Hl Hi) as ([key' a] & Ha & Hkv).
  apply fmap_Some in Hkv as (j & Hj & [= -> ->]).
  apply list_elem_of_lookup_2, amap_of_elem in Ha. by apply (Hk _ _ Ha).
Qed.

Lemma cslice_as {A} (c : codec A) s l : Forall (slice_keyword c l) s → written_as (cslice c) s l.
Proof.
  intros Hs j (k & -> & Hk)%jarr_written.
  eapply list.Forall_impl; [exact Hs|]. intros [] Hkw; try done; [by eapply sat_one_type|].
  constructor. intros l' v [= <-] Hin. apply list_elem_of_lookup in Hin as [i Hi].
  destruct (Forall2_lookup_r _ _ _ _ _ Hk Hi) as (a & Ha & Hav).
  apply list_elem_of_lookup_2 in Ha. by apply (Hkw _ Ha).
Qed.

(** Structs: a field that is written is declared and is written as its schema asks, and what
    is required is written. *)
Fixpoint fields_as (properties : list (string * schema)) {X} (fs : fields X) : X → Prop :=
  match fs with
  | FNil => λ _, True
  | FCons t fs => λ x,
      (tg_omit t x.1 = false →
       match named (tg_name t) properties with
       | Some s => written_as (tg_codec t) s x.1
       | None => False
       end) ∧ fields_as properties fs x.2
  end.

Fixpoint present {X} (fs : fields X) : X → list string :=
  match fs with
  | FNil => λ _, []
  | FCons t fs => λ x, (if tg_omit t x.1 then [] else [tg_name t]) ++ present fs x.2
  end.

Definition struct_keyword {X} (fs : fields X) (x : X) (k : keyword) : Prop :=
  match k with
  | KType types => TObject ∈ types
  | KRequired names => names ⊆ present fs x
  | KProperties properties => fields_as properties fs x
  | _ => False
  end.

Lemma write_fields_present {X} (fs : fields X) x l : write_fields fs x = Some l → l.*1 = present fs x.
Proof.
  revert l. induction fs as [|A X t fs IH]; intros l; cbn; [by intros [= <-]|].
  intros (here & Hh & (rest & Hr & [= <-])%bind_Some)%bind_Some. rewrite fmap_app, (IH _ _ Hr).
  f_equal. unfold write_tag in Hh. destruct (tg_omit t x.1); [by injection Hh as <-|].
  by apply fmap_Some in Hh as (j & _ & ->).
Qed.

Lemma write_fields_as {X} (fs : fields X) properties x l key v s :
  write_fields fs x = Some l → fields_as properties fs x → (key, v) ∈ l →
  named key properties = Some s → conforms env s v.
Proof.
  revert l. induction fs as [|A X t fs IH]; intros l; cbn.
  { intros [= <-] _ []%not_elem_of_nil. }
  intros (here & Hh & (rest & Hr & [= <-])%bind_Some)%bind_Some [Hx Hfs] [Hin|Hin]%elem_of_app Hs;
    [|by eapply IH].
  unfold write_tag in Hh. destruct (tg_omit t x.1); [injection Hh as <-; by apply not_elem_of_nil in Hin|].
  apply fmap_Some in Hh as (j & Hj & ->). apply list_elem_of_singleton in Hin as [= -> ->].
  specialize (Hx eq_refl). rewrite Hs in Hx. by apply Hx.
Qed.

Lemma cstruct_as {T X} (fs : fields X) (out : T → X) (in_ : X → T) name s t :
  env name = Some s → Forall (struct_keyword fs (out t)) s →
  written_as (cstruct fs out in_) [KRef name] t.
Proof.
  intros He Hs j (l & Hl & ->)%fmap_Some. apply list.Forall_singleton. econstructor; [exact He|].
  eapply list.Forall_impl; [exact Hs|]. intros [] Hk; try done.
  - by eapply sat_one_type.
  - constructor. intros l' key v s' [= <-] Hin Hn. by eapply write_fields_as.
  - constructor. intros l' [= <-] name' Hn. rewrite (write_fields_present _ _ _ Hl). by apply Hk.
Qed.

Lemma cptr_as {A} (c : codec A) s a : written_as c s a → written_as (cptr c) s (Some a).
Proof. done. Qed.

(** An enumeration of strings. *)
Definition enum_of (name : string) : list string :=
  default [] (env name) ≫= λ k, match k with KEnum values => values | _ => [] end.

Lemma enum_as name s a : env name = Some s → Forall (string_keyword a) s → written_as cstring [KRef name] a.
Proof.
  intros He Hs j Hj. apply list.Forall_singleton. econstructor; [exact He|]. by apply (cstring_as s a Hs).
Qed.

Ltac enum_values := intros v; vm_compute enum_of; rewrite !elem_of_cons, elem_of_nil;
  repeat case_decide; naive_solver.

(** The members the code knows are those the document lists. *)
Lemma EvaluationStatus_values v : EvaluationStatus_Valid v = true ↔ v ∈ enum_of "EvaluationStatus".
Proof. revert v. unfold EvaluationStatus_Valid. enum_values. Qed.
Lemma ExecutionPath_values v : ExecutionPath_Valid v = true ↔ v ∈ enum_of "ExecutionPath".
Proof. revert v. unfold ExecutionPath_Valid. enum_values. Qed.
Lemma PolicyKind_values v : PolicyKind_Valid v = true ↔ v ∈ enum_of "PolicyKind".
Proof. revert v. unfold PolicyKind_Valid. enum_values. Qed.
Lemma QuestionType_values v : QuestionType_Valid v = true ↔ v ∈ enum_of "QuestionType".
Proof. revert v. unfold QuestionType_Valid. enum_values. Qed.

(** *** The API types *)
Ltac keywords := repeat apply list.Forall_cons_2; try apply list.Forall_nil_2;
  cbn [string_keyword float_keyword map_keyword slice_keyword]; try solve [in_list].

Ltac is_present := first [left; reflexivity | right; is_present | apply elem_of_app; right; is_present].

(** The fields of a struct one by one, those that are left out dropped. *)
Ltac struct_as :=
  eapply cstruct_as; [vm_compute; reflexivity|];
  repeat apply list.Forall_cons_2; try apply list.Forall_nil_2;
  cbn [struct_keyword]; [..|in_list];
  [cbn [fields_as named String.eqb Ascii.eqb Bool.eqb tg_name tg_omit tg_codec req opt opt_any fst snd];
   repeat split; let H := fresh in intros H;
     repeat match type of H with
     | match ?v with None => _ | Some _ => _ end = false =>
        let E := fresh in destruct v eqn:E; [clear H; rewrite ?E in *; apply cptr_as|discriminate H]
     end
  | let name := fresh in let Hn := fresh in
    intros name Hn; cbn;
    repeat (apply elem_of_cons in Hn as [->|Hn]; [is_present|]); by apply not_elem_of_nil in Hn].

Definition ref_meets (r : Ref) : Prop := rune_count (ref_Name r) <= 64 ∧ rune_count (ref_Version r) <= 32.

Lemma PolicyRef_as r : ref_meets r → written_as PolicyRef_codec [KRef "PolicyRef"] r.
Proof. intros [Hn Hv]. struct_as; apply cstring_as; keywords; done. Qed.

(** Values in the contract: the known members of the enumerations, probabilities between zero
    and one whose text reads back, short references. *)
Definition unit_float (f : float64) : Prop :=
  float_ok f ∧ f64_ltb f (f64_of_Z 0) = false ∧ f64_ltb (f64_of_Z 1) f = false.

Definition answer_meets (a : APIAnswer) : Prop :=
  QuestionType_Valid (aa_Type a) = true ∧ opt_all unit_float (aa_Noul a) ∧ opt_all unit_float (aa_Confidence a).

Definition evaluation_meets (e : APIEvaluation) : Prop :=
  EvaluationStatus_Valid (ae_Status e) = true ∧ ExecutionPath_Valid (ae_ExecutionPath e) = true ∧
  PolicyKind_Valid (ae_PolicyKind e) = true ∧ ref_meets (ae_Policy e) ∧ map_ok answer_meets (ae_Answers e).

Definition policy_meets (p : Policies.Policy) : Prop :=
  ∀ q, q ∈ Policies.ap_Questions p → QuestionType_Valid (Policies.apq_Type q) = true.

Definition payload_meets (p : payload) : Prop :=
  match p with
  | PayloadError _ | PayloadFeedback _ => True
  | PayloadEvaluation e => evaluation_meets e
  | PayloadEvaluationList l => ∀ e, e ∈ Evaluations.el_Items l → evaluation_meets e
  | PayloadPolicyList l => ∀ p, p ∈ l → policy_meets p
  | PayloadPolicy p => policy_meets p
  | PayloadPolicyValidation v => opt_all policy_meets (vl_Policy v)
  end.

Create HintDb conform.

Ltac leaf_as := intros;
  lazymatch goal with
  | |- written_as cstring [KRef _] _ => eauto with conform
  | |- written_as cstring _ _ => apply cstring_as; keywords
  | |- written_as cuuid _ _ => apply cuuid_as
  | |- written_as ctime _ _ => apply ctime_as
  | |- written_as cbool _ _ => apply cbool_as
  | |- written_as cint _ _ => apply cint_as
  | |- written_as cany _ _ => apply any_as
  | |- written_as cfloat _ _ => apply cfloat_as; keywords
  | |- written_as (cmap _) _ _ => apply cmap_as; keywords; leaf_as
  | |- written_as (cslice _) _ _ => apply cslice_as; keywords; leaf_as
  | |- written_as _ _ _ => eauto with conform
  | |- _ => idtac
  end.

Ltac enum_leaf spec := intros ?%spec; eapply enum_as; [vm_compute; reflexivity|keywords; assumption].

Lemma EvaluationStatus_as v : EvaluationStatus_Valid v = true → written_as cstring [KRef "EvaluationStatus"] v.
Proof. enum_leaf EvaluationStatus_values. Qed.
Lemma ExecutionPath_as v : ExecutionPath_Valid v = true → written_as cstring [KRef "ExecutionPath"] v.
Proof. enum_leaf ExecutionPath_values. Qed.
Lemma PolicyKind_as v : PolicyKind_Valid v = true → written_as cstring [KRef "PolicyKind"] v.
Proof. enum_leaf PolicyKind_values. Qed.
Lemma QuestionType_as v : QuestionType_Valid v = true → written_as cstring [KRef "QuestionType"] v.
Proof. enum_leaf QuestionType_values. Qed.
#[local] Hint Resolve EvaluationStatus_as ExecutionPath_as PolicyKind_as QuestionType_as PolicyRef_as : conform.

Lemma Answer_as a : answer_meets a → written_as Answer_codec [KRef "Answer"] a.
Proof. intros (Ht & Hn & Hc). unfold unit_float in *. struct_as; leaf_as; cbn in *; tauto. Qed.

Lemma Usage_as u : written_as Usage_codec [KRef "Usage"] u.
Proof. struct_as; leaf_as. Qed.
#[local] Hint Resolve Answer_as Usage_as : conform.

Section types.
Context `{UuidText}.

Lemma Evaluation_as e : evaluation_meets e → written_as Evaluation_codec [KRef "Evaluation"] e.
Proof using. intros (Hs & Hp & Hk & Hr & Ha). unfold map_ok in Ha. struct_as; leaf_as. Qed.
#[local] Hint Resolve Evaluation_as : conform.

Lemma EvaluationList_as l : (∀ e, e ∈ Evaluations.el_Items l → evaluation_meets e) →
  written_as EvaluationList_codec [KRef "EvaluationList"] l.
Proof using. intros Hl. struct_as; leaf_as. Qed.

Lemma Feedback_as f : written_as Feedback_codec [KRef "Feedback"] f.
Proof using. struct_as; leaf_as. Qed.
End types.

Lemma PolicyQuestion_as q : QuestionType_Valid (Policies.apq_Type q) = true →
  written_as PolicyQuestion_codec [KRef "PolicyQuestion"] q.
Proof. intros Hq. struct_as; leaf_as. Qed.
#[local] Hint Resolve PolicyQuestion_as : conform.

Lemma Policy_as p : policy_meets p → written_as Policy_codec [KRef "Policy"] p.
Proof. intros Hp. unfold policy_meets in Hp. struct_as; leaf_as. Qed.
#[local] Hint Resolve Policy_as : conform.

Lemma PolicyList_as l : (∀ p, p ∈ l → policy_meets p) → written_as PolicyList_codec [KRef "PolicyList"] l.
Proof. intros Hl. struct_as; leaf_as. Qed.

Lemma PolicyValidation_as v : opt_all policy_meets (vl_Policy v) →
  written_as PolicyValidation_codec [KRef "PolicyValidation"] v.
Proof. intros Hp. struct_as; leaf_as. Qed.

Lemma Error_as e : written_as Error_codec [KRef "Error"] e.
Proof. struct_as; leaf_as. Qed.

(** The schema of a kind of body. *)
Definition schema_name (kind : bodyKind) : string :=
  match kind with
  | KindError => "Error"
  | KindEvaluation => "Evaluation"
  | KindEvaluationList => "EvaluationList"
  | KindFeedback => "Feedback"
  | KindPolicyList => "PolicyList"
  | KindPolicy => "Policy"
  | KindPolicyValidation => "PolicyValidation"
  end.

(** A body in the contract is written as its schema asks. *)
Definition payload_schema (p : payload) : string :=
  match p with
  | PayloadError _ => "Error"
  | PayloadEvaluation _ => "Evaluation"
  | PayloadEvaluationList _ => "EvaluationList"
  | PayloadFeedback _ => "Feedback"
  | PayloadPolicyList _ => "PolicyList"
  | PayloadPolicy _ => "Policy"
  | PayloadPolicyValidation _ => "PolicyValidation"
  end.

Lemma write_payload_as `{UuidText} p j :
  payload_meets p → write_payload p = Some j → conforms env [KRef (payload_schema p)] j.
Proof.
  destruct p; cbn [payload_meets write_payload payload_schema]; intros Hm Hj.
  - by apply Error_as in Hj.
  - by apply Evaluation_as in Hj.
  - by apply EvaluationList_as in Hj.
  - by apply Feedback_as in Hj.
  - by apply PolicyList_as in Hj.
  - by apply Policy_as in Hj.
  - by apply PolicyValidation_as in Hj.
Qed.

Lemma body_as `{UuidText} `{ErrorText} body payload kind j :
  payload_of body = Some payload → payload_meets payload → kind_of body = Some kind →
  encode_body body = Some j → conforms env [KRef (schema_name kind)] j.
Proof.
  intros Hp Hm Hk He.
  assert (schema_name kind = payload_schema payload) as ->.
  { destruct body; cbn in Hk, Hp; try discriminate Hk; injection Hk as <-; by injection Hp as <-. }
  eapply write_payload_as; [exact Hm|].
  assert (encode_body body = payload_of body ≫= write_payload) as E by by destruct body.
  rewrite E, Hp in He. exact He.
Qed.

(** A member that is written, and what conformance says of it. *)
Fixpoint written_member {X} (name : string) (fs : fields X) : X → option json :=
  match fs with
  | FNil => λ _, None
  | FCons t fs => λ x,
      if String.eqb name (tg_name t) then (if tg_omit t x.1 then None else write (tg_codec t) x.1)
      else written_member name fs x.2
  end.

Lemma write_fields_member {X} name (fs : fields X) x l v :
  write_fields fs x = Some l → written_member name fs x = Some v → (name, v) ∈ l.
Proof.
  revert l. induction fs as [|A X t fs IH]; intros l; cbn; [done|].
  intros (here & Hh & (rest & Hr & [= <-])%bind_Some)%bind_Some. unfold write_tag in Hh.
  destruct (String.eqb_spec name (tg_name t)) as [->|_].
  - destruct (tg_omit t x.1); [done|]. intros Hw. rewrite Hw in Hh. injection Hh as <-. left.
  - intros Hw. apply elem_of_app. right. by eapply IH.
Qed.

Lemma struct_member {T X} (fs : fields X) (out : T → X) (in_ : X → T) t j name v :
  write (cstruct fs out in_) t = Some j → written_member name fs (out t) = Some v →
  ∃ l, j = JObj l ∧ (name, v) ∈ l.
Proof. intros (l & Hl & ->)%fmap_Some Hv. exists l. split; [done|]. by eapply write_fields_member. Qed.

Lemma conforms_member name s properties s' l key v :
  conforms env [KRef name] (JObj l) → env name = Some s → KProperties properties ∈ s →
  named key properties = Some s' → (key, v) ∈ l → conforms env s' v.
Proof.
  intros Hc%Forall_inv He Hs Hk Hin. inversion Hc as [? s0 ? He' Hs'| | | | | | | | |]; subst.
  rewrite He in He'. injection He' as <-.
  apply (proj1 (list.Forall_forall _ _) Hs') in Hs. inversion Hs as [| | | | | |? ? Hp| | |]; subst.
  by eapply Hp.
Qed.

Lemma conforms_enum name s a : conforms env [KRef name] (JStr a) → env name = Some s →
  ∀ values, KEnum values ∈ s → a ∈ values.
Proof.
  intros Hc%Forall_inv He values Hs. inversion Hc as [? s0 ? He' Hs'| | | | | | | | |]; subst.
  rewrite He in He'. injection He' as <-.
  apply (proj1 (list.Forall_forall _ _) Hs') in Hs. inversion Hs as [| |? ? (b & Hb & Hin)| | | | | | |]; subst.
  by injection Hb as ->.
Qed.

(** A conforming evaluation has a path. *)
Lemma conforming_path `{UuidText} e j :
  write Evaluation_codec e = Some j → conforms env [KRef "Evaluation"] j →
  ExecutionPath_Valid (ae_ExecutionPath e) = true.
Proof.
  intros Hj Hc. eapply (struct_member _ _ _ _ _ "executionPath") in Hj as (l & -> & Hin); [|reflexivity].
  eapply (conforms_member _ _ _ _ _ "executionPath") in Hc;
    [|vm_compute; reflexivity|left|vm_compute; reflexivity|exact Hin].
  apply ExecutionPath_values. eapply conforms_enum; [exact Hc|reflexivity|]. vm_compute. left.
Qed.
End Conformance.

Module DocumentTheorems.
Import WellFormed EvalSpec ServiceSpec EvaluationTheorems EvalConvert PayloadSound HttpErrors HttpServer ApiJson ApiEnums HttpRouter ApiServer JsonSchema Conformance.

Section server.
Context {W : Type} `{ErrorText} `{UuidText} `{ParamRuntime} {local : ParamRuntimeLocal}.
Context (ssi : StrictServerInterface (W:=W)).

(** The generated server alone: no middlewares, at the root, with hooks that answer nothing,
    so that every reply is of an operation. *)
Definition silent : RequestErrorHandler (W:=W) := λ sc _ w _, MkOutcome w [] (sc_headers sc) None.
Definition silent_response (sc : scope) (_ : HttpRequest) (w : W) : outcome W :=
  MkOutcome w [] (sc_headers sc) None.
Definition strict_options : StrictHTTPServerOptions (W:=W) := MkStrictOptions silent silent_response.
Definition generated : list (string * Handler (W:=W)) :=
  HandlerWithOptions (NewStrictHandlerWithOptions ssi strict_options) (MkStdOptions "" [] silent).

(** What a declared parameter is in a request. *)
Definition parameter_value (req : HttpRequest) (location name : string) : option (list string) :=
  if String.eqb location "query" then Query req !! name
  else if String.eqb location "header" then Headers req !! name
  else Some [PathValue req name].

(** Two requests that an operation cannot tell apart. *)
Definition agree (op : operation) (req req' : HttpRequest) : Prop :=
  (∀ location name required, (location, name, required) ∈ op_parameters op →
     parameter_value req location name = parameter_value req' location name) ∧
  (op_body op ≠ None → Body req = Body req').

Definition reads_declared (op : operation) (handler : Handler (W:=W)) : Prop :=
  ∀ sc req req' w, agree op req req' → handler sc req w = handler sc req' w.

(** A reply has a declared status, and the declared form if its values are in the contract. *)
Definition reply_declared (responses : list (Z * string)) (reply : Reply) : Prop :=
  ∃ kind, kind_of (rp_body reply) = Some kind ∧ (rp_status reply, schema_name kind) ∈ responses ∧
    ∀ payload j, payload_of (rp_body reply) = Some payload → payload_meets payload →
      encode_body (rp_body reply) = Some j → conforms env [KRef (schema_name kind)] j.

Definition replies_declared (responses : list (Z * string)) (handler : Handler (W:=W)) : Prop :=
  ∀ sc req w reply, out_reply (handler sc req w) = Some reply → reply_declared responses reply.

Lemma respond_declared {A} objects (operation : Operation (W:=W) A) request :
  replies_declared (prod_map id schema_name <$> objects) (respond strict_options objects operation request).
Proof using.
  intros sc req w reply. unfold respond. destruct (operation sc request w) as [w' [[r|e]|]]; [|discriminate..].
  destruct (implements objects r) eqn:Hi; [|discriminate]. destruct (encode_body (rp_body r)); [|discriminate].
  intros [= ->]. unfold implements in Hi. destruct (kind_of (rp_body reply)) as [kind|] eqn:Hk; [|done].
  apply bool_decide_eq_true in Hi. exists kind. split; [done|]. split.
  - apply list_elem_of_fmap. by exists (rp_status reply, kind).
  - intros payload j' Hp Hm He. by eapply body_as.
Qed.

Lemma body_declared {B} responses decode (handler : B → Handler (W:=W)) :
  (∀ b, replies_declared responses (handler b)) →
  replies_declared responses (with_json_body strict_options decode handler).
Proof using. intros Hh sc req w reply. unfold with_json_body. case_match; [by apply Hh|discriminate]. Qed.

Lemma bound_declared {P} responses si (params : HttpRequest → P + paramError) (handler : P → Handler (W:=W)) :
  (∀ p, replies_declared responses (handler p)) →
  replies_declared responses (bound (MkWrapper si [] silent) params handler).
Proof using. intros Hh sc req w reply. unfold bound. case_match; [by apply Hh|discriminate]. Qed.

Lemma reads_nothing {A} op objects (operation : Operation (W:=W) A) request :
  reads_declared op (respond strict_options objects operation request).
Proof using. by intros sc req req' w _. Qed.

Lemma reads_body {B} op decode (handler : B → Handler (W:=W)) : op_body op ≠ None →
  (∀ b, reads_declared op (handler b)) → reads_declared op (with_json_body strict_options decode handler).
Proof using.
  intros Ho Hh sc req req' w Ha. unfold with_json_body. rewrite (proj2 Ha Ho). case_match; [by apply Hh|done].
Qed.

Lemma reads_bound {P} op si (params : HttpRequest → P + paramError) (handler : P → Handler (W:=W)) :
  (∀ req req', agree op req req' → params req = params req') → (∀ p, reads_declared op (handler p)) →
  reads_declared op (bound (MkWrapper si [] silent) params handler).
Proof using.
  intros Hp Hh sc req req' w Ha. unfold bound. rewrite (Hp _ _ Ha). case_match; [by apply Hh|done].
Qed.

(** The binding of each operation reads its declared parameters. *)
Definition op_at (n : nat) : operation :=
  default (MkOperation "" "" [] None []) (operations interface !! n).

Lemma agree_query op req req' name required : agree op req req' →
  ("query", name, required) ∈ op_parameters op → Query req !! name = Query req' !! name.
Proof using. intros [Hp _]. apply Hp. Qed.

Lemma agree_path op req req' name required : agree op req req' →
  ("path", name, required) ∈ op_parameters op → PathValue req name = PathValue req' name.
Proof using. intros [Hp _] Hin. by injection (Hp _ _ _ Hin). Qed.

Lemma agree_header op req req' name required : agree op req req' →
  ("header", name, required) ∈ op_parameters op → Headers req !! name = Headers req' !! name.
Proof using. intros [Hp _]. apply Hp. Qed.

Ltac declared_parameter Ha := first [eapply agree_query | eapply agree_path | eapply agree_header];
  [exact Ha | vm_compute; in_list].

Lemma list_parameters req req' : agree (op_at 0) req req' → params_ListEvaluations req = params_ListEvaluations req'.
Proof using local.
  intros Ha. unfold params_ListEvaluations.
  repeat match goal with
  | |- context [BindQueryInteger ?name (Query req)] =>
      rewrite (bind_integer_local name (Query req) (Query req')) by declared_parameter Ha
  | |- context [BindQueryString ?name (Query req)] =>
      rewrite (bind_string_local name (Query req) (Query req')) by declared_parameter Ha
  end. done.
Qed.

Lemma create_parameters req req' : agree (op_at 1) req req' → params_CreateEvaluation req = params_CreateEvaluation req'.
Proof using.
  intros Ha. unfold params_CreateEvaluation.
  by rewrite (agree_header (op_at 1) req req' "Idempotency-Key" false) by first [exact Ha | vm_compute; in_list].
Qed.

Lemma evaluationId_parameters n : n = 2%nat ∨ n = 3%nat → ∀ req req',
  agree (op_at n) req req' → params_evaluationId req = params_evaluationId req'.
Proof using.
  intros Hn req req' Ha. unfold params_evaluationId.
  rewrite (agree_path (op_at n) req req' "evaluationId" true); [done|exact Ha|].
  destruct Hn as [->| ->]; vm_compute; in_list.
Qed.

Lemma policy_parameters req req' : agree (op_at 6) req req' → params_GetPolicy req = params_GetPolicy req'.
Proof using.
  intros Ha. unfold params_GetPolicy.
  rewrite (agree_path (op_at 6) req req' "policyName" true) by first [exact Ha | vm_compute; in_list].
  by rewrite (agree_path (op_at 6) req req' "policyVersion" true) by first [exact Ha | vm_compute; in_list].
Qed.

(** A handler against the declaration of its pattern. *)
Record declares (op : operation) (pattern : string) (handler : Handler (W:=W)) : Prop := {
  dc_declared : op ∈ operations interface;
  dc_pattern : op_pattern op = pattern;
  dc_reads : reads_declared op handler;
  dc_replies : replies_declared (op_responses op) handler
}.

Lemma route_declares n pattern handler :
  bool_decide (op_pattern (op_at n) = pattern ∧ (n < 7)%nat) = true →
  reads_declared (op_at n) handler → replies_declared (op_responses (op_at n)) handler →
  declares (op_at n) pattern handler.
Proof using.
  intros [Hp Hn]%bool_decide_eq_true Hr Hd. split; try done.
  assert (is_Some (operations interface !! n)) as [op Hop] by (apply lookup_lt_is_Some; exact Hn).
  unfold op_at. rewrite Hop. by eapply list_elem_of_lookup_2.
Qed.

Lemma generated_declared : Forall (λ route, ∃ op, declares op route.1 route.2) generated.
Proof using local.
  repeat apply list.Forall_cons_2; try apply list.Forall_nil_2; cbn [fst snd].
  - exists (op_at 0). apply route_declares; [vm_compute; reflexivity| |].
    + apply reads_bound; [apply list_parameters|]. intros p. apply reads_nothing.
    + apply bound_declared. intros p. exact (respond_declared _ _ _).
  - exists (op_at 1). apply route_declares; [vm_compute; reflexivity| |].
    + apply reads_bound; [apply create_parameters|]. intros p. apply reads_body; [done|]. intros b. apply reads_nothing.
    + apply bound_declared. intros p. apply body_declared. intros b. exact (respond_declared _ _ _).
  - exists (op_at 2). apply route_declares; [vm_compute; reflexivity| |].
    + apply reads_bound; [apply evaluationId_parameters; auto|]. intros p. apply reads_nothing.
    + apply bound_declared. intros p. exact (respond_declared _ _ _).
  - exists (op_at 3). apply route_declares; [vm_compute; reflexivity| |].
    + apply reads_bound; [apply evaluationId_parameters; auto|]. intros p. apply reads_body; [done|]. intros b. apply reads_nothing.
    + apply bound_declared. intros p. apply body_declared. intros b. exact (respond_declared _ _ _).
  - exists (op_at 4). apply route_declares; [vm_compute; reflexivity| |].
    + apply reads_nothing.
    + exact (respond_declared _ _ _).
  - exists (op_at 6). apply route_declares; [vm_compute; reflexivity| |].
    + apply reads_bound; [apply policy_parameters|]. intros p. apply reads_nothing.
    + apply bound_declared. intros p. exact (respond_declared _ _ _).
  - exists (op_at 5). apply route_declares; [vm_compute; reflexivity| |].
    + apply reads_body; [done|]. intros b. apply reads_nothing.
    + apply body_declared. intros b. exact (respond_declared _ _ _).
Qed.

End server.

(** ** Behind the middlewares

    The deployed listener mounts the operations at a base path and runs them behind the
    middlewares, with hooks that answer. *)
Section served.
Import Listener HttpTheorems ListenerTheorems.
Context {W : Type} `{Database W} `{ProviderPort W} `{Runtime W} `{YamlDecoder}.
Context `{Secrets.AEADConstruction} `{HttpOutside (St W)} `{ErrorText} `{UuidText} `{ParamRuntime}.
Context {local : ParamRuntimeLocal}.

(** The pattern of an operation under a base path. *)
Fixpoint mounted (base pattern : string) : string :=
  match pattern with
  | EmptyString => EmptyString
  | String c rest => if Ascii.eqb c "/" then base +:+ pattern else String c (mounted base rest)
  end.

(** What the middlewares refuse with, whether or not the operation declares it. *)
Definition refusal (reply : Reply) : Prop :=
  rp_status reply ∈ [400; 401; 413; 429] ∧ ∃ e, rp_body reply = BodyError e.

(** The declared operation a call is for. *)
Definition declared_at (c : call) : nat :=
  match c with
  | CallListEvaluations _ => 0 | CallCreateEvaluation _ => 1 | CallGetEvaluation _ => 2
  | CallSubmitFeedback _ => 3 | CallListPolicies => 4 | CallValidatePolicy _ => 5
  | CallGetPolicy _ _ => 6
  end.

Lemma responses_of_call c :
  op_responses (op_at (declared_at c)) = prod_map id schema_name <$> objects_of c ∧
  op_at (declared_at c) ∈ operations interface.
Proof using. by destruct c; (split; [vm_compute; reflexivity|vm_compute; in_list]). Qed.

Lemma read_call_pattern req complete body c :
  Pattern req ∈ api_patterns → read_call req = inl complete → complete body = Some c →
  mounted APIBasePath (op_pattern (op_at (declared_at c))) = Pattern req.
Proof using.
  unfold read_call, api_patterns. rewrite !elem_of_cons, elem_of_nil.
  intros Hp Hr Hc. destruct_or! Hp; try done; rewrite Hp in Hr;
    repeat (first [rewrite decide_True in Hr by done|rewrite decide_False in Hr by done]);
    repeat match type of Hr with match ?x with _ => _ end = _ => destruct x; [|done] end;
    injection Hr as <-; rewrite Hp; cbn in Hc; try (apply fmap_Some in Hc as (? & _ & ->));
    try (injection Hc as <-); vm_compute; reflexivity.
Qed.

Lemma pattern_declared pattern : pattern ∈ api_patterns →
  ∃ op, op ∈ operations interface ∧ mounted APIBasePath (op_pattern op) = pattern.
Proof using.
  unfold api_patterns. rewrite !elem_of_cons, elem_of_nil. intros Hp.
  destruct_or! Hp; try done; subst.
  - exists (op_at 0). split; [vm_compute; in_list|vm_compute; reflexivity].
  - exists (op_at 1). split; [vm_compute; in_list|vm_compute; reflexivity].
  - exists (op_at 2). split; [vm_compute; in_list|vm_compute; reflexivity].
  - exists (op_at 3). split; [vm_compute; in_list|vm_compute; reflexivity].
  - exists (op_at 4). split; [vm_compute; in_list|vm_compute; reflexivity].
  - exists (op_at 6). split; [vm_compute; in_list|vm_compute; reflexivity].
  - exists (op_at 5). split; [vm_compute; in_list|vm_compute; reflexivity].
Qed.

Lemma gate_refuses (config : RouterConfig (W:=St W)) req allowed reply :
  gate config req allowed = inl reply → refusal reply.
Proof using.
  unfold gate, refusal. cbv zeta. intros Hg.
  repeat case_match; (discriminate Hg || (injection Hg as <-; split; [in_list|by eexists])).
Qed.

(** A response object of a call, and the 500 in its place, are declared. *)
Lemma call_reply_declared c reply : implements (objects_of c) reply = true →
  reply_declared (op_responses (op_at (declared_at c))) reply.
Proof using.
  intros Hi. rewrite (proj1 (responses_of_call c)). unfold implements in Hi.
  destruct (kind_of (rp_body reply)) as [kind|] eqn:Hk; [|done]. apply bool_decide_eq_true in Hi.
  exists kind. split; [done|]. split.
  - apply list_elem_of_fmap. by exists (rp_status reply, kind).
  - intros payload j' Hp Hm He. by eapply body_as.
Qed.

Lemma panic_reply_implements c : implements (objects_of c) panic_reply = true.
Proof using. by destruct c. Qed.

Lemma final_reply_declared c reply : implements (objects_of c) reply = true →
  reply_declared (op_responses (op_at (declared_at c))) (final_reply reply).
Proof using.
  intros Hi. unfold final_reply. case_decide; apply call_reply_declared; [done|].
  apply (panic_reply_implements c).
Qed.

Lemma served_reply_declared (r : Router (W:=W)) req w h reply :
  (Pattern req, h) ∈ HandlerWithOptions (strict_handler r) (std_options r) →
  out_reply (h (MkScope "" ∅) req w) = Some reply →
  ∃ op, op ∈ operations interface ∧ mounted APIBasePath (op_pattern op) = Pattern req ∧
    (reply_declared (op_responses op) reply ∨ refusal reply).
Proof using.
  intros Hin Ho. destruct (api_route_served r req w h Hin) as [Hp Hs]. unfold call_served in Hs.
  assert (refusal reply → ∃ op, op ∈ operations interface ∧
    mounted APIBasePath (op_pattern op) = Pattern req ∧
    (reply_declared (op_responses op) reply ∨ refusal reply)) as Hrefused.
  { destruct (pattern_declared _ Hp) as (op & ? & ?). eauto 6. }
  destruct (read_call req) as [complete|] eqn:Hr.
  2:{ rewrite Hs in Ho. injection Ho as <-. apply Hrefused. split; [in_list|by eexists]. }
  destruct (sanitiseRequestID (RequestIDHeader req) w) as [w1 id] eqn:Eid.
  destruct (limiter_Allow (NewRateLimiter "api" (RequestsPerMinute (config r)) (RateLimitBurst (config r))) w1)
    as [w2 allowed] eqn:El.
  destruct (Hs w1 id w2 allowed Eid El) as [_ Hg].
  destruct (gate (config r) req allowed) as [refused|req'] eqn:Eg.
  - destruct Hg as (_ & Ho' & _). rewrite Ho' in Ho. injection Ho as <-. apply Hrefused.
    by eapply gate_refuses.
  - destruct Hg as (c & w3 & answer & Hc & _ & He & _ & Hobs). exists (op_at (declared_at c)).
    split; [apply responses_of_call|]. split; [by eapply read_call_pattern|]. left.
    destruct answer as [reply'|err]; destruct Hobs as [Ho' _]; rewrite Ho' in Ho; injection Ho as <-.
    + by apply final_reply_declared.
    + apply call_reply_declared, panic_reply_implements.
Qed.

(** C32: the document the package embeds is what its server is. It decodes and parses, with no
    keyword that is not understood; the members of its enumerations are those the code
    knows; its operations are exactly the patterns the generated server registers; and each
    handler of the bare generated server (no middlewares, hooks that answer nothing) reads
    nothing of a request but the declared parameters and body, and replies with a declared
    status whose body, for values in the contract, has the declared form.  Of the deployed
    listener, whose middlewares also read the [Authorization] and [X-Request-Id] headers,
    every reply on an API route is a declared reply of its operation or one of the refusals
    of the middlewares, 400, 401, 413 or 429 with the failure envelope, which an operation
    need not declare. *)
Theorem document_declares_server (ssi : StrictServerInterface (W:=St W)) (r : Router (W:=W)) :
  ∃ declared, document = Some declared ∧
    op_pattern <$> operations declared ≡ₚ (generated ssi).*1 ∧
    (∀ pattern handler, (pattern, handler) ∈ generated ssi → ∃ op, op ∈ operations declared ∧
       op_pattern op = pattern ∧ reads_declared op handler ∧ replies_declared (op_responses op) handler) ∧
    (∀ req w h reply, (Pattern req, h) ∈ HandlerWithOptions (strict_handler r) (std_options r) →
       out_reply (h (MkScope "" ∅) req w) = Some reply →
       ∃ op, op ∈ operations declared ∧ mounted APIBasePath (op_pattern op) = Pattern req ∧
         (reply_declared (op_responses op) reply ∨ refusal reply)) ∧
    (∀ v, (EvaluationStatus_Valid v = true ↔ v ∈ enum_of "EvaluationStatus") ∧
          (ExecutionPath_Valid v = true ↔ v ∈ enum_of "ExecutionPath") ∧
          (PolicyKind_Valid v = true ↔ v ∈ enum_of "PolicyKind") ∧
          (QuestionType_Valid v = true ↔ v ∈ enum_of "QuestionType")).
Proof using local.
  exists interface. split; [apply document_read|]. split; [|split; [|split]].
  - vm_compute (op_pattern <$> operations interface). cbn. do 5 apply Permutation_skip. apply Permutation_swap.
  - intros pattern handler Hin.
    destruct (proj1 (list.Forall_forall _ _) (generated_declared ssi) _ Hin) as (op & [Ho Hp Hr Hd]). eauto.
  - intros req w h reply. apply served_reply_declared.
  - intros v. split; [apply EvaluationStatus_values|]. split; [apply ExecutionPath_values|].
    split; [apply PolicyKind_values|apply QuestionType_values].
Qed.
End served.

(** ** What is stored and loaded *)
Section stored.
#[local] Set Default Proof Using "Type*".
Context {W : Type} `{Database W, !DatabaseLaws W} `{ProviderPort W} `{Runtime W}
  `{!OutsideLaws W} `{YamlDecoder} `{UuidText}.

Lemma short_ref name version : IsDashedIdentifier name = true → strlen version <= MaxVersionLength →
  ref_meets (MkRef name version).
Proof using.
  unfold IsDashedIdentifier. intros [Hn%Z.leb_le _]%andb_true_iff Hv. split; cbn.
  - pose proof (rune_count_le name). change MaxIdentifierLength with 64 in Hn. lia.
  - pose proof (rune_count_le version). change MaxVersionLength with 32 in Hv. lia.
Qed.

(** The two enumerations of paths have the same members. *)
Lemma path_valid path : ExecutionPath_IsValid path = true → ExecutionPath_Valid path = true.
Proof using.
  unfold ExecutionPath_IsValid. intros Hp%bool_decide_eq_true.
  repeat (apply elem_of_cons in Hp as [->|Hp]; [done|]). by apply not_elem_of_nil in Hp.
Qed.

(** A completed row is in the contract as far as its answers are. *)
Lemma completed_meets row : verdict_ok (verdict_of row) → policy_named row →
  map_ok answer_meets (ae_Answers (evaluationModelToAPI row)) →
  ev_Status row = EvaluationStatusCompleted → evaluation_meets (evaluationModelToAPI row).
Proof using.
  intros [(_ & _ & Hp & _)|(Hs & _)] (Hn & Hv & Hk) Ha Hc; [|cbn in Hs; rewrite Hc in Hs; discriminate Hs].
  unfold evaluation_meets. cbn in *. rewrite Hc.
  split; [done|]. split; [by apply path_valid|]. split; [by destruct Hk as [->| ->]|].
  split; [by apply short_ref|done].
Qed.

Lemma policy_meets_compiled c : wf_compiled c → policy_meets (Policies.CompiledToAPI c).
Proof using.
  intros Hwf q. cbn. rewrite (wfc_questionIDs _ Hwf). intros (id & -> & Hid)%list_elem_of_fmap.
  apply elem_of_sorted_keys in Hid as [question Hq]. rewrite Hq. cbn.
  by destruct (wfc_questions_valid _ Hwf _ _ Hq).
Qed.

(** C33: what is served of the stored and loaded data has the declared form, except evaluations
    that failed: whatever the history, a stored evaluation whose answers read back as
    probabilities is written as the document declares exactly when it completed (a failed
    one has no execution path, which the document requires to be one of three), its feedback
    is, and so is every policy that compiles. *)
Theorem served_data_conforms t :
  reachable t →
  (∀ k row j, t_evaluations t !! k = Some row →
     map_ok answer_meets (ae_Answers (evaluationModelToAPI row)) →
     JsonStruct.write Evaluation_codec (evaluationModelToAPI row) = Some j →
     conforms env [KRef "Evaluation"] j ↔ ev_Status row = EvaluationStatusCompleted) ∧
  (∀ k row j, t_feedback t !! k = Some row →
     JsonStruct.write Feedback_codec (feedbackModelToAPI row) = Some j → conforms env [KRef "Feedback"] j) ∧
  (∀ c j, wf_compiled c → JsonStruct.write Policy_codec (Policies.CompiledToAPI c) = Some j →
     conforms env [KRef "Policy"] j).
Proof.
  intros Ht%reachable_ok. split; [|split].
  - intros k row j Hr Ha Hj. split.
    + intros Hc. pose proof (conforming_path _ _ Hj Hc) as Hp.
      destruct (tb_verdicts _ Ht _ _ Hr) as [[Hs _]|(_ & _ & _ & Hpath & _)]; [done|].
      cbn in Hp, Hpath. by rewrite Hpath in Hp.
    + intros Hs. eapply Evaluation_as; [|exact Hj].
      apply completed_meets; [by eapply tb_verdicts|by eapply tb_policies|done..].
  - intros k row j _ Hj. by eapply Feedback_as.
  - intros c j Hwf Hj. eapply Policy_as; [|exact Hj]. by apply policy_meets_compiled.
Qed.
End stored.

(** ** Witnesses *)
Import MemStore ServiceFixtures HttpFixtures.

Definition ssi : StrictServerInterface (W:=St World) := Listener.strict_server (Listener.server router).

Lemma document_declares_server_witness :
  ∃ op, op ∈ operations interface ∧ op_pattern op = "POST /evaluations" ∧
    replies_declared (op_responses op) (nth 1 (generated ssi) ("", λ sc _ w, MkOutcome w [] ∅ None)).2.
Proof.
  destruct (document_declares_server ssi router) as (declared & Hd & _ & Hr & _).
  assert (declared = interface) as -> by (rewrite document_read in Hd; injection Hd as <-; reflexivity).
  destruct (Hr "POST /evaluations" (nth 1 (generated ssi) ("", λ sc _ w, MkOutcome w [] ∅ None)).2)
    as (op & Ho & Hp & _ & Hs).
  - right. left.
  - exists op. split; [exact Ho|]. split; [exact Hp|exact Hs].
Defined.

(** The row of a completed request, and the row of one whose provider failed. *)
Definition failing : St World := (run_op service (OpCreate request) (start [Err (EForeign "unreachable")])).

Definition row_of (st : St World) : Evaluation :=
  default stored1 (t_evaluations (tables (st_world st)) !! "id-0").

Definition json_of (row : Evaluation) : json :=
  default JNull (JsonStruct.write Evaluation_codec (evaluationModelToAPI row)).

Lemma completed_answers_meet : map_ok answer_meets (ae_Answers (evaluationModelToAPI (row_of run1.1))).
Proof.
  intros k a Ha. apply elem_of_map_to_list in Ha.
  set (l := map_to_list _) in Ha. vm_compute in l. subst l.
  repeat (apply elem_of_cons in Ha as [[= -> ->]|Ha]; [vm_compute; tauto|]). by apply not_elem_of_nil in Ha.
Qed.

Lemma failed_answers_meet : map_ok answer_meets (ae_Answers (evaluationModelToAPI (row_of failing))).
Proof.
  intros k a Ha. apply elem_of_map_to_list in Ha.
  set (l := map_to_list _) in Ha. vm_compute in l. subst l. by apply not_elem_of_nil in Ha.
Qed.

Lemma served_data_conforms_witness :
  conforms env [KRef "Evaluation"] (json_of (row_of run1.1)) ∧
  (conforms env [KRef "Evaluation"] (json_of (row_of failing)) → False).
Proof.
  split.
  - refine (proj2 (proj1 (served_data_conforms (tables (st_world run1.1)) _) "id-0" (row_of run1.1) _ _ completed_answers_meet _) _).
    + exact (reachable_op service (OpCreate request) (start script) service_is_ok reachable_empty).
    + vm_compute. reflexivity.
    + vm_compute. reflexivity.
    + vm_compute. reflexivity.
  - intros Hc.
    assert (ev_Status (row_of failing) = EvaluationStatusCompleted) as E.
    { refine (proj1 (proj1 (served_data_conforms (tables (st_world failing)) _) "id-0" (row_of failing) _ _ failed_answers_meet _) Hc).
      + exact (reachable_op service (OpCreate request) (start [Err (EForeign "unreachable")]) service_is_ok reachable_empty).
      + vm_compute. reflexivity.
      + vm_compute. reflexivity. }
    vm_compute in E. discriminate E.
Defined.

End DocumentTheorems.
