(* ===== verification/Mcp.v ===== *)
(** * The MCP transport

    [internal/pkg/mcp/mcp.go]: the tools, their typed inputs and the service call each one
    makes.  The protocol itself (JSON-RPC framing, decoding into the typed inputs, turning
    a returned error into an error result) is the SDK's; schema derivation and [uuid.Parse]
    are parameters. *)

From S2P Require Import Prelude GoFloat GoAny Decision Document Store Effects Loader Policies Secrets.
From S2P Require Import EvalConvert Evaluations.
From stdpp Require Import options.
#[local] Open Scope Z_scope.

(** [uuid.Parse], as the text of the value it returns. *)
Class UuidParser := uuid_of_string : string → res uuid.

(** [jsonschema.For] of an output type, by the type's name. *)
Class SchemaDeriver := jsonschema_For : string → res string.

Module Mcp.
Import EvalConvert.

Definition ServerName : string := "vibecheck".
Definition ServerTitle : string := "Vibecheck".
Definition ToolEvaluate : string := "vibecheck_evaluate".
Definition ToolListPolicies : string := "vibecheck_list_policies".
Definition ToolGetPolicy : string := "vibecheck_get_policy".
Definition ToolGetEvaluation : string := "vibecheck_get_evaluation".
Definition ToolValidatePolicy : string := "vibecheck_validate_policy".
Definition ToolSubmitFeedback : string := "vibecheck_submit_feedback".

(** ** Registration *)

(** A tool as it is offered: its name, and the output schema it overrides. *)
Record Tool : Set := MkTool { tool_Name : string; tool_OutputSchema : option string }.

Definition outputSchemaFor `{SchemaDeriver} (type : string) : res string := jsonschema_For type.

Definition register `{SchemaDeriver} : res (list Tool) :=
  evaluationSchema ← outputSchemaFor "api.Evaluation";
  feedbackSchema ← outputSchemaFor "api.Feedback";
  Ok [MkTool ToolEvaluate (Some evaluationSchema);
      MkTool ToolListPolicies None;
      MkTool ToolGetPolicy None;
      MkTool ToolGetEvaluation (Some evaluationSchema);
      MkTool ToolValidatePolicy None;
      MkTool ToolSubmitFeedback (Some feedbackSchema)].

(** The core services the tools call: the values the REST handlers hold. *)
Record Services : Type := MkServices {
  services_Evaluations : Evaluations.Service;
  services_Policies : Policies.Service
}.

(** The SDK's server: what it is called, the tools on it, and the services their handlers
    close over. *)
Record Server : Type := MkServer {
  srv_Name : string;
  srv_Title : string;
  srv_Tools : list Tool;
  srv_Services : Services
}.

Definition NewServer `{SchemaDeriver} (services : Services) : res Server :=
  tools ← register; Ok (MkServer ServerName ServerTitle tools services).

Record StreamableHTTPOptions : Set := MkStreamableHTTPOptions {
  Stateless : bool;
  JSONResponse : bool;
  MaxRequestBodyBytes : Z;
  PropagateRequestCancellation : bool
}.

(** What is handed to [NewStreamableHTTPHandler]. *)
Definition Handler `{SchemaDeriver} (services : Services) (maxRequestBytes : Z)
  : res (Server * StreamableHTTPOptions) :=
  server ← NewServer services;
  Ok (server, MkStreamableHTTPOptions true true maxRequestBytes true).

(** ** Inputs *)
Record EvaluateInput : Set := MkEvaluateInput {
  in_PolicyName : string;
  in_PolicyVersion : string;
  in_InlinePolicy : list (string * goany);
  in_State : goany;
  in_Facts : option Facts;
  in_Metadata : option (gmap string string);
  in_IdempotencyKey : string
}.

Record SubmitFeedbackInput : Set := MkSubmitFeedbackInput {
  fb_EvaluationId : string;
  fb_Outcome : string;
  fb_NoteText : string
}.

(** The logging scope of the context; [requestIDFromContext] reads one key of it. *)
Definition requestIDFromContext (scope : gmap string goany) : string :=
  match scope !! "request_id" with Some (AString value) => value | _ => "" end.

(** [toolError] wraps and logs. *)
Definition toolError (err : goerr) : goerr := err.

Definition tool {W A} (m : M W A) : M W A :=
  r ← settle m;
  match r with Err err => fail (toolError err) | Ok result => mret result end.

(** The one policy reference of a call: absent when both parts are empty. *)
Definition policyRef (name version : string) : option Ref :=
  if negb (bool_decide (name = "")) || negb (bool_decide (version = ""))
  then Some (MkRef name version) else None.

(** ** Tools *)
Section tools.
Context {W : Type} `{Database W} `{ProviderPort W} `{Runtime W} `{YamlDecoder}.
Context `{Secrets.AEADConstruction} `{UuidParser}.
Context (evaluations : Evaluations.Service) (policies : Policies.Service).

Definition evaluate (scope : gmap string goany) (input : EvaluateInput) : M W APIEvaluation :=
  let createInput :=
    MkCreateInput (policyRef (in_PolicyName input) (in_PolicyVersion input))
      (in_InlinePolicy input) (in_State input) (in_Facts input) (in_Metadata input)
      (in_IdempotencyKey input) (requestIDFromContext scope) in
  tool (Evaluations.Create evaluations createInput).

Definition listPolicies : M W (list Policies.Policy) := mret (Policies.List policies).

Definition getPolicy (name version : string) : M W Policies.Policy :=
  tool (lift (Policies.Get policies name version)).

Definition getEvaluation (evaluationID : string) : M W APIEvaluation :=
  id ← lift (uuid_of_string evaluationID);
  tool (Evaluations.Get id).

Definition validatePolicy (policy : list (string * goany)) : M W Policies.PolicyValidation :=
  tool (lift (Policies.Validate policies policy)).

Definition submitFeedback (input : SubmitFeedbackInput) : M W APIFeedback :=
  id ← lift (uuid_of_string (fb_EvaluationId input));
  tool (Evaluations.SubmitFeedback evaluations
    (Evaluations.MkFeedbackInput id (fb_Outcome input) (fb_NoteText input))).

(** ** Dispatch

    One call of a tool with its decoded input, and the typed output. *)
Inductive ToolCall : Set :=
  | CallEvaluate (input : EvaluateInput)
  | CallListPolicies
  | CallGetPolicy (name version : string)
  | CallGetEvaluation (evaluationID : string)
  | CallValidatePolicy (policy : list (string * goany))
  | CallSubmitFeedback (input : SubmitFeedbackInput).

Inductive ToolOutput : Set :=
  | OutEvaluation (e : APIEvaluation)
  | OutPolicyList (l : list Policies.Policy)
  | OutPolicy (p : Policies.Policy)
  | OutPolicyValidation (v : Policies.PolicyValidation)
  | OutFeedback (f : APIFeedback).

Definition toolName (c : ToolCall) : string :=
  match c with
  | CallEvaluate _ => ToolEvaluate
  | CallListPolicies => ToolListPolicies
  | CallGetPolicy _ _ => ToolGetPolicy
  | CallGetEvaluation _ => ToolGetEvaluation
  | CallValidatePolicy _ => ToolValidatePolicy
  | CallSubmitFeedback _ => ToolSubmitFeedback
  end.

(** The handler registered for a name. *)
Definition handle (scope : gmap string goany) (c : ToolCall) : M W ToolOutput :=
  match c with
  | CallEvaluate input => e ← evaluate scope input; mret (OutEvaluation e)
  | CallListPolicies => l ← listPolicies; mret (OutPolicyList l)
  | CallGetPolicy name version => p ← getPolicy name version; mret (OutPolicy p)
  | CallGetEvaluation id => e ← getEvaluation id; mret (OutEvaluation e)
  | CallValidatePolicy policy => v ← validatePolicy policy; mret (OutPolicyValidation v)
  | CallSubmitFeedback input => f ← submitFeedback input; mret (OutFeedback f)
  end.

(** ** Instrumentation; durations are left out.  A tool that panics is not observed, but the
    deferred decrement runs. *)
Inductive toolEvent : Set :=
  | MCPInFlightInc
  | ObserveMCPTool (name : string) (failed : bool)
  | MCPInFlightDec.

Definition instrument {A} (recorder : bool) (name : string) (handler : M W A) (s : St W)
  : St W * res A * list toolEvent :=
  let p := handler s in
  (p, if recorder then
        MCPInFlightInc ::
        (if negb (is_ok p.2) && panicked s p.1 then []
         else [ObserveMCPTool name (negb (is_ok p.2))]) ++ [MCPInFlightDec]
      else []).

Definition serve (recorder : bool) (scope : gmap string goany) (c : ToolCall) (s : St W)
  : St W * res ToolOutput * list toolEvent :=
  instrument recorder (toolName c) (handle scope c) s.

End tools.
End Mcp.
