(* ===== verification/McpTheorems.v ===== *)
(** * MCP and REST are one service

    Each tool call does what the corresponding REST request does: the same rows, the same
    calls on the provider, the same result or the same failure. *)

From S2P Require Import Prelude GoFloat GoAny Decision Document Store Effects Loader Policies Secrets.
From S2P Require Import Fixtures EvalConvert Evaluations MemStore ServiceFixtures.
From S2P Require Import HttpServer Mcp.
From stdpp Require Import options.
#[local] Open Scope Z_scope.

Module McpTheorems.
Import MemStore ServiceFixtures EvalConvert HttpErrors Mcp.

(** ** The REST request of a tool call *)

(** The Idempotency-Key header that carries a key, as the binder reads it and as the handler
    passes it on: none for no key, the text of the UUID it is, and no request at all for a
    text that is not a UUID. *)
Definition rest_key `{UuidParser} (key : string) : option (option uuid) :=
  if decide (key = "") then Some None
  else match uuid_of_string key with Ok id => Some (Some id) | Err _ => None end.

(** No key, or the text a UUID prints as. *)
Definition canonical_key `{UuidParser} (key : string) : Prop :=
  key = "" ∨ uuid_of_string key = Ok key.

Definition rest_request `{UuidParser} (input : EvaluateInput)
  : option HttpServer.CreateEvaluationRequest :=
  HttpServer.MkCreateEvaluationRequest
    (Some (HttpServer.MkCreateEvaluationBody (in_State input)
       (policyRef (in_PolicyName input) (in_PolicyVersion input)) (Some (in_InlinePolicy input))
       (in_Facts input) (in_Metadata input)))
  <$> rest_key (in_IdempotencyKey input).

Definition call_key (c : ToolCall) : string :=
  match c with CallEvaluate input => in_IdempotencyKey input | _ => "" end.

(** The tool call of a REST body. *)
Definition mcp_input (body : HttpServer.CreateEvaluationBody) (key : option string) : EvaluateInput :=
  MkEvaluateInput (default "" (ref_Name <$> HttpServer.cb_PolicyRef body))
    (default "" (ref_Version <$> HttpServer.cb_PolicyRef body))
    (default [] (HttpServer.cb_InlinePolicy body)) (HttpServer.cb_State body)
    (HttpServer.cb_Facts body) (HttpServer.cb_Metadata body) (default "" key).

(** What REST answers when the service gave this result. *)
Definition success_reply (c : ToolCall) (out : ToolOutput) : HttpServer.Reply :=
  match out with
  | OutEvaluation e =>
      match c with
      | CallEvaluate _ =>
          match classifyRecordedFailure e with
          | Some recorded => HttpServer.createEvaluationStatus recorded
          | None => HttpServer.MkReply 201 (HttpServer.BodyEvaluation e)
          end
      | _ => HttpServer.MkReply 200 (HttpServer.BodyEvaluation e)
      end
  | OutPolicyList l => HttpServer.MkReply 200 (HttpServer.BodyPolicyList l)
  | OutPolicy p => HttpServer.MkReply 200 (HttpServer.BodyPolicy p)
  | OutPolicyValidation v => HttpServer.MkReply 200 (HttpServer.BodyPolicyValidation v)
  | OutFeedback f => HttpServer.MkReply 201 (HttpServer.BodyFeedback f)
  end.

Section agree.
Context {W : Type} `{Database W} `{ProviderPort W} `{Runtime W} `{YamlDecoder}.
Context `{Secrets.AEADConstruction} `{UuidParser}.
Context (s : Evaluations.Service) (p : Policies.Service).

(** The REST handler of a tool call; none for a text the router would not bind as a UUID. *)
Definition rest_run (requestID : string) (c : ToolCall) : option (M W HttpServer.Reply) :=
  match c with
  | CallEvaluate input => HttpServer.CreateEvaluation s requestID <$> rest_request input
  | CallListPolicies => Some (HttpServer.ListPolicies p)
  | CallGetPolicy name version => Some (HttpServer.GetPolicy p name version)
  | CallGetEvaluation text =>
      match uuid_of_string text with
      | Ok id => Some (HttpServer.GetEvaluation id)
      | Err _ => None
      end
  | CallValidatePolicy policy => Some (HttpServer.ValidatePolicy p (Some policy))
  | CallSubmitFeedback input =>
      match uuid_of_string (fb_EvaluationId input) with
      | Ok id => Some (HttpServer.SubmitFeedback s
          (HttpServer.MkSubmitFeedbackRequest id (Some (fb_Outcome input, Some (fb_NoteText input)))))
      | Err _ => None
      end
  end.

Lemma tool_run {A} (m : M W A) st : tool m st = m st.
Proof.
  unfold tool, mbind, M_bind, settle. destruct (m st) as [st' [a|e]]; [done|]. cbn.
  by destruct (panicked st st').
Qed.

Lemma create_failure_body err :
  HttpServer.rp_body (HttpServer.createEvaluationFailure err) = HttpServer.BodyError (f_body (classify err)).
Proof.
  unfold HttpServer.createEvaluationFailure, HttpServer.createEvaluationStatus,
    HttpServer.createEvaluationClientFailure, HttpServer.createEvaluationUpstreamFailure.
  by repeat case_decide.
Qed.

(** The request of a call with a canonical key runs the service on the call's own input. *)
Lemma rest_request_create input requestID :
  canonical_key (in_IdempotencyKey input) →
  ∃ request, rest_request input = Some request ∧
    HttpServer.CreateEvaluation (W:=W) s requestID request = HttpServer.CreateEvaluation s requestID
      (HttpServer.MkCreateEvaluationRequest
        (Some (HttpServer.MkCreateEvaluationBody (in_State input)
           (policyRef (in_PolicyName input) (in_PolicyVersion input)) (Some (in_InlinePolicy input))
           (in_Facts input) (in_Metadata input)))
        (Some (in_IdempotencyKey input))).
Proof.
  unfold rest_request, rest_key. intros [E|E]; [rewrite E; by eexists|].
  case_decide as E'; [rewrite E'|rewrite E]; by eexists.
Qed.

(** C34: REST and MCP make identical decisions and identical audit rows: a tool call leaves
    the database, the provider and the measurements exactly as the corresponding REST
    request does; where it returns a result the REST reply is that result (or the failure
    status of a recorded provider failure), where it fails the REST reply is the envelope
    of that same error, and an identifier that does not parse touches nothing; an evaluation
    that panics on a negative token count panics on both.  REST binds
    the idempotency key as a UUID and passes its canonical text, so this is about calls with
    no key or with a key in that form (another spelling is another key to MCP, and a text
    that is no UUID is refused by REST and accepted by MCP).  Every REST request whose body
    names a policy, with any bound key or none, is the request of such a call. *)
Theorem transports_agree scope c st :
  canonical_key (call_key c) →
  match rest_run (requestIDFromContext scope) c with
  | Some rest =>
      (rest st).1 = (handle s p scope c st).1 ∧
      match (handle s p scope c st).2 with
      | Ok out => (rest st).2 = Ok (success_reply c out)
      | Err e =>
          (∃ reply, (rest st).2 = Ok reply ∧
             HttpServer.rp_body reply = HttpServer.BodyError (f_body (classify e))) ∨
          ((∃ input, c = CallEvaluate input) ∧
             panicked st (handle s p scope c st).1 = true ∧ (rest st).2 = Err e)
      end
  | None => (handle s p scope c st).1 = st ∧ ∃ e, (handle s p scope c st).2 = Err e
  end ∧
  (∀ body key, HttpServer.cb_PolicyRef body ≠ Some (MkRef "" "") →
     (∀ id, key = Some id → uuid_of_string id = Ok id) →
     ∃ request, rest_request (mcp_input body key) = Some request ∧
       canonical_key (in_IdempotencyKey (mcp_input body key)) ∧
       HttpServer.CreateEvaluation s (requestIDFromContext scope) request st =
       HttpServer.CreateEvaluation s (requestIDFromContext scope)
         (HttpServer.MkCreateEvaluationRequest (Some body) key) st).
Proof.
  intros Hkey. split.
  - destruct c as [input| |name version|text|policy|input]; simpl.
    + destruct (rest_request_create input (requestIDFromContext scope) Hkey) as (request & -> & Hrun).
      cbn [fmap option_fmap option_map]. rewrite Hrun.
      unfold evaluate, HttpServer.CreateEvaluation, HttpServer.createInputFromRequest. simpl. rewrite !M_bind_run, tool_run. unfold settle. simpl.
      destruct (Evaluations.Create s _ st) as [st1 [ev|err]]; simpl.
      * unfold success_reply. by destruct (classifyRecordedFailure ev).
      * destruct (panicked st st1) eqn:Ep; (split; [done|]); [right; split; [by eexists|done]|].
        left. eexists. split; [done|]. apply create_failure_body.
    + done.
    + unfold HttpServer.GetPolicy, getPolicy. rewrite M_bind_run, tool_run. unfold lift.
      destruct (Policies.Get p name version); simpl; [done|]. split; [done|]. left. by eexists.
    + unfold getEvaluation. rewrite !M_bind_run. unfold lift.
      destruct (uuid_of_string text) as [id|e]; simpl; [|split; [done|by eexists]].
      unfold HttpServer.GetEvaluation. rewrite M_bind_run, tool_run. unfold attempt.
      destruct (Evaluations.Get id st) as [st1 [ev|err]]; simpl; [done|]. split; [done|]. left. by eexists.
    + unfold HttpServer.ValidatePolicy, validatePolicy. rewrite M_bind_run, tool_run. unfold lift.
      destruct (Policies.Validate p policy); simpl; [done|]. split; [done|]. left. by eexists.
    + unfold submitFeedback. rewrite !M_bind_run. unfold lift.
      destruct (uuid_of_string (fb_EvaluationId input)) as [id|e]; simpl; [|split; [done|by eexists]].
      unfold HttpServer.SubmitFeedback. simpl. rewrite M_bind_run, tool_run. unfold attempt.
      destruct (Evaluations.SubmitFeedback s _ st) as [st1 [fb|err]]; simpl; [done|].
      split; [done|]. left. by eexists.
  - intros [state ref inline facts metadata] key Href Hid. simpl in Href.
    assert (canonical_key (default "" key)) as Hc by (destruct key; [right; auto|by left]).
    destruct (rest_request_create (mcp_input
      (HttpServer.MkCreateEvaluationBody state ref inline facts metadata) key)
      (requestIDFromContext scope) Hc) as (request & -> & Hrun).
    exists request. split; [done|]. split; [done|]. rewrite Hrun.
    unfold HttpServer.CreateEvaluation, HttpServer.createInputFromRequest. simpl.
    enough (policyRef (default "" (ref_Name <$> ref)) (default "" (ref_Version <$> ref)) = ref) as -> by done.
    destruct ref as [[name version]|]; [|done]. unfold policyRef. simpl.
    destruct (bool_decide (name = "")) eqn:En, (bool_decide (version = "")) eqn:Ev; try done.
    apply bool_decide_eq_true in En, Ev. by subst.
Qed.
End agree.

(** ** A tool call to run *)

(** A parser that reads the two spellings of the fixture's key, and every other text of the
    length of a UUID as itself. *)
#[export] Instance plain_uuid : UuidParser := λ s,
  if negb (String.length s =? 36)%nat then Err (EForeign "invalid UUID length")
  else Ok (Loader.strings_ToLower s).

Definition key : uuid := "6ba7b810-9dad-11d1-80b4-00c04fd430c8".

Definition call : ToolCall :=
  CallEvaluate (MkEvaluateInput "router" "1.0.0" [] (AString "where is my invoice?")
    (Some Fixtures.router_facts) None key).

Definition scope : gmap string goany := {[ "request_id" := AString "req-1" ]}.

Example call_examples :
  (handle service (Evaluations.svc_policies service) scope call (start script)).2 =
    Ok (OutEvaluation evaluation1) ∧
  is_ok (handle service (Evaluations.svc_policies service) scope (CallGetEvaluation "") (start script)).2 = false.
Proof. vm_compute. done. Qed.

(** Two spellings of one UUID: REST keeps one text for both. *)
Example spelled_keys :
  rest_key "6BA7B810-9DAD-11D1-80B4-00C04FD430C8" = Some (Some key) ∧
  rest_key "key-1" = None ∧ rest_key "" = Some None.
Proof. vm_compute. done. Qed.

(** The same body, through REST. *)
Definition body : HttpServer.CreateEvaluationBody :=
  HttpServer.MkCreateEvaluationBody (AString "where is my invoice?") (Some (MkRef "router" "1.0.0"))
    None (Some Fixtures.router_facts) None.

Lemma transports_agree_witness :
  (∃ rest, rest_run service (Evaluations.svc_policies service) "req-1" call = Some rest ∧
     (rest (start script)).1 = (handle service (Evaluations.svc_policies service) scope call (start script)).1) ∧
  ∃ request, rest_request (mcp_input body (Some key)) = Some request ∧
    HttpServer.CreateEvaluation service "req-1" request (start script) =
    HttpServer.CreateEvaluation service "req-1"
      (HttpServer.MkCreateEvaluationRequest (Some body) (Some key)) (start script).
Proof.
  assert (canonical_key (call_key call)) as Hc by (right; vm_compute; reflexivity).
  assert (HttpServer.cb_PolicyRef body ≠ Some (MkRef "" "")) as Hr by (intros E; discriminate E).
  assert (∀ id, Some key = Some id → uuid_of_string id = Ok id) as Hid
    by (intros id E; injection E as <-; vm_compute; reflexivity).
  destruct (transports_agree service (Evaluations.svc_policies service) scope call (start script) Hc)
    as [H1 H2].
  assert (match rest_run service (Evaluations.svc_policies service) (requestIDFromContext scope) call with
          | Some _ => true | None => false end = true) as Hrest by (vm_compute; reflexivity).
  assert (requestIDFromContext scope = "req-1") as Hid1 by (vm_compute; reflexivity).
  rewrite Hid1 in H1, H2, Hrest. split.
  - destruct (rest_run service (Evaluations.svc_policies service) "req-1" call) as [rest|];
      [|discriminate Hrest].
    destruct H1 as [H1 _]. exists rest. split; [reflexivity|exact H1].
  - destruct (H2 body (Some key) Hr Hid) as (request & E & _ & Hrun).
    exists request. split; [exact E|exact Hrun].
Defined.
End McpTheorems.
