(* ===== verification/Metrics.v ===== *)
(** * Metrics

    [internal/pkg/metrics/metrics.go] and the failure test of [internal/pkg/db/metrics.go]:
    the instruments, their labels, and the samples each observation adds.  The registry and
    the instruments are Prometheus's: what is modelled of them is when they panic (a label
    count that does not match, a counter that would go down, a name registered twice).
    Durations are left out of the samples. *)

From S2P Require Import Prelude GoFloat GoAny Effects.
From stdpp Require Import options.
#[local] Open Scope Z_scope.

Module Metrics.

Definition namespace : string := "vibecheck".
Definition subsystemHTTP : string := "http".
Definition subsystemMCP : string := "mcp".
Definition subsystemProvider : string := "provider".
Definition subsystemModel : string := "model".
Definition subsystemEvaluation : string := "evaluation".
Definition subsystemDB : string := "db".
Definition subsystemRetention : string := "retention".
Definition subsystemBuild : string := "build".

Definition labelMethod : string := "method".
Definition labelRoute : string := "route".
Definition labelStatus : string := "status".
Definition labelTool : string := "tool".
Definition labelOutcomeClass : string := "outcome_class".
Definition labelStatusClass : string := "status_class".
Definition labelModel : string := "model".
Definition labelPolicyKind : string := "policy_kind".
Definition labelOutcome : string := "outcome".
Definition labelExecutionPath : string := "execution_path".
Definition labelOperation : string := "operation".
Definition labelResult : string := "result".
Definition labelVersion : string := "version".
Definition labelCommit : string := "commit".

Definition statusClassDivisor : Z := 100.

(** The buckets, in thousandths. *)
Definition attemptBuckets : list Z := [1000; 2000; 3000; 4000; 5000; 10000].
Definition durationBuckets : list Z :=
  [5; 10; 25; 50; 100; 250; 500; 1000; 2500; 5000; 10000; 30000].

Definition OutcomeClass : Set := string.
Definition OutcomeClassSuccess : OutcomeClass := "success".
Definition OutcomeClassError : OutcomeClass := "error".

Definition classOf (failed : bool) : OutcomeClass :=
  if failed then OutcomeClassError else OutcomeClassSuccess.

(** ** Instruments *)
Inductive kind : Set := Counter | Gauge | Histogram (buckets : list Z).

Record instrument : Set := MkInstrument {
  i_name : string;
  i_kind : kind;
  i_labels : list string
}.

(** [BuildFQName] of non-empty parts. *)
Definition fqName (subsystem name : string) : string :=
  namespace +:+ "_" +:+ subsystem +:+ "_" +:+ name.

Definition counterVec (subsystem name : string) (labels : list string) : instrument :=
  MkInstrument (fqName subsystem name) Counter labels.
Definition histogramVec (subsystem name : string) (labels : list string) : instrument :=
  MkInstrument (fqName subsystem name) (Histogram durationBuckets) labels.
Definition histogram (subsystem name : string) (buckets : list Z) : instrument :=
  MkInstrument (fqName subsystem name) (Histogram buckets) [].
Definition gauge (subsystem name : string) : instrument :=
  MkInstrument (fqName subsystem name) Gauge [].
Definition gaugeVec (subsystem name : string) (labels : list string) : instrument :=
  MkInstrument (fqName subsystem name) Gauge labels.

Record Metrics : Set := MkMetrics {
  httpRequests : instrument; httpDuration : instrument; httpInFlight : instrument;
  mcpCalls : instrument; mcpDuration : instrument; mcpInFlight : instrument;
  providerRequests : instrument; providerDuration : instrument;
  providerAttempts : instrument; providerInFlight : instrument;
  modelInputTokens : instrument; modelOutputTokens : instrument;
  evaluations : instrument; evaluationDuration : instrument;
  dbOperations : instrument; dbDuration : instrument;
  retentionRuns : instrument; retentionDeleted : instrument;
  buildInfo : instrument
}.

(** [New], the eight [init] methods in one. *)
Definition New : Metrics := {|
  httpRequests := counterVec subsystemHTTP "requests_total" [labelMethod; labelRoute; labelStatus];
  httpDuration := histogramVec subsystemHTTP "request_duration_seconds" [labelMethod; labelRoute];
  httpInFlight := gauge subsystemHTTP "in_flight_requests";
  mcpCalls := counterVec subsystemMCP "tool_calls_total" [labelTool; labelOutcomeClass];
  mcpDuration := histogramVec subsystemMCP "tool_duration_seconds" [labelTool];
  mcpInFlight := gauge subsystemMCP "in_flight_calls";
  providerRequests := counterVec subsystemProvider "requests_total" [labelStatusClass; labelOutcomeClass];
  providerDuration := histogramVec subsystemProvider "request_duration_seconds" [labelOutcomeClass];
  providerAttempts := histogram subsystemProvider "attempts_per_call" attemptBuckets;
  providerInFlight := gauge subsystemProvider "in_flight_requests";
  modelInputTokens := counterVec subsystemModel "input_tokens_total" [labelModel];
  modelOutputTokens := counterVec subsystemModel "output_tokens_total" [labelModel];
  evaluations := counterVec subsystemEvaluation "total" [labelPolicyKind; labelOutcome; labelExecutionPath];
  evaluationDuration := histogramVec subsystemEvaluation "duration_seconds" [labelPolicyKind; labelExecutionPath];
  dbOperations := counterVec subsystemDB "operations_total" [labelOperation; labelOutcomeClass];
  dbDuration := histogramVec subsystemDB "operation_duration_seconds" [labelOperation];
  retentionRuns := counterVec subsystemRetention "runs_total" [labelResult];
  retentionDeleted := counterVec subsystemRetention "rows_deleted_total" [labelOperation];
  buildInfo := gaugeVec subsystemBuild "info" [labelVersion; labelCommit]
|}.

(** [mustRegister], less the two collectors of the Go runtime. *)
Definition registered (m : Metrics) : list instrument := [
  httpRequests m; httpDuration m; httpInFlight m;
  mcpCalls m; mcpDuration m; mcpInFlight m;
  providerRequests m; providerDuration m; providerAttempts m; providerInFlight m;
  modelInputTokens m; modelOutputTokens m;
  evaluations m; evaluationDuration m;
  dbOperations m; dbDuration m;
  retentionRuns m; retentionDeleted m;
  buildInfo m].

(** ** Samples; [None] is a panic *)
Inductive update : Set := Add (n : Z) | Observe | Set_ (n : Z).
Record sample : Set := MkSample { sm_name : string; sm_values : list string; sm_update : update }.

Definition allowed (k : kind) (u : update) : bool :=
  match k, u with
  | Counter, Add n => 0 <=? n
  | Gauge, (Add _ | Set_ _) | Histogram _, Observe => true
  | _, _ => false
  end.

(** [WithLabelValues(values...)] and the update on it. *)
Definition withLabelValues (i : instrument) (values : list string) (u : update)
  : option (list sample) :=
  if decide (length values = length (i_labels i) ∧ allowed (i_kind i) u = true)
  then Some [MkSample (i_name i) values u] else None.

Definition seq (a b : option (list sample)) : option (list sample) :=
  l ← a; k ← b; Some (l ++ k).

(** [statusClass]; [/] truncates. *)
Definition statusClass (status : Z) : string :=
  if decide (status = 0) then "none" else Itoa (Z.quot status statusClassDivisor) +:+ "xx".

Section observations.
Context (m : Metrics).

Definition SetBuildInfo (version commit : string) : option (list sample) :=
  withLabelValues (buildInfo m) [version; commit] (Set_ 1).

Definition ObserveHTTP (method route : string) (status : Z) : option (list sample) :=
  seq (withLabelValues (httpRequests m) [method; route; Itoa status] (Add 1))
      (withLabelValues (httpDuration m) [method; route] Observe).

Definition ObserveMCPTool (tool : string) (class : OutcomeClass) : option (list sample) :=
  seq (withLabelValues (mcpCalls m) [tool; class] (Add 1))
      (withLabelValues (mcpDuration m) [tool] Observe).

Definition ObserveProviderAttempt (status : Z) (failed : bool) : option (list sample) :=
  let class := classOf failed in
  seq (withLabelValues (providerRequests m) [statusClass status; class] (Add 1))
      (withLabelValues (providerDuration m) [class] Observe).

Definition ObserveProviderCall (attempts : Z) : option (list sample) :=
  withLabelValues (providerAttempts m) [] Observe.

Definition ProviderCallStarted : option (list sample) := withLabelValues (providerInFlight m) [] (Add 1).
Definition ProviderCallFinished : option (list sample) := withLabelValues (providerInFlight m) [] (Add (-1)).

Definition ObserveTokens (model : string) (input output : Z) : option (list sample) :=
  if decide (model = "") then Some []
  else seq (withLabelValues (modelInputTokens m) [model] (Add input))
           (withLabelValues (modelOutputTokens m) [model] (Add output)).

Definition ObserveEvaluation (policyKind outcome executionPath : string) : option (list sample) :=
  seq (withLabelValues (evaluations m) [policyKind; outcome; executionPath] (Add 1))
      (withLabelValues (evaluationDuration m) [policyKind; executionPath] Observe).

Definition ObserveDB (operation : string) (failed : bool) : option (list sample) :=
  seq (withLabelValues (dbOperations m) [operation; classOf failed] (Add 1))
      (withLabelValues (dbDuration m) [operation] Observe).

(** [deleted] lists the map in the order the loop visits it. *)
Definition ObserveRetentionRun (failed : bool) (deleted : list (string * Z)) : option (list sample) :=
  seq (withLabelValues (retentionRuns m) [classOf failed] (Add 1))
      (foldr (λ entry rest, seq (withLabelValues (retentionDeleted m) [entry.1] (Add entry.2)) rest)
         (Some []) deleted).

End observations.

(** [isOperationFailure] of [internal/pkg/db/metrics.go]. *)
Definition isOperationFailure (err : option goerr) : bool :=
  match err with
  | None => false
  | Some e => negb (errors_Is e GormRecordNotFound)
  end.

(** ** The registry accepts every instrument *)
Lemma registered_once : NoDup (i_name <$> registered New).
Proof. apply (bool_decide_unpack _). vm_compute. exact I. Qed.

Lemma statusClass_bounded status :
  0 <= status <= 599 → statusClass status ∈ ["none"; "0xx"; "1xx"; "2xx"; "3xx"; "4xx"; "5xx"].
Proof.
  intros Hs. unfold statusClass, statusClassDivisor. case_decide; [by left|].
  pose proof (Z.quot_lt_upper_bound status 100 6). pose proof (Z.quot_pos status 100).
  assert (Z.quot status 100 = 0 ∨ Z.quot status 100 = 1 ∨ Z.quot status 100 = 2 ∨
    Z.quot status 100 = 3 ∨ Z.quot status 100 = 4 ∨ Z.quot status 100 = 5) as Hq by lia.
  destruct Hq as [-> |[-> |[-> |[-> |[-> | ->]]]]]; in_list.
Qed.

(** A label count that matches and an update the kind allows. *)
Lemma withLabelValues_Some i values u l :
  withLabelValues i values u = Some l →
  l = [MkSample (i_name i) values u] ∧ length values = length (i_labels i).
Proof. unfold withLabelValues. case_decide as E; [|done]. intros [= <-]. by destruct E. Qed.

Lemma counter_add i values n :
  i_kind i = Counter → length values = length (i_labels i) →
  withLabelValues i values (Add n) = if 0 <=? n then Some [MkSample (i_name i) values (Add n)] else None.
Proof.
  intros Hk Hl. unfold withLabelValues. rewrite Hk. simpl.
  destruct (0 <=? n); [by rewrite decide_True|]. rewrite decide_False; [done|]. by intros [].
Qed.

(** Counting tokens panics exactly when the provider reports a negative count. *)
Lemma ObserveTokens_panics model input output :
  ObserveTokens New model input output = None ↔ model ≠ "" ∧ (input < 0 ∨ output < 0).
Proof.
  unfold ObserveTokens. case_decide; [naive_solver|]. rewrite !counter_add by done. unfold seq.
  destruct (0 <=? input) eqn:Ei, (0 <=? output) eqn:Eo; simpl; split; try done; intros; lia || split; done || lia.
Qed.

(** The panic of the pipeline's model is the one of this recorder. *)
Lemma token_panic_exact model input output :
  Effects.refused (EvObserveTokens model input output) = true ↔
  ObserveTokens New model input output = None.
Proof.
  rewrite ObserveTokens_panics. cbn.
  rewrite andb_true_iff, negb_true_iff, bool_decide_eq_false, orb_true_iff, !Z.ltb_lt. done.
Qed.

End Metrics.
