(* ===== verification/Config.v ===== *)
(** * The deployment configuration

    [internal/pkg/config/config.go]: the settings, their defaults and what is refused at
    start.  Reading the environment into the tagged fields is [gonfiguration], third-party
    code: a parameter, with the precedence it documents as its law. *)

From S2P Require Import Prelude Document Store.
From stdpp Require Import options.
#[local] Open Scope Z_scope.

Definition Millisecond_ : duration := 1000000.
Definition Second_ : duration := 1000 * Millisecond_.
Definition Hour_ : duration := 3600 * Second_.

(** ** The settings of [internal/pkg/db/db.go] *)
Module DBConfig.

Definition Driver : Set := string.
Definition DriverSQLite : Driver := "sqlite".
Definition DriverPostgres : Driver := "postgres".
Definition Driver_IsValid (d : Driver) : bool :=
  bool_decide (d = DriverSQLite) || bool_decide (d = DriverPostgres).

Record PostgresConfig : Set := MkPostgresConfig {
  pg_Hostname : string;
  pg_Port : Z;
  pg_Username : string;
  pg_Password : string;
  pg_Database : string;
  pg_IsSSL : bool
}.

Record Config : Set := MkConfig {
  db_Driver : Driver;
  SQLitePath : string;
  SQLiteBusyTimeout : duration;
  Postgres : PostgresConfig
}.
End DBConfig.

Module Deployment.
Import DBConfig.

Definition DefaultHTTPListenAddress : string := "127.0.0.1:8080".
Definition DefaultMetricsListenAddress : string := "127.0.0.1:9091".
Definition DefaultPolicyDir : string := "/config/policies".
Definition DefaultMaxRequestBytes : Z := Z.shiftl 1 20.
Definition DefaultMaxStateBytes : Z := Z.shiftl 512 10.
Definition DefaultMaxFacts : Z := 128.
Definition DefaultMaxQuestions : Z := 64.
Definition DefaultMaxPolicyBytes : Z := Z.shiftl 256 10.
Definition DefaultMetadataEntries : Z := 16.
Definition DefaultMetadataValueLength : Z := 256.
Definition DefaultTypeSafeBaseURL : string := "https://api.typesafe.ai".
Definition DefaultTypeSafeModel : string := "jev-latest".
Definition DefaultTypeSafeTimeout : duration := 10 * Second_.
Definition DefaultTypeSafeMaxResponse : Z := Z.shiftl 1 20.
Definition DefaultTypeSafeConcurrency : Z := 32.
Definition DefaultTypeSafeMaxAttempts : Z := 3.
Definition DefaultSQLiteBusyTimeout : duration := 5 * Second_.
Definition DefaultPostgresPort : Z := 5432.
Definition DefaultEvaluationRetention : duration := 720 * Hour_.
Definition DefaultIdempotencyRetention : duration := 24 * Hour_.
Definition DefaultRetentionCleanupEvery : duration := Hour_.
Definition DefaultRequestsPerMinute : Z := 600.
Definition DefaultRateLimitBurst : Z := 60.
Definition DefaultShutdownDrainGrace : duration := 5 * Second_.

Record Config : Set := MkConfig {
  HTTPListenAddress : string;
  MetricsListenAddress : string;
  APIToken : string;
  PolicyDir : string;
  AllowInlinePolicies : bool;
  MaxRequestBytes : Z;
  MaxStateBytes : Z;
  MaxFacts : Z;
  MaxQuestions : Z;
  MaxPolicyBytes : Z;
  MaxMetadataEntries : Z;
  MaxMetadataValueLength : Z;
  RequestsPerMinute : Z;
  RateLimitBurst : Z;
  TypeSafeBaseURL : string;
  TypeSafeAPIKey : string;
  TypeSafeModel : string;
  TypeSafeTimeout : duration;
  TypeSafeMaxResponseBytes : Z;
  TypeSafeConcurrency : Z;
  TypeSafeMaxAttempts : Z;
  DBDriver : string;
  DBSQLitePath : string;
  DBSQLiteBusyTimeout : duration;
  DBHostname : string;
  DBPort : Z;
  DBUsername : string;
  DBPassword : string;
  DBName : string;
  DBIsSSL : bool;
  StoreInputs : bool;
  DataKey : string;
  EvaluationRetention : duration;
  IdempotencyRetention : duration;
  RetentionCleanupEvery : duration
}.

(** ** Reading the environment *)

(** The [any] of a default, by the type of the field it fills. *)
Inductive setting : Set :=
  | SString (s : string)
  | SBool (b : bool)
  | SInt (n : Z)
  | SDuration (d : duration).

(** The [env] tags. *)
Definition fields (c : Config) : list (string * setting) := [
  ("VIBECHECK_HTTP_LISTEN_ADDRESS", SString (HTTPListenAddress c));
  ("VIBECHECK_METRICS_LISTEN_ADDRESS", SString (MetricsListenAddress c));
  ("VIBECHECK_API_TOKEN", SString (APIToken c));
  ("VIBECHECK_POLICY_DIR", SString (PolicyDir c));
  ("VIBECHECK_ALLOW_INLINE_POLICIES", SBool (AllowInlinePolicies c));
  ("VIBECHECK_MAX_REQUEST_BYTES", SInt (MaxRequestBytes c));
  ("VIBECHECK_MAX_STATE_BYTES", SInt (MaxStateBytes c));
  ("VIBECHECK_MAX_FACTS", SInt (MaxFacts c));
  ("VIBECHECK_MAX_QUESTIONS", SInt (MaxQuestions c));
  ("VIBECHECK_MAX_POLICY_BYTES", SInt (MaxPolicyBytes c));
  ("VIBECHECK_MAX_METADATA_ENTRIES", SInt (MaxMetadataEntries c));
  ("VIBECHECK_MAX_METADATA_VALUE_LENGTH", SInt (MaxMetadataValueLength c));
  ("VIBECHECK_RATE_LIMIT_PER_MINUTE", SInt (RequestsPerMinute c));
  ("VIBECHECK_RATE_LIMIT_BURST", SInt (RateLimitBurst c));
  ("VIBECHECK_TYPESAFE_BASE_URL", SString (TypeSafeBaseURL c));
  ("VIBECHECK_TYPESAFE_API_KEY", SString (TypeSafeAPIKey c));
  ("VIBECHECK_TYPESAFE_MODEL", SString (TypeSafeModel c));
  ("VIBECHECK_TYPESAFE_TIMEOUT", SDuration (TypeSafeTimeout c));
  ("VIBECHECK_TYPESAFE_MAX_RESPONSE_BYTES", SInt (TypeSafeMaxResponseBytes c));
  ("VIBECHECK_TYPESAFE_CONCURRENCY", SInt (TypeSafeConcurrency c));
  ("VIBECHECK_TYPESAFE_MAX_ATTEMPTS", SInt (TypeSafeMaxAttempts c));
  ("VIBECHECK_DB_DRIVER", SString (DBDriver c));
  ("VIBECHECK_DB_SQLITE_PATH", SString (DBSQLitePath c));
  ("VIBECHECK_DB_SQLITE_BUSY_TIMEOUT", SDuration (DBSQLiteBusyTimeout c));
  ("VIBECHECK_DB_HOSTNAME", SString (DBHostname c));
  ("VIBECHECK_DB_PORT", SInt (DBPort c));
  ("VIBECHECK_DB_USERNAME", SString (DBUsername c));
  ("VIBECHECK_DB_PASSWORD", SString (DBPassword c));
  ("VIBECHECK_DB_NAME", SString (DBName c));
  ("VIBECHECK_DB_IS_SSL", SBool (DBIsSSL c));
  ("VIBECHECK_STORE_INPUTS", SBool (StoreInputs c));
  ("VIBECHECK_DATA_KEY", SString (DataKey c));
  ("VIBECHECK_EVALUATION_RETENTION", SDuration (EvaluationRetention c));
  ("VIBECHECK_IDEMPOTENCY_RETENTION", SDuration (IdempotencyRetention c));
  ("VIBECHECK_RETENTION_CLEANUP_INTERVAL", SDuration (RetentionCleanupEvery c))
].

(** [setDefaults] *)
Definition setDefaults : list (string * setting) := [
  ("VIBECHECK_HTTP_LISTEN_ADDRESS", SString DefaultHTTPListenAddress);
  ("VIBECHECK_METRICS_LISTEN_ADDRESS", SString DefaultMetricsListenAddress);
  ("VIBECHECK_API_TOKEN", SString "");
  ("VIBECHECK_POLICY_DIR", SString DefaultPolicyDir);
  ("VIBECHECK_ALLOW_INLINE_POLICIES", SBool false);
  ("VIBECHECK_MAX_REQUEST_BYTES", SInt DefaultMaxRequestBytes);
  ("VIBECHECK_MAX_STATE_BYTES", SInt DefaultMaxStateBytes);
  ("VIBECHECK_MAX_FACTS", SInt DefaultMaxFacts);
  ("VIBECHECK_MAX_QUESTIONS", SInt DefaultMaxQuestions);
  ("VIBECHECK_MAX_POLICY_BYTES", SInt DefaultMaxPolicyBytes);
  ("VIBECHECK_MAX_METADATA_ENTRIES", SInt DefaultMetadataEntries);
  ("VIBECHECK_MAX_METADATA_VALUE_LENGTH", SInt DefaultMetadataValueLength);
  ("VIBECHECK_RATE_LIMIT_PER_MINUTE", SInt DefaultRequestsPerMinute);
  ("VIBECHECK_RATE_LIMIT_BURST", SInt DefaultRateLimitBurst);
  ("VIBECHECK_TYPESAFE_BASE_URL", SString DefaultTypeSafeBaseURL);
  ("VIBECHECK_TYPESAFE_API_KEY", SString "");
  ("VIBECHECK_TYPESAFE_MODEL", SString DefaultTypeSafeModel);
  ("VIBECHECK_TYPESAFE_TIMEOUT", SDuration DefaultTypeSafeTimeout);
  ("VIBECHECK_TYPESAFE_MAX_RESPONSE_BYTES", SInt DefaultTypeSafeMaxResponse);
  ("VIBECHECK_TYPESAFE_CONCURRENCY", SInt DefaultTypeSafeConcurrency);
  ("VIBECHECK_TYPESAFE_MAX_ATTEMPTS", SInt DefaultTypeSafeMaxAttempts);
  ("VIBECHECK_DB_DRIVER", SString DriverSQLite);
  ("VIBECHECK_DB_SQLITE_PATH", SString "/data/vibecheck.sqlite");
  ("VIBECHECK_DB_SQLITE_BUSY_TIMEOUT", SDuration DefaultSQLiteBusyTimeout);
  ("VIBECHECK_DB_HOSTNAME", SString "localhost");
  ("VIBECHECK_DB_PORT", SInt DefaultPostgresPort);
  ("VIBECHECK_DB_USERNAME", SString "");
  ("VIBECHECK_DB_PASSWORD", SString "");
  ("VIBECHECK_DB_NAME", SString "vibecheck");
  ("VIBECHECK_DB_IS_SSL", SBool true);
  ("VIBECHECK_STORE_INPUTS", SBool false);
  ("VIBECHECK_DATA_KEY", SString "");
  ("VIBECHECK_EVALUATION_RETENTION", SDuration DefaultEvaluationRetention);
  ("VIBECHECK_IDEMPOTENCY_RETENTION", SDuration DefaultIdempotencyRetention);
  ("VIBECHECK_RETENTION_CLEANUP_INTERVAL", SDuration DefaultRetentionCleanupEvery)
].

(** [gonfiguration.SetDefaults] and [Parse] in an environment: the struct it fills, or
    the value it cannot read. *)
Class Gonfiguration := {
  environment : Type;
  is_set : environment → string → Prop;
  gonfiguration_Parse : list (string * setting) → environment → res Config
}.

(** A variable that is not set leaves the default. *)
Class GonfigurationLaws `{Gonfiguration} :=
  default_kept defaults env c name v : gonfiguration_Parse defaults env = Ok c →
    ¬ is_set env name → (name, v) ∈ defaults → NoDup defaults.*1 → name ∈ (fields c).*1 →
    (name, v) ∈ fields c.

(** ** Validation *)
Definition validateListeners (c : Config) : res unit :=
  guard_err (bool_decide (HTTPListenAddress c = "")) ErrRequiredConfigValueNotSet ;;
  guard_err (bool_decide (MetricsListenAddress c = "")) ErrRequiredConfigValueNotSet ;;
  guard_err (bool_decide (HTTPListenAddress c = MetricsListenAddress c)) ErrInvalidValue.

(** The map [positive]; every entry is refused with the same sentinel, so the order in
    which the entries are visited does not show. *)
Definition positive (c : Config) : list (string * Z) := [
  ("VIBECHECK_MAX_REQUEST_BYTES", MaxRequestBytes c);
  ("VIBECHECK_MAX_STATE_BYTES", MaxStateBytes c);
  ("VIBECHECK_MAX_FACTS", MaxFacts c);
  ("VIBECHECK_MAX_QUESTIONS", MaxQuestions c);
  ("VIBECHECK_MAX_POLICY_BYTES", MaxPolicyBytes c);
  ("VIBECHECK_MAX_METADATA_ENTRIES", MaxMetadataEntries c);
  ("VIBECHECK_MAX_METADATA_VALUE_LENGTH", MaxMetadataValueLength c);
  ("VIBECHECK_TYPESAFE_MAX_RESPONSE_BYTES", TypeSafeMaxResponseBytes c);
  ("VIBECHECK_TYPESAFE_CONCURRENCY", TypeSafeConcurrency c);
  ("VIBECHECK_TYPESAFE_MAX_ATTEMPTS", TypeSafeMaxAttempts c);
  ("VIBECHECK_RATE_LIMIT_PER_MINUTE", RequestsPerMinute c);
  ("VIBECHECK_RATE_LIMIT_BURST", RateLimitBurst c)
].

Definition validateLimits (c : Config) : res unit :=
  res_forM (λ entry, guard_err (entry.2 <=? 0) ErrInvalidValue) (positive c) ;;
  guard_err (MaxRequestBytes c <? MaxStateBytes c) ErrInvalidValue ;;
  guard_err (Document.MaxQuestions <? MaxQuestions c) ErrInvalidValue ;;
  guard_err (TypeSafeTimeout c <=? 0) ErrInvalidValue.

Definition required (c : Config) : list (string * string) := [
  ("VIBECHECK_DB_HOSTNAME", DBHostname c);
  ("VIBECHECK_DB_USERNAME", DBUsername c);
  ("VIBECHECK_DB_PASSWORD", DBPassword c);
  ("VIBECHECK_DB_NAME", DBName c)
].

Definition validateDatabase (c : Config) : res unit :=
  let driver := DBDriver c in
  guard_err (negb (Driver_IsValid driver)) ErrInvalidValue ;;
  if decide (driver = DriverSQLite) then
    guard_err (bool_decide (DBSQLitePath c = "")) ErrRequiredConfigValueNotSet
  else
    res_forM (λ entry, guard_err (bool_decide (entry.2 = "")) ErrRequiredConfigValueNotSet)
      (required c) ;;
    guard_err (DBPort c <=? 0) ErrInvalidValue.

Definition validateRetention (c : Config) : res unit :=
  guard_err (StoreInputs c && bool_decide (DataKey c = "")) ErrRequiredConfigValueNotSet ;;
  guard_err ((EvaluationRetention c <? 0) || (IdempotencyRetention c <? 0)) ErrInvalidValue ;;
  guard_err (RetentionCleanupEvery c <=? 0) ErrInvalidValue.

Definition Validate (c : Config) : res unit :=
  validateListeners c ;; validateLimits c ;; validateDatabase c ;; validateRetention c.

Definition Parse `{Gonfiguration} (env : environment) : res Config :=
  config ← gonfiguration_Parse setDefaults env;
  Validate config ;;
  Ok config.

Definition DBConfig (c : Config) : DBConfig.Config :=
  DBConfig.MkConfig (DBDriver c) (DBSQLitePath c) (DBSQLiteBusyTimeout c)
    (MkPostgresConfig (DBHostname c) (DBPort c) (DBUsername c) (DBPassword c) (DBName c)
       (DBIsSSL c)).

Definition AuthEnabled (c : Config) : bool := negb (bool_decide (APIToken c = "")).

(** ** What a validated configuration satisfies *)
Record valid (c : Config) : Prop := {
  v_http : HTTPListenAddress c ≠ "";
  v_metrics : MetricsListenAddress c ≠ "";
  v_distinct : HTTPListenAddress c ≠ MetricsListenAddress c;
  v_positive : Forall (λ entry, 0 < entry.2) (positive c);
  v_state : MaxStateBytes c <= MaxRequestBytes c;
  v_questions : MaxQuestions c <= Document.MaxQuestions;
  v_timeout : 0 < TypeSafeTimeout c;
  v_database :
    (DBDriver c = DriverSQLite ∧ DBSQLitePath c ≠ "") ∨
    (DBDriver c = DriverPostgres ∧ Forall (λ entry, entry.2 ≠ "") (required c) ∧ 0 < DBPort c);
  v_key : StoreInputs c = true → DataKey c ≠ "";
  v_retention : 0 <= EvaluationRetention c ∧ 0 <= IdempotencyRetention c;
  v_cleanup : 0 < RetentionCleanupEvery c
}.

Lemma forM_guard {A} (bad : A → bool) (P : A → Prop) s (l : list A) u :
  (∀ x, bad x = false ↔ P x) →
  res_forM (λ x, guard_err (bad x) s) l = Ok u ↔ Forall P l.
Proof.
  intros H. rewrite res_forM_Ok. apply list.Forall_iff. intros x. by rewrite guard_err_Ok.
Qed.

Lemma validateDatabase_Ok c :
  validateDatabase c = Ok tt ↔
  (DBDriver c = DriverSQLite ∧ DBSQLitePath c ≠ "") ∨
  (DBDriver c = DriverPostgres ∧ Forall (λ entry, entry.2 ≠ "") (required c) ∧ 0 < DBPort c).
Proof.
  unfold validateDatabase, Driver_IsValid.
  rewrite seq_Ok, guard_err_Ok, negb_false_iff, orb_true_iff, !bool_decide_eq_true.
  case_decide as Ed.
  - rewrite guard_err_Ok, bool_decide_eq_false, Ed. unfold DriverSQLite, DriverPostgres in *.
    split; [tauto|]. intros [[_ ?]|[[=] _]]. auto.
  - rewrite seq_Ok, guard_err_Ok, Z.leb_gt.
    rewrite (forM_guard _ (λ entry, entry.2 ≠ "")) by (intros x; apply bool_decide_eq_false).
    tauto.
Qed.

Lemma Validate_Ok c : Validate c = Ok tt ↔ valid c.
Proof.
  unfold Validate, validateListeners, validateLimits, validateRetention.
  rewrite !seq_Ok, !guard_err_Ok, validateDatabase_Ok, !bool_decide_eq_false, orb_false_iff,
    !Z.leb_gt, !Z.ltb_ge, andb_false_iff, bool_decide_eq_false,
    (forM_guard _ (λ entry, 0 < entry.2)) by (intros x; apply Z.leb_gt).
  split.
  - intros ((? & ? & ?) & (? & ? & ? & ?) & Hd & (Hk & ? & ?)). split; try done.
    intros E. rewrite E in Hk. by destruct Hk.
  - intros []. repeat split; try tauto. destruct (StoreInputs c); [right; auto|by left].
Qed.

(** ** The configuration of an empty environment *)
Definition default_config : Config :=
  MkConfig DefaultHTTPListenAddress DefaultMetricsListenAddress "" DefaultPolicyDir false
    DefaultMaxRequestBytes DefaultMaxStateBytes DefaultMaxFacts DefaultMaxQuestions
    DefaultMaxPolicyBytes DefaultMetadataEntries DefaultMetadataValueLength
    DefaultRequestsPerMinute DefaultRateLimitBurst DefaultTypeSafeBaseURL "" DefaultTypeSafeModel
    DefaultTypeSafeTimeout DefaultTypeSafeMaxResponse DefaultTypeSafeConcurrency
    DefaultTypeSafeMaxAttempts DriverSQLite "/data/vibecheck.sqlite" DefaultSQLiteBusyTimeout
    "localhost" DefaultPostgresPort "" "" "vibecheck" true false "" DefaultEvaluationRetention
    DefaultIdempotencyRetention DefaultRetentionCleanupEvery.

Lemma default_config_valid : Validate default_config = Ok tt.
Proof. vm_compute. reflexivity. Qed.

(** Two tables with the same keys, once each, one inside the other. *)
Lemma same_table {A} (l1 l2 : list (string * A)) :
  l1.*1 = l2.*1 → NoDup l1.*1 → (∀ x, x ∈ l1 → x ∈ l2) → l1 = l2.
Proof.
  revert l2. induction l1 as [|[k v] l1 IH]; intros [|[k' v'] l2]; simpl; try done.
  intros [= <- Ek] [Hk Hn]%list.NoDup_cons Hsub. rewrite Ek in Hk.
  assert (v' = v) as ->.
  { assert ((k, v) ∈ (k, v') :: l2) as Hin by (apply Hsub; by left).
    apply elem_of_cons in Hin as [E|Hin]; [by injection E|].
    destruct Hk. by apply (list_elem_of_fmap_2 fst) in Hin. }
  f_equal. apply IH; [done..|]. intros x Hx.
  assert (x ∈ (k, v) :: l2) as Hin by (apply Hsub; by right).
  apply elem_of_cons in Hin as [->|?]; [|done]. destruct Hk. rewrite <- Ek. by apply (list_elem_of_fmap_2 fst) in Hx.
Qed.

Lemma defaults_NoDup : NoDup setDefaults.*1.
Proof. apply (bool_decide_unpack _). vm_compute. exact I. Qed.

(** With nothing set, the process starts with the defaults. *)
Lemma Parse_defaults `{GonfigurationLaws} env c :
  (∀ name, ¬ is_set env name) → gonfiguration_Parse setDefaults env = Ok c →
  Parse env = Ok default_config.
Proof.
  intros Hset Hp. assert (setDefaults = fields c) as Hf.
  { apply same_table; [done|apply defaults_NoDup|]. intros [name v] Hin.
    eapply default_kept; [done..|apply defaults_NoDup|].
    change ((fields c).*1) with (setDefaults.*1). by apply (list_elem_of_fmap_2 fst) in Hin. }
  assert (c = default_config) as -> by (destruct c; injection Hf; intros; subst; reflexivity).
  unfold Parse. rewrite Hp. cbn [mbind res_bind]. by rewrite default_config_valid.
Qed.

(** A reader of an environment in which nothing is set. *)
#[export] Instance setting_eq_dec : EqDecision setting.
Proof. solve_decision. Defined.

#[export] Instance empty_environment : Gonfiguration := {
  environment := unit;
  is_set _ _ := False;
  gonfiguration_Parse defaults _ :=
    if decide (defaults = setDefaults) then Ok default_config
    else Err (EForeign "required field not set")
}.

#[export] Instance empty_environment_laws : GonfigurationLaws.
Proof.
  intros defaults env c name v. simpl. case_decide as E; [|done]. intros [= <-] _ Hin _ _.
  subst defaults. exact Hin.
Qed.

Definition nothing_set : environment (Gonfiguration:=empty_environment) := tt.

Example empty_environment_starts : Parse nothing_set = Ok default_config.
Proof. apply (Parse_defaults nothing_set default_config); [by intros name []|]. reflexivity. Qed.

End Deployment.
