(* ===== verification/Connect.v ===== *)
(** * Opening the database

    [internal/pkg/db/db.go] and [metrics.go]: the calls [Open] makes on gorm, the driver
    and the migrator, and what [Close] releases.  Those are third-party code: what each
    call answers is an oracle over the calls made so far, and a run is its calls. *)

From S2P Require Import Prelude GoAny Store Evaluations Config.
From stdpp Require Import options.
#[local] Open Scope Z_scope.

Module Connect.
Import DBConfig.

Definition defaultBusyTimeout : duration := 5 * Second_.
Definition pragmaJournalWAL : string := "PRAGMA journal_mode=WAL".
Definition pragmaForeignKeysOn : string := "PRAGMA foreign_keys=ON".
Definition pragmaSynchronousNRM : string := "PRAGMA synchronous=NORMAL".
Definition sqliteMaxOpenConns : Z := 1.
Definition callbackPrefix : string := "vibecheck:metrics:".

(** ** Calls on the driver *)
Inductive dbCall : Set :=
  | GormOpen (path : string)                       (** [gorm.Open] of SQLite *)
  | TakePool                                       (** [gormDB.DB] *)
  | SetMaxOpenConns (n : Z)
  | RegisterCallback (name : string)
  | ExecContext (statement : string)
  | MigrateUp (driver : Driver)
  | PostgresOpen (config : PostgresConfig) (ensureDBExists : bool)
  | CloseConnection.

#[export] Instance dbCall_eq_dec : EqDecision dbCall.
Proof. assert (EqDecision PostgresConfig) by solve_decision. solve_decision. Defined.

(** What a call answers after the calls made before it; [None] is success. *)
Class DriverOracle := answer : list dbCall → dbCall → option goerr.

Definition DB (A : Type) : Type := list dbCall → list dbCall * res A.

#[export] Instance DB_ret : MRet DB := λ A a h, (h, Ok a).
#[export] Instance DB_bind : MBind DB := λ A B f m h,
  match m h with
  | (h', Ok a) => f a h'
  | (h', Err e) => (h', Err e)
  end.

Definition failing {A} (e : goerr) : DB A := λ h, (h, Err e).
Definition pure {A} (r : res A) : DB A := λ h, (h, r).

(** The value of an open database: which driver, and whether [close] is still there. *)
Record Database : Set := MkDatabase { Database_Driver : Driver; close_set : bool }.

Section connect.
Context `{DriverOracle}.

Definition perform (c : dbCall) : DB unit := λ h,
  (h ++ [c], match answer h c with None => Ok tt | Some e => Err e end).

(** Look at the error of a call. *)
Definition observed {A} (m : DB A) : DB (res A) := λ h, let p := m h in (p.1, Ok p.2).

(** [for _, x := range xs { if err := f(x); err != nil { return err } }] *)
Fixpoint each {A} (f : A → DB unit) (l : list A) : DB unit :=
  match l with
  | [] => mret tt
  | x :: l => f x ;; each f l
  end.

(** The calls of [Database.Close]; the second value is its error. *)
Definition Close (d : Database) : DB (Database * option goerr) :=
  if negb (close_set d) then mret (d, None)
  else
    let d := MkDatabase (Database_Driver d) false in
    r ← observed (perform CloseConnection);
    mret (d, match r with Ok _ => None | Err e => Some e end).

(** ** Instrumentation ([metrics.go]) *)
Definition operations : list string := ["create"; "query"; "update"; "delete"; "row"; "raw"].

Definition registerPair (operation : string) : DB unit :=
  perform (RegisterCallback (callbackPrefix +:+ operation +:+ "_before")) ;;
  perform (RegisterCallback (callbackPrefix +:+ operation +:+ "_after")).

Definition registerObserver (observer : bool) : DB unit :=
  if observer then each registerPair operations else mret tt.

(** ** SQLite *)
Definition busyTimeoutPragma (timeout : duration) : string :=
  "PRAGMA busy_timeout=" +:+ Itoa (Evaluations.Milliseconds timeout).

Definition applySQLitePragmas (busyTimeout : duration) : DB unit :=
  each (λ pragma, perform (ExecContext pragma))
    [pragmaJournalWAL; pragmaForeignKeysOn; pragmaSynchronousNRM; busyTimeoutPragma busyTimeout].

(** The close error, when there is one, only changes the text. *)
Definition closeOnSetupError {A} (cause : goerr) : DB A :=
  observed (perform CloseConnection) ;; failing cause.

Definition openSQLite (config : Config) (observer : bool) : DB Database :=
  if decide (SQLitePath config = "") then failing (EIs ErrRequiredConfigValueNotSet)
  else
    let busyTimeout :=
      if SQLiteBusyTimeout config <=? 0 then defaultBusyTimeout else SQLiteBusyTimeout config in
    perform (GormOpen (SQLitePath config)) ;;
    perform TakePool ;;
    observed (perform (SetMaxOpenConns sqliteMaxOpenConns)) ;;
    registered ← observed (registerObserver observer);
    match registered with
    | Err e => closeOnSetupError e
    | Ok _ =>
        applySQLitePragmas busyTimeout ;;
        perform (MigrateUp DriverSQLite) ;;
        mret (MkDatabase DriverSQLite true)
    end.

(** ** PostgreSQL *)
Definition openPostgres (config : Config) (observer : bool) : DB Database :=
  perform (PostgresOpen (Postgres config) false) ;;
  registered ← observed (registerObserver observer);
  match registered with
  | Err e => closeOnSetupError e
  | Ok _ =>
      migrated ← observed (perform (MigrateUp DriverPostgres));
      match migrated with
      | Err e => closeOnSetupError e
      | Ok _ => mret (MkDatabase DriverPostgres true)
      end
  end.

Definition Open (config : Config) (observer : bool) : DB Database :=
  if negb (Driver_IsValid (db_Driver config)) then failing (EIs ErrInvalidValue)
  else if decide (db_Driver config = DriverSQLite) then openSQLite config observer
  else openPostgres config observer.
End connect.

Lemma DB_bind_run {A B} (m : DB A) (f : A → DB B) h :
  (m ≫= f) h = match m h with (h', Ok a) => f a h' | (h', Err e) => (h', Err e) end.
Proof. done. Qed.

(** ** What is left open *)

(** A call that leaves a connection behind when it succeeds. *)
Definition opens (c : dbCall) : bool :=
  match c with GormOpen _ | PostgresOpen _ _ => true | _ => false end.

Section connections.
Context `{DriverOracle}.

Definition conn_step (h : list dbCall) (c : dbCall) (n : nat) : nat :=
  if opens c then match answer h c with None => S n | Some _ => n end
  else if decide (c = CloseConnection) then pred n else n.

Fixpoint conn_from (before calls : list dbCall) (n : nat) : nat :=
  match calls with
  | [] => n
  | c :: calls => conn_from (before ++ [c]) calls (conn_step before c n)
  end.

(** The connections opened and not closed by the calls so far. *)
Definition connections (h : list dbCall) : nat := conn_from [] h 0.

Lemma conn_from_app before l1 l2 n :
  conn_from before (l1 ++ l2) n = conn_from (before ++ l1) l2 (conn_from before l1 n).
Proof.
  revert before n. induction l1 as [|c l1 IH]; intros before n; simpl; [by rewrite app_nil_r|].
  by rewrite IH, <- app_assoc.
Qed.

Lemma connections_snoc h c : connections (h ++ [c]) = conn_step h c (connections h).
Proof. unfold connections. by rewrite conn_from_app. Qed.

(** A computation that opens nothing and closes nothing. *)
Definition neutral {A} (m : DB A) : Prop := ∀ h, connections (m h).1 = connections h.

Lemma perform_neutral c : opens c = false → c ≠ CloseConnection → neutral (perform c).
Proof.
  intros Ho Hc h. unfold perform. simpl. rewrite connections_snoc. unfold conn_step.
  by rewrite Ho, decide_False.
Qed.

Lemma bind_neutral {A B} (m : DB A) (f : A → DB B) :
  neutral m → (∀ a, neutral (f a)) → neutral (m ≫= f).
Proof.
  intros Hm Hf h. rewrite DB_bind_run. specialize (Hm h).
  destruct (m h) as [h' [a|e]]; simpl in *; [|done]. by rewrite (Hf a h').
Qed.

Lemma each_neutral {A} (f : A → DB unit) l : (∀ x, neutral (f x)) → neutral (each f l).
Proof. intros Hf. induction l as [|x l IH]; simpl; [done|]. by apply bind_neutral. Qed.

Lemma registerObserver_neutral observer : neutral (registerObserver observer).
Proof.
  destruct observer; [|done]. apply each_neutral. intros operation.
  apply bind_neutral; [|intros _]; by apply perform_neutral.
Qed.

Lemma applySQLitePragmas_neutral t : neutral (applySQLitePragmas t).
Proof. apply each_neutral. intros pragma. by apply perform_neutral. Qed.

(** The end of a failed run: the call it stopped at. *)
Lemma each_Err {A} (f : A → DB unit) l h h' e :
  each f l h = (h', Err e) → ∃ x h0, x ∈ l ∧ f x h0 = (h', Err e).
Proof.
  revert h. induction l as [|x l IH]; intros h; simpl; [done|]. rewrite DB_bind_run.
  destruct (f x h) as [h1 [[]|e1]] eqn:E.
  - intros Hr. destruct (IH h1 Hr) as (y & h0 & Hy & Hf). exists y, h0. split; [by right|done].
  - intros [= -> ->]. exists x, h. split; [by left|done].
Qed.

Lemma perform_last c h h' (r : res unit) : perform c h = (h', r) → list.last h' = Some c.
Proof. intros [= <- _]. by rewrite last_snoc. Qed.

End connections.

End Connect.
