(* ===== verification/Wiring.v ===== *)
(** * Wiring a deployment

    [internal/pkg/services/vibecheck-server/dependencies.go] and the constants and
    projections beside it: what is built at start, in which order, and what is released
    when a later step fails. *)

From S2P Require Import Prelude GoFloat GoAny Decision Document Store Effects Loader Policies Secrets.
From S2P Require Import EvalConvert Evaluations Retention Typesafe HttpServer HttpRouter ApiServer Mcp.
From S2P Require Import Config Connect.
From stdpp Require Import options.
#[local] Open Scope Z_scope.

(** The SDK's HTTP handler of an MCP server and its options, and a ping of the connection pool. *)
Class McpSdk (W : Type) := {
  mcp_http_handler : Mcp.Server * Mcp.StreamableHTTPOptions → HttpRouter.Handler (W:=W);
  sql_Ping : W → bool
}.

Module Wiring.
Import Deployment Connect.

(** ** Constants ([constants.go]) *)
Definition ServiceName : string := "vibecheck-server".
Definition listenerPublic : string := "public".
Definition listenerMetrics : string := "metrics".
Definition MetricsPath : string := "/metrics".
Definition readHeaderTimeout : duration := 10 * Second_.
Definition readTimeout : duration := 30 * Second_.
Definition writeTimeout : duration := 0.
Definition idleTimeout : duration := 120 * Second_.
Definition maxHeaderBytes : Z := Z.shiftl 1 20.
Definition shutdownTimeout : duration := 20 * Second_.

(** [http.Server], the fields [newHTTPServer] sets. *)
Record HTTPServer : Set := MkHTTPServer {
  Addr : string;
  ReadHeaderTimeout : duration;
  ReadTimeout : duration;
  WriteTimeout : duration;
  IdleTimeout : duration;
  MaxHeaderBytes : Z
}.

Definition newHTTPServer (address : string) : HTTPServer :=
  MkHTTPServer address readHeaderTimeout readTimeout writeTimeout idleTimeout maxHeaderBytes.

(** ** Projections of the configuration *)
Definition buildSealer `{Secrets.AEADConstruction} (cfg : Config) : res (option Secrets.Sealer) :=
  if negb (StoreInputs cfg) then Ok None
  else sealer ← Secrets.NewSealer (DataKey cfg); Ok (Some sealer).

(** The client behind the adapter; the attempt observer only measures. *)
Definition buildProvider (cfg : Config) : res Typesafe.Config :=
  Typesafe.New (Typesafe.MkConfig (TypeSafeBaseURL cfg) (TypeSafeAPIKey cfg) (TypeSafeModel cfg)
    (TypeSafeTimeout cfg) (TypeSafeMaxResponseBytes cfg) (TypeSafeConcurrency cfg)
    (TypeSafeMaxAttempts cfg) 0 0 0).

Definition evaluationConfig (cfg : Config) : EvalConvert.Config :=
  EvalConvert.MkConfig (AllowInlinePolicies cfg) (MaxPolicyBytes cfg) (MaxStateBytes cfg)
    (MaxQuestions cfg) (MaxFacts cfg) (MaxMetadataEntries cfg) (MaxMetadataValueLength cfg)
    (StoreInputs cfg) (IdempotencyRetention cfg).

Definition retention (cfg : Config) : Retention.retentionSettings :=
  Retention.MkRetentionSettings (RetentionCleanupEvery cfg) (EvaluationRetention cfg).

Section wiring.
Context {W : Type} `{McpSdk (St W)} `{YamlDecoder} `{FileSystem} `{Secrets.AEADConstruction}.
Context `{SchemaDeriver} `{DriverOracle}.

(** [readinessProbe] *)
Definition readinessProbe (hasTypeSafeAPIKey : bool) (w : St W) : bool :=
  hasTypeSafeAPIKey && sql_Ping w.

Definition buildRouter (cfg : Config) (restServer : Listener.Server) (mcpServices : Mcp.Services)
  : res (Listener.Router (W:=W)) :=
  mcpHandler ← Mcp.Handler mcpServices (MaxRequestBytes cfg);
  Ok (Listener.NewRouter restServer
        (HttpRouter.MkRouterConfig (APIToken cfg) (MaxRequestBytes cfg) (RequestsPerMinute cfg)
           (RateLimitBurst cfg) (Some (mcp_http_handler mcpHandler))
           (readinessProbe (negb (bool_decide (TypeSafeAPIKey cfg = "")))))).

(** What the running service owns; the provider's client is a field of the evaluation
    service, which the model reaches through the provider's port. *)
Record dependencies : Type := MkDependencies {
  dep_database : Connect.Database;
  dep_provider : Typesafe.Config;
  dep_router : Listener.Router (W:=W)
}.

Definition buildRouterStack (cfg : Config) (policySet : Loader.Set_) (database : Connect.Database)
  : res dependencies :=
  sealer ← buildSealer cfg;
  decisionProvider ← buildProvider cfg;
  let policyService :=
    Policies.NewWithMaxQuestions policySet (MaxPolicyBytes cfg) (MaxQuestions cfg) in
  let evaluationService :=
    Evaluations.MkService policyService sealer (evaluationConfig cfg) true in
  router ← buildRouter cfg (Listener.New evaluationService policyService)
             (Mcp.MkServices evaluationService policyService);
  Ok (MkDependencies database decisionProvider router).

(** [closeAfter]: the cause is returned, whether or not closing failed. *)
Definition closeAfter {A} (database : Connect.Database) (cause : goerr) : DB A :=
  Close database ;; failing cause.

(** [VibecheckServer.build] *)
Definition build (cfg : Config) : DB dependencies :=
  policySet ← pure (Loader.LoadDirWithMaxQuestions (PolicyDir cfg) (MaxPolicyBytes cfg)
                      (MaxQuestions cfg));
  database ← Open (DBConfig cfg) true;
  match buildRouterStack cfg policySet database with
  | Err err => closeAfter database err
  | Ok deps => mret deps
  end.

(** [dependencies.close]; the error is logged. *)
Definition close (deps : dependencies) : DB unit := Close (dep_database deps) ;; mret tt.

End wiring.
End Wiring.
