(* ===== verification/WiringTheorems.v ===== *)
(** * What a deployment is when it has been built

    A validated configuration that builds gives a service every hypothesis of the other
    files holds of; a build that fails leaves no connection open, except where SQLite's
    own setup fails. *)

From S2P Require Import Prelude GoFloat GoAny Decision Document Compile WellFormed Fixtures CompileSound.
From S2P Require Import Store Effects Loader Policies Secrets EvalConvert Evaluations ServiceSpec.
From S2P Require Import Retention MemStore ServiceFixtures LoaderTheorems Typesafe HttpServer HttpRouter.
From S2P Require Import ApiServer Mcp Config Connect Wiring.
From stdpp Require Import options.
#[local] Open Scope Z_scope.

Module WiringTheorems.
Import Deployment Connect Wiring WellFormed ServiceSpec Compile.

(** ** The database *)
Section database.
Context `{DriverOracle}.

(** SQLite's setup failed after the file was opened. *)
Definition sqlite_setup_failed (config : DBConfig.Config) (h h' : list dbCall) : Prop :=
  DBConfig.db_Driver config = DBConfig.DriverSQLite ∧ connections h' = S (connections h) ∧
  ∃ c, list.last h' = Some c ∧
    match c with TakePool | ExecContext _ | MigrateUp _ => True | _ => False end.

(** The last call was the migration, and it succeeded. *)
Definition migrated (driver : DBConfig.Driver) (h : list dbCall) : Prop :=
  ∃ h0, h = h0 ++ [MigrateUp driver] ∧ answer h0 (MigrateUp driver) = None.

Definition opened (config : DBConfig.Config) (h : list dbCall) (run : list dbCall * res Database) : Prop :=
  match run with
  | (h', Ok d) => Database_Driver d = DBConfig.db_Driver config ∧ close_set d = true ∧
      connections h' = S (connections h) ∧ migrated (DBConfig.db_Driver config) h'
  | (h', Err _) => connections h' = connections h ∨ sqlite_setup_failed config h h'
  end.

Lemma perform_bind {A} c (f : unit → DB A) h :
  (perform c ≫= f) h = match answer h c with
                       | None => f tt (h ++ [c])
                       | Some e => (h ++ [c], Err e)
                       end.
Proof. rewrite DB_bind_run. unfold perform. by destruct (answer h c). Qed.

Lemma observed_bind {A B} (m : DB A) (f : res A → DB B) h :
  (observed m ≫= f) h = f (m h).2 (m h).1.
Proof. done. Qed.

Lemma observed_perform {B} c (f : res unit → DB B) h :
  (observed (perform c) ≫= f) h =
    f (match answer h c with None => Ok tt | Some e => Err e end) (h ++ [c]).
Proof. done. Qed.

Lemma closeOnSetupError_run {A} e h :
  closeOnSetupError (A:=A) e h = (h ++ [CloseConnection], Err e).
Proof. done. Qed.

Lemma connections_close h : connections (h ++ [CloseConnection]) = pred (connections h).
Proof. by rewrite connections_snoc. Qed.

Lemma connections_perform c h :
  opens c = false → c ≠ CloseConnection → connections (h ++ [c]) = connections h.
Proof. intros Ho Hc. pose proof (perform_neutral c Ho Hc h) as Hn. exact Hn. Qed.

Lemma connections_open c h : opens c = true → answer h c = None → connections (h ++ [c]) = S (connections h).
Proof. intros Ho Ha. rewrite connections_snoc. unfold conn_step. by rewrite Ho, Ha. Qed.

Lemma connections_not_open c h e :
  opens c = true → answer h c = Some e → connections (h ++ [c]) = connections h.
Proof. intros Ho Ha. rewrite connections_snoc. unfold conn_step. by rewrite Ho, Ha. Qed.

Lemma openPostgres_opened config observer h :
  DBConfig.db_Driver config = DBConfig.DriverPostgres →
  opened config h (openPostgres config observer h).
Proof.
  intros Ed. unfold openPostgres. rewrite perform_bind.
  destruct (answer h _) as [e|] eqn:Ea; [left; by eapply connections_not_open|].
  set (h1 := h ++ [_]). assert (connections h1 = S (connections h)) as H1 by by apply connections_open.
  clearbody h1. rewrite observed_bind.
  pose proof (registerObserver_neutral observer h1) as Hn.
  destruct (registerObserver observer h1) as [h2 [u|e]]; cbn [fst snd] in *;
    [|rewrite closeOnSetupError_run; left; by rewrite connections_close, Hn, H1].
  rewrite observed_perform.
  destruct (answer h2 (MigrateUp DBConfig.DriverPostgres)) eqn:Em; simpl.
  - left. simpl. rewrite connections_close, connections_perform, Hn, H1 by done. done.
  - rewrite Ed. split; [done|]. split; [done|]. split; [|by exists h2].
    by rewrite connections_perform, Hn, H1 by done.
Qed.

Lemma openSQLite_opened config observer h :
  DBConfig.db_Driver config = DBConfig.DriverSQLite →
  opened config h (openSQLite config observer h).
Proof.
  intros Ed. unfold openSQLite. case_decide; [by left|]. rewrite perform_bind.
  destruct (answer h _) as [e|] eqn:Ea; [left; by eapply connections_not_open|].
  set (h1 := h ++ [_]). assert (connections h1 = S (connections h)) as H1 by by apply connections_open.
  clearbody h1. rewrite perform_bind.
  assert (connections (h1 ++ [TakePool]) = S (connections h)) as H2
    by by rewrite connections_perform, H1 by done.
  destruct (answer h1 TakePool).
  { right. split; [done|]. split; [done|]. exists TakePool. by rewrite last_snoc. }
  set (h2 := h1 ++ [TakePool]) in *. clearbody h2. rewrite observed_perform.
  set (h3 := h2 ++ [_]).
  assert (connections h3 = S (connections h)) as H3
    by (unfold h3; by rewrite connections_perform, H2 by done).
  clearbody h3. rewrite observed_bind.
  pose proof (registerObserver_neutral observer h3) as Hn.
  destruct (registerObserver observer h3) as [h4 [u|e]]; cbn [fst snd] in *;
    [|rewrite closeOnSetupError_run; left; by rewrite connections_close, Hn, H3].
  rewrite DB_bind_run. generalize (if DBConfig.SQLiteBusyTimeout config <=? 0 then defaultBusyTimeout
    else DBConfig.SQLiteBusyTimeout config). intros timeout.
  pose proof (applySQLitePragmas_neutral timeout h4) as Hp.
  destruct (applySQLitePragmas timeout h4) as [h5 [u'|e]] eqn:E5; simpl in Hp.
  - rewrite perform_bind.
    assert (connections (h5 ++ [MigrateUp DBConfig.DriverSQLite]) = S (connections h)) as H6
      by by rewrite connections_perform, Hp, Hn, H3 by done.
    destruct (answer h5 _) eqn:Em; simpl.
    + right. split; [done|]. split; [done|]. eexists. by rewrite last_snoc.
    + rewrite Ed. split; [done|]. split; [done|]. split; [done|]. by exists h5.
  - right. split; [done|]. split; [simpl; lia|].
    apply each_Err in E5 as (pragma & h0 & _ & Hl%perform_last). by eexists.
Qed.

Lemma Open_opened config observer h :
  opened config h (Open config observer h).
Proof.
  unfold Open. destruct (DBConfig.Driver_IsValid (DBConfig.db_Driver config)) eqn:Ev; simpl; [|by left].
  case_decide as Ed; [by apply openSQLite_opened|]. apply openPostgres_opened.
  unfold DBConfig.Driver_IsValid in Ev. apply orb_true_iff in Ev.
  rewrite !bool_decide_eq_true in Ev. tauto.
Qed.
End database.

(** ** The build *)
Section build.
Context {W : Type} `{McpSdk (St W)} `{YamlDecoder} `{FileSystem} `{Secrets.AEADConstruction}.
Context `{SchemaDeriver} `{DriverOracle}.

Lemma Close_run d h : close_set d = true →
  (Close d h).1 = h ++ [CloseConnection] ∧
  ∃ e, (Close d h).2 = Ok (MkDatabase (Database_Driver d) false, e).
Proof. intros E. unfold Close. rewrite E. simpl. split; [done|]. by eexists. Qed.

Lemma closeAfter_run {A} d e h : close_set d = true →
  closeAfter (A:=A) d e h = (h ++ [CloseConnection], Err e).
Proof.
  intros E. unfold closeAfter. rewrite DB_bind_run. destruct (Close_run d h E) as [E1 [e' E2]].
  destruct (Close d h) as [h' r]. simpl in *. by subst.
Qed.

(** The run of a build, step by step. *)
Lemma build_run cfg h :
  build (W:=W) cfg h =
  match Loader.LoadDirWithMaxQuestions (PolicyDir cfg) (MaxPolicyBytes cfg) (MaxQuestions cfg) with
  | Err e => (h, Err e)
  | Ok set =>
      match Open (DBConfig cfg) true h with
      | (h', Err e) => (h', Err e)
      | (h', Ok database) =>
          match buildRouterStack cfg set database with
          | Err e => closeAfter database e h'
          | Ok deps => (h', Ok deps)
          end
      end
  end.
Proof.
  unfold build. rewrite DB_bind_run. unfold pure. destruct (Loader.LoadDirWithMaxQuestions _ _ _); [|done].
  rewrite DB_bind_run. destruct (Open (DBConfig cfg) true h) as [h' [d|e]]; [|done].
  by destruct (buildRouterStack cfg a d).
Qed.

Lemma buildRouterStack_Ok cfg set database deps :
  buildRouterStack (W:=W) cfg set database = Ok deps ↔
  ∃ sealer provider router, buildSealer cfg = Ok sealer ∧ buildProvider cfg = Ok provider ∧
    let policies := Policies.NewWithMaxQuestions set (MaxPolicyBytes cfg) (MaxQuestions cfg) in
    let evaluations := Evaluations.MkService policies sealer (evaluationConfig cfg) true in
    buildRouter cfg (Listener.New evaluations policies) (Mcp.MkServices evaluations policies) = Ok router ∧
    deps = MkDependencies database provider router.
Proof.
  unfold buildRouterStack. rewrite bind_Ok. split.
  - intros (sealer & Hs & (provider & Hp & (router & Hr & [= <-])%bind_Ok)%bind_Ok).
    by exists sealer, provider, router.
  - intros (sealer & provider & router & Hs & Hp & Hr & ->). exists sealer. split; [done|].
    rewrite bind_Ok. exists provider. split; [done|]. rewrite bind_Ok. by exists router.
Qed.

(** C36: Starting is all or nothing for the database: a build that succeeds holds exactly one
    connection, on which the migration to the latest schema was the last call and succeeded, which [close] releases, once; a build that
    fails, at whatever step, holds none, unless SQLite's own setup failed after the file was
    opened (the one branch that does not close). *)
Theorem build_releases_database cfg h :
  match build (W:=W) cfg h with
  | (h', Ok deps) =>
      connections h' = S (connections h) ∧
      migrated (DBDriver cfg) h' ∧
      connections (close deps h').1 = connections h ∧
      ∀ h'' d e, Close (dep_database deps) h' = (h'', Ok (d, e)) → Close d h'' = (h'', Ok (d, None))
  | (h', Err _) => connections h' = connections h ∨ sqlite_setup_failed (DBConfig cfg) h h'
  end.
Proof.
  rewrite build_run. destruct (Loader.LoadDirWithMaxQuestions _ _ _) as [set|e]; [|by left].
  pose proof (Open_opened (DBConfig cfg) true h) as Ho.
  destruct (Open (DBConfig cfg) true h) as [h' [d|e]]; [|done].
  destruct Ho as (Hd & Hc & Hn & Hl).
  destruct (buildRouterStack cfg set d) as [deps|e] eqn:Es.
  - apply buildRouterStack_Ok in Es as (sealer & provider & router & _ & _ & _ & ->).
    destruct (Close_run d h' Hc) as [E1 [e2 E2]]. repeat split; [done..| |].
    + unfold close. rewrite DB_bind_run. cbn [dep_database]. destruct (Close d h') as [h2 r].
      simpl in E1, E2. subst. simpl. by rewrite connections_close, Hn.
    + intros h'' d' e' E. cbn [dep_database] in E. rewrite E in E2. simpl in E2. by simplify_eq.
  - rewrite closeAfter_run by done. left. by rewrite connections_close, Hn.
Qed.

(** A provider configuration that was validated is used as it is. *)
Definition provider_as_configured (cfg : Config) (provider : Typesafe.Config) : Prop :=
  (TypeSafeBaseURL cfg ≠ "" → Typesafe.BaseURL provider = TypeSafeBaseURL cfg) ∧
  (TypeSafeModel cfg ≠ "" → Typesafe.cfg_DefaultModel provider = TypeSafeModel cfg) ∧
  Typesafe.APIKey provider = TypeSafeAPIKey cfg ∧
  Typesafe.Timeout provider = TypeSafeTimeout cfg ∧
  Typesafe.MaxResponseBytes provider = TypeSafeMaxResponseBytes cfg ∧
  Typesafe.Concurrency provider = TypeSafeConcurrency cfg ∧
  Typesafe.MaxAttempts provider = TypeSafeMaxAttempts cfg ∧
  0 < Typesafe.BackoffBase provider <= Typesafe.BackoffMax provider.

Lemma buildProvider_valid cfg : valid cfg →
  ∃ provider, buildProvider cfg = Ok provider ∧ provider_as_configured cfg provider.
Proof.
  intros [_ _ _ Hp _ _ Ht _ _ _ _]. unfold positive in Hp. rewrite !Forall_cons_iff in Hp. simpl in Hp.
  unfold buildProvider, Typesafe.New, Typesafe.validate. simpl.
  rewrite bool_decide_eq_false_2 by (case_decide; [done|assumption]). simpl. eexists. split; [done|].
  unfold provider_as_configured. simpl. unfold Typesafe.or_default.
  rewrite !(proj2 (Z.leb_gt _ _)) by lia.
  split; [intros; by rewrite decide_False|]. split; [intros; by rewrite decide_False|].
  split_and!; done.
Qed.

(** Input is sealed with the configured key exactly when retention is on. *)
Definition sealer_as_configured (cfg : Config) (sealer : option Secrets.Sealer) : Prop :=
  Secrets.keyed_sealer sealer ∧ Secrets.Enabled sealer = StoreInputs cfg ∧
  ∀ key, sealer = Some key → Secrets.NewSealer (DataKey cfg) = Ok key.

Lemma buildSealer_Ok cfg sealer : buildSealer cfg = Ok sealer → sealer_as_configured cfg sealer.
Proof.
  unfold buildSealer, sealer_as_configured. destruct (StoreInputs cfg); simpl.
  - intros (s & Hs & [= <-])%bind_Ok. pose proof (Secrets.NewSealer_keyed _ _ Hs) as [? ?].
    split; [done|]. split; [done|]. by intros ? [= <-].
  - by intros [= <-].
Qed.

Lemma loaded_service_ok dir n m set :
  Loader.LoadDirWithMaxQuestions dir n m = Ok set →
  ∀ ref c, Loader.Get set ref = Some c → wf_compiled c ∧ c_Ref c = ref.
Proof.
  intros Hl ref c. destruct (decide (dir = "")) as [->|Hd].
  - cbn in Hl. injection Hl as <-. done.
  - apply Loader.LoadDir_Ok in Hl as (entries & policies & _ & Hp & Hs); [|done].
    destruct (Loader.NewSet_Ok _ _ Hs) as [[_ _ Hg] _]. intros [Hc ?]%Hg. split; [|done].
    apply list_elem_of_lookup in Hc as [i Hi].
    destruct (Forall2_lookup_r _ _ _ _ _ Hp Hi) as (name & _ & Hf). by eapply LoaderTheorems.loaded_wf.
Qed.

(** Every limit of the pipeline, as the deployment sets it. *)
Definition limits_as_configured (cfg : Config) (limits : EvalConvert.Config) : Prop :=
  EvalConvert.cfg_AllowInlinePolicies limits = AllowInlinePolicies cfg ∧
  EvalConvert.cfg_MaxPolicyBytes limits = MaxPolicyBytes cfg ∧
  EvalConvert.cfg_MaxStateBytes limits = MaxStateBytes cfg ∧
  EvalConvert.cfg_MaxQuestions limits = MaxQuestions cfg ∧
  EvalConvert.cfg_MaxFacts limits = MaxFacts cfg ∧
  EvalConvert.cfg_MaxMetadataEntries limits = MaxMetadataEntries cfg ∧
  EvalConvert.cfg_MaxMetadataValueLength limits = MaxMetadataValueLength cfg ∧
  EvalConvert.cfg_StoreInputs limits = StoreInputs cfg ∧
  EvalConvert.cfg_IdempotencyRetention limits = IdempotencyRetention cfg.

(** The catalogue's limits are the same, and neither is read as "use the default". *)
Definition catalogue_as_configured (cfg : Config) (policies : Policies.Service) : Prop :=
  Policies.psv_maxPolicyBytes policies = MaxPolicyBytes cfg ∧
  Loader.resolveMaxBytes (Policies.psv_maxPolicyBytes policies) = MaxPolicyBytes cfg ∧
  Policies.psv_maxQuestions policies = MaxQuestions cfg ∧
  resolveMaxQuestions (Policies.psv_maxQuestions policies) = MaxQuestions cfg.

(** The listener's token, body limit, rate and burst, and what readiness asks. *)
Definition listener_as_configured (cfg : Config) (config : HttpRouter.RouterConfig (W:=St W)) : Prop :=
  HttpRouter.APIToken config = APIToken cfg ∧
  HttpRouter.MaxRequestBytes config = MaxRequestBytes cfg ∧
  HttpRouter.RequestsPerMinute config = RequestsPerMinute cfg ∧
  HttpRouter.RateLimitBurst config = RateLimitBurst cfg ∧
  ∀ w, HttpRouter.Ready config w = true ↔ TypeSafeAPIKey cfg ≠ "" ∧ sql_Ping w = true.

(** The MCP handler on the same mux is made of a server with these services and limit. *)
Definition mcp_mounted (config : HttpRouter.RouterConfig (W:=St W)) (services : Mcp.Services)
  (maxRequestBytes : Z) : Prop :=
  ∃ server options, HttpRouter.MCPHandler config = Some (mcp_http_handler (server, options)) ∧
    Mcp.srv_Services server = services ∧ Mcp.MaxRequestBodyBytes options = maxRequestBytes.

Lemma buildRouter_Ok cfg rest services router : buildRouter (W:=W) cfg rest services = Ok router →
  Listener.server router = rest ∧ Listener.shuttingDown router = false ∧
  listener_as_configured cfg (Listener.config router) ∧
  mcp_mounted (Listener.config router) services (MaxRequestBytes cfg).
Proof.
  intros ((server & options) & Hh & [= <-])%bind_Ok. split; [done|]. split; [done|]. split.
  - repeat (split; [done|]). intros w. cbn. unfold readinessProbe.
    by rewrite andb_true_iff, negb_true_iff, bool_decide_eq_false.
  - unfold Mcp.Handler in Hh. apply bind_Ok in Hh as (server' & Hs & [= <- <-]).
    unfold Mcp.NewServer in Hs. apply bind_Ok in Hs as (tools & _ & [= <-]). by do 2 eexists.
Qed.

(** C35: What a validated configuration builds is the service the other properties are about:
    its policies are well-formed and found under their own identity; REST and MCP hold the
    very same evaluation and policy services; input is sealed, with the configured key,
    exactly when retention is on; and every ceiling is the configured one, none falling back
    to a default: the document, question, state, fact and metadata limits, the body limit of
    both transports (which no state limit exceeds), rate and burst, the idempotency
    retention, and the provider's timeout, concurrency, attempts and response bound.
    Readiness is exactly a key for the provider and a database that answers a ping. *)
Theorem built_deployment_sound cfg h h' deps :
  valid cfg → build (W:=W) cfg h = (h', Ok deps) →
  let router := dep_router deps in
  let s := Listener.s_evaluations (Listener.server router) in
  let policies := Listener.s_policies (Listener.server router) in
  service_ok s ∧ Evaluations.svc_policies s = policies ∧
  mcp_mounted (Listener.config router) (Mcp.MkServices s policies) (MaxRequestBytes cfg) ∧
  sealer_as_configured cfg (Evaluations.svc_sealer s) ∧
  limits_as_configured cfg (Evaluations.svc_config s) ∧
  catalogue_as_configured cfg policies ∧
  listener_as_configured cfg (Listener.config router) ∧
  0 < MaxStateBytes cfg <= MaxRequestBytes cfg ∧
  Listener.shuttingDown router = false ∧
  provider_as_configured cfg (dep_provider deps).
Proof.
  intros Hv. rewrite build_run.
  destruct (Loader.LoadDirWithMaxQuestions _ _ _) as [set|e] eqn:El; [|done].
  destruct (Open (DBConfig cfg) true h) as [h1 [d|e]]; [|done].
  destruct (buildRouterStack cfg set d) as [deps'|e] eqn:Es;
    [|intros Hc; unfold closeAfter in Hc; rewrite DB_bind_run in Hc; by destruct (Close d h1) as [? []]].
  intros [= -> ->].
  apply buildRouterStack_Ok in Es as (sealer & provider & router & Hs & Hp & Hr & ->).
  destruct (buildRouter_Ok _ _ _ _ Hr) as (Hrest & Hsh & Hl & Hm).
  destruct (buildProvider_valid cfg Hv) as (provider' & Hp' & Hpc).
  assert (provider' = provider) as -> by congruence.
  destruct Hv as [_ _ _ Hpos Hst Hq _ _ _ _ _]. unfold positive in Hpos.
  rewrite !Forall_cons_iff in Hpos. simpl in Hpos. cbv zeta. cbn [dep_router dep_provider].
  rewrite Hrest. split; [exact (loaded_service_ok _ _ _ _ El)|]. split; [done|]. split; [done|].
  split; [by apply buildSealer_Ok|]. split; [by repeat split|]. split.
  2:{ split; [exact Hl|]. split; [simpl in *; lia|]. by split. }
  unfold catalogue_as_configured, Loader.resolveMaxBytes, resolveMaxQuestions. cbn.
  rewrite !bool_decide_eq_false_2 by lia. split_and!; done.
Qed.

End build.

(** ** A deployment to build *)
Import ServiceFixtures LoaderTheorems.
#[export] Instance plain_schemas : SchemaDeriver := λ type, Ok type.
#[export] Instance plain_sdk : McpSdk (St unit) := {
  mcp_http_handler _ sc _ w := HttpRouter.MkOutcome w [] (HttpRouter.sc_headers sc) None;
  sql_Ping _ := true
}.

(** A driver that works, and one on which a call fails. *)
Definition working : DriverOracle := λ _ _, None.
Definition broken (bad : dbCall) : DriverOracle := λ _ c,
  if decide (c = bad) then Some (EForeign "driver: bad connection") else None.

Definition deployment (driver : string) (key : string) : Config :=
  MkConfig "127.0.0.1:8080" "127.0.0.1:9091" "secret" "/policies" false 1048576 524288 128 64
    262144 16 256 600 60 "" "ts-key" "" (10 * Second_) 1048576 32 3
    driver "/data/vibecheck.sqlite" 0 "localhost" 5432 "vibecheck" "pw" "vibecheck" true
    true key (720 * Hour_) (24 * Hour_) Hour_.

Definition data_key : string := "0123456789abcdef0123456789abcdef".

Lemma deployment_valid : valid (deployment "sqlite" data_key).
Proof. apply Validate_Ok. vm_compute. reflexivity. Qed.

Definition built (oracle : DriverOracle) (cfg : Config) : list dbCall * res (dependencies (W:=unit)) :=
  build (H4:=oracle) cfg [].

(** What is open after a start, and whether it started. *)
Definition left_open (oracle : DriverOracle) (cfg : Config) : nat * bool :=
  (connections (H:=oracle) (built oracle cfg).1, is_ok (built oracle cfg).2).

Example left_open_examples :
  left_open working (deployment "sqlite" data_key) = (1, true)%nat ∧
  left_open working (deployment "postgres" data_key) = (1, true)%nat ∧
  left_open working (deployment "sqlite" "too short") = (0, false)%nat ∧
  left_open working (deployment "mysql" data_key) = (0, false)%nat ∧
  left_open (broken (MigrateUp "postgres")) (deployment "postgres" data_key) = (0, false)%nat ∧
  left_open (broken (MigrateUp "sqlite")) (deployment "sqlite" data_key) = (1, false)%nat.
Proof. vm_compute. done. Qed.

Lemma built_Ok : ∃ h deps, built working (deployment "sqlite" data_key) = (h, Ok deps).
Proof.
  destruct (built working (deployment "sqlite" data_key)) as [h [deps|e]] eqn:E; [eauto|].
  assert (is_ok (built working (deployment "sqlite" data_key)).2 = true) as Hok
    by (vm_compute; reflexivity).
  by rewrite E in Hok.
Qed.

Lemma built_deployment_sound_witness : ∃ deps : dependencies (W:=unit),
  let s := Listener.s_evaluations (Listener.server (dep_router deps)) in
  service_ok s ∧ EvalConvert.cfg_MaxFacts (Evaluations.svc_config s) = 128 ∧
  HttpRouter.RequestsPerMinute (Listener.config (dep_router deps)) = 600 ∧
  mcp_mounted (Listener.config (dep_router deps))
    (Mcp.MkServices s (Listener.s_policies (Listener.server (dep_router deps)))) 1048576.
Proof.
  destruct built_Ok as (h & deps & E). exists deps.
  pose proof (built_deployment_sound (H4:=working) (deployment "sqlite" data_key) [] h deps
    deployment_valid E) as Hb.
  cbv zeta in Hb. destruct Hb as (Hok & _ & Hm & _ & Hlim & _ & Hl & _).
  destruct Hlim as (_ & _ & _ & _ & Hfacts & _). destruct Hl as (_ & _ & Hrate & _).
  exact (conj Hok (conj Hfacts (conj Hrate Hm))).
Defined.

Lemma build_releases_database_witness : ∃ h (deps : dependencies (W:=unit)),
  connections (H:=working) h = 1%nat ∧ connections (H:=working) (close (H4:=working) deps h).1 = 0%nat.
Proof.
  destruct built_Ok as (h & deps & E). exists h, deps.
  pose proof (build_releases_database (H4:=working) (deployment "sqlite" data_key) []) as Hb.
  unfold built in E. rewrite E in Hb. destruct Hb as (Hn & _ & Hc & _).
  split; [exact Hn|exact Hc].
Defined.

End WiringTheorems.
