(* ===== verification/ServerRun.v ===== *)
(** * Running the service

    [vibecheckserver.go] and [listeners.go]: [Run] after a successful build ([Wiring.build]
    is the step before), the goroutines it starts (retention and the two listeners), the
    stop, the drain and the release.  The goroutines interleave, so they are step
    relations; requests, ticks, a listener that breaks and the requests to stop are steps
    of the environment. *)

From S2P Require Import Prelude Store Config.
From stdpp Require Import options.
#[local] Open Scope Z_scope.

Module ServerRun.

(** [errors.Join] of two errors that may be nil. *)
Definition errors_Join (e1 e2 : option goerr) : option goerr :=
  match e1, e2 with
  | Some e1, Some e2 => Some (EJoin e1 e2)
  | Some e, None | None, Some e => Some e
  | None, None => None
  end.

(** ** The goroutines *)
Inductive retentionPhase : Set := AwaitingTick | Passing | Stopped.

(** Where [serve] is, and whether [Shutdown] was called on its server. *)
Inductive servePhase : Set :=
  | Listening
  | Sending (err : option goerr)      (** before the send on [errs] *)
  | Served.

Record listener : Set := MkListener { serving : servePhase; shut : bool }.

Record goroutines : Set := MkGoroutines {
  retention : retentionPhase;
  public : listener;
  metrics : listener;
  errs : list (option goerr);         (** the buffered channel *)
  active : nat                        (** requests in flight on the public listener *)
}.

Definition errsCapacity : nat := 2.

Record flags : Set := MkFlags {
  ctxDone : bool;
  stopRequested : bool;               (** [stopped] is closed *)
  retentionCancelled : bool;
  shuttingDown : bool;                (** readiness reports false *)
  graceOver : bool;                   (** the drain timer has fired *)
  dbOpen : bool
}.

Definition with_ctxDone f := MkFlags true (stopRequested f) (retentionCancelled f) (shuttingDown f)
  (graceOver f) (dbOpen f).
Definition with_stopRequested f := MkFlags (ctxDone f) true (retentionCancelled f) (shuttingDown f)
  (graceOver f) (dbOpen f).
Definition with_retentionCancelled f := MkFlags (ctxDone f) (stopRequested f) true (shuttingDown f)
  (graceOver f) (dbOpen f).
Definition with_shuttingDown f := MkFlags (ctxDone f) (stopRequested f) (retentionCancelled f) true
  (graceOver f) (dbOpen f).
Definition with_graceOver f := MkFlags (ctxDone f) (stopRequested f) (retentionCancelled f)
  (shuttingDown f) true (dbOpen f).
Definition with_dbClosed f := MkFlags (ctxDone f) (stopRequested f) (retentionCancelled f)
  (shuttingDown f) (graceOver f) false.

Definition with_retention r g := MkGoroutines r (public g) (metrics g) (errs g) (active g).
Definition with_public l e g := MkGoroutines (retention g) l (metrics g) e (active g).
Definition with_metrics l e g := MkGoroutines (retention g) (public g) l e (active g).
Definition with_errs e g := MkGoroutines (retention g) (public g) (metrics g) e (active g).
Definition with_active n g := MkGoroutines (retention g) (public g) (metrics g) (errs g) n.

(** [http.Server.Shutdown], its first half: the listener is closed. *)
Definition shut_down (l : listener) : listener := MkListener (serving l) true.

(** [serve]: [ErrServerClosed] is reported as nil. *)
Inductive serve_step : listener → list (option goerr) → listener → list (option goerr) → Prop :=
  | server_closed e :
      serve_step (MkListener Listening true) e (MkListener (Sending None) true) e
  | outcome_sent b err e :
      (length e < errsCapacity)%nat →
      serve_step (MkListener (Sending err) b) e (MkListener Served b) (e ++ [err]).

(** [runRetention]: the select, and the end of a pass. *)
Inductive retention_step (done : bool) : retentionPhase → retentionPhase → Prop :=
  | loop_stopped : done = true → retention_step done AwaitingTick Stopped
  | pass_complete : retention_step done Passing AwaitingTick.

(** ** [Run] *)
Inductive mainPhase : Set :=
  | Waiting                                        (** in [waitForStop] *)
  | StoppingRetention (runErr : option goerr)
  | Draining (runErr : option goerr)               (** at the head of [drain] *)
  | InGrace (runErr : option goerr)
  | ClosePublic (runErr : option goerr)
  | DrainPublic (runErr : option goerr)            (** inside [Shutdown] *)
  | CloseMetrics (runErr e1 : option goerr)
  | DrainMetrics (runErr e1 : option goerr)
  | Closing (runErr e1 e2 : option goerr)          (** the deferred [close] *)
  | Returned (err : option goerr).

(** [drainGrace] ends its wait on the timer or on the context. *)
Definition grace_ends (grace : duration) (f : flags) : bool :=
  (grace <=? 0) || graceOver f || ctxDone f.

Inductive main_step : mainPhase → flags → goroutines → mainPhase → flags → goroutines → Prop :=
  | context_cancelled f g :
      ctxDone f = true → main_step Waiting f g (StoppingRetention None) (with_retentionCancelled f) g
  | stop_requested f g :
      stopRequested f = true → main_step Waiting f g (StoppingRetention None) (with_retentionCancelled f) g
  | listener_failed err rest f g :
      errs g = err :: rest →
      main_step Waiting f g (StoppingRetention err) (with_retentionCancelled f) (with_errs rest g)
  | retention_joined r f g :
      retention g = Stopped → main_step (StoppingRetention r) f g (Draining r) f g
  | begin_shutdown r f g : main_step (Draining r) f g (InGrace r) (with_shuttingDown f) g
  | grace_over r f g :
      grace_ends Deployment.DefaultShutdownDrainGrace f = true →
      main_step (InGrace r) f g (ClosePublic r) f g
  | close_public r f g :
      main_step (ClosePublic r) f g (DrainPublic r) f (with_public (shut_down (public g)) (errs g) g)
  | public_drained r f g :
      active g = O → main_step (DrainPublic r) f g (CloseMetrics r None) f g
  | public_not_drained r e f g :
      (** the deadline, or an error of closing the listener *)
      main_step (DrainPublic r) f g (CloseMetrics r (Some e)) f g
  | close_metrics r e1 f g :
      main_step (CloseMetrics r e1) f g (DrainMetrics r e1) f (with_metrics (shut_down (metrics g)) (errs g) g)
  | metrics_drained r e1 f g : main_step (DrainMetrics r e1) f g (Closing r e1 None) f g
  | metrics_not_drained r e1 e f g :
      main_step (DrainMetrics r e1) f g (Closing r e1 (Some e)) f g
  | released r e1 e2 f g :
      main_step (Closing r e1 e2) f g (Returned (errors_Join r (errors_Join e1 e2))) (with_dbClosed f) g.

(** ** The whole *)
Record state : Set := MkState { main : mainPhase; fl : flags; go : goroutines }.

Definition retention_done (f : flags) : bool := retentionCancelled f || ctxDone f.

(** What the service does by itself; the drain timer is its own. *)
Inductive internal : state → state → Prop :=
  | step_main m f g m' f' g' :
      main_step m f g m' f' g' → internal (MkState m f g) (MkState m' f' g')
  | step_retention m f g r :
      retention_step (retention_done f) (retention g) r →
      internal (MkState m f g) (MkState m f (with_retention r g))
  | step_public m f g l e :
      serve_step (public g) (errs g) l e → internal (MkState m f g) (MkState m f (with_public l e g))
  | step_metrics m f g l e :
      serve_step (metrics g) (errs g) l e → internal (MkState m f g) (MkState m f (with_metrics l e g))
  | step_timer r f g :
      graceOver f = false → internal (MkState (InGrace r) f g) (MkState (InGrace r) (with_graceOver f) g).

Inductive environment : state → state → Prop :=
  | step_cancel m f g : environment (MkState m f g) (MkState m (with_ctxDone f) g)
  | step_stop m f g :
      (** [Stop] *)
      environment (MkState m f g) (MkState m (with_stopRequested f) g)
  | step_tick m f g :
      retention g = AwaitingTick → environment (MkState m f g) (MkState m f (with_retention Passing g))
  | step_public_breaks m f g b err :
      public g = MkListener Listening b →
      environment (MkState m f g)
        (MkState m f (with_public (MkListener (Sending (Some err)) b) (errs g) g))
  | step_metrics_breaks m f g b err :
      metrics g = MkListener Listening b →
      environment (MkState m f g)
        (MkState m f (with_metrics (MkListener (Sending (Some err)) b) (errs g) g))
  | step_request m f g :
      public g = MkListener Listening false →
      environment (MkState m f g) (MkState m f (with_active (S (active g)) g))
  | step_response m f g n :
      active g = S n → environment (MkState m f g) (MkState m f (with_active n g)).

Definition step (st st' : state) : Prop := internal st st' ∨ environment st st'.

Definition initial : state :=
  MkState Waiting (MkFlags false false false false false true)
    (MkGoroutines AwaitingTick (MkListener Listening false) (MkListener Listening false) [] O).

Definition reachable (st : state) : Prop := rtc step initial st.

End ServerRun.
