(* ===== verification/ServerTheorems.v ===== *)
(** * What stopping the service guarantees

    The order of the drain in every interleaving, and that it ends. *)

From S2P Require Import Prelude Store Config ServerRun.
From stdpp Require Import options.
#[local] Open Scope Z_scope.

Module ServerTheorems.
Import ServerRun.

(** ** Invariants *)

(** How far [Run] is. *)
Definition stage (m : mainPhase) : nat :=
  match m with
  | Waiting => 0 | StoppingRetention _ => 1 | Draining _ => 2 | InGrace _ => 3
  | ClosePublic _ => 4 | DrainPublic _ => 5 | CloseMetrics _ _ => 6 | DrainMetrics _ _ => 7
  | Closing _ _ _ => 8 | Returned _ => 9
  end.

Definition served (l : listener) : nat := match serving l with Served => 1 | _ => 0 end.

(** The outcome of the public drain, once there is one. *)
Definition public_outcome (m : mainPhase) : option (option goerr) :=
  match m with
  | CloseMetrics _ e1 | DrainMetrics _ e1 | Closing _ e1 _ => Some e1
  | _ => None
  end.

(** What a listener that nobody closed reports is an error. *)
Definition no_clean_end (l : listener) : Prop := serving l ≠ Sending None.

Definition at_least (n : nat) (m : mainPhase) : bool := Nat.leb n (stage m).

Record inv (st : state) : Prop := {
  i_errs : (length (errs (go st)) <= served (public (go st)) + served (metrics (go st)))%nat;
  i_public : shut (public (go st)) = at_least 5 (main st);
  i_metrics : shut (metrics (go st)) = at_least 7 (main st);
  i_off : shuttingDown (fl st) = at_least 3 (main st);
  i_cancelled : retentionCancelled (fl st) = at_least 1 (main st);
  i_retention : if at_least 2 (main st) then retention (go st) = Stopped else True;
  i_grace : if at_least 4 (main st)
    then grace_ends Deployment.DefaultShutdownDrainGrace (fl st) = true else True;
  i_database : dbOpen (fl st) = negb (at_least 9 (main st));
  i_drained : public_outcome (main st) = Some None → active (go st) = O;
  i_returned : main st = Returned None → active (go st) = O;
  i_clean : if at_least 5 (main st) then True
    else no_clean_end (public (go st)) ∧ no_clean_end (metrics (go st)) ∧ None ∉ errs (go st)
}.

Lemma server_initial_inv : inv initial.
Proof. split; simpl; try done; try lia. repeat split; try done. by intros []%elem_of_nil. Qed.

Lemma errors_Join_None e1 e2 : errors_Join e1 e2 = None → e1 = None ∧ e2 = None.
Proof. by destruct e1, e2. Qed.

(** The goal is a hypothesis, or about a field the step does not touch. *)
Ltac keep := repeat match goal with H : _ ∧ _ |- _ => destruct H end;
  try done; try lia; try congruence; try (repeat split; done).

Lemma main_inv m f g m' f' g' :
  main_step m f g m' f' g' → inv (MkState m f g) → inv (MkState m' f' g').
Proof.
  intros Hs [He Hp Hm Ho Hc Hr Hg Hd Hz Hret Hcl]. simpl in *.
  destruct Hs as [| |err rest f g E| | | | | | | | | |r e1 e2 f g]; split; simpl in *; keep.
  - rewrite E in He. simpl in He. lia.
  - repeat split; [done..|]. rewrite E in *. set_solver.
  - intros [= [_ [-> _]%errors_Join_None]%errors_Join_None]. auto.
Qed.

Lemma serve_shut l e l' e' : serve_step l e l' e' → shut l' = shut l.
Proof. by destruct 1. Qed.

Lemma serve_clean l e l' e' : serve_step l e l' e' → shut l = false → no_clean_end l → None ∉ e →
  no_clean_end l' ∧ None ∉ e'.
Proof.
  unfold no_clean_end. destruct 1; simpl; [done|]. intros _ Hn He. split; [done|].
  rewrite elem_of_app, list_elem_of_singleton. naive_solver.
Qed.

Lemma serve_length l e l' e' : serve_step l e l' e' →
  (length e' + served l = length e + served l')%nat.
Proof. destruct 1; unfold served; simpl; rewrite ?length_app; simpl; lia. Qed.

Lemma outcome_stage m r : public_outcome m = Some r ∨ m = Returned r → at_least 5 m = true.
Proof. by destruct m; intros [?|?]. Qed.

Lemma at_least_le n k m : (n <= k)%nat → at_least k m = true → at_least n m = true.
Proof. unfold at_least. rewrite !Nat.leb_le. lia. Qed.

Lemma server_internal_inv st st' : internal st st' → inv st → inv st'.
Proof.
  intros [m f g m' f' g' Hs|m f g r Hs|m f g l e Hs|m f g l e Hs|r f g Hf] Hi; [by eapply main_inv|..];
    destruct Hi as [He Hp Hm Ho Hc Hr Hg Hd Hz Hret Hcl]; simpl in *.
  - split; simpl; try done. destruct (at_least 2 m) eqn:E; [|done].
    rewrite Hr in Hs. by inversion Hs.
  - pose proof (serve_length _ _ _ _ Hs). pose proof (serve_shut _ _ _ _ Hs).
    split; simpl; try done; [lia|congruence|]. destruct (at_least 5 m) eqn:E; [done|].
    destruct Hcl as (Hc1 & Hc2 & Hc3). destruct (serve_clean _ _ _ _ Hs Hp Hc1 Hc3). done.
  - pose proof (serve_length _ _ _ _ Hs). pose proof (serve_shut _ _ _ _ Hs).
    split; simpl; try done; [lia|congruence|]. destruct (at_least 5 m) eqn:E; [done|].
    assert (at_least 7 m = false) as E7.
    { apply not_true_is_false. intros E7%(at_least_le 5); [congruence|lia]. }
    destruct Hcl as (Hc1 & Hc2 & Hc3). rewrite E7 in Hm.
    destruct (serve_clean _ _ _ _ Hs Hm Hc2 Hc3). done.
  - by split.
Qed.

Lemma server_environment_inv st st' : environment st st' → inv st → inv st'.
Proof.
  intros Hs [He Hp Hm Ho Hc Hr Hg Hd Hz Hret Hcl].
  destruct Hs as [m f g|m f g|m f g E|m f g b err E|m f g b err E|m f g E|m f g n E]; simpl in *;
    split; simpl; try done.
  - destruct (at_least 4 m); [|done]. unfold grace_ends in *. simpl. by rewrite orb_true_r.
  - destruct (at_least 2 m); [congruence|done].
  - rewrite E in He. done.
  - by rewrite E in Hp.
  - destruct (at_least 5 m); [done|]. destruct Hcl as (_ & ? & ?). by repeat split.
  - rewrite E in He. done.
  - by rewrite E in Hm.
  - destruct (at_least 5 m); [done|]. destruct Hcl as (? & _ & ?). by repeat split.
  - intros Hz'. rewrite (outcome_stage m None) in Hp by auto. by rewrite E in Hp.
  - intros Hz'. rewrite (outcome_stage m None) in Hp by auto. by rewrite E in Hp.
  - intros Hz'%Hz. congruence.
  - intros Hz'%Hret. congruence.
Qed.

Lemma server_reachable_inv st : reachable st → inv st.
Proof.
  unfold reachable. apply (rtc_ind_r inv initial); [apply server_initial_inv|].
  intros st1 st2 _ [Hs|Hs] Hi; [by eapply server_internal_inv|by eapply server_environment_inv].
Qed.

(** The step at which [Shutdown] of the public listener returns: without an error only when
    nothing is in flight, and with one when its time ran out. *)
Definition public_returned (st0 st1 : state) : Prop :=
  ∃ r e, main st0 = DrainPublic r ∧ main st1 = CloseMetrics r e ∧
    (e = None → active (go st0) = O).

Lemma public_return_passed st :
  reachable st → at_least 6 (main st) = true →
  ∃ st0 st1, reachable st0 ∧ step st0 st1 ∧ public_returned st0 st1 ∧ rtc step st1 st.
Proof.
  unfold reachable. revert st. apply (rtc_ind_r (λ st, at_least 6 (main st) = true → _) initial); [done|].
  intros st st' Hr Hs IH E. destruct (at_least 6 (main st)) eqn:E6.
  - destruct IH as (st0 & st1 & H0 & H1 & H2 & H3); [done|]. exists st0, st1.
    repeat (split; [done|]). by eapply rtc_r.
  - exists st, st'. split; [done|]. split; [done|]. split; [|apply rtc_refl].
    clear Hr IH. revert E E6.
    destruct Hs as [[m f g m' f' g' Hs|m f g r Hs|m f g l e Hs|m f g l e Hs|r f g Hf]|Hs]; simpl;
      [|congruence..|destruct Hs; simpl; congruence].
    unfold public_returned. destruct Hs; simpl; try done; by do 2 eexists.
Qed.

(** C37: The drain has one order in every interleaving: no listener is closed before readiness
    reports false, the retention loop has stopped and the wait for balancers has ended, on
    its timer or because the context is cancelled (a cancelled context waits no grace at
    all). The metrics listener is closed strictly later than the public one: on the way there
    the public [Shutdown] returned, with no request in flight or with an error, while the
    metrics listener was still open. The database is released last, only when [Run] returns,
    and a nil return means that no request was in flight then. A listener never blocks on
    reporting its outcome, and what [waitForStop] is woken with is always a failure. *)
Theorem drain_order st :
  reachable st →
  (shut (public (go st)) = true → shuttingDown (fl st) = true ∧ retention (go st) = Stopped ∧
     (graceOver (fl st) = true ∨ ctxDone (fl st) = true)) ∧
  (shut (metrics (go st)) = true → ∃ st0 st1,
     reachable st0 ∧ shut (public (go st0)) = true ∧ shut (metrics (go st0)) = false ∧
     step st0 st1 ∧ public_returned st0 st1 ∧ shut (metrics (go st1)) = false ∧ rtc step st1 st) ∧
  (dbOpen (fl st) = false ↔ ∃ err, main st = Returned err) ∧
  (dbOpen (fl st) = false → shut (public (go st)) = true ∧ shut (metrics (go st)) = true) ∧
  (main st = Returned None → active (go st) = O) ∧
  (∀ l err, l = public (go st) ∨ l = metrics (go st) → serving l = Sending err →
     (length (errs (go st)) < errsCapacity)%nat) ∧
  (∀ err rest, main st = Waiting → errs (go st) = err :: rest → is_Some err).
Proof.
  intros Hreach. pose proof (public_return_passed st Hreach) as Hpass.
  destruct (server_reachable_inv st Hreach) as [He Hp Hm Ho Hc Hr Hg Hd _ Hret Hcl].
  assert (∀ n k, (n <= k)%nat → at_least k (main st) = true → at_least n (main st) = true) as Hle
    by (intros n k; apply at_least_le).
  rewrite Hp, Hm, Ho, Hd. split; [|split; [|split; [|split; [|split; [done|split]]]]].
  - intros E. rewrite (Hle 2 5)%nat in Hr by (lia || done).
    rewrite (Hle 4 5)%nat in Hg by (lia || done). split; [by apply (Hle 3 5)%nat; [lia|]|].
    split; [done|]. unfold grace_ends in Hg. rewrite orb_true_iff in Hg. simpl in Hg. tauto.
  - intros E. destruct Hpass as (st0 & st1 & H0 & Hs & Hret' & H1); [by apply (Hle 6 7)%nat; [lia|]|].
    exists st0, st1. destruct (server_reachable_inv st0 H0) as [_ Hp0 Hm0 _ _ _ _ _ _ _ _].
    assert (reachable st1) as [_ _ Hm1 _ _ _ _ _ _ _ _]%server_reachable_inv by by eapply rtc_r.
    pose proof Hret' as (r & e & E0 & E1 & _). rewrite Hp0, Hm0, Hm1, E0, E1. done.
  - rewrite negb_false_iff. destruct (main st); simpl; split; try done; eauto; by intros [].
  - rewrite negb_false_iff. intros E. split; by apply (Hle _ 9)%nat; [lia|].
  - intros l err Hl E. unfold errsCapacity, served in *.
    destruct Hl as [-> | ->]; rewrite E in He; destruct (serving _); lia.
  - intros err rest Ew E. rewrite Ew in Hcl. simpl in Hcl. destruct Hcl as (_ & _ & Hn).
    destruct err; [by eexists|]. destruct Hn. rewrite E. by left.
Qed.

(** ** The work left *)
Definition serveWork (l : listener) : nat :=
  match serving l with Listening => 2 | Sending _ => 1 | Served => 0 end.

Definition retentionWork (p : retentionPhase) : nat :=
  match p with Passing => 2 | AwaitingTick => 1 | Stopped => 0 end.

Definition work (st : state) : nat :=
  (9 - stage (main st)) + serveWork (public (go st)) + serveWork (metrics (go st)) +
  retentionWork (retention (go st)) + (if graceOver (fl st) then 0 else 1).

(** Somebody asked the service to stop, or it is stopping. *)
Definition stopping (st : state) : Prop :=
  main st ≠ Waiting ∨ ctxDone (fl st) = true ∨ stopRequested (fl st) = true ∨ errs (go st) ≠ [].

Lemma serve_work l e l' e' : serve_step l e l' e' → (serveWork l' < serveWork l)%nat.
Proof. destruct 1; unfold serveWork; simpl; lia. Qed.

Lemma server_internal_work st st' : internal st st' → (work st' < work st)%nat.
Proof.
  unfold work. destruct 1 as [m f g m' f' g' Hs|m f g r Hs|m f g l e Hs|m f g l e Hs|r f g Hf]; simpl.
  - destruct Hs; simpl; unfold serveWork; simpl; lia.
  - destruct Hs; simpl; lia.
  - apply serve_work in Hs. lia.
  - apply serve_work in Hs. lia.
  - rewrite Hf. lia.
Qed.

Lemma main_stopping m f g m' f' g' : main_step m f g m' f' g' → m' ≠ Waiting.
Proof. by destruct 1. Qed.

Lemma serve_errs l e l' e' : serve_step l e l' e' → e ≠ [] → e' ≠ [].
Proof. destruct 1; [done|]. intros _. by destruct e. Qed.

Lemma internal_stopping st st' : internal st st' → stopping st → stopping st'.
Proof.
  unfold stopping. destruct 1 as [m f g m' f' g' Hs|m f g r Hs|m f g l e Hs|m f g l e Hs|r f g Hf]; simpl.
  - left. by eapply main_stopping.
  - done.
  - pose proof (serve_errs _ _ _ _ Hs). tauto.
  - pose proof (serve_errs _ _ _ _ Hs). tauto.
  - by left.
Qed.

(** While [Run] has not returned something can move. *)
Lemma stop_progress st :
  inv st → stopping st → (∃ err, main st = Returned err) ∨ ∃ st', internal st st'.
Proof.
  destruct st as [m f g]. intros [_ _ _ _ Hc _ _ _ _ _ _] Hs. simpl in *.
  destruct m as [|r|r|r|r|r|r e1|r e1|r e1 e2|err]; [..|left; by eexists]; right.
  - destruct Hs as [?|[?|[?|?]]]; [done| | |]; simpl in *.
    + eexists. by apply step_main, context_cancelled.
    + eexists. by apply step_main, stop_requested.
    + destruct (errs g) as [|err rest] eqn:E; [done|]. eexists. by eapply step_main, listener_failed.
  - destruct (retention g) eqn:E.
    + eexists. apply step_retention. rewrite E. apply loop_stopped. unfold retention_done. by rewrite Hc.
    + eexists. apply step_retention. rewrite E. apply pass_complete.
    + eexists. by apply step_main, retention_joined.
  - eexists. apply step_main, begin_shutdown.
  - destruct (graceOver f) eqn:E; [|eexists; by apply step_timer].
    eexists. apply step_main, grace_over. unfold grace_ends. by rewrite E, orb_true_r.
  - eexists. apply step_main, close_public.
  - eexists. apply step_main, (public_not_drained r (EIs ContextDeadlineExceeded)).
  - eexists. apply step_main, close_metrics.
  - eexists. apply step_main, metrics_drained.
  - eexists. apply step_main, released.
Qed.

(** C38: Stopping ends: once a stop was requested, the context cancelled or a listener failed,
    every execution of the service's own steps, however its goroutines are scheduled, has at
    most [work] of them (at most sixteen) and can only stop once [Run] has returned, and such
    an execution exists. *)
Theorem server_stops st :
  reachable st → stopping st →
  (work st <= 16)%nat ∧
  (∀ n st', nsteps internal n st st' →
     (n <= work st)%nat ∧ ((∃ err, main st' = Returned err) ∨ ∃ st'', internal st' st'')) ∧
  ∃ st' err, rtc internal st st' ∧ main st' = Returned err.
Proof.
  intros Hi%server_reachable_inv Hs. split; [|split].
  - unfold work, serveWork, retentionWork. destruct (serving _), (serving _), (ServerRun.retention _),
      (graceOver _); lia.
  - intros n st' Hn. enough (n + work st' <= work st ∧ inv st' ∧ stopping st')%nat as (? & Hi' & Hs').
    { split; [lia|]. by apply stop_progress. }
    induction Hn as [st|n st st1 st2 H1 _ IH]; [done|].
    pose proof (server_internal_work _ _ H1). pose proof (server_internal_inv _ _ H1 Hi).
    pose proof (internal_stopping _ _ H1 Hs). destruct IH as (? & ? & ?); [done..|].
    split; [lia|done].
  - remember (work st) as w eqn:Ew. revert st Ew Hi Hs. induction (lt_wf w) as [w _ IH].
    intros st -> Hi Hs. destruct (stop_progress st Hi Hs) as [[err E]|[st1 H1]].
    + exists st, err. split; [apply rtc_refl|done].
    + destruct (IH (work st1)) with (st := st1) as (st' & err & Hr & E); try done.
      * by apply server_internal_work.
      * by eapply server_internal_inv.
      * by eapply internal_stopping.
      * exists st', err. split; [by eapply rtc_l|done].
Qed.

(** ** A stop by cancellation *)
Definition closed_public : state :=
  MkState (DrainPublic None) (MkFlags true false true true false true)
    (MkGoroutines Stopped (MkListener Listening true) (MkListener Listening false) [] O).

Definition returned : state :=
  MkState (Returned None) (MkFlags true false true true false false)
    (MkGoroutines Stopped (MkListener Served true) (MkListener Listening true) [None] O).

(** Cancelling the context, which is how the process is stopped, skips the grace: the public
    listener is closed right after readiness turned false, the timer still running. *)
Lemma closed_public_reachable : reachable closed_public ∧ graceOver (fl closed_public) = false.
Proof.
  split; [|done]. unfold reachable.
  eapply rtc_l; [right; apply step_cancel|]. simpl.
  eapply rtc_l; [left; by apply step_main, context_cancelled|].
  eapply rtc_l; [left; apply step_retention; by apply loop_stopped|].
  eapply rtc_l; [left; by apply step_main, retention_joined|].
  eapply rtc_l; [left; by apply step_main, begin_shutdown|].
  eapply rtc_l; [left; by apply step_main, grace_over|].
  eapply rtc_l; [left; by apply step_main, close_public|]. apply rtc_refl.
Qed.

Lemma returned_reachable : reachable returned ∧ rtc internal closed_public returned.
Proof.
  enough (rtc internal closed_public returned) as H.
  { split; [|done]. eapply rtc_trans; [apply closed_public_reachable|].
    eapply rtc_subrel; [|exact H]. intros x y Hs. by left. }
  eapply rtc_l; [eapply step_public; apply server_closed|].
  eapply rtc_l; [eapply step_public, outcome_sent; simpl; unfold errsCapacity; lia|].
  eapply rtc_l; [by apply step_main, public_drained|].
  eapply rtc_l; [apply step_main, close_metrics|].
  eapply rtc_l; [apply step_main, metrics_drained|].
  eapply rtc_l; [apply step_main, released|]. apply rtc_refl.
Qed.

Lemma drain_order_witness :
  shuttingDown (fl closed_public) = true ∧ active (go returned) = O.
Proof.
  split.
  - exact (proj1 (proj1 (drain_order closed_public (proj1 closed_public_reachable)) eq_refl)).
  - exact (proj1 (proj2 (proj2 (proj2 (proj2 (drain_order returned (proj1 returned_reachable)))))) eq_refl).
Defined.

Lemma server_stops_witness : ∃ st' err, rtc internal closed_public st' ∧ main st' = Returned err.
Proof.
  assert (stopping closed_public) as Hs by (left; discriminate).
  exact (proj2 (proj2 (server_stops closed_public (proj1 closed_public_reachable) Hs))).
Defined.

End ServerTheorems.
