(* ===== verification/AppRun.v ===== *)
(** * The application

    [internal/app/app.go]: the goroutines of [App.Run], the runner's [App.Stop] and the
    body of [stopOnce] that both run.  The service manager is behind its own theorems: here
    it is a goroutine that returns. *)

From S2P Require Import Prelude Store.
From stdpp Require Import options.
#[local] Open Scope Z_scope.

Module App.

(** The goroutine around [ServiceManager.Run]. *)
Inductive smPhase : Set :=
  | SmIdle
  | SmRunning
  | SmSending (err : goerr)         (** returned an error, before the send *)
  | SmExited.

(** The body of [stopOnce.Do], whoever runs it. *)
Inductive oncePhase : Set :=
  | OnceFresh
  | OnceStopping                    (** in [serviceManager.Stop] *)
  | OnceWaiting                     (** in [wg.Wait] *)
  | OnceHooks
  | OnceDone.

Inductive runPhase : Set :=
  | Entered
  | PreRun                          (** [cancel] is set; the hooks run *)
  | Selecting
  | StopCancel (r : option goerr)   (** the deferred [Stop], at its [cancel] *)
  | StopOnce (r : option goerr)
  | StopWait (r : option goerr)     (** inside [stopOnce.Do] *)
  | WaitGroup (r : option goerr)    (** the deferred [wg.Wait] *)
  | CloseChannel (r : option goerr)
  | Returned (r : option goerr).

(** A [Stop] by the runner. *)
Inductive stopPhase : Set := StopIdle | StopCalled | StopAtOnce | StopInside | StopReturned.

Record state : Set := MkState {
  run : runPhase;
  stopper : stopPhase;
  once : oncePhase;
  sm : smPhase;
  cancelSet : bool;
  ctxDone : bool;                   (** the run context *)
  errCh : option goerr;
  errClosed : bool;
  panicked : bool;                  (** a send on a closed channel *)
  preRun : nat;                     (** hooks run so far *)
  postStop : nat
}.

Definition with_run r s := MkState r (stopper s) (once s) (sm s) (cancelSet s) (ctxDone s) (errCh s)
  (errClosed s) (panicked s) (preRun s) (postStop s).
Definition with_stopper p s := MkState (run s) p (once s) (sm s) (cancelSet s) (ctxDone s) (errCh s)
  (errClosed s) (panicked s) (preRun s) (postStop s).
Definition with_once o s := MkState (run s) (stopper s) o (sm s) (cancelSet s) (ctxDone s) (errCh s)
  (errClosed s) (panicked s) (preRun s) (postStop s).
Definition with_sm p s := MkState (run s) (stopper s) (once s) p (cancelSet s) (ctxDone s) (errCh s)
  (errClosed s) (panicked s) (preRun s) (postStop s).
Definition with_cancelSet s := MkState (run s) (stopper s) (once s) (sm s) true (ctxDone s) (errCh s)
  (errClosed s) (panicked s) (preRun s) (postStop s).
Definition with_ctx b s := MkState (run s) (stopper s) (once s) (sm s) (cancelSet s) b (errCh s)
  (errClosed s) (panicked s) (preRun s) (postStop s).
Definition with_errCh e s := MkState (run s) (stopper s) (once s) (sm s) (cancelSet s) (ctxDone s) e
  (errClosed s) (panicked s) (preRun s) (postStop s).
Definition with_errClosed s := MkState (run s) (stopper s) (once s) (sm s) (cancelSet s) (ctxDone s)
  (errCh s) true (panicked s) (preRun s) (postStop s).
Definition with_panicked s := MkState (run s) (stopper s) (once s) (sm s) (cancelSet s) (ctxDone s)
  (errCh s) (errClosed s) true (preRun s) (postStop s).
Definition with_preRun n s := MkState (run s) (stopper s) (once s) (sm s) (cancelSet s) (ctxDone s)
  (errCh s) (errClosed s) (panicked s) n (postStop s).
Definition with_postStop n s := MkState (run s) (stopper s) (once s) (sm s) (cancelSet s) (ctxDone s)
  (errCh s) (errClosed s) (panicked s) (preRun s) n.

(** [if a.cancel != nil { a.cancel() }] *)
Definition cancel (s : state) : state := with_ctx (if cancelSet s then true else ctxDone s) s.

(** Entering [stopOnce.Do]: the first caller starts the body. *)
Definition enter_once (s : state) : state :=
  with_once (match once s with OnceFresh => OnceStopping | o => o end) s.

(** The goroutine of [wg.Go] counts as finished before it is started and after it ended. *)
Definition group_empty (s : state) : bool :=
  match sm s with SmIdle | SmExited => true | _ => false end.

(** The hooks registered, pre-run and post-stop. *)
Section hooks.
Context (preRunHooks postStopHooks : nat).

Inductive run_step : state → state → Prop :=
  | set_cancel s : run s = Entered → run_step s (with_run PreRun (with_cancelSet s))
  | pre_run_hook s :
      run s = PreRun → (preRun s < preRunHooks)%nat → run_step s (with_preRun (S (preRun s)) s)
  | launch s :
      run s = PreRun → preRun s = preRunHooks → run_step s (with_run Selecting (with_sm SmRunning s))
  | context_done s : run s = Selecting → ctxDone s = true → run_step s (with_run (StopCancel None) s)
  | run_error s err :
      run s = Selecting → errCh s = Some err →
      run_step s (with_run (StopCancel (Some err)) (with_errCh None s))
  | stop_cancel s r : run s = StopCancel r → run_step s (with_run (StopOnce r) (cancel s))
  | stop_enter s r : run s = StopOnce r → run_step s (with_run (StopWait r) (enter_once s))
  | stop_returned s r :
      run s = StopWait r → once s = OnceDone → run_step s (with_run (WaitGroup r) s)
  | group_waited s r :
      run s = WaitGroup r → group_empty s = true → run_step s (with_run (CloseChannel r) s)
  | channel_closed s r :
      (** with the deferred [cancel] *)
      run s = CloseChannel r → run_step s (with_run (Returned r) (with_ctx true (with_errClosed s))).

Inductive sm_step : state → state → Prop :=
  | manager_stopped s : sm s = SmRunning → ctxDone s = true → sm_step s (with_sm SmExited s)
  | error_sent s err :
      sm s = SmSending err → errClosed s = false → errCh s = None →
      sm_step s (with_sm SmExited (with_errCh (Some err) s))
  | sent_on_closed s err :
      sm s = SmSending err → errClosed s = true → sm_step s (with_sm SmExited (with_panicked s)).

Inductive once_step : state → state → Prop :=
  | managers_stopped s : once s = OnceStopping → once_step s (with_once OnceWaiting s)
  | group_done s : once s = OnceWaiting → group_empty s = true → once_step s (with_once OnceHooks s)
  | post_stop_hook s :
      once s = OnceHooks → (postStop s < postStopHooks)%nat →
      once_step s (with_postStop (S (postStop s)) s)
  | once_done s : once s = OnceHooks → postStop s = postStopHooks → once_step s (with_once OnceDone s).

(** [Stop] of the runner. *)
Inductive stopper_step : state → state → Prop :=
  | ext_cancel s : stopper s = StopCalled → stopper_step s (with_stopper StopAtOnce (cancel s))
  | ext_enter s : stopper s = StopAtOnce → stopper_step s (with_stopper StopInside (enter_once s))
  | ext_returned s :
      stopper s = StopInside → once s = OnceDone → stopper_step s (with_stopper StopReturned s).

Definition internal (s s' : state) : Prop :=
  run_step s s' ∨ sm_step s s' ∨ once_step s s' ∨ stopper_step s s'.

Inductive environment : state → state → Prop :=
  | parent_cancelled s : cancelSet s = true → environment s (with_ctx true s)
  | manager_failed s err : sm s = SmRunning → environment s (with_sm (SmSending err) s)
  | manager_finished s : sm s = SmRunning → environment s (with_sm SmExited s)
  | stop_called s : stopper s = StopIdle → environment s (with_stopper StopCalled s).

Definition step (s s' : state) : Prop := internal s s' ∨ environment s s'.
End hooks.

Definition initial : state :=
  MkState Entered StopIdle OnceFresh SmIdle false false None false false 0 0.

Definition reachable (pre post : nat) (s : state) : Prop := rtc (step pre post) initial s.

End App.
