(* ===== verification/RunnerRun.v ===== *)
(** * The runner

    [pkg/runner/runner.go]: a signal, a cancelled context or the end of the application turned
    into a bounded shutdown.  The runnable's own code decides when [Run] and [Stop] return. *)

From S2P Require Import Prelude Store.
From stdpp Require Import options.
#[local] Open Scope Z_scope.

Module Runner.

Definition ErrShutdownTimeout : goerr := EForeign "shutdown timeout".

(** The goroutines of [run]; the runnable's own code decides when [Run] and [Stop] return
    and with what. *)
Inductive appPhase : Set :=
  | AppRunning
  | AppReturned (err : option goerr)      (** before the send *)
  | AppExited.                            (** sent, closed and counted down *)

Inductive stopPhase : Set :=
  | StopNotCalled
  | StopRunning
  | StopFailed (err : goerr)              (** before the send *)
  | StopExited.

Inductive mainPhase : Set :=
  | Waiting                               (** in [waitForShutdown] *)
  | Graceful (shutdownErr : option goerr) (** in the select of [gracefulShutdown] *)
  | Exited (err : option goerr).

Record state : Set := MkState {
  main : mainPhase;
  app : appPhase;
  stop : stopPhase;
  errCh : option (option goerr);
  stopErrCh : option goerr;
  signalled : bool;
  ctxDone : bool;
  expired : bool                          (** the shutdown timeout *)
}.

(** [handleShutdownTimeout]: only the deadline can end the detached context early. *)
Definition handleShutdownTimeout (shutdownErr : option goerr) (ctxErr : option goerr)
  : option goerr :=
  match ctxErr with
  | None => shutdownErr
  | Some err =>
      if errors_Is err ContextDeadlineExceeded then Some ErrShutdownTimeout
      else match shutdownErr with Some e => Some e | None => Some err end
  end.

Definition joined (e1 : option goerr) (e2 : goerr) : goerr :=
  match e1 with Some e1 => EJoin e1 e2 | None => e2 end.

Definition group_done (s : state) : bool :=
  match app s, stop s with AppExited, StopExited => true | _, _ => false end.

Inductive main_step : state → state → Prop :=
  | context_done app stop e se sg ex :
      main_step (MkState Waiting app stop e se sg true ex)
        (MkState (Graceful None) app StopRunning e se sg true ex)
  | received_signal app stop e se ctx ex :
      main_step (MkState Waiting app stop e se true ctx ex)
        (MkState (Graceful None) app StopRunning e se false ctx ex)
  | app_ended app stop err se sg ctx ex :
      main_step (MkState Waiting app stop (Some err) se sg ctx ex)
        (MkState (Graceful err) app StopRunning None se sg ctx ex)
  | stop_error r app stop e err sg ctx ex :
      main_step (MkState (Graceful r) app stop e (Some err) sg ctx ex)
        (MkState (Exited (Some (joined r err))) app stop e None sg ctx ex)
  | timed_out r app stop e se sg ctx :
      main_step (MkState (Graceful r) app stop e se sg ctx true)
        (MkState (Exited (handleShutdownTimeout r (Some (EIs ContextDeadlineExceeded)))) app stop e se
           sg ctx true)
  | completed r s :
      main s = Graceful r → group_done s = true →
      main_step s (MkState (Exited r) (app s) (stop s) (errCh s) (stopErrCh s) (signalled s)
                     (ctxDone s) (expired s)).

Inductive goroutine_step : state → state → Prop :=
  | result_sent m err stop se sg ctx ex :
      goroutine_step (MkState m (AppReturned err) stop None se sg ctx ex)
        (MkState m AppExited stop (Some err) se sg ctx ex)
  | stop_error_sent m app err e sg ctx ex :
      goroutine_step (MkState m app (StopFailed err) e None sg ctx ex)
        (MkState m app StopExited e (Some err) sg ctx ex).

Definition internal (s s' : state) : Prop := main_step s s' ∨ goroutine_step s s'.

Inductive environment : state → state → Prop :=
  | run_returns m err stop e se sg ctx ex :
      environment (MkState m AppRunning stop e se sg ctx ex)
        (MkState m (AppReturned err) stop e se sg ctx ex)
  | stop_returns m app e se sg ctx ex :
      environment (MkState m app StopRunning e se sg ctx ex) (MkState m app StopExited e se sg ctx ex)
  | stop_fails m app err e se sg ctx ex :
      environment (MkState m app StopRunning e se sg ctx ex)
        (MkState m app (StopFailed err) e se sg ctx ex)
  | signal_arrives m app stop e se sg ctx ex :
      environment (MkState m app stop e se sg ctx ex) (MkState m app stop e se true ctx ex)
  | parent_cancelled m app stop e se sg ctx ex :
      environment (MkState m app stop e se sg ctx ex) (MkState m app stop e se sg true ex)
  | timer_fires r app stop e se sg ctx ex :
      environment (MkState (Graceful r) app stop e se sg ctx ex)
        (MkState (Graceful r) app stop e se sg ctx true).

Definition step (s s' : state) : Prop := internal s s' ∨ environment s s'.
Definition initial : state := MkState Waiting AppRunning StopNotCalled None None false false false.
Definition reachable (s : state) : Prop := rtc step initial s.

End Runner.
