(* ===== verification/AppTheorems.v ===== *)
(** * What the application and its runner guarantee *)

From S2P Require Import Prelude Store AppRun RunnerRun.
From stdpp Require Import options.
#[local] Open Scope Z_scope.

Module AppTheorems.

(** ** [App] *)
Section app.
Import App.
Context (pre post : nat).

(** Where [Run] is, from its entry. *)
Definition stage (r : runPhase) : nat :=
  match r with
  | Entered => 0 | PreRun => 1 | Selecting => 2 | StopCancel _ => 3 | StopOnce _ => 4
  | StopWait _ => 5 | WaitGroup _ => 6 | CloseChannel _ => 7 | Returned _ => 8
  end.

Definition at_least (n : nat) (r : runPhase) : bool := Nat.leb n (stage r).

Definition entered (o : oncePhase) : bool := match o with OnceFresh => false | _ => true end.
Definition inside (p : stopPhase) : bool := match p with StopInside | StopReturned => true | _ => false end.

Record inv (s : state) : Prop := {
  i_idle : sm s = SmIdle ↔ at_least 2 (run s) = false;
  i_pre : (preRun s <= pre)%nat;
  i_ran : if at_least 2 (run s) then preRun s = pre else True;
  i_exited : if at_least 7 (run s) then sm s = SmExited else True;
  i_closed : errClosed s = at_least 8 (run s);
  i_sent : is_Some (errCh s) → sm s = SmExited;
  i_panicked : panicked s = false;
  i_post : match once s with
           | OnceDone => postStop s = post
           | OnceHooks => (postStop s <= post)%nat
           | _ => postStop s = O
           end;
  i_once : if at_least 5 (run s) then entered (once s) = true else True;
  i_done : if at_least 6 (run s) then once s = OnceDone else True;
  i_inside : if inside (stopper s) then entered (once s) = true else True;
  i_cancelSet : cancelSet s = at_least 1 (run s);
  i_ctx : if at_least 4 (run s) then ctxDone s = true else True
}.

Lemma app_initial_inv : inv initial.
Proof. split; simpl; try done; try lia; by intros []. Qed.

Ltac keep := simpl in *; try done; try lia; try congruence; try tauto.

(** Every field of the next state, one state at a time. *)
Ltac fields s :=
  destruct s as [run0 stopper0 once0 sm0 set0 ctx0 ch0 cl0 pan0 pre0 post0]; simpl in *; subst;
  split; keep.

Lemma run_inv s s' : run_step pre s s' → inv s → inv s'.
Proof.
  intros Hs [Hi Hp Hran He Hc Hsent Hpan Hpost Ho Hd Hin Hset Hctx].
  destruct Hs as [s E|s E Hlt|s E Epre|s E Ec|s err E Ee|s r E|s r E|s r E Eo|s r E Eg|s r E];
    fields s.
  - intros Hch. destruct Hi as [_ Hi]. rewrite Hi in Hsent; [by apply Hsent in Hch|done].
  - by destruct once0.
  - by destruct once0.
  - destruct (inside stopper0); [|done]. by destruct once0.
  - destruct sm0; try done. by destruct Hi as [Hi _]; discriminate Hi.
Qed.

Lemma sm_inv s s' : sm_step s s' → inv s → inv s'.
Proof.
  intros Hs [Hi Hp Hran He Hc Hsent Hpan Hpost Ho Hd Hin Hset Hctx].
  destruct Hs as [s E Ec|s err E Ec Ech|s err E Ec]; fields s;
    try (destruct (at_least 2 run0) eqn:E2; [done|by destruct Hi as [_ Hi]; discriminate Hi]).
  1-3: by destruct (at_least 7 run0).
  destruct run0; simpl in *; done.
Qed.

Lemma once_inv s s' : once_step post s s' → inv s → inv s'.
Proof.
  intros Hs [Hi Hp Hran He Hc Hsent Hpan Hpost Ho Hd Hin Hset Hctx].
  destruct Hs as [s E|s E Eg|s E Hlt|s E Ep]; fields s; by destruct (at_least 6 run0).
Qed.

Lemma stopper_inv s s' : stopper_step s s' → inv s → inv s'.
Proof.
  intros Hs [Hi Hp Hran He Hc Hsent Hpan Hpost Ho Hd Hin Hset Hctx].
  destruct Hs as [s E|s E|s E Eo]; fields s.
  - destruct (at_least 4 run0), (at_least 1 run0); done.
  - by destruct once0.
  - destruct (at_least 5 run0); [|done]. by destruct once0.
  - destruct (at_least 6 run0); [|done]. by destruct once0.
  - by destruct once0.
Qed.

Lemma app_environment_inv s s' : environment s s' → inv s → inv s'.
Proof.
  intros Hs [Hi Hp Hran He Hc Hsent Hpan Hpost Ho Hd Hin Hset Hctx].
  destruct Hs as [s E|s err E|s E|s E]; fields s;
    try (destruct (at_least 2 run0) eqn:E2; [done|by destruct Hi as [_ Hi]; discriminate Hi]);
    try (by destruct (at_least 4 run0)); try (by destruct (at_least 7 run0)).
  intros H%Hsent. done.
Qed.

Lemma app_internal_inv s s' : internal pre post s s' → inv s → inv s'.
Proof.
  intros [?|[?|[?|?]]]; [by apply run_inv|by apply sm_inv|by apply once_inv|by apply stopper_inv].
Qed.

Lemma app_reachable_inv s : reachable pre post s → inv s.
Proof.
  unfold reachable. apply (rtc_ind_r inv initial); [apply app_initial_inv|].
  intros s1 s2 _ [Hs|Hs] Hi; [by eapply app_internal_inv|by eapply app_environment_inv].
Qed.

(** ** Stopping in order *)

(** The services are launched, and the post-stop hooks wait for them to end. *)
Definition hooks_after (s : state) : Prop :=
  at_least 2 (run s) = true ∧ sm s ≠ SmIdle ∧ match once s with OnceHooks | OnceDone => sm s = SmExited | _ => True end.

Lemma hooks_after_step s s' : step pre post s s' → hooks_after s → hooks_after s'.
Proof.
  unfold hooks_after, step, internal.
  intros [[H|[H|[H|H]]]|H] (Hr & Hi & Ho); destruct H; destruct s as [? ? once0 sm0 ? ? ? ? ? ? ?];
    unfold group_empty in *; simpl in *; subst; try done;
    (split; [done|]); (split; [done|]); try done; try (by destruct once0); by destruct sm0.
Qed.

(** C39: Nothing of the application outlives its [Run], and nothing is sent into a closed
    channel: whatever the interleaving of [Run], the two stops and the manager's goroutine,
    no send panics, the services start after every pre-run hook, a returned [Run] has seen
    the manager's goroutine end and each post-stop hook run exactly once, and when no [Stop]
    came in before the services were launched no post-stop hook runs before they ended. *)
Theorem app_run_orderly s0 s :
  reachable pre post s0 → rtc (step pre post) s0 s →
  panicked s = false ∧
  (errClosed s = true → sm s = SmExited) ∧
  (sm s ≠ SmIdle → preRun s = pre) ∧
  (postStop s <= post)%nat ∧
  (∀ r, run s = Returned r → sm s = SmExited ∧ ctxDone s = true ∧ postStop s = post) ∧
  (run s0 = Selecting → once s0 = OnceFresh → (0 < postStop s)%nat → sm s = SmExited).
Proof.
  intros H0 Hs. assert (reachable pre post s) as [Hi Hp Hran He Hc _ Hpan Hpost _ Hd _ _ Hctx]%app_reachable_inv
    by by eapply rtc_trans.
  split; [done|]. split; [|split; [|split; [|split]]].
  - rewrite Hc. intros E. by destruct (run s).
  - intros Hsm. destruct (at_least 2 (run s)); [done|]. by destruct Hsm, Hi as [_ ->].
  - destruct (once s); lia.
  - intros r E. rewrite E in He, Hd, Hctx. simpl in *. by rewrite Hd in Hpost.
  - intros Er Eo Hpos.
    assert (hooks_after s0) as Ha.
    { apply app_reachable_inv in H0 as [Hi0 _ _ _ _ _ _ _ _ _ _ _ _]. split; [by rewrite Er|]. split; [|by rewrite Eo].
      rewrite Hi0, Er. done. }
    assert (hooks_after s) as (_ & _ & Ha').
    { clear -Hs Ha. induction Hs as [|s0 s1 s Hs _ IH]; [done|]. by eapply IH, hooks_after_step. }
    destruct (once s); try done; lia.
Qed.

(** ** The work left *)
Definition smWork (p : smPhase) : nat :=
  match p with SmIdle => 3 | SmRunning => 2 | SmSending _ => 1 | SmExited => 0 end.
Definition onceWork (o : oncePhase) (hooksRun : nat) : nat :=
  match o with
  | OnceFresh => 4 + post | OnceStopping => 3 + post | OnceWaiting => 2 + post
  | OnceHooks => 1 + (post - hooksRun) | OnceDone => 0
  end.
Definition stopperWork (p : stopPhase) : nat :=
  match p with StopIdle => 4 | StopCalled => 3 | StopAtOnce => 2 | StopInside => 1 | StopReturned => 0 end.
Definition work (s : state) : nat :=
  (8 - stage (run s)) + (pre - preRun s) + smWork (sm s) + onceWork (once s) (postStop s) +
  stopperWork (stopper s).

Lemma app_internal_work s s' : inv s → internal pre post s s' → (work s' < work s)%nat.
Proof.
  intros [Hi Hp _ _ _ _ _ Hpost _ _ _ _ _] Hs. unfold work.
  destruct Hs as [H|[H|[H|H]]]; destruct H; destruct s as [? ? once0 sm0 ? ? ? ? ? ? ?];
    simpl in *; subst; try (assert (sm0 = SmIdle) as -> by by apply Hi); simpl in *;
    try lia; destruct once0; simpl in *; lia.
Qed.

Lemma internal_ctx s s' : internal pre post s s' → ctxDone s = true → ctxDone s' = true.
Proof. by intros [H|[H|[H|H]]]; destruct H; simpl; try done; intros ->; destruct (cancelSet s). Qed.

(** The manager's goroutine gets to its end. *)
Lemma group_progress s :
  inv s → ctxDone s = true → at_least 8 (run s) = false →
  group_empty s = true ∨ ∃ s', internal pre post s s'.
Proof.
  intros [_ _ _ _ Hc Hsent _ _ _ _ _ _ _] Hctx Hr. unfold group_empty.
  destruct (sm s) eqn:E; [by left| | |by left]; right.
  - eexists. right. left. by apply manager_stopped.
  - eexists. right. left. apply (error_sent s err); [done|by rewrite Hc|].
    destruct (errCh s); [|done]. by discriminate Hsent.
Qed.

(** The body of [stopOnce.Do] gets to its end. *)
Lemma once_progress s :
  inv s → ctxDone s = true → at_least 8 (run s) = false → entered (once s) = true →
  once s = OnceDone ∨ ∃ s', internal pre post s s'.
Proof.
  intros Hi Hctx Hr Ho. pose proof (i_post _ Hi) as Hpost.
  destruct (once s) eqn:E; [done| | | |by left]; right.
  - eexists. right. right. left. by apply managers_stopped.
  - destruct (group_progress s Hi Hctx Hr) as [Hg|?]; [|done].
    eexists. right. right. left. by apply group_done.
  - destruct (decide (postStop s = post)).
    + eexists. right. right. left. by apply once_done.
    + eexists. right. right. left. apply post_stop_hook; [done|lia].
Qed.

Lemma app_progress s :
  inv s → ctxDone s = true → (∃ r, run s = Returned r) ∨ ∃ s', internal pre post s s'.
Proof.
  intros Hi Hctx. pose proof (i_pre _ Hi). pose proof (i_once _ Hi) as Ho.
  pose proof (group_progress s Hi Hctx) as Hg. pose proof (once_progress s Hi Hctx) as Hon.
  destruct (run s) as [| | |r|r|r|r|r|r] eqn:E; simpl in *; [..|left; by eexists]; right.
  - eexists. left. by apply set_cancel.
  - destruct (decide (preRun s = pre)).
    + eexists. left. by apply launch.
    + eexists. left. apply pre_run_hook; [done|lia].
  - eexists. left. by apply context_done.
  - eexists. left. by eapply stop_cancel.
  - eexists. left. by eapply stop_enter.
  - destruct (Hon eq_refl Ho) as [Hd|?]; [|done]. eexists. left. by eapply stop_returned.
  - destruct (Hg eq_refl) as [Hd|?]; [|done]. eexists. left. by eapply group_waited.
  - eexists. left. by eapply channel_closed.
Qed.

(** A cancelled application ends: once the run context is done, every execution of its own
    steps, the manager's end included, however the goroutines are scheduled, is bounded by
    [work] and can only stop when [Run] has returned, and such an execution exists. *)
Theorem app_stops s :
  reachable pre post s → ctxDone s = true →
  (∀ n s', nsteps (internal pre post) n s s' →
     (n <= work s)%nat ∧ ((∃ r, run s' = Returned r) ∨ ∃ s'', internal pre post s' s'')) ∧
  ∃ s' r, rtc (internal pre post) s s' ∧ run s' = Returned r.
Proof.
  intros Hi%app_reachable_inv Hctx. split.
  - intros n s' Hn. enough (n + work s' <= work s ∧ inv s' ∧ ctxDone s' = true)%nat as (? & Hi' & Hc').
    { split; [lia|]. by apply app_progress. }
    induction Hn as [s|n s s1 s2 H1 _ IH]; [done|].
    pose proof (app_internal_work _ _ Hi H1). pose proof (app_internal_inv _ _ H1 Hi).
    pose proof (internal_ctx _ _ H1 Hctx). destruct IH as (? & ? & ?); [done..|]. split; [lia|done].
  - remember (work s) as w eqn:Ew. revert s Ew Hi Hctx. induction (lt_wf w) as [w _ IH].
    intros s -> Hi Hctx. destruct (app_progress s Hi Hctx) as [[r E]|[s1 H1]].
    + exists s, r. split; [apply rtc_refl|done].
    + destruct (IH (work s1)) with (s := s1) as (s' & r & Hr & E); try done.
      * by apply app_internal_work.
      * by eapply app_internal_inv.
      * by eapply internal_ctx.
      * exists s', r. split; [by eapply rtc_l|done].
Qed.
End app.

(** ** The runner *)
Section runner.
Import Runner.

Record runner_inv (s : state) : Prop := {
  r_waiting : main s = Waiting → stop s = StopNotCalled ∧ stopErrCh s = None;
  r_sent : is_Some (errCh s) → app s = AppExited;
  r_failed : ∀ e, main s = Graceful (Some e) → app s = AppExited;
  r_clean : main s = Exited None → app s = AppExited ∧ stop s = StopExited
}.

Lemma runner_step_inv s s' : step s s' → runner_inv s → runner_inv s'.
Proof.
  intros Hs [Hw Hsent Hf Hc]. destruct Hs as [[H|H]|H]; destruct H; simpl in *; split; simpl; try done;
    try (by intros []); try (intros; by eauto); try (intros Hm; by destruct (Hw Hm));
    try (intros Hm; by destruct (Hc Hm)).
  - intros _. unfold group_done in *. by destruct (app s), (stop s).
  - intros Hs. by specialize (Hsent Hs).
  - intros e' Hm. by specialize (Hf e' Hm).
Qed.

Lemma runner_reachable_inv s : reachable s → runner_inv s.
Proof.
  unfold reachable. apply (rtc_ind_r runner_inv initial); [by split; [| |done|]; try by intros []|].
  intros s1 s2 _ Hs Hi. by eapply runner_step_inv.
Qed.

(** Somebody wants the process to end, or the application has. *)
Definition triggered (s : state) : Prop :=
  signalled s = true ∨ ctxDone s = true ∨ (∃ err, app s = AppReturned err) ∨ is_Some (errCh s) ∨
  main s ≠ Waiting.

Definition runner_work (s : state) : nat :=
  match main s with Waiting => 2 | Graceful _ => 1 | Exited _ => 0 end +
  match app s with AppExited => 0 | _ => 1 end +
  match stop s with StopExited => 0 | _ => 1 end.

Lemma runner_internal_work s s' : runner_inv s → internal s s' → (runner_work s' < runner_work s)%nat.
Proof.
  intros [Hw _ _ _] [H|H]; destruct H; unfold runner_work; simpl in *; try lia;
    try (destruct (Hw eq_refl) as [-> _]; lia).
  rewrite H. lia.
Qed.

Lemma runner_triggered s s' : internal s s' → triggered s → triggered s'.
Proof.
  unfold triggered. intros [H|H]; destruct H; simpl; try (intros _; by do 4 right).
  - intros _. do 3 right. left. by eexists.
  - naive_solver.
Qed.

Lemma runner_progress s :
  triggered s → (∃ r, main s = Exited r) ∨ (∃ s', internal s s') ∨
                (∃ r, main s = Graceful r ∧ expired s = false).
Proof.
  destruct s as [m a st e se sg ctx ex]. unfold triggered. simpl.
  destruct m as [|r|r]; [|destruct ex; [|eauto]|eauto]; intros H; right; left.
  - destruct e as [err|]; [eexists; left; constructor|].
    destruct H as [-> |[-> |[[err ->]|[[? [=]]|?]]]]; [eexists; left; constructor..| |done].
    eexists. right. constructor.
  - eexists. left. constructor.
Qed.

(** C40: The runner always gets the process out, and a clean exit means it: once a signal, a
    cancelled context or the end of the application triggers the shutdown, the runner takes at
    most four more steps of its own and rests only after it has exited, or while the shutdown
    timeout it gave the application is still running; it exits with nil only when both [Run]
    and [Stop] have returned, and an error of [Run] that started the shutdown is never turned
    into a clean exit. *)
Theorem runner_exits s :
  reachable s →
  (main s = Exited None → app s = AppExited ∧ stop s = StopExited) ∧
  (∀ e s', main s = Graceful (Some e) → rtc step s s' → main s' ≠ Exited None) ∧
  (triggered s → ∀ n s', nsteps internal n s s' → (n <= 4)%nat ∧
     ((∃ r, main s' = Exited r) ∨ (∃ s'', internal s' s'') ∨
      (∃ r, main s' = Graceful r ∧ expired s' = false))).
Proof.
  intros Hi%runner_reachable_inv. split; [apply (r_clean _ Hi)|split].
  - intros e s' Hm Hs.
    enough ((∃ e, main s' = Graceful (Some e)) ∨ ∃ e, main s' = Exited (Some e)) as [[? ->]|[? ->]]
      by done.
    assert ((∃ e, main s = Graceful (Some e)) ∨ ∃ e, main s = Exited (Some e)) as H0 by eauto.
    clear Hm Hi e. induction Hs as [|s s1 s2 Hs _ IH]; [done|]. apply IH. clear IH.
    destruct Hs as [[H|H]|H]; destruct H; simpl in *; try done; try naive_solver.
    rewrite H in H0. destruct H0 as [[e [= ->]]|[e [=]]]. right. by eexists.
  - intros Ht n s' Hn.
    enough (n + runner_work s' <= runner_work s ∧ triggered s')%nat as [Hle Ht'].
    { split; [|by apply runner_progress]. assert (runner_work s <= 4)%nat; [|lia].
      unfold runner_work. destruct (main s), (app s), (stop s); lia. }
    induction Hn as [s|n s s1 s2 H1 _ IH]; [done|].
    pose proof (runner_internal_work _ _ Hi H1). destruct IH as [? ?]; [|by eapply runner_triggered|].
    + eapply runner_step_inv; [by left|done].
    + split; [lia|done].
Qed.

End runner.
(** ** Runs of the application *)
Module AppRuns.
Import App.

(** One hook of each kind; the services are up and nobody has stopped anything. *)
Definition up : state :=
  MkState Selecting StopIdle OnceFresh SmRunning true false None false false 1 0.

(** The manager failed and [Run] has returned its error. *)
Definition boom : goerr := EForeign "boom".
Definition down : state :=
  MkState (Returned (Some boom)) StopIdle OnceDone SmExited true true None true false 1 1.

(** A [Stop] that came in before [Run] had set its cancel function. *)
Definition stuck : state :=
  MkState Selecting StopReturned OnceDone SmRunning true false None false false 1 1.

Ltac goes := eapply rtc_l; [left|].
Ltac main_goes c := goes; [left; eapply c; reflexivity || (simpl; lia)|]; simpl.
Ltac once_goes c := goes; [right; right; left; eapply c; reflexivity || (simpl; lia)|]; simpl.
Ltac ext_goes c := goes; [right; right; right; eapply c; reflexivity|]; simpl.

Lemma up_reachable : reachable 1 1 up.
Proof. main_goes set_cancel. main_goes pre_run_hook. main_goes launch. apply rtc_refl. Qed.

Lemma up_down : rtc (step 1 1) up down.
Proof.
  eapply rtc_l; [right; by apply (manager_failed up boom)|]. simpl.
  goes; [right; left; by eapply error_sent|]. simpl.
  main_goes run_error. main_goes stop_cancel. main_goes stop_enter.
  once_goes managers_stopped. once_goes group_done. once_goes post_stop_hook. once_goes once_done.
  main_goes stop_returned. main_goes group_waited. main_goes channel_closed. apply rtc_refl.
Qed.

Lemma down_reachable : reachable 1 1 down.
Proof. eapply rtc_trans; [apply up_reachable|apply up_down]. Qed.

(** The early [Stop] runs its hooks before the services start and cancels nothing; the
    services stay up although the only [Stop] has returned. *)
Lemma early_stop_is_lost :
  reachable 1 1 stuck ∧ ¬ ∃ s', internal 1 1 stuck s'.
Proof.
  split.
  - eapply rtc_l; [right; by apply stop_called|]. simpl.
    ext_goes ext_cancel. ext_goes ext_enter.
    once_goes managers_stopped. once_goes group_done. once_goes post_stop_hook. once_goes once_done.
    ext_goes ext_returned.
    main_goes set_cancel. main_goes pre_run_hook. main_goes launch. apply rtc_refl.
  - intros [s' [H|[H|[H|H]]]]; inversion H; done.
Qed.

Lemma app_run_orderly_witness :
  panicked down = false ∧ sm down = SmExited ∧ postStop down = 1%nat.
Proof.
  pose proof (app_run_orderly 1 1 up down up_reachable up_down) as (Hp & _ & _ & _ & Hr & _).
  destruct (Hr (Some boom) eq_refl) as (Hs & _ & Hh).
  split; [exact Hp|split; [exact Hs|exact Hh]].
Defined.

Lemma app_stops_witness :
  ctxDone down = true ∧ ∃ s' r, rtc (internal 1 1) down s' ∧ run s' = Returned r.
Proof.
  split; [reflexivity|].
  exact (proj2 (app_stops 1 1 down down_reachable eq_refl)).
Defined.
End AppRuns.

Module RunnerRuns.
Import Runner.

Definition boom : goerr := EForeign "boom".

(** A signal, then a clean [Run], then a [Stop] that failed. *)
Definition lost : state := MkState (Exited None) AppExited StopExited (Some None) (Some boom) false false false.

(** The select may see both channels ready and take the wrong one: the error of [Stop] is lost. *)
Lemma stop_error_can_be_lost : reachable lost.
Proof.
  unfold reachable, initial.
  eapply rtc_l; [right; constructor 4|]. eapply rtc_l; [left; left; constructor 2|].
  eapply rtc_l; [right; apply (run_returns _ None)|]. eapply rtc_l; [left; right; constructor 1|].
  eapply rtc_l; [right; apply (stop_fails _ _ boom)|]. eapply rtc_l; [left; right; constructor 2|].
  eapply rtc_l; [left; left; by eapply completed|]. apply rtc_refl.
Qed.

Definition waiting : state := MkState (Graceful None) AppRunning StopRunning None None false false false.

Lemma waiting_reachable : reachable waiting.
Proof.
  unfold reachable, initial.
  eapply rtc_l; [right; constructor 4|]. eapply rtc_l; [left; left; constructor 2|]. apply rtc_refl.
Qed.

Lemma runner_exits_witness :
  (app lost = AppExited ∧ stop lost = StopExited) ∧
  ∃ r, main waiting = Graceful r ∧ expired waiting = false.
Proof.
  split.
  - exact (proj1 (runner_exits lost stop_error_can_be_lost) eq_refl).
  - assert (triggered waiting) as Ht by (do 4 right; discriminate).
    destruct (proj2 (proj2 (runner_exits waiting waiting_reachable)) Ht 0%nat waiting
      (nsteps_O _ _)) as [_ _].
    exists None. split; reflexivity.
Defined.
End RunnerRuns.

End AppTheorems.
